(** * The dependency optimizer of the dev server

    A shallow embedding of [packages/vite/src/node/optimizer/optimizer.ts]
    and the properties of its control loop.

    The optimizer is a closure over a handful of mutable variables; it runs
    on a single event loop.  The embedding therefore consists of

    - an object store for the two kinds of JavaScript objects the code
      shares and mutates ([OptimizedDepInfo] and
      [DepOptimizationMetadata]),
    - a record [St] holding the closure variables of [initDepsOptimizer],
    - a state-and-exception monad [M] in which every function of the file
      is written, and
    - the suspension points of the asynchronous [runOptimizer], made
      explicit as a [Frame] that is resumed when the awaited promise
      settles. *)

From stdpp Require Import gmap strings list.

Open Scope string_scope.
Open Scope nat_scope.
Open Scope list_scope.

(** ** JavaScript objects used as dictionaries

    [Record<string, T>] on a plain object.  A dictionary is the list of
    its own properties in the order in which JavaScript enumerates them:
    the keys that are array indices first, in ascending order, then the
    other keys in the order of their creation.  A write to an existing key
    keeps its position.

    An index read [o[k]] finds the own property [k] or, when there is
    none, the member [k] of [Object.prototype]: one of the functions that
    every plain object inherits (or the accessor [__proto__]).  Such a
    member is truthy and is taken to have none of the properties of an
    [OptimizedDepInfo]; it is not enumerated. *)

Module Obj.

Definition t (V : Type) := list (string * V).

(** The own property [k]: what [o[k]] is for a key taken from the
    enumeration of [o] itself. *)
Fixpoint get {V} (o : t V) (k : string) : option V :=
  match o with
  | [] => None
  | (k', v) :: o' => if decide (k' = k) then Some v else get o' k
  end.

Definition has {V} (o : t V) (k : string) : bool :=
  match get o k with Some _ => true | None => false end.

(** The property names of [Object.prototype]. *)
Definition prototype : list string :=
  ["constructor"; "__defineGetter__"; "__defineSetter__"; "hasOwnProperty";
   "__lookupGetter__"; "__lookupSetter__"; "isPrototypeOf";
   "propertyIsEnumerable"; "toString"; "valueOf"; "__proto__";
   "toLocaleString"].

Definition inherited (k : string) : bool := bool_decide (k ∈ prototype).

(** What an index read finds. *)
Inductive member (V : Type) :=
| Own (v : V)
| Inherited
| Undefined.
Arguments Own {V} v.
Arguments Inherited {V}.
Arguments Undefined {V}.

(** [o[k]] for any key. *)
Definition index {V} (o : t V) (k : string) : member V :=
  match get o k with
  | Some v => Own v
  | None => if inherited k then Inherited else Undefined
  end.

(** Array indices: the canonical decimal numerals below [2^32 - 1]. *)
Definition digit (c : Ascii.ascii) : option N :=
  let n := Ascii.N_of_ascii c in
  if ((48 <=? n) && (n <=? 57))%N then Some (n - 48)%N else None.

Fixpoint numeral (k : string) (acc : N) : option N :=
  match k with
  | EmptyString => Some acc
  | String c k' =>
      match digit c with
      | Some d => numeral k' (10 * acc + d)%N
      | None => None
      end
  end.

Definition arrayIndex (k : string) : option N :=
  match k with
  | EmptyString => None
  | String c k' =>
      if bool_decide (digit c = Some 0%N) && negb (String.eqb k' "") then None
      else
        match numeral k 0 with
        | Some n => if (n <? 4294967295)%N then Some n else None
        | None => None
        end
  end.

(** Is a new key, with array index [n] if it is one, enumerated before an
    existing key with array index [n']? *)
Definition before (n n' : option N) : bool :=
  match n, n' with
  | Some i, Some j => (i <? j)%N
  | Some _, None => true
  | None, _ => false
  end.

(** A property that [o] does not have yet takes its place in the
    enumeration. *)
Fixpoint add {V} (o : t V) (k : string) (v : V) : t V :=
  match o with
  | [] => [(k, v)]
  | (k', v') :: o' =>
      if before (arrayIndex k) (arrayIndex k') then (k, v) :: (k', v') :: o'
      else (k', v') :: add o' k v
  end.

Fixpoint replace {V} (o : t V) (k : string) (v : V) : t V :=
  match o with
  | [] => []
  | (k', v') :: o' =>
      if decide (k' = k) then (k, v) :: o' else (k', v') :: replace o' k v
  end.

(** [o[k] = v] *)
Definition set {V} (o : t V) (k : string) (v : V) : t V :=
  if has o k then replace o k v else add o k v.

(** [Object.keys(o)], also the enumeration order of [for (k in o)]. *)
Definition keys {V} (o : t V) : list string := o.*1.

(** [Object.values(o)]. *)
Definition values {V} (o : t V) : list V := o.*2.

End Obj.

(** ** Data model *)

Definition loc := nat.
Definition promise := nat.
Definition timer := nat.

(** The [done] callback handed to [delayDepsOptimizerUntil] is owned by the
    server; the optimizer only calls it. *)
Definition doneFn := nat.

(** What a truthy index read of a sub-map hands to the caller of
    [registerMissingImport]: an [OptimizedDepInfo] of the store or, for a
    key that is not an own property, the member of [Object.prototype] of
    that name. *)
Inductive Ref :=
| Entry (l : loc)
| Proto (name : string).

Module DepInfo.

(** [OptimizedDepInfo].  Optional properties are [option]s; [exportsData]
    is an opaque promise, named by the path it was extracted from. *)
Record t := mk {
  id : string;
  file : string;
  src : option string;
  needsInterop : option bool;
  browserHash : option string;
  fileHash : option string;
  processing : option promise;
  exportsData : option string
}.

Definition set_browserHash (v : option string) (i : t) : t :=
  mk (id i) (file i) (src i) (needsInterop i) v (fileHash i) (processing i)
    (exportsData i).

Definition set_processing (v : option promise) (i : t) : t :=
  mk (id i) (file i) (src i) (needsInterop i) (browserHash i) (fileHash i) v
    (exportsData i).

(** The write-back of [commitProcessing]: four assignments on the
    discovered object. *)
Definition commit_from (optimized discovered : t) : t :=
  mk (id discovered) (file discovered) (src discovered)
    (needsInterop optimized) (browserHash optimized) (fileHash optimized)
    None (exportsData discovered).

End DepInfo.

#[global] Instance DepInfo_inhabited : Inhabited DepInfo.t :=
  populate (DepInfo.mk "" "" None None None None None None).

#[global] Instance DepInfo_eq_dec : EqDecision DepInfo.t.
Proof. solve_decision. Defined.

Module Meta.

(** [DepOptimizationMetadata]: the three sub-maps hold references to
    [OptimizedDepInfo] objects. *)
Record t := mk {
  hash : string;
  browserHash : string;
  optimized : Obj.t loc;
  chunks : Obj.t loc;
  discovered : Obj.t loc
}.

Definition set_browserHash (v : string) (m : t) : t :=
  mk (hash m) v (optimized m) (chunks m) (discovered m).
Definition set_optimized (v : Obj.t loc) (m : t) : t :=
  mk (hash m) (browserHash m) v (chunks m) (discovered m).
Definition set_chunks (v : Obj.t loc) (m : t) : t :=
  mk (hash m) (browserHash m) (optimized m) v (discovered m).
Definition set_discovered (v : Obj.t loc) (m : t) : t :=
  mk (hash m) (browserHash m) (optimized m) (chunks m) v.

End Meta.

#[global] Instance Meta_inhabited : Inhabited Meta.t :=
  populate (Meta.mk "" "" [] [] []).

(** A metadata object as a collaborator hands it over: a tree of fresh
    objects that nothing else refers to yet. *)
Record MetaVal := mkMetaVal {
  v_hash : string;
  v_browserHash : string;
  v_optimized : Obj.t DepInfo.t;
  v_chunks : Obj.t DepInfo.t;
  v_discovered : Obj.t DepInfo.t
}.

Inductive Kind := Optimized | Discovered | Chunks.

(** The callbacks the file passes to [setTimeout]. *)
Inductive Callback :=
| CbScan (scanPhaseProcessing : promise) (* the scan phase, lines 154-190 *)
| CbDebounce                   (* debouncedProcessing, lines 510-515 *)
| CbLogNewDeps                 (* lines 336-339 *)
| CbEnsureFirstRun             (* lines 540-544 *)
| CbAfterLoad (next_id : string). (* afterLoad, lines 577-586 *)

(** The suspended activation of [runOptimizer] (or of the scan phase that
    precedes the first one), with the locals that are live across the
    [await]. *)
Inductive Frame :=
| AwaitScan (metadata : loc) (scanPhaseProcessing : promise)
| AwaitBundler (isRerun : bool) (metadata : loc)
| AwaitCommit (isRerun : bool) (metadata newData : loc)
    (needsInteropMismatch : list string) (needsReload : bool).

(** What the optimizer does to its collaborators. *)
Inductive Effect :=
| LoggerInfoNewDeps (deps : list string)
| LoggerInfoReloading
| LoggerWarnMixed (deps : list string)
| LoggerErrorUpdating
| LoggerErrorScanning
| LoggerErrorInternal
| LoggerErrorSsrMissing (id : string)
| Debug (msg : string)
| DiscoverProjectDependencies
| RunOptimizeDeps (newDeps : Obj.t DepInfo.t)
| ResultCommit
| ResultCancel
| InvalidateAll
| WsSendFullReload
| CallDone (id : string) (done : doneFn)
| PreTransformOptimizeDepsEntries
| RunMainOptimizer.

Inductive Exn :=
| TypeError      (* property read on [undefined] *)
| Rejected       (* [addOptimizedDepInfo] refused the entry *)
| External.      (* an awaited collaborator promise rejected *)

Record St := mkSt {
  infos : list DepInfo.t;
  metas : list Meta.t;
  handle : option timer;
  ssrServerDepsMetadata : option loc;
  _metadata : loc;
  scanProcessing : option promise;
  newDepsDiscovered : bool;
  newDepsToLog : list string;
  newDepsToLogHandle : option timer;
  depOptimizationProcessing : promise;
  depOptimizationProcessingQueue : list promise;
  enqueuedRerun : bool;
  currentlyProcessing : bool;
  optimizeDepsEntriesVisited : bool;
  firstRunCalled : bool;
  registeredIds : list (string * doneFn);
  seenIds : gset string;
  workersSources : gset string;
  waitingOn : option string;
  firstRunEnsured : bool;
  resolved : gset promise;
  nextPromise : promise;
  timers : list (timer * (nat * Callback));
  nextTimer : timer;
  running : option Frame;
  io : list Effect
}.

Definition set_infos (v : list DepInfo.t) (s : St) : St :=
  mkSt v (metas s) (handle s) (ssrServerDepsMetadata s) (_metadata s)
    (scanProcessing s) (newDepsDiscovered s) (newDepsToLog s)
    (newDepsToLogHandle s) (depOptimizationProcessing s)
    (depOptimizationProcessingQueue s) (enqueuedRerun s)
    (currentlyProcessing s) (optimizeDepsEntriesVisited s) (firstRunCalled s)
    (registeredIds s) (seenIds s) (workersSources s) (waitingOn s)
    (firstRunEnsured s) (resolved s) (nextPromise s) (timers s) (nextTimer s)
    (running s) (io s).
Definition set_metas (v : list Meta.t) (s : St) : St :=
  mkSt (infos s) v (handle s) (ssrServerDepsMetadata s) (_metadata s)
    (scanProcessing s) (newDepsDiscovered s) (newDepsToLog s)
    (newDepsToLogHandle s) (depOptimizationProcessing s)
    (depOptimizationProcessingQueue s) (enqueuedRerun s)
    (currentlyProcessing s) (optimizeDepsEntriesVisited s) (firstRunCalled s)
    (registeredIds s) (seenIds s) (workersSources s) (waitingOn s)
    (firstRunEnsured s) (resolved s) (nextPromise s) (timers s) (nextTimer s)
    (running s) (io s).
Definition set_handle (v : option timer) (s : St) : St :=
  mkSt (infos s) (metas s) v (ssrServerDepsMetadata s) (_metadata s)
    (scanProcessing s) (newDepsDiscovered s) (newDepsToLog s)
    (newDepsToLogHandle s) (depOptimizationProcessing s)
    (depOptimizationProcessingQueue s) (enqueuedRerun s)
    (currentlyProcessing s) (optimizeDepsEntriesVisited s) (firstRunCalled s)
    (registeredIds s) (seenIds s) (workersSources s) (waitingOn s)
    (firstRunEnsured s) (resolved s) (nextPromise s) (timers s) (nextTimer s)
    (running s) (io s).
Definition set_ssrServerDepsMetadata (v : option loc) (s : St) : St :=
  mkSt (infos s) (metas s) (handle s) v (_metadata s) (scanProcessing s)
    (newDepsDiscovered s) (newDepsToLog s) (newDepsToLogHandle s)
    (depOptimizationProcessing s) (depOptimizationProcessingQueue s)
    (enqueuedRerun s) (currentlyProcessing s) (optimizeDepsEntriesVisited s)
    (firstRunCalled s) (registeredIds s) (seenIds s) (workersSources s)
    (waitingOn s) (firstRunEnsured s) (resolved s) (nextPromise s) (timers s)
    (nextTimer s) (running s) (io s).
Definition set__metadata (v : loc) (s : St) : St :=
  mkSt (infos s) (metas s) (handle s) (ssrServerDepsMetadata s) v
    (scanProcessing s) (newDepsDiscovered s) (newDepsToLog s)
    (newDepsToLogHandle s) (depOptimizationProcessing s)
    (depOptimizationProcessingQueue s) (enqueuedRerun s)
    (currentlyProcessing s) (optimizeDepsEntriesVisited s) (firstRunCalled s)
    (registeredIds s) (seenIds s) (workersSources s) (waitingOn s)
    (firstRunEnsured s) (resolved s) (nextPromise s) (timers s) (nextTimer s)
    (running s) (io s).
Definition set_scanProcessing (v : option promise) (s : St) : St :=
  mkSt (infos s) (metas s) (handle s) (ssrServerDepsMetadata s) (_metadata s)
    v (newDepsDiscovered s) (newDepsToLog s) (newDepsToLogHandle s)
    (depOptimizationProcessing s) (depOptimizationProcessingQueue s)
    (enqueuedRerun s) (currentlyProcessing s) (optimizeDepsEntriesVisited s)
    (firstRunCalled s) (registeredIds s) (seenIds s) (workersSources s)
    (waitingOn s) (firstRunEnsured s) (resolved s) (nextPromise s) (timers s)
    (nextTimer s) (running s) (io s).
Definition set_newDepsDiscovered (v : bool) (s : St) : St :=
  mkSt (infos s) (metas s) (handle s) (ssrServerDepsMetadata s) (_metadata s)
    (scanProcessing s) v (newDepsToLog s) (newDepsToLogHandle s)
    (depOptimizationProcessing s) (depOptimizationProcessingQueue s)
    (enqueuedRerun s) (currentlyProcessing s) (optimizeDepsEntriesVisited s)
    (firstRunCalled s) (registeredIds s) (seenIds s) (workersSources s)
    (waitingOn s) (firstRunEnsured s) (resolved s) (nextPromise s) (timers s)
    (nextTimer s) (running s) (io s).
Definition set_newDepsToLog (v : list string) (s : St) : St :=
  mkSt (infos s) (metas s) (handle s) (ssrServerDepsMetadata s) (_metadata s)
    (scanProcessing s) (newDepsDiscovered s) v (newDepsToLogHandle s)
    (depOptimizationProcessing s) (depOptimizationProcessingQueue s)
    (enqueuedRerun s) (currentlyProcessing s) (optimizeDepsEntriesVisited s)
    (firstRunCalled s) (registeredIds s) (seenIds s) (workersSources s)
    (waitingOn s) (firstRunEnsured s) (resolved s) (nextPromise s) (timers s)
    (nextTimer s) (running s) (io s).
Definition set_newDepsToLogHandle (v : option timer) (s : St) : St :=
  mkSt (infos s) (metas s) (handle s) (ssrServerDepsMetadata s) (_metadata s)
    (scanProcessing s) (newDepsDiscovered s) (newDepsToLog s) v
    (depOptimizationProcessing s) (depOptimizationProcessingQueue s)
    (enqueuedRerun s) (currentlyProcessing s) (optimizeDepsEntriesVisited s)
    (firstRunCalled s) (registeredIds s) (seenIds s) (workersSources s)
    (waitingOn s) (firstRunEnsured s) (resolved s) (nextPromise s) (timers s)
    (nextTimer s) (running s) (io s).
Definition set_depOptimizationProcessing (v : promise) (s : St) : St :=
  mkSt (infos s) (metas s) (handle s) (ssrServerDepsMetadata s) (_metadata s)
    (scanProcessing s) (newDepsDiscovered s) (newDepsToLog s)
    (newDepsToLogHandle s) v (depOptimizationProcessingQueue s)
    (enqueuedRerun s) (currentlyProcessing s) (optimizeDepsEntriesVisited s)
    (firstRunCalled s) (registeredIds s) (seenIds s) (workersSources s)
    (waitingOn s) (firstRunEnsured s) (resolved s) (nextPromise s) (timers s)
    (nextTimer s) (running s) (io s).
Definition set_depOptimizationProcessingQueue (v : list promise) (s : St) : St :=
  mkSt (infos s) (metas s) (handle s) (ssrServerDepsMetadata s) (_metadata s)
    (scanProcessing s) (newDepsDiscovered s) (newDepsToLog s)
    (newDepsToLogHandle s) (depOptimizationProcessing s) v (enqueuedRerun s)
    (currentlyProcessing s) (optimizeDepsEntriesVisited s) (firstRunCalled s)
    (registeredIds s) (seenIds s) (workersSources s) (waitingOn s)
    (firstRunEnsured s) (resolved s) (nextPromise s) (timers s) (nextTimer s)
    (running s) (io s).
Definition set_enqueuedRerun (v : bool) (s : St) : St :=
  mkSt (infos s) (metas s) (handle s) (ssrServerDepsMetadata s) (_metadata s)
    (scanProcessing s) (newDepsDiscovered s) (newDepsToLog s)
    (newDepsToLogHandle s) (depOptimizationProcessing s)
    (depOptimizationProcessingQueue s) v (currentlyProcessing s)
    (optimizeDepsEntriesVisited s) (firstRunCalled s) (registeredIds s)
    (seenIds s) (workersSources s) (waitingOn s) (firstRunEnsured s)
    (resolved s) (nextPromise s) (timers s) (nextTimer s) (running s) (io s).
Definition set_currentlyProcessing (v : bool) (s : St) : St :=
  mkSt (infos s) (metas s) (handle s) (ssrServerDepsMetadata s) (_metadata s)
    (scanProcessing s) (newDepsDiscovered s) (newDepsToLog s)
    (newDepsToLogHandle s) (depOptimizationProcessing s)
    (depOptimizationProcessingQueue s) (enqueuedRerun s) v
    (optimizeDepsEntriesVisited s) (firstRunCalled s) (registeredIds s)
    (seenIds s) (workersSources s) (waitingOn s) (firstRunEnsured s)
    (resolved s) (nextPromise s) (timers s) (nextTimer s) (running s) (io s).
Definition set_optimizeDepsEntriesVisited (v : bool) (s : St) : St :=
  mkSt (infos s) (metas s) (handle s) (ssrServerDepsMetadata s) (_metadata s)
    (scanProcessing s) (newDepsDiscovered s) (newDepsToLog s)
    (newDepsToLogHandle s) (depOptimizationProcessing s)
    (depOptimizationProcessingQueue s) (enqueuedRerun s)
    (currentlyProcessing s) v (firstRunCalled s) (registeredIds s) (seenIds s)
    (workersSources s) (waitingOn s) (firstRunEnsured s) (resolved s)
    (nextPromise s) (timers s) (nextTimer s) (running s) (io s).
Definition set_firstRunCalled (v : bool) (s : St) : St :=
  mkSt (infos s) (metas s) (handle s) (ssrServerDepsMetadata s) (_metadata s)
    (scanProcessing s) (newDepsDiscovered s) (newDepsToLog s)
    (newDepsToLogHandle s) (depOptimizationProcessing s)
    (depOptimizationProcessingQueue s) (enqueuedRerun s)
    (currentlyProcessing s) (optimizeDepsEntriesVisited s) v (registeredIds s)
    (seenIds s) (workersSources s) (waitingOn s) (firstRunEnsured s)
    (resolved s) (nextPromise s) (timers s) (nextTimer s) (running s) (io s).
Definition set_registeredIds (v : list (string * doneFn)) (s : St) : St :=
  mkSt (infos s) (metas s) (handle s) (ssrServerDepsMetadata s) (_metadata s)
    (scanProcessing s) (newDepsDiscovered s) (newDepsToLog s)
    (newDepsToLogHandle s) (depOptimizationProcessing s)
    (depOptimizationProcessingQueue s) (enqueuedRerun s)
    (currentlyProcessing s) (optimizeDepsEntriesVisited s) (firstRunCalled s)
    v (seenIds s) (workersSources s) (waitingOn s) (firstRunEnsured s)
    (resolved s) (nextPromise s) (timers s) (nextTimer s) (running s) (io s).
Definition set_seenIds (v : gset string) (s : St) : St :=
  mkSt (infos s) (metas s) (handle s) (ssrServerDepsMetadata s) (_metadata s)
    (scanProcessing s) (newDepsDiscovered s) (newDepsToLog s)
    (newDepsToLogHandle s) (depOptimizationProcessing s)
    (depOptimizationProcessingQueue s) (enqueuedRerun s)
    (currentlyProcessing s) (optimizeDepsEntriesVisited s) (firstRunCalled s)
    (registeredIds s) v (workersSources s) (waitingOn s) (firstRunEnsured s)
    (resolved s) (nextPromise s) (timers s) (nextTimer s) (running s) (io s).
Definition set_workersSources (v : gset string) (s : St) : St :=
  mkSt (infos s) (metas s) (handle s) (ssrServerDepsMetadata s) (_metadata s)
    (scanProcessing s) (newDepsDiscovered s) (newDepsToLog s)
    (newDepsToLogHandle s) (depOptimizationProcessing s)
    (depOptimizationProcessingQueue s) (enqueuedRerun s)
    (currentlyProcessing s) (optimizeDepsEntriesVisited s) (firstRunCalled s)
    (registeredIds s) (seenIds s) v (waitingOn s) (firstRunEnsured s)
    (resolved s) (nextPromise s) (timers s) (nextTimer s) (running s) (io s).
Definition set_waitingOn (v : option string) (s : St) : St :=
  mkSt (infos s) (metas s) (handle s) (ssrServerDepsMetadata s) (_metadata s)
    (scanProcessing s) (newDepsDiscovered s) (newDepsToLog s)
    (newDepsToLogHandle s) (depOptimizationProcessing s)
    (depOptimizationProcessingQueue s) (enqueuedRerun s)
    (currentlyProcessing s) (optimizeDepsEntriesVisited s) (firstRunCalled s)
    (registeredIds s) (seenIds s) (workersSources s) v (firstRunEnsured s)
    (resolved s) (nextPromise s) (timers s) (nextTimer s) (running s) (io s).
Definition set_firstRunEnsured (v : bool) (s : St) : St :=
  mkSt (infos s) (metas s) (handle s) (ssrServerDepsMetadata s) (_metadata s)
    (scanProcessing s) (newDepsDiscovered s) (newDepsToLog s)
    (newDepsToLogHandle s) (depOptimizationProcessing s)
    (depOptimizationProcessingQueue s) (enqueuedRerun s)
    (currentlyProcessing s) (optimizeDepsEntriesVisited s) (firstRunCalled s)
    (registeredIds s) (seenIds s) (workersSources s) (waitingOn s) v
    (resolved s) (nextPromise s) (timers s) (nextTimer s) (running s) (io s).
Definition set_resolved (v : gset promise) (s : St) : St :=
  mkSt (infos s) (metas s) (handle s) (ssrServerDepsMetadata s) (_metadata s)
    (scanProcessing s) (newDepsDiscovered s) (newDepsToLog s)
    (newDepsToLogHandle s) (depOptimizationProcessing s)
    (depOptimizationProcessingQueue s) (enqueuedRerun s)
    (currentlyProcessing s) (optimizeDepsEntriesVisited s) (firstRunCalled s)
    (registeredIds s) (seenIds s) (workersSources s) (waitingOn s)
    (firstRunEnsured s) v (nextPromise s) (timers s) (nextTimer s) (running s)
    (io s).
Definition set_nextPromise (v : promise) (s : St) : St :=
  mkSt (infos s) (metas s) (handle s) (ssrServerDepsMetadata s) (_metadata s)
    (scanProcessing s) (newDepsDiscovered s) (newDepsToLog s)
    (newDepsToLogHandle s) (depOptimizationProcessing s)
    (depOptimizationProcessingQueue s) (enqueuedRerun s)
    (currentlyProcessing s) (optimizeDepsEntriesVisited s) (firstRunCalled s)
    (registeredIds s) (seenIds s) (workersSources s) (waitingOn s)
    (firstRunEnsured s) (resolved s) v (timers s) (nextTimer s) (running s)
    (io s).
Definition set_timers (v : list (timer * (nat * Callback))) (s : St) : St :=
  mkSt (infos s) (metas s) (handle s) (ssrServerDepsMetadata s) (_metadata s)
    (scanProcessing s) (newDepsDiscovered s) (newDepsToLog s)
    (newDepsToLogHandle s) (depOptimizationProcessing s)
    (depOptimizationProcessingQueue s) (enqueuedRerun s)
    (currentlyProcessing s) (optimizeDepsEntriesVisited s) (firstRunCalled s)
    (registeredIds s) (seenIds s) (workersSources s) (waitingOn s)
    (firstRunEnsured s) (resolved s) (nextPromise s) v (nextTimer s)
    (running s) (io s).
Definition set_nextTimer (v : timer) (s : St) : St :=
  mkSt (infos s) (metas s) (handle s) (ssrServerDepsMetadata s) (_metadata s)
    (scanProcessing s) (newDepsDiscovered s) (newDepsToLog s)
    (newDepsToLogHandle s) (depOptimizationProcessing s)
    (depOptimizationProcessingQueue s) (enqueuedRerun s)
    (currentlyProcessing s) (optimizeDepsEntriesVisited s) (firstRunCalled s)
    (registeredIds s) (seenIds s) (workersSources s) (waitingOn s)
    (firstRunEnsured s) (resolved s) (nextPromise s) (timers s) v (running s)
    (io s).
Definition set_running (v : option Frame) (s : St) : St :=
  mkSt (infos s) (metas s) (handle s) (ssrServerDepsMetadata s) (_metadata s)
    (scanProcessing s) (newDepsDiscovered s) (newDepsToLog s)
    (newDepsToLogHandle s) (depOptimizationProcessing s)
    (depOptimizationProcessingQueue s) (enqueuedRerun s)
    (currentlyProcessing s) (optimizeDepsEntriesVisited s) (firstRunCalled s)
    (registeredIds s) (seenIds s) (workersSources s) (waitingOn s)
    (firstRunEnsured s) (resolved s) (nextPromise s) (timers s) (nextTimer s)
    v (io s).
Definition set_io (v : list Effect) (s : St) : St :=
  mkSt (infos s) (metas s) (handle s) (ssrServerDepsMetadata s) (_metadata s)
    (scanProcessing s) (newDepsDiscovered s) (newDepsToLog s)
    (newDepsToLogHandle s) (depOptimizationProcessing s)
    (depOptimizationProcessingQueue s) (enqueuedRerun s)
    (currentlyProcessing s) (optimizeDepsEntriesVisited s) (firstRunCalled s)
    (registeredIds s) (seenIds s) (workersSources s) (waitingOn s)
    (firstRunEnsured s) (resolved s) (nextPromise s) (timers s) (nextTimer s)
    (running s) v.

(** ** The monad: state that survives an exception *)

Inductive Res (A : Type) :=
| Ret (a : A)
| Throw (e : Exn).
Arguments Ret {A} a.
Arguments Throw {A} e.

Definition M (A : Type) : Type := St → Res A * St.

Definition ret {A} (a : A) : M A := λ s, (Ret a, s).

Definition bind {A B} (m : M A) (k : A → M B) : M B :=
  λ s, match m s with
       | (Ret a, s') => k a s'
       | (Throw e, s') => (Throw e, s')
       end.

Definition throw {A} (e : Exn) : M A := λ s, (Throw e, s).

(** [try { m } catch (e) { h }] *)
Definition try_catch {A} (m : M A) (h : Exn → M A) : M A :=
  λ s, match m s with
       | (Ret a, s') => (Ret a, s')
       | (Throw e, s') => h e s'
       end.

Definition get : M St := λ s, (Ret s, s).
Definition gets {A} (f : St → A) : M A := λ s, (Ret (f s), s).
Definition modify (f : St → St) : M unit := λ s, (Ret tt, f s).
Definition liftRes {A} (r : Res A) : M A := λ s, (r, s).

Declare Scope js_scope.
Delimit Scope js_scope with js.
Notation "x ← c1 ; c2" := (bind c1 (λ x, c2))
  (at level 20, c1 at level 100, c2 at level 200, only parsing) : js_scope.
Notation "c1 ;; c2" := (bind c1 (λ _, c2))
  (at level 100, c2 at level 200, only parsing, right associativity)
  : js_scope.
Open Scope js_scope.

Fixpoint forM_ {A} (l : list A) (body : A → M unit) : M unit :=
  match l with
  | [] => ret tt
  | x :: l' => body x ;; forM_ l' body
  end.

Definition when (b : bool) (m : M unit) : M unit := if b then m else ret tt.

(** The state a computation ends in, whatever its outcome. *)
Definition exec {A} (m : M A) (s : St) : St := (m s).2.

(** ** The object store *)

Definition info (s : St) (l : loc) : DepInfo.t := infos s !!! l.
Definition meta (s : St) (m : loc) : Meta.t := metas s !!! m.

Definition allocInfo (i : DepInfo.t) : M loc :=
  λ s, (Ret (length (infos s)), set_infos (infos s ++ [i]) s).
Definition allocMeta (m : Meta.t) : M loc :=
  λ s, (Ret (length (metas s)), set_metas (metas s ++ [m]) s).
Definition modify_info (l : loc) (f : DepInfo.t → DepInfo.t) : M unit :=
  modify (λ s, set_infos (<[l := f (info s l)]> (infos s)) s).
Definition modify_meta (m : loc) (f : Meta.t → Meta.t) : M unit :=
  modify (λ s, set_metas (<[m := f (meta s m)]> (metas s)) s).

Fixpoint allocObj (o : Obj.t DepInfo.t) : M (Obj.t loc) :=
  match o with
  | [] => ret []
  | (k, i) :: o' =>
      l ← allocInfo i;
      r ← allocObj o';
      ret ((k, l) :: r)
  end.

(** A metadata tree received from a collaborator becomes objects of the
    store. *)
Definition allocMetaVal (v : MetaVal) : M loc :=
  o ← allocObj (v_optimized v);
  c ← allocObj (v_chunks v);
  d ← allocObj (v_discovered v);
  allocMeta (Meta.mk (v_hash v) (v_browserHash v) o c d).

(** The entries of a dictionary of references, read through the store. *)
Definition derefObj (s : St) (o : Obj.t loc) : Obj.t DepInfo.t :=
  (λ e, (e.1, info s e.2)) <$> o.

(** ** Timers, promises, collaborators *)

Definition emit (e : Effect) : M unit := modify (λ s, set_io (io s ++ [e]) s).

Definition setTimeout (cb : Callback) (ms : nat) : M timer :=
  λ s, (Ret (nextTimer s),
        set_nextTimer (S (nextTimer s))
          (set_timers (timers s ++ [(nextTimer s, (ms, cb))]) s)).

Definition clearTimeout (t : timer) : M unit :=
  modify (λ s, set_timers (filter (λ e, e.1 ≠ t) (timers s)) s).

(** [if (h) clearTimeout(h)] *)
Definition clearIfSet (h : option timer) : M unit :=
  match h with Some t => clearTimeout t | None => ret tt end.

(** Modelled from the spec: [newDepOptimizationProcessing] is imported from
    the optimizer's index module, which is not part of this file.  The spec
    (section 4.2) describes a barrier with a single one-shot completion
    signal; here it is a fresh promise, and [resolve] marks it resolved. *)
Definition newDepOptimizationProcessing : M promise :=
  λ s, (Ret (nextPromise s), set_nextPromise (S (nextPromise s)) s).

Definition resolve (p : promise) : M unit :=
  modify (λ s, set_resolved ({[p]} ∪ resolved s) s).

Definition meta_get (k : Kind) (m : Meta.t) : Obj.t loc :=
  match k with
  | Optimized => Meta.optimized m
  | Discovered => Meta.discovered m
  | Chunks => Meta.chunks m
  end.

Definition meta_set (k : Kind) (o : Obj.t loc) (m : Meta.t) : Meta.t :=
  match k with
  | Optimized => Meta.set_optimized o m
  | Discovered => Meta.set_discovered o m
  | Chunks => Meta.set_chunks o m
  end.

Definition in_other_submap (k : Kind) (m : Meta.t) (id : string) : bool :=
  match k with
  | Optimized => Obj.has (Meta.chunks m) id || Obj.has (Meta.discovered m) id
  | Discovered => Obj.has (Meta.optimized m) id || Obj.has (Meta.chunks m) id
  | Chunks => Obj.has (Meta.optimized m) id || Obj.has (Meta.discovered m) id
  end.

(** Modelled from the spec: [addOptimizedDepInfo] is imported from the
    optimizer's index module, which is not part of this file.  The spec
    (section 4.1): [add(kind, info)] inserts into the corresponding sub-map
    and rejects if the id already exists in another sub-map.  It returns the
    object it was given. *)
Definition addOptimizedDepInfo (metadata : loc) (type : Kind) (depInfo : loc)
  : M loc :=
  s ← get;
  let id := DepInfo.id (info s depInfo) in
  if in_other_submap type (meta s metadata) id then throw Rejected
  else
    modify_meta metadata
      (λ m, meta_set type (Obj.set (meta_get type m) id depInfo) m) ;;
    ret depInfo.

(** JavaScript truthiness of a [string | undefined]. *)
Definition truthy (o : option string) : bool :=
  match o with
  | Some s => negb (String.eqb s "")
  | None => false
  end.

(** [a.pop()] *)
Definition pop {A} (l : list A) : option A * list A :=
  match last l with
  | Some x => (Some x, removelast l)
  | None => (None, l)
  end.

(** ** The configuration and the imported helpers *)

Record Env := mkEnv {
  isBuild : bool;                 (* config.command === 'build' *)
  config_ssr : bool;              (* config.ssr is set *)
  devDepsScanner : bool;          (* config.legacy?.devDepsScanner *)
  mainConfig : bool;              (* config.mainConfig is set *)
  server : bool;                  (* a dev server was passed *)
  isDebugEnabled : bool;
  sessionTimestamp : string;
  initHash : string;
  initBrowserHash : string;
  isOptimizedDepFile : string → bool;
  getOptimizedDepPath : string → bool → string;
  getHash : string → string;
  stringify : Obj.t string → string;
  depsFromOptimizedDepInfo : Obj.t DepInfo.t → Obj.t string
}.

(** [config.command !== 'build' && config.legacy?.devDepsScanner] *)
Definition scan (env : Env) : bool := negb (isBuild env) && devDepsScanner env.

(** Modelled from the spec: [initDepsOptimizerMetadata] is imported from
    the optimizer's index module, which is not part of this file.  The spec
    (section 4.1) has the store start from a fresh snapshot; its two hashes
    are derived from the configuration. *)
Definition initDepsOptimizerMetadata (env : Env) : MetaVal :=
  mkMetaVal (initHash env) (initBrowserHash env) [] [] [].

(** ** The optimizer ([initDepsOptimizer] and its inner functions) *)

Section Optimizer.

Variable env : Env.

Definition debug (msg : string) : M unit :=
  when (isDebugEnabled env) (emit (Debug msg)).

(** [depsOptimizer.metadata], lines 70-76.  The SSR slot is a [let]
    without initializer: it reads as [undefined] until assigned. *)
Definition metadata (s : St) (ssr : bool) : option loc :=
  if isBuild env || negb ssr then Some (_metadata s)
  else ssrServerDepsMetadata s.

(** [depsOptimizer.getOptimizedDepId], lines 81-82. *)
Definition getOptimizedDepId (depInfo : DepInfo.t) : string :=
  if isBuild env then DepInfo.file depInfo
  else DepInfo.file depInfo +:+ "?v=" +:+
       default "undefined" (DepInfo.browserHash depInfo).

(** Lines 100-112. *)
Definition logNewlyDiscoveredDeps : M unit :=
  l ← gets newDepsToLog;
  when (negb (length l =? 0))
    (emit (LoggerInfoNewDeps l) ;; modify (set_newDepsToLog [])).

(** Lines 116-122. *)
Definition resolveEnqueuedProcessingPromises : M unit :=
  q ← gets depOptimizationProcessingQueue;
  forM_ q resolve ;;
  modify (set_depOptimizationProcessingQueue []).

(** Lines 403-415. *)
Definition fullReload : M unit :=
  when (server env) (emit InvalidateAll ;; emit WsSendFullReload).

(** The two cloning loops of [runOptimizer], lines 225-235. *)
Definition cloneOptimized (s : St) (metadata : loc) (newDeps : Obj.t DepInfo.t)
  : Obj.t DepInfo.t :=
  foldl (λ acc dep,
           match Obj.get (Meta.optimized (meta s metadata)) dep with
           | Some l => Obj.set acc dep (info s l)
           | None => acc
           end)
        newDeps (Obj.keys (Meta.optimized (meta s metadata))).

Definition cloneDiscovered (s : St) (metadata : loc) (newDeps : Obj.t DepInfo.t)
  : Obj.t DepInfo.t :=
  foldl (λ acc dep,
           match Obj.get (Meta.discovered (meta s metadata)) dep with
           | Some l => Obj.set acc dep (DepInfo.set_processing None (info s l))
           | None => acc
           end)
        newDeps (Obj.keys (Meta.discovered (meta s metadata))).

(** [runOptimizer] up to its first [await], lines 194-248. *)
Definition runOptimizer : M unit :=
  isRerun ← gets firstRunCalled;
  modify (set_firstRunCalled true) ;;
  modify (set_enqueuedRerun false) ;;
  h ← gets handle;
  clearIfSet h ;;
  discovered ← gets (λ s, Meta.discovered (meta s (_metadata s)));
  if length (Obj.keys discovered) =? 0 then
    modify (set_currentlyProcessing false)
  else
    modify (set_currentlyProcessing true) ;;
    metadata ← gets _metadata;
    newDeps ← gets (λ s, cloneDiscovered s metadata (cloneOptimized s metadata []));
    modify (set_newDepsDiscovered false) ;;
    modify (λ s, set_depOptimizationProcessingQueue
                   (depOptimizationProcessingQueue s ++
                      [depOptimizationProcessing s]) s) ;;
    p ← newDepOptimizationProcessing;
    modify (set_depOptimizationProcessing p) ;;
    emit (RunOptimizeDeps newDeps) ;;
    modify (set_running (Some (AwaitBundler isRerun metadata))).

(** Lines 417-425. *)
Definition rerun : M unit :=
  debug "new dependencies found" ;;
  runOptimizer.

(** The end of [runOptimizer], lines 398-400. *)
Definition runOptimizer_end : M unit :=
  modify (set_running None) ;;
  modify (set_currentlyProcessing false) ;;
  e ← gets enqueuedRerun;
  when e rerun.

(** The body of the loop at lines 253-266: does [dep] go into
    [needsInteropMismatch]?  [newData.optimized[dep]] is looked up among
    the own properties. *)
Definition interopMismatch (s : St) (metadata newData : loc) (dep : string)
  : bool :=
  match Obj.get (Meta.discovered (meta s metadata)) dep,
        Obj.get (Meta.optimized (meta s newData)) dep with
  | Some d, Some o =>
      let discoveredDepInfo := info s d in
      let depInfo := info s o in
      bool_decide (DepInfo.needsInterop discoveredDepInfo ≠ None) &&
      bool_decide (DepInfo.needsInterop depInfo ≠
                   DepInfo.needsInterop discoveredDepInfo)
  | _, _ => false
  end.

Definition needsInteropMismatch (s : St) (metadata newData : loc)
  : list string :=
  List.filter (interopMismatch s metadata newData)
    (Obj.keys (Meta.discovered (meta s metadata))).

(** The callback of [some], lines 276-278.  [dep] is an own key of the old
    map; in the new map it is looked up by an index read: reading
    [fileHash] of [undefined] throws, a member of [Object.prototype] has
    no [fileHash]. *)
Definition fileHashDiffers (s : St) (metadata newData : loc) (dep : string)
  : Res bool :=
  match Obj.get (Meta.optimized (meta s metadata)) dep with
  | Some o =>
      match Obj.index (Meta.optimized (meta s newData)) dep with
      | Obj.Own n =>
          Ret (bool_decide (DepInfo.fileHash (info s o) ≠
                            DepInfo.fileHash (info s n)))
      | Obj.Inherited =>
          Ret (bool_decide (DepInfo.fileHash (info s o) ≠ None))
      | Obj.Undefined => Throw TypeError
      end
  | None => Throw TypeError
  end.

(** [Object.keys(metadata.optimized).some(...)], lines 275-279: the
    callback is called on the keys in order, up to the first one for which
    it is true. *)
Fixpoint someFileHashDiffers (s : St) (metadata newData : loc)
  (deps : list string) : Res bool :=
  match deps with
  | [] => Ret false
  | dep :: deps' =>
      match fileHashDiffers s metadata newData dep with
      | Ret true => Ret true
      | Ret false => someFileHashDiffers s metadata newData deps'
      | Throw e => Throw e
      end
  end.

(** Lines 272-279. *)
Definition needsReload (s : St) (metadata newData : loc)
  (needsInteropMismatch : list string) : Res bool :=
  if 0 <? length needsInteropMismatch then Ret true
  else if bool_decide (Meta.hash (meta s metadata) ≠ Meta.hash (meta s newData))
  then Ret true
  else someFileHashDiffers s metadata newData
         (Obj.keys (Meta.optimized (meta s metadata))).

(** [metadata.optimized[dep] || metadata.discovered[dep]], line 300: two
    index reads, the second one only if the first finds nothing. *)
Definition optimizedOrDiscovered (s : St) (metadata : loc) (dep : string)
  : Obj.member loc :=
  match Obj.index (Meta.optimized (meta s metadata)) dep with
  | Obj.Undefined => Obj.index (Meta.discovered (meta s metadata)) dep
  | found => found
  end.

(** The first loop of [commitProcessing], lines 284-290: dependencies
    discovered while the bundler ran stay discovered.
    [newData.optimized[id]] is looked up among the own properties. *)
Definition carryDiscovered (metadata newData : loc) : M unit :=
  ids ← gets (λ s, Obj.keys (Meta.discovered (meta s metadata)));
  forM_ ids (λ id,
    s ← get;
    match Obj.get (Meta.optimized (meta s newData)) id,
          Obj.get (Meta.discovered (meta s metadata)) id with
    | None, Some d => addOptimizedDepInfo newData Discovered d ;; ret tt
    | _, _ => ret tt
    end).

(** Lines 294-302, run when no reload is needed. *)
Definition keepBrowserHash (metadata newData : loc) : M unit :=
  bh ← gets (λ s, Meta.browserHash (meta s metadata));
  modify_meta newData (Meta.set_browserHash bh) ;;
  cs ← gets (λ s, Obj.keys (Meta.chunks (meta s newData)));
  forM_ cs (λ dep,
    s ← get;
    match Obj.get (Meta.chunks (meta s newData)) dep with
    | Some c =>
        modify_info c
          (DepInfo.set_browserHash (Some (Meta.browserHash (meta s metadata))))
    | None => ret tt
    end) ;;
  os ← gets (λ s, Obj.keys (Meta.optimized (meta s newData)));
  forM_ os (λ dep,
    s ← get;
    match Obj.get (Meta.optimized (meta s newData)) dep,
          optimizedOrDiscovered s metadata dep with
    | Some n, Obj.Own old =>
        modify_info n
          (DepInfo.set_browserHash (DepInfo.browserHash (info s old)))
    | Some n, Obj.Inherited => modify_info n (DepInfo.set_browserHash None)
    | Some n, Obj.Undefined => throw TypeError
    | None, _ => ret tt
    end).

(** Lines 305-317: the committed values are written back to the
    discovered objects.  [metadata.discovered[o]] is looked up among the
    own properties: what the loop assigns to a member of
    [Object.prototype] reaches no entry and is left out. *)
Definition writeBack (metadata newData : loc) : M unit :=
  os ← gets (λ s, Obj.keys (Meta.optimized (meta s newData)));
  forM_ os (λ o,
    s ← get;
    match Obj.get (Meta.discovered (meta s metadata)) o,
          Obj.get (Meta.optimized (meta s newData)) o with
    | Some discovered, Some optimized =>
        modify_info discovered (DepInfo.commit_from (info s optimized))
    | _, _ => ret tt
    end).

(** [commitProcessing] after [await processingResult.commit()],
    lines 284-328.  The filter of line 322 looks [dep] up among the own
    properties of [metadata.optimized]. *)
Definition commitProcessing (isRerun : bool) (metadata newData : loc)
  (needsReload : bool) : M unit :=
  carryDiscovered metadata newData ;;
  when (negb needsReload) (keepBrowserHash metadata newData) ;;
  writeBack metadata newData ;;
  when isRerun
    (modify (λ s, set_newDepsToLog
       (newDepsToLog s ++
          List.filter
            (λ dep, negb (Obj.has (Meta.optimized (meta s metadata)) dep))
            (Obj.keys (Meta.optimized (meta s newData)))) s)) ;;
  modify (set__metadata newData) ;;
  resolveEnqueuedProcessingPromises.

(** The [catch] of [runOptimizer], lines 387-396. *)
Definition runOptimizer_catch (metadata : loc) : M unit :=
  emit LoggerErrorUpdating ;;
  resolveEnqueuedProcessingPromises ;;
  modify_meta metadata (Meta.set_discovered []).

(** The first statement of [commitProcessing], line 282: the call of
    [processingResult.commit()], on which the activation suspends. *)
Definition commitProcessing_begin (isRerun : bool) (metadata newData : loc)
  (mismatch : list string) (nr : bool) : M bool :=
  emit ResultCommit ;;
  modify (set_running
            (Some (AwaitCommit isRerun metadata newData mismatch nr))) ;;
  ret true.

(** [runOptimizer] resumed when [runOptimizeDeps] settles: lines 248-281
    and the branch at lines 331-357, up to [await processingResult.commit()]
    or through [processingResult.cancel()].  [r] is [None] when the bundler
    rejected.  The result tells whether the activation is suspended
    again. *)
Definition afterBundler_try (isRerun : bool) (metadata : loc)
  (r : option MetaVal) : M bool :=
  match r with
  | None => throw External
  | Some v =>
      newData ← allocMetaVal v;
      s ← get;
      let mismatch := needsInteropMismatch s metadata newData in
      nr ← liftRes (needsReload s metadata newData mismatch);
      if negb nr then
        commitProcessing_begin isRerun metadata newData mismatch nr
      else
        nd ← gets newDepsDiscovered;
        if nd then
          emit ResultCancel ;;
          debug "delaying reload as new dependencies have been found..." ;;
          ret false
        else
          commitProcessing_begin isRerun metadata newData mismatch nr
  end.

Definition afterBundler (isRerun : bool) (metadata : loc) (r : option MetaVal)
  : M unit :=
  suspended ← try_catch (afterBundler_try isRerun metadata r)
                 (λ _, runOptimizer_catch metadata ;; ret false);
  when (negb suspended) runOptimizer_end.

(** Line 39 and line 519. *)
Definition debounceMs : nat := 100.
Definition runOptimizerIfIdleAfterMs : nat := 100.

(** [runOptimizer] resumed when [processingResult.commit()] settles: the
    rest of [commitProcessing] and of the branch that called it.  The
    [await] on [commitProcessing()] itself is not a suspension point of the
    model: what follows it runs in the same step as the commit.  The
    [catch] is given the snapshot the activation started with; line 327
    rebinds the local [metadata] only as the last assignment of
    [commitProcessing], after which nothing of the model throws. *)
Definition afterCommit_try (isRerun : bool) (metadata newData : loc)
  (mismatch : list string) (nr : bool) (ok : bool) : M unit :=
  (if ok then ret tt else throw External) ;;
  commitProcessing isRerun metadata newData nr ;;
  if negb nr then
    if negb (isDebugEnabled env) then
      h ← gets newDepsToLogHandle;
      clearIfSet h ;;
      t ← setTimeout CbLogNewDeps (2 * debounceMs);
      modify (set_newDepsToLogHandle (Some t))
    else debug "optimized dependencies unchanged"
  else
    when (negb (isDebugEnabled env))
      (h ← gets newDepsToLogHandle;
       clearIfSet h ;;
       modify (set_newDepsToLogHandle None) ;;
       logNewlyDiscoveredDeps) ;;
    emit LoggerInfoReloading ;;
    when (0 <? length mismatch) (emit (LoggerWarnMixed mismatch)) ;;
    fullReload.

Definition afterCommit (isRerun : bool) (metadata newData : loc)
  (mismatch : list string) (nr : bool) (ok : bool) : M unit :=
  try_catch (afterCommit_try isRerun metadata newData mismatch nr ok)
    (λ _, runOptimizer_catch metadata) ;;
  runOptimizer_end.

(** Lines 427-435. *)
Definition getDiscoveredBrowserHash (hash : string) (deps missing : Obj.t string)
  : string :=
  getHash env
    (hash +:+ stringify env deps +:+ stringify env missing +:+
     sessionTimestamp env).

(** Lines 503-517. *)
Definition debouncedProcessing (timeout : nat) : M unit :=
  modify (set_enqueuedRerun false) ;;
  h ← gets handle;
  clearIfSet h ;;
  l ← gets newDepsToLogHandle;
  clearIfSet l ;;
  modify (set_newDepsToLogHandle None) ;;
  t ← setTimeout CbDebounce timeout;
  modify (set_handle (Some t)).

(** [depsOptimizer.run], line 78. *)
Definition run : M unit := debouncedProcessing 0.

(** [getDepsOptimizer(config)?.run()]: the registry is keyed by
    [config.mainConfig || config], so a worker configuration reaches the
    optimizer of the main build instead of this one. *)
Definition getDepsOptimizer_run : M unit :=
  if mainConfig env then emit RunMainOptimizer else run.

(** [registerMissingImport] after its two error messages, lines 452-500. *)
Definition registerMissingImport_body (id resolved : string) (ssr : bool)
  : M Ref :=
  metadata ← gets _metadata;
  s ← get;
  match Obj.index (Meta.optimized (meta s metadata)) id with
  | Obj.Own optimized => ret (Entry optimized)
  | Obj.Inherited => ret (Proto id)
  | Obj.Undefined =>
  match Obj.index (Meta.chunks (meta s metadata)) id with
  | Obj.Own chunk => ret (Entry chunk)
  | Obj.Inherited => ret (Proto id)
  | Obj.Undefined =>
  match Obj.index (Meta.discovered (meta s metadata)) id with
  | Obj.Own missing => ret (Entry missing)
  | Obj.Inherited => ret (Proto id)
  | Obj.Undefined =>
      modify (set_newDepsDiscovered true) ;;
      s ← get;
      o ← allocInfo
            {| DepInfo.id := id;
               DepInfo.file := getOptimizedDepPath env id ssr;
               DepInfo.src := Some resolved;
               DepInfo.needsInterop := None;
               DepInfo.browserHash :=
                 Some (getDiscoveredBrowserHash
                         (Meta.hash (meta s metadata))
                         (depsFromOptimizedDepInfo env
                            (derefObj s (Meta.optimized (meta s metadata))))
                         (depsFromOptimizedDepInfo env
                            (derefObj s (Meta.discovered (meta s metadata)))));
               DepInfo.fileHash := None;
               DepInfo.processing := Some (depOptimizationProcessing s);
               DepInfo.exportsData := Some resolved |};
      missing ← addOptimizedDepInfo metadata Discovered o;
      f ← gets firstRunCalled;
      when (scan env || f) (debouncedProcessing debounceMs) ;;
      ret (Entry missing)
  end end end.

(** Lines 437-501. *)
Definition registerMissingImport (id resolved : string) (ssr : bool) : M Ref :=
  sp ← gets scanProcessing;
  when (bool_decide (is_Some sp)) (emit LoggerErrorInternal) ;;
  when (negb (isBuild env) && ssr) (emit (LoggerErrorSsrMissing id)) ;;
  registerMissingImport_body id resolved ssr.

(** Lines 527-533. *)
Definition resetRegisteredIds : M unit :=
  modify (set_registeredIds []) ;;
  modify (set_seenIds ∅) ;;
  modify (set_workersSources ∅) ;;
  modify (set_waitingOn None) ;;
  modify (set_firstRunEnsured false).

(** Lines 538-547. *)
Definition ensureFirstRun : M unit :=
  s ← get;
  when (negb (firstRunEnsured s) && negb (firstRunCalled s) &&
        (length (registeredIds s) =? 0))
    (setTimeout CbEnsureFirstRun runOptimizerIfIdleAfterMs ;; ret tt) ;;
  modify (set_firstRunEnsured true).

(** Lines 572-598; the promise returned by [next.done()] settles later. *)
Definition runOptimizerWhenIdle : M unit :=
  w ← gets waitingOn;
  when (negb (truthy w))
    (r ← gets registeredIds;
     match pop r with
     | (Some next, r') =>
         modify (set_registeredIds r') ;;
         modify (set_waitingOn (Some next.1)) ;;
         emit (CallDone next.1 next.2)
     | (None, _) => ret tt
     end).

(** Lines 549-558. *)
Definition registerWorkersSource (id : string) : M unit :=
  modify (λ s, set_workersSources ({[id]} ∪ workersSources s) s) ;;
  modify (λ s, set_registeredIds
                 (filter (λ registered, registered.1 ≠ id) (registeredIds s)) s) ;;
  w ← gets waitingOn;
  when (bool_decide (w = Some id))
    (modify (set_waitingOn None) ;; runOptimizerWhenIdle).

(** Lines 560-570. *)
Definition delayDepsOptimizerUntil (id : string) (done : doneFn) : M unit :=
  seen ← gets seenIds;
  when (negb (isOptimizedDepFile env id) && negb (bool_decide (id ∈ seen)))
    (modify (λ s, set_seenIds ({[id]} ∪ seenIds s) s) ;;
     modify (λ s, set_registeredIds (registeredIds s ++ [(id, done)]) s) ;;
     runOptimizerWhenIdle) ;;
  v ← gets optimizeDepsEntriesVisited;
  when (server env && negb v)
    (modify (set_optimizeDepsEntriesVisited true) ;;
     emit PreTransformOptimizeDepsEntries).

(** [afterLoad], lines 577-586. *)
Definition afterLoad (next_id : string) : M unit :=
  modify (set_waitingOn None) ;;
  s ← get;
  when (negb (firstRunCalled s) &&
        negb (bool_decide (next_id ∈ workersSources s)))
    (if 0 <? length (registeredIds s) then runOptimizerWhenIdle
     else getDepsOptimizer_run).

(** Lines 587-595: what happens when the promise of [next.done()]
    settles. *)
Definition doneSettled (next_id : string) (fulfilled : bool) : M unit :=
  if fulfilled then
    r ← gets registeredIds;
    setTimeout (CbAfterLoad next_id)
      (if 0 <? length r then 0 else runOptimizerIfIdleAfterMs) ;;
    ret tt
  else afterLoad next_id.

(** The scan phase up to [await discoverProjectDependencies],
    lines 155-163. *)
Definition scanPhase (scanPhaseProcessing : promise) : M unit :=
  debug "scanning for dependencies..." ;;
  metadata ← gets _metadata;
  emit DiscoverProjectDependencies ;;
  modify (set_running (Some (AwaitScan metadata scanPhaseProcessing))).

(** Seeding [discovered], lines 141-146 and 166-171. *)
Definition seedDiscovered (metadata : loc) (discovered : Obj.t DepInfo.t)
  : M unit :=
  forM_ (Obj.values discovered) (λ depInfo,
    p ← gets depOptimizationProcessing;
    l ← allocInfo (DepInfo.set_processing (Some p) depInfo);
    addOptimizedDepInfo metadata Discovered l ;;
    ret tt).

(** The scan phase resumed, lines 165-189. *)
Definition afterScan (metadata : loc) (scanPhaseProcessing : promise)
  (r : option (Obj.t DepInfo.t)) : M unit :=
  modify (set_running None) ;;
  try_catch
    (match r with
     | None => throw External
     | Some discovered =>
         seedDiscovered metadata discovered ;;
         debug "dependencies found" ;;
         resolve scanPhaseProcessing ;;
         modify (set_scanProcessing None) ;;
         runOptimizer
     end)
    (λ _,
       emit LoggerErrorScanning ;;
       sp ← gets scanProcessing;
       when (bool_decide (is_Some sp))
         (resolve scanPhaseProcessing ;; modify (set_scanProcessing None))).

(** The callbacks of the timers. *)
Definition runCallback (cb : Callback) : M unit :=
  match cb with
  | CbScan p => scanPhase p
  | CbDebounce =>
      modify (set_handle None) ;;
      modify (set_enqueuedRerun true) ;;
      c ← gets currentlyProcessing;
      when (negb c) rerun
  | CbLogNewDeps =>
      modify (set_newDepsToLogHandle None) ;;
      logNewlyDiscoveredDeps
  | CbEnsureFirstRun =>
      s ← get;
      when (negb (firstRunCalled s) && (length (registeredIds s) =? 0))
        getDepsOptimizer_run
  | CbAfterLoad next_id => afterLoad next_id
  end.

Definition timerCallback (s : St) (t : timer) : option Callback :=
  (λ e, e.2.2) <$> List.find (λ e, bool_decide (e.1 = t)) (timers s).

(** A pending timer expires. *)
Definition fireTimer (t : timer) : M unit :=
  s ← get;
  match timerCallback s t with
  | Some cb => clearTimeout t ;; runCallback cb
  | None => ret tt
  end.

(** The state before [initDepsOptimizer] has run. *)
Definition St0 : St :=
  mkSt [] [] None None 0 None false [] None 0 [] false false false false []
    ∅ ∅ None false ∅ 0 [] 0 None [].

(** [initDepsOptimizer], lines 50-192.  The three collaborators it awaits
    are given by their results: the cache that was loaded (if any), the
    metadata of the SSR bundle, and the dependencies of
    [optimizeDeps.include]. *)
Definition initDepsOptimizer (cachedMetadata : option MetaVal)
  (ssrDeps : MetaVal) (initialDeps : Obj.t DepInfo.t) : M unit :=
  m ← allocMetaVal (default (initDepsOptimizerMetadata env) cachedMetadata);
  modify (set__metadata m) ;;
  when (negb (isBuild env) && config_ssr env)
    (l ← allocMetaVal ssrDeps;
     modify (set_ssrServerDepsMetadata (Some l))) ;;
  p ← newDepOptimizationProcessing;
  modify (set_depOptimizationProcessing p) ;;
  let cached := bool_decide (is_Some cachedMetadata) in
  modify (set_optimizeDepsEntriesVisited cached) ;;
  modify (set_firstRunCalled cached) ;;
  when (negb cached)
    (if negb (scan env) then seedDiscovered m initialDeps
     else
       modify (set_currentlyProcessing true) ;;
       sp ← newDepOptimizationProcessing;
       modify (set_scanProcessing (Some sp)) ;;
       setTimeout (CbScan sp) 0 ;;
       ret tt).

(** ** The event loop

    Everything that can happen to an optimizer: a call of its interface, a
    timer that expires, an awaited promise that settles. *)
Inductive Event :=
| CallRegisterMissingImport (id resolved : string) (ssr : bool)
| CallRun
| CallRegisterWorkersSource (id : string)
| CallDelayDepsOptimizerUntil (id : string) (done : doneFn)
| CallResetRegisteredIds
| CallEnsureFirstRun
| TimerFires (t : timer)
| DoneSettles (next_id : string) (fulfilled : bool)
| ScanSettles (r : option (Obj.t DepInfo.t))
| BundlerSettles (r : option MetaVal)
| CommitSettles (fulfilled : bool).

Definition handleEvent (e : Event) : M unit :=
  match e with
  | CallRegisterMissingImport id resolved ssr =>
      registerMissingImport id resolved ssr ;; ret tt
  | CallRun => run
  | CallRegisterWorkersSource id => registerWorkersSource id
  | CallDelayDepsOptimizerUntil id done => delayDepsOptimizerUntil id done
  | CallResetRegisteredIds => resetRegisteredIds
  | CallEnsureFirstRun => ensureFirstRun
  | TimerFires t => fireTimer t
  | DoneSettles next_id fulfilled => doneSettled next_id fulfilled
  | ScanSettles r =>
      f ← gets running;
      match f with
      | Some (AwaitScan metadata p) => afterScan metadata p r
      | _ => ret tt
      end
  | BundlerSettles r =>
      f ← gets running;
      match f with
      | Some (AwaitBundler isRerun metadata) => afterBundler isRerun metadata r
      | _ => ret tt
      end
  | CommitSettles fulfilled =>
      f ← gets running;
      match f with
      | Some (AwaitCommit isRerun metadata newData mismatch nr) =>
          afterCommit isRerun metadata newData mismatch nr fulfilled
      | _ => ret tt
      end
  end.

(** The state after a sequence of events; an exception that escapes a
    handler (only [registerMissingImport] can let one escape) is the
    caller's. *)
Definition steps (es : list Event) (s : St) : St :=
  foldl (λ s e, exec (handleEvent e) s) s es.

End Optimizer.

(** ** Notions used in the statements *)

(** A computation keeps a component [f] of the state when the component
    has the same value afterwards. *)
Definition keeps {X} (f : St → X) : St → St → Prop := λ s s', f s' = f s.

(** What was sent to the collaborators between two states. *)
Definition emitted (s s' : St) (l : list Effect) : Prop := io s' = io s ++ l.

(** Between [s] and [s'] none of the effects in [bad] was produced. *)
Definition quiet (bad : list Effect) (s s' : St) : Prop :=
  ∃ l, emitted s s' l ∧ ∀ e, e ∈ bad → e ∉ l.

(** Between [s] and [s'] the server was not told to reload: neither
    [moduleGraph.invalidateAll()] nor the [full-reload] message. *)
Definition no_reload : St → St → Prop :=
  quiet [WsSendFullReload; InvalidateAll].

(** The references [allocObj] hands out for a dictionary [o] when the store
    holds [n] objects. *)
Definition freshRefs {V} (o : Obj.t V) (n : nat) : Obj.t loc :=
  zip (Obj.keys o) (seq n (length o)).

(** All references held by a snapshot. *)
Definition refs (m : Meta.t) : list loc :=
  Obj.values (Meta.optimized m) ++ Obj.values (Meta.chunks m) ++
  Obj.values (Meta.discovered m).

(** The snapshot at [m] exists and refers to existing objects only; this is
    the case for every snapshot the optimizer can reach, since JavaScript
    has no dangling references. *)
Definition allocated (s : St) (m : loc) : Prop :=
  m < length (metas s) ∧ Forall (λ l, l < length (infos s)) (refs (meta s m)).

(** The store after [allocMetaVal v]. *)
Definition afterAlloc (v : MetaVal) (s : St) : St := exec (allocMetaVal v) s.

(** The end of [delayDepsOptimizerUntil], lines 566-569. *)
Definition visitEntries (env : Env) : M unit :=
  v ← gets optimizeDepsEntriesVisited;
  when (server env && negb v)
    (modify (set_optimizeDepsEntriesVisited true) ;;
     emit PreTransformOptimizeDepsEntries).

(** What it sends. *)
Definition preTransform (env : Env) (s : St) : list Effect :=
  if server env && negb (optimizeDepsEntriesVisited s)
  then [PreTransformOptimizeDepsEntries] else [].

(** The two error messages at the beginning of [registerMissingImport],
    lines 442-451. *)
Definition registrationLog (env : Env) (s : St) (id : string) (ssr : bool)
  : list Effect :=
  (if bool_decide (is_Some (scanProcessing s)) then [LoggerErrorInternal]
   else []) ++
  (if negb (isBuild env) && ssr then [LoggerErrorSsrMissing id] else []).

(** What the three index reads of [registerMissingImport], lines 453-466,
    find for [id], if they find anything. *)
Definition knownEntry (s : St) (id : string) : option Ref :=
  let m := meta s (_metadata s) in
  match Obj.index (Meta.optimized m) id with
  | Obj.Own l => Some (Entry l)
  | Obj.Inherited => Some (Proto id)
  | Obj.Undefined =>
      match Obj.index (Meta.chunks m) id with
      | Obj.Own l => Some (Entry l)
      | Obj.Inherited => Some (Proto id)
      | Obj.Undefined =>
          match Obj.index (Meta.discovered m) id with
          | Obj.Own l => Some (Entry l)
          | Obj.Inherited => Some (Proto id)
          | Obj.Undefined => None
          end
      end
  end.


(** Line 277 for the entry [o] of [dep] in the old [optimized] map: the
    new map holds [dep] with another [fileHash], or [dep] names a member
    of [Object.prototype], which has none, and [o] has one. *)
Definition fileHash_changed (s : St) (newData : loc) (dep : string) (o : loc)
  : Prop :=
  (∃ n, Obj.get (Meta.optimized (meta s newData)) dep = Some n ∧
        DepInfo.fileHash (info s o) ≠ DepInfo.fileHash (info s n)) ∨
  (Obj.get (Meta.optimized (meta s newData)) dep = None ∧
   Obj.inherited dep = true ∧ DepInfo.fileHash (info s o) ≠ None).

(** The same line finding no difference. *)
Definition fileHash_same (s : St) (newData : loc) (dep : string) (o : loc)
  : Prop :=
  (∃ n, Obj.get (Meta.optimized (meta s newData)) dep = Some n ∧
        DepInfo.fileHash (info s o) = DepInfo.fileHash (info s n)) ∨
  (Obj.get (Meta.optimized (meta s newData)) dep = None ∧
   Obj.inherited dep = true ∧ DepInfo.fileHash (info s o) = None).

(** The promises resolved once [resolve] has been called on each of [q]. *)
Definition resolveAll (q : list promise) (r : gset promise) : gset promise :=
  foldl (λ acc p, {[p]} ∪ acc) r q.

(** A waiter is never lost: a promise that is queued or resolved stays
    queued or resolved. *)
Definition waiters_kept (s s' : St) : Prop :=
  ∀ p, p ∈ depOptimizationProcessingQueue s ∨ p ∈ resolved s →
       p ∈ depOptimizationProcessingQueue s' ∨ p ∈ resolved s'.

Definition hoare {A} (P : St → Prop) (m : M A) (Q : A → St → Prop)
  (E : St → Prop) : Prop :=
  ∀ s, P s →
    match m s with
    | (Ret a, s') => Q a s'
    | (Throw _, s') => E s'
    end.

Definition waiting (p : promise) (s : St) : Prop :=
  p ∈ depOptimizationProcessingQueue s ∨ p ∈ resolved s.

(** The set of resolved promises only grows. *)
Definition resolved_grows (s s' : St) : Prop := resolved s ⊆ resolved s'.

(** The queue is only extended. *)
Definition queue_extended (s s' : St) : Prop :=
  ∃ q, depOptimizationProcessingQueue s' =
         depOptimizationProcessingQueue s ++ q.

(** The pending timers once [if (h) clearTimeout(h)] has run. *)
Definition cancelTimer (h : option timer) (ts : list (timer * (nat * Callback)))
  : list (timer * (nat * Callback)) :=
  match h with
  | Some t => filter (λ e, e.1 ≠ t) ts
  | None => ts
  end.

(** Timer ids are handed out in increasing order. *)
Definition timers_fresh (s : St) : Prop :=
  Forall (λ e, e.1 < nextTimer s) (timers s).

(** What [rerun] writes to the debug log. *)
Definition rerunLog (env : Env) : list Effect :=
  if isDebugEnabled env then [Debug "new dependencies found"] else [].

(** [newData] is ready to be committed over [metadata]: it is a snapshot of
    its own, whose [optimized] and [chunks] objects are distinct from one
    another and from the objects of [metadata], as they are when the
    bundler's result has just been received; every object exists; and the
    entries of [metadata.discovered] sit under their own [id]. *)
Record commit_ready (s : St) (metadata newData : loc) : Prop := {
  ready_ne : metadata ≠ newData;
  ready_metadata : metadata < length (metas s);
  ready_newData : newData < length (metas s);
  ready_alloc :
    ∀ l, l ∈ Obj.values (Meta.optimized (meta s newData)) ∨
         l ∈ Obj.values (Meta.chunks (meta s newData)) ∨
         l ∈ Obj.values (Meta.discovered (meta s metadata)) →
         l < length (infos s);
  ready_sep :
    ∀ l, l ∈ Obj.values (Meta.optimized (meta s metadata)) ∨
         l ∈ Obj.values (Meta.discovered (meta s metadata)) →
         (l ∉ Obj.values (Meta.optimized (meta s newData))) ∧
         (l ∉ Obj.values (Meta.chunks (meta s newData)));
  ready_sep_chunks :
    ∀ l, l ∈ Obj.values (Meta.chunks (meta s newData)) →
         l ∉ Obj.values (Meta.optimized (meta s newData));
  ready_nodup : NoDup (Obj.values (Meta.optimized (meta s newData)));
  ready_keyed :
    ∀ k d, Obj.get (Meta.discovered (meta s metadata)) k = Some d →
           DepInfo.id (info s d) = k
}.



(** The entries of [discovered] sit under their own [id]. *)
Definition discovered_keyed (s : St) (m : loc) : Prop :=
  ∀ k d, Obj.get (Meta.discovered (meta s m)) k = Some d →
         DepInfo.id (info s d) = k.

(** A dev server without SSR, without the legacy scanner and without debug
    output. *)
Definition demoEnv : Env :=
  mkEnv false false false false true false "1667433600000" "h0" "b0"
    (λ id, String.prefix "/cache/deps/" id)
    (λ id _, "/cache/deps/" +:+ id +:+ ".js")
    (λ x, "#" +:+ x)
    (λ o, String.concat "," (Obj.keys o))
    (λ o, (λ e, (e.1, default "" (DepInfo.src e.2))) <$> o).

Definition noMeta : MetaVal := mkMetaVal "" "" [] [] [].

Definition bundled (id fileHash browserHash : string) (interop : option bool)
  : DepInfo.t :=
  DepInfo.mk id ("/cache/deps/" +:+ id +:+ ".js") (Some ("/nm/" +:+ id))
    interop (Some browserHash) (Some fileHash) None None.

(** The cache on disk: [vue] is bundled, with one shared chunk. *)
Definition cachedMeta : MetaVal :=
  mkMetaVal "h0" "b0" [("vue", bundled "vue" "f-vue" "b0" (Some false))]
    [("chunk-A", bundled "chunk-A" "f-chunk" "b0" None)] [].

(** Cold start: no cache, nothing in [optimizeDeps.include]. *)
Definition coldState : St :=
  exec (initDepsOptimizer demoEnv None noMeta []) St0.

(** Start from the cache. *)
Definition warmState : St :=
  exec (initDepsOptimizer demoEnv (Some cachedMeta) noMeta []) St0.

(** [lodash] was found missing, the debounce timer expired and the bundler
    is running. *)
Definition bundlingState : St :=
  steps demoEnv
    [CallRegisterMissingImport "lodash" "/nm/lodash" false; TimerFires 0]
    warmState.

(** The bundler's answer when nothing changed for [vue]. *)
Definition sameBundle : MetaVal :=
  mkMetaVal "h0" "b1"
    [("vue", bundled "vue" "f-vue" "b1" (Some false));
     ("lodash", bundled "lodash" "f-lodash" "b1" None)]
    [("chunk-A", bundled "chunk-A" "f-chunk" "b1" None)] [].

(** The bundler's answer when the bundle of [vue] changed. *)
Definition changedBundle : MetaVal :=
  mkMetaVal "h0" "b1"
    [("vue", bundled "vue" "f-vue-2" "b1" (Some false));
     ("lodash", bundled "lodash" "f-lodash" "b1" None)]
    [("chunk-A", bundled "chunk-A" "f-chunk" "b1" None)] [].


(** [lodash] is being bundled and [react] was found missing meanwhile. *)
Definition busyState : St :=
  steps demoEnv [CallRegisterMissingImport "react" "/nm/react" false]
    bundlingState.



(** The state in which [commit()] is awaited after [sameBundle] came
    back. *)
Definition committingState : St :=
  exec (handleEvent demoEnv (BundlerSettles (Some sameBundle))) bundlingState.

Definition committedState : St :=
  exec (commitProcessing true 0 1 false) committingState.

(** The snapshot pointer and the size of the store of snapshots. *)
Definition store_grows (s s' : St) : Prop :=
  _metadata s' = _metadata s ∧ length (metas s) ≤ length (metas s').

(** The same, with the suspended activation left alone. *)
Definition frame_kept (s s' : St) : Prop :=
  store_grows s s' ∧ running s' = running s.

(** [_metadata] points to a snapshot. *)
Definition bounded (s : St) : Prop := _metadata s < length (metas s).

(** A suspended activation holds the snapshot [_metadata] points to, and
    the bundle it is about to commit exists. *)
Definition frame_current (s : St) : Prop :=
  bounded s ∧
  match running s with
  | Some (AwaitScan metadata _) => metadata = _metadata s
  | Some (AwaitBundler _ metadata) => metadata = _metadata s
  | Some (AwaitCommit _ metadata newData _ _) =>
      metadata = _metadata s ∧ newData < length (metas s)
  | None => True
  end.

(** Every snapshot of the store refers to existing objects only, and the
    entries of its [discovered] map sit under their own [id]. *)
Definition store_ok (s : St) : Prop :=
  ∀ m, (∀ l, l ∈ refs (meta s m) → l < length (infos s)) ∧
       discovered_keyed s m.

(** A metadata object whose [discovered] entries sit under their own
    [id]. *)
Definition keyed (v : MetaVal) : Prop :=
  ∀ k i, Obj.get (v_discovered v) k = Some i → DepInfo.id i = k.

(** What the bundler hands over is keyed by id. *)
Definition wf_event (e : Event) : Prop :=
  match e with
  | BundlerSettles (Some v) => keyed v
  | _ => True
  end.

Definition is_commit (f : option Frame) : bool :=
  match f with
  | Some (AwaitCommit _ _ _ _ _) => true
  | _ => false
  end.

(** An activation suspended on [commit()] holds a bundle that is ready to
    be committed over its snapshot. *)
Definition commit_frame_ready (s : St) : Prop :=
  ∀ r md nd mm nr,
    running s = Some (AwaitCommit r md nd mm nr) → commit_ready s md nd.

(** The store is left alone, and no activation comes to wait for a commit
    that did not before. *)
Definition commit_kept (s s' : St) : Prop :=
  metas s' = metas s ∧ infos s' = infos s ∧
  (running s' = running s ∨ is_commit (running s') = false).

Definition no_commit (s s' : St) : Prop :=
  is_commit (running s) = false → is_commit (running s') = false.

(** What holds in every state the optimizer reaches. *)
Definition reachable_ok (s : St) : Prop :=
  frame_current s ∧ store_ok s ∧ commit_frame_ready s.

(** What [logNewlyDiscoveredDeps] writes where line 362 calls it. *)
Definition newDepsLog (env : Env) (s : St) : list Effect :=
  if isDebugEnabled env then []
  else if length (newDepsToLog s) =? 0 then []
  else [LoggerInfoNewDeps (newDepsToLog s)].

(** Is [e] a call of [preTransformOptimizeDepsEntries]? *)
Definition isPreTransform (e : Effect) : bool :=
  match e with PreTransformOptimizeDepsEntries => true | _ => false end.

(** How often [preTransformOptimizeDepsEntries] was called. *)
Definition preTransformCalls (s : St) : nat :=
  length (List.filter isPreTransform (io s)).

(** The calls made, and the one that may still be made. *)
Definition preTransformBudget (s : St) : nat :=
  preTransformCalls s + (if optimizeDepsEntriesVisited s then 0 else 1).

(** The budget does not grow. *)
Definition within_budget (s s' : St) : Prop :=
  preTransformBudget s' ≤ preTransformBudget s.

(** Is [e] the timer of the scan phase? *)
Definition isScanTimer (e : timer * (nat * Callback)) : bool :=
  match e.2.2 with CbScan _ => true | _ => false end.

(** The callbacks of the scan phase that are still to run. *)
Definition scanPending (s : St) : nat :=
  length (List.filter isScanTimer (timers s)).

(** Is [e] a call of [runOptimizeDeps]? *)
Definition isRunOptimizeDeps (e : Effect) : bool :=
  match e with RunOptimizeDeps _ => true | _ => false end.

(** Between [s] and [s'] the bundler was not started. *)
Definition bundler_idle (s s' : St) : Prop :=
  ∃ l, emitted s s' l ∧ Forall (λ e, isRunOptimizeDeps e = false) l.

(** Between [s] and [s'] the executor was left alone: the suspended
    activation, the busy flag, the barrier, its queue and the resolved
    promises are the same, no scan was scheduled and the bundler was not
    started. *)
Definition calm (s s' : St) : Prop :=
  running s' = running s ∧
  currentlyProcessing s' = currentlyProcessing s ∧
  resolved s' = resolved s ∧
  depOptimizationProcessingQueue s' = depOptimizationProcessingQueue s ∧
  depOptimizationProcessing s' = depOptimizationProcessing s ∧
  scanPending s' ≤ scanPending s ∧
  bundler_idle s s'.

(** An event that is not the settling of an awaited promise. *)
Definition settles (e : Event) : bool :=
  match e with
  | ScanSettles _ | BundlerSettles _ | CommitSettles _ => true
  | _ => false
  end.

(** While an activation is suspended, or the scan is still to start, the
    executor is marked busy; and there is at most one of them. *)
Definition exclusive (s : St) : Prop :=
  (running s ≠ None → currentlyProcessing s = true ∧ scanPending s = 0) ∧
  (scanPending s ≠ 0 → currentlyProcessing s = true) ∧
  scanPending s ≤ 1.

(** The busy flag is left alone and no scan is scheduled. *)
Definition busy_kept (s s' : St) : Prop :=
  currentlyProcessing s' = currentlyProcessing s ∧
  scanPending s' ≤ scanPending s.

(** The same, with the suspended activation left alone. *)
Definition frame_busy_kept (s s' : St) : Prop :=
  running s' = running s ∧ busy_kept s s'.

(** The object [registerMissingImport] creates for [id], lines 466-484. *)
Definition missingInfo (env : Env) (s : St) (id resolved : string)
  (ssr : bool) : DepInfo.t :=
  let metadata := meta s (_metadata s) in
  {| DepInfo.id := id;
     DepInfo.file := getOptimizedDepPath env id ssr;
     DepInfo.src := Some resolved;
     DepInfo.needsInterop := None;
     DepInfo.browserHash :=
       Some (getDiscoveredBrowserHash env (Meta.hash metadata)
               (depsFromOptimizedDepInfo env
                  (derefObj s (Meta.optimized metadata)))
               (depsFromOptimizedDepInfo env
                  (derefObj s (Meta.discovered metadata))));
     DepInfo.fileHash := None;
     DepInfo.processing := Some (depOptimizationProcessing s);
     DepInfo.exportsData := Some resolved |}.

(** The rerun that a run starts. *)
Definition started (x z : St) : Prop :=
  firstRunCalled z = true ∧
  (Meta.discovered (meta x (_metadata x)) ≠ [] →
   running z = Some (AwaitBundler (firstRunCalled x) (_metadata x)) ∧
   currentlyProcessing z = true ∧
   ∃ newDeps, io z = io x ++ [RunOptimizeDeps newDeps]) ∧
  (Meta.discovered (meta x (_metadata x)) = [] →
   running z = running x ∧ currentlyProcessing z = false ∧ io z = io x).

(** [lodash] was found missing after a start from the cache; the debounce
    timer is pending. *)
Definition registeredState : St :=
  steps demoEnv [CallRegisterMissingImport "lodash" "/nm/lodash" false]
    warmState.

(** The bundle of [vue] changed and its [commit()] is awaited. *)
Definition reloadingState : St :=
  exec (handleEvent demoEnv (BundlerSettles (Some changedBundle)))
    bundlingState.

(** [lodash] was found missing after a cold start, before the first run. *)
Definition firstState : St :=
  steps demoEnv [CallRegisterMissingImport "lodash" "/nm/lodash" false]
    coldState.

(** A dev server with the legacy scanner. *)
Definition scanEnv : Env :=
  mkEnv false false true false true false "1667433600000" "h0" "b0"
    (λ id, String.prefix "/cache/deps/" id)
    (λ id _, "/cache/deps/" +:+ id +:+ ".js")
    (λ x, "#" +:+ x)
    (λ o, String.concat "," (Obj.keys o))
    (λ o, (λ e, (e.1, default "" (DepInfo.src e.2))) <$> o).

(** The scan of a cold start is under way. *)
Definition scanningState : St :=
  steps scanEnv [TimerFires 0]
    (exec (initDepsOptimizer scanEnv None noMeta []) St0).

(** The waiters, and the rerun that may be enqueued behind them. *)
Definition served_kept (s s' : St) : Prop :=
  waiters_kept s s' ∧ enqueuedRerun s' = enqueuedRerun s.

(** The promise [p] is queued or resolved, and no rerun is enqueued. *)
Definition awaited (p : promise) (s : St) : Prop :=
  waiting p s ∧ enqueuedRerun s = false.

(** The promise [p] is resolved, the resolve-queue is empty and no rerun is
    enqueued. *)
Definition served (p : promise) (s : St) : Prop :=
  p ∈ resolved s ∧ depOptimizationProcessingQueue s = [] ∧
  enqueuedRerun s = false.

(** The promises that are resolved, with the resolve-queue and the enqueued
    rerun left alone. *)
Definition served_grows (s s' : St) : Prop :=
  resolved s ⊆ resolved s' ∧
  depOptimizationProcessingQueue s' = depOptimizationProcessingQueue s ∧
  enqueuedRerun s' = enqueuedRerun s.

(** A computation that keeps an invariant. *)
Definition preserves (I : St → Prop) (s s' : St) : Prop := I s → I s'.

(** Is [e] a rerun timer of [debouncedProcessing]? *)
Definition isDebounceTimer (e : timer * (nat * Callback)) : bool :=
  match e.2.2 with CbDebounce => true | _ => false end.

(** Is [e] a timer of the log of the newly optimized dependencies? *)
Definition isLogTimer (e : timer * (nat * Callback)) : bool :=
  match e.2.2 with CbLogNewDeps => true | _ => false end.

(** The pending timers have distinct ids below [nextTimer]; a pending rerun
    timer is the one [handle] holds, a pending log timer the one
    [newDepsToLogHandle] holds. *)
Definition timers_ok (s : St) : Prop :=
  timers_fresh s ∧ NoDup (timers s).*1 ∧
  (∀ e, e ∈ timers s → isDebounceTimer e = true → handle s = Some e.1) ∧
  (∀ e, e ∈ timers s → isLogTimer e = true →
        newDepsToLogHandle s = Some e.1).

(** The promise of a scan phase that is still to run or under way. *)
Definition scanPromise (s : St) (p : promise) : Prop :=
  (∃ metadata, running s = Some (AwaitScan metadata p)) ∨
  ∃ t ms, (t, (ms, CbScan p)) ∈ timers s.

(** A promise that was created earlier and is not the barrier. *)
Definition former (s : St) (p : promise) : Prop :=
  p < nextPromise s ∧ p ≠ depOptimizationProcessing s.

(** The barrier is the promise created last but for the one of the scan
    phase; the queued promises are distinct former barriers, none of which
    is resolved or belongs to the scan phase. *)
Definition promises_ok (s : St) : Prop :=
  depOptimizationProcessing s < nextPromise s ∧
  NoDup (depOptimizationProcessingQueue s) ∧
  (∀ p, (p ∈ depOptimizationProcessingQueue s ∨ p ∈ resolved s ∨
         scanPromise s p) → former s p) ∧
  (∀ p, p ∈ depOptimizationProcessingQueue s →
        (p ∉ resolved s) ∧ ¬ scanPromise s p).

(** The same, with a promise [p] of the scan phase that the state no longer
    shows. *)
Definition promises_ok_with (p : promise) (s : St) : Prop :=
  promises_ok s ∧ former s p ∧ p ∉ depOptimizationProcessingQueue s.

(** Before the barrier is created. *)
Definition unborn (s : St) : Prop :=
  nextPromise s = 0 ∧ depOptimizationProcessingQueue s = [] ∧
  resolved s = ∅ ∧ timers s = [] ∧ running s = None.

(** What the commit leaves alone. *)
Definition schedule_kept (s s' : St) : Prop :=
  timers s' = timers s ∧ nextTimer s' = nextTimer s ∧
  newDepsToLogHandle s' = newDepsToLogHandle s ∧
  enqueuedRerun s' = enqueuedRerun s ∧ io s' = io s.

(** The metadata object a snapshot of the store stands for. *)
Definition derefMeta (s : St) (m : loc) : MetaVal :=
  mkMetaVal (Meta.hash (meta s m)) (Meta.browserHash (meta s m))
    (derefObj s (Meta.optimized (meta s m)))
    (derefObj s (Meta.chunks (meta s m)))
    (derefObj s (Meta.discovered (meta s m))).

(** What [seedDiscovered] has done once the dependencies [pre] are in:
    [b] is the barrier and [m] the snapshot, whose other maps are empty. *)
Definition seeded (b : promise) (m : loc) (pre : list DepInfo.t) (s : St)
  : Prop :=
  m < length (metas s) ∧
  Meta.optimized (meta s m) = [] ∧ Meta.chunks (meta s m) = [] ∧
  depOptimizationProcessing s = b ∧
  (∀ id l, Obj.get (Meta.discovered (meta s m)) id = Some l →
           l < length (infos s)) ∧
  (∀ id, Obj.get (derefObj s (Meta.discovered (meta s m))) id =
         DepInfo.set_processing (Some b) <$>
         last (filter (λ i, DepInfo.id i = id) pre)).

(** What the seeding leaves alone. *)
Definition seed_kept (s s' : St) : Prop :=
  _metadata s' = _metadata s ∧ firstRunCalled s' = firstRunCalled s ∧
  optimizeDepsEntriesVisited s' = optimizeDepsEntriesVisited s ∧
  running s' = running s ∧ io s' = io s ∧ resolved s' = resolved s ∧
  depOptimizationProcessingQueue s' = depOptimizationProcessingQueue s ∧
  currentlyProcessing s' = currentlyProcessing s ∧
  scanProcessing s' = scanProcessing s ∧ timers s' = timers s ∧
  depOptimizationProcessing s' = depOptimizationProcessing s.

(** What the commit leaves alone of the executor. *)
Definition executor_kept (s s' : St) : Prop :=
  depOptimizationProcessing s' = depOptimizationProcessing s ∧
  nextPromise s' = nextPromise s ∧
  firstRunCalled s' = firstRunCalled s ∧
  enqueuedRerun s' = enqueuedRerun s ∧ io s' = io s.

(** ** The entries that are transformed ahead

    [preTransformOptimizeDepsEntries], lines 603-626. *)

(** [s.slice(n)] for a non-negative [n]. *)
Fixpoint slice (n : nat) (s : string) : string :=
  match n, s with
  | 0, _ => s
  | S n', String _ s' => slice n' s'
  | S _, EmptyString => EmptyString
  end.

Section EntriesModel.

(** [path.posix.join] of the Node library and the constant [FS_PREFIX] of
    the [constants] module. *)
Variable join : string → string.
Variable FS_PREFIX : string.

(** Lines 618-620: the url under which an entry is requested. *)
Definition entryUrl (root entry : string) : string :=
  if String.prefix (root +:+ "/") entry
  then slice (String.length root) entry
  else join (FS_PREFIX +:+ entry).

(** Lines 603-626: the urls handed to [transformRequest], in order.
    [entries] is the truthiness of [config.optimizeDeps.entries] and
    [explicitEntries] what [glob] makes of it. *)
Definition preTransformUrls (root : string) (entries : bool)
  (explicitEntries : list string) : list string :=
  if entries then entryUrl root <$> explicitEntries else [].

End EntriesModel.

(** [react] was found missing while [lodash] was bundled; its debounce
    timer fired, and the bundler's answer for [lodash] is being
    committed. *)
Definition enqueuedState : St :=
  steps demoEnv [TimerFires 1; BundlerSettles (Some sameBundle)] busyState.

(** A rerun is due: it is enqueued behind the run under way, or its timer
    is pending. *)
Definition rerun_due (s : St) : Prop :=
  enqueuedRerun s = true ∨
  ∃ t ms, handle s = Some t ∧ (t, (ms, CbDebounce)) ∈ timers s.

(** While the bundler runs, the first run was called, the snapshot holds
    discovered dependencies, and a rerun is due as soon as one more was
    discovered. *)
Definition followed_up (s : St) : Prop :=
  ∀ isRerun metadata,
    running s = Some (AwaitBundler isRerun metadata) →
    firstRunCalled s = true ∧
    Meta.discovered (meta s (_metadata s)) ≠ [] ∧
    (newDepsDiscovered s = true → rerun_due s).

(** What the idle tracker leaves alone of the executor; timers are only
    added. *)
Definition schedule_extended (s s' : St) : Prop :=
  enqueuedRerun s' = enqueuedRerun s ∧ handle s' = handle s ∧
  newDepsDiscovered s' = newDepsDiscovered s ∧
  firstRunCalled s' = firstRunCalled s ∧
  metas s' = metas s ∧ _metadata s' = _metadata s ∧
  running s' = running s ∧
  ∃ l, timers s' = timers s ++ l.

(** What holds of the schedule in every state the optimizer reaches. *)
Definition schedule_ok (s : St) : Prop :=
  frame_current s ∧ timers_ok s ∧ exclusive s ∧ followed_up s.

(** [react] is found missing once the bundle of [lodash] is committed; its
    debounce timer fired and the bundler is running again. *)
Definition rebundlingState : St :=
  steps demoEnv
    [CommitSettles true; CallRegisterMissingImport "react" "/nm/react" false;
     TimerFires 2] committingState.

(** An answer of the bundler that lacks [vue], with another bundle for
    [lodash]. *)
Definition partialBundle : MetaVal :=
  mkMetaVal "h0" "b2"
    [("lodash", bundled "lodash" "f-lodash-2" "b2" None);
     ("react", bundled "react" "f-react" "b2" None)]
    [] [].








(** * Properties *)

(** ** Dictionaries *)

Module ObjFacts.

Lemma get_replace_eq {V} (o : Obj.t V) k v :
  is_Some (Obj.get o k) → Obj.get (Obj.replace o k v) k = Some v.
Proof.
  induction o as [|[k' v'] o IH]; simpl.
  - by intros [? ?].
  - destruct (decide (k' = k)) as [->|Hne]; simpl.
    + by rewrite decide_True.
    + rewrite decide_False by done. exact IH.
Qed.

Lemma get_replace_ne {V} (o : Obj.t V) k k' v :
  k ≠ k' → Obj.get (Obj.replace o k v) k' = Obj.get o k'.
Proof.
  intros Hne. induction o as [|[k0 v0] o IH]; simpl; [done|].
  destruct (decide (k0 = k)) as [->|Hne0]; simpl.
  - by rewrite !decide_False.
  - by rewrite IH.
Qed.

Lemma get_add_eq {V} (o : Obj.t V) k v :
  Obj.get o k = None → Obj.get (Obj.add o k v) k = Some v.
Proof.
  induction o as [|[k' v'] o IH]; simpl.
  - by rewrite decide_True.
  - destruct (decide (k' = k)) as [->|Hne]; [done|]. intros Hn.
    destruct (Obj.before _ _); simpl.
    + by rewrite decide_True.
    + rewrite decide_False by done. by apply IH.
Qed.

Lemma get_add_ne {V} (o : Obj.t V) k k' v :
  k ≠ k' → Obj.get (Obj.add o k v) k' = Obj.get o k'.
Proof.
  intros Hne. induction o as [|[k0 v0] o IH]; simpl.
  - by rewrite decide_False.
  - destruct (Obj.before _ _); simpl.
    + by rewrite decide_False.
    + by rewrite IH.
Qed.

Lemma get_set_eq {V} (o : Obj.t V) k v : Obj.get (Obj.set o k v) k = Some v.
Proof.
  unfold Obj.set, Obj.has. destruct (Obj.get o k) eqn:E.
  - apply get_replace_eq. by rewrite E.
  - by apply get_add_eq.
Qed.

Lemma get_set_ne {V} (o : Obj.t V) k k' v :
  k ≠ k' → Obj.get (Obj.set o k v) k' = Obj.get o k'.
Proof.
  intros Hne. unfold Obj.set. destruct (Obj.has o k).
  - by apply get_replace_ne.
  - by apply get_add_ne.
Qed.

(** A new key is one more entry; an existing key keeps its place. *)
Lemma add_Permutation {V} (o : Obj.t V) k v : Obj.add o k v ≡ₚ (k, v) :: o.
Proof.
  induction o as [|[k' v'] o IH]; simpl; [done|].
  destruct (Obj.before _ _); [done|]. rewrite IH. apply Permutation_swap.
Qed.

Lemma values_replace {V} (o : Obj.t V) k v x :
  x ∈ Obj.values (Obj.replace o k v) → x = v ∨ x ∈ Obj.values o.
Proof.
  unfold Obj.values. induction o as [|[k' v'] o IH]; simpl.
  - by intros ?%elem_of_nil.
  - destruct (decide (k' = k)) as [->|Hne]; simpl.
    + intros [->|H]%elem_of_cons; [by left|]. right. by right.
    + intros [->|H]%elem_of_cons; [right; by left|].
      destruct (IH H) as [->|?]; [by left|]. right. by right.
Qed.

Lemma values_set {V} (o : Obj.t V) k v x :
  x ∈ Obj.values (Obj.set o k v) → x = v ∨ x ∈ Obj.values o.
Proof.
  unfold Obj.set. destruct (Obj.has o k); [apply values_replace|].
  unfold Obj.values. rewrite add_Permutation. simpl.
  intros [->|H]%elem_of_cons; auto.
Qed.

Lemma set_new {V} (o : Obj.t V) k v :
  Obj.get o k = None → Obj.set o k v = Obj.add o k v.
Proof. intros H. unfold Obj.set, Obj.has. by rewrite H. Qed.

Lemma add_last {V} (o : Obj.t V) k v :
  Obj.arrayIndex k = None → Obj.add o k v = o ++ [(k, v)].
Proof.
  intros H. induction o as [|[k' v'] o IH]; simpl; [done|].
  rewrite H. simpl. by rewrite IH.
Qed.

Lemma index_Own {V} (o : Obj.t V) k v :
  Obj.index o k = Obj.Own v ↔ Obj.get o k = Some v.
Proof.
  unfold Obj.index. destruct (Obj.get o k); [|destruct (Obj.inherited k)];
    split; congruence.
Qed.

Lemma index_Inherited {V} (o : Obj.t V) k :
  Obj.index o k = Obj.Inherited ↔ Obj.get o k = None ∧ Obj.inherited k = true.
Proof.
  unfold Obj.index. destruct (Obj.get o k); [|destruct (Obj.inherited k)];
    split; try congruence; try tauto; by intros [? ?].
Qed.

Lemma index_Undefined {V} (o : Obj.t V) k :
  Obj.index o k = Obj.Undefined ↔
  Obj.get o k = None ∧ Obj.inherited k = false.
Proof.
  unfold Obj.index. destruct (Obj.get o k); [|destruct (Obj.inherited k)];
    split; try congruence; try tauto; by intros [? ?].
Qed.

Lemma get_Some_elem {V} (o : Obj.t V) k v :
  Obj.get o k = Some v → (k, v) ∈ o.
Proof.
  induction o as [|[k0 v0] o IH]; simpl; [done|].
  destruct (decide (k0 = k)) as [->|Hne].
  - intros [= ->]. left.
  - intros H. right. auto.
Qed.

Lemma get_Some_keys {V} (o : Obj.t V) k v :
  Obj.get o k = Some v → k ∈ Obj.keys o.
Proof.
  intros H. apply get_Some_elem in H. unfold Obj.keys.
  apply list_elem_of_fmap. by exists (k, v).
Qed.

Lemma get_Some_values {V} (o : Obj.t V) k v :
  Obj.get o k = Some v → v ∈ Obj.values o.
Proof.
  intros H. apply get_Some_elem in H. unfold Obj.values.
  apply list_elem_of_fmap. by exists (k, v).
Qed.

Lemma keys_get {V} (o : Obj.t V) k :
  k ∈ Obj.keys o → is_Some (Obj.get o k).
Proof.
  induction o as [|[k0 v0] o IH]; simpl.
  - by intros ?%elem_of_nil.
  - intros [->|H]%elem_of_cons.
    + rewrite decide_True; eauto.
    + destruct (decide (k0 = k)); eauto.
Qed.

Lemma get_None_keys {V} (o : Obj.t V) k :
  Obj.get o k = None ↔ k ∉ Obj.keys o.
Proof.
  split.
  - intros H Hin. apply keys_get in Hin as [v Hv]. congruence.
  - intros H. destruct (Obj.get o k) eqn:E; [|done].
    exfalso. apply H. by eapply get_Some_keys.
Qed.

Lemma has_true {V} (o : Obj.t V) k :
  Obj.has o k = true ↔ is_Some (Obj.get o k).
Proof.
  unfold Obj.has. destruct (Obj.get o k); split; try done; eauto.
Qed.

Lemma has_false {V} (o : Obj.t V) k :
  Obj.has o k = false ↔ Obj.get o k = None.
Proof. unfold Obj.has. by destruct (Obj.get o k). Qed.

Lemma keys_nil {V} (o : Obj.t V) : length (Obj.keys o) = 0 → o = [].
Proof. by destruct o. Qed.

End ObjFacts.

(** ** Reasoning about computations in [M]

    A relation between the state before and the state after that is a
    preorder is kept by a computation as soon as each of its steps keeps
    it. *)

Section Steady.

Context (R : St → St → Prop) `{!PreOrder R}.

Definition steady {A} (m : M A) : Prop := ∀ s, R s (m s).2.

Lemma steady_ret {A} (a : A) : steady (ret a).
Proof. intros s. simpl. reflexivity. Qed.

Lemma steady_throw {A} e : steady (@throw A e).
Proof. intros s. simpl. reflexivity. Qed.

Lemma steady_get : steady get.
Proof. intros s. simpl. reflexivity. Qed.

Lemma steady_gets {A} (f : St → A) : steady (gets f).
Proof. intros s. simpl. reflexivity. Qed.

Lemma steady_liftRes {A} (r : Res A) : steady (liftRes r).
Proof. intros s. simpl. reflexivity. Qed.

Lemma steady_bind {A B} (m : M A) (k : A → M B) :
  steady m → (∀ a, steady (k a)) → steady (bind m k).
Proof.
  intros Hm Hk s. unfold bind. specialize (Hm s).
  destruct (m s) as [[a|e] s1]; simpl in *; [|done].
  etrans; [exact Hm|]. apply Hk.
Qed.

Lemma steady_try_catch {A} (m : M A) (h : Exn → M A) :
  steady m → (∀ e, steady (h e)) → steady (try_catch m h).
Proof.
  intros Hm Hh s. unfold try_catch. specialize (Hm s).
  destruct (m s) as [[a|e] s1]; simpl in *; [done|].
  etrans; [exact Hm|]. apply Hh.
Qed.

Lemma steady_when b (m : M unit) : steady m → steady (when b m).
Proof. intros Hm. destruct b; simpl; [done|]. apply steady_ret. Qed.

Lemma steady_forM_ {A} (l : list A) (body : A → M unit) :
  (∀ a, steady (body a)) → steady (forM_ l body).
Proof.
  intros Hb. induction l as [|x l IH]; simpl.
  - apply steady_ret.
  - apply steady_bind; auto.
Qed.

Lemma steady_modify (f : St → St) : (∀ s, R s (f s)) → steady (modify f).
Proof. intros Hf s. apply Hf. Qed.

End Steady.

#[global] Instance keeps_preorder {X} (f : St → X) : PreOrder (keeps f).
Proof.
  split; [by intros s|].
  intros s1 s2 s3 H1 H2. unfold keeps in *. congruence.
Qed.

Ltac unfold_optimizer_base :=
  unfold handleEvent, afterCommit, afterCommit_try, afterBundler,
    afterBundler_try, commitProcessing_begin, runOptimizer_catch,
    commitProcessing, carryDiscovered, keepBrowserHash, writeBack, afterScan,
    seedDiscovered, scanPhase, fireTimer,
    runCallback, doneSettled, afterLoad, delayDepsOptimizerUntil,
    registerWorkersSource, runOptimizerWhenIdle, ensureFirstRun,
    resetRegisteredIds, registerMissingImport, registerMissingImport_body,
    getDepsOptimizer_run, run, debouncedProcessing, runOptimizer_end, rerun,
    runOptimizer, fullReload, logNewlyDiscoveredDeps, debug,
    addOptimizedDepInfo, allocMetaVal, clearIfSet.

Ltac unfold_optimizer :=
  unfold_optimizer_base; unfold resolveEnqueuedProcessingPromises.

(** One step of the decomposition of a [steady] goal along the structure of
    the computation; [tac] closes the goals about single state updates. *)
Ltac steady_step tac :=
  lazymatch goal with
  | |- steady ?R (ret _) => apply (steady_ret R)
  | |- steady ?R (throw _) => apply (steady_throw R)
  | |- steady ?R get => apply (steady_get R)
  | |- steady ?R (gets _) => apply (steady_gets R)
  | |- steady ?R (liftRes _) => apply (steady_liftRes R)
  | |- steady ?R (bind _ _) => apply (steady_bind R); [|intros ?]
  | |- steady ?R (try_catch _ _) => apply (steady_try_catch R); [|intros ?]
  | |- steady ?R (when _ _) => apply (steady_when R)
  | |- steady ?R (forM_ _ _) => apply (steady_forM_ R); intros ?
  | |- steady _ (match ?x with _ => _ end) => destruct x
  | |- steady _ (let _ := _ in _) => cbv zeta
  | |- steady _ _ => let s := fresh "s" in intros s; simpl; tac
  end.

Ltac steady_with tac := repeat (unfold_optimizer; steady_step tac).

Lemma allocObj_keeps {X} (f : St → X) o :
  (∀ v s, f (set_infos v s) = f s) → steady (keeps f) (allocObj o).
Proof.
  intros Hf. induction o as [|[k i] o IH]; simpl.
  - apply (steady_ret _).
  - apply (steady_bind _); [intros s; apply Hf|intros l].
    apply (steady_bind _); [apply IH|intros r]. apply (steady_ret _).
Qed.

Lemma steps_steady (R : St → St → Prop) `{!PreOrder R} env :
  (∀ e, steady R (handleEvent env e)) → ∀ es s, R s (steps env es s).
Proof.
  intros He es. induction es as [|e es IH] using rev_ind; intros s.
  - reflexivity.
  - unfold steps in *. rewrite foldl_app. simpl.
    etrans; [apply IH|]. apply He.
Qed.

(** ** The SSR slot of the metadata query *)

Lemma handleEvent_keeps_ssr env e :
  steady (keeps ssrServerDepsMetadata) (handleEvent env e).
Proof.
  destruct e; steady_with ltac:(reflexivity).
  all: apply allocObj_keeps; done.
Qed.

Lemma initDepsOptimizer_keeps_ssr env cached ssrDeps initialDeps :
  isBuild env = false → config_ssr env = false →
  steady (keeps ssrServerDepsMetadata)
    (initDepsOptimizer env cached ssrDeps initialDeps).
Proof.
  intros Hb Hs. unfold initDepsOptimizer. rewrite Hb, Hs. simpl.
  steady_with ltac:(reflexivity).
  all: apply allocObj_keeps; done.
Qed.

(** C10.  In dev mode, when [config.ssr] is not set, the SSR slot is never
    assigned: [metadata({ssr: true})] is [undefined] after
    [initDepsOptimizer] and stays so whatever happens to the optimizer
    afterwards. *)
Theorem metadata_ssr_undefined env cached ssrDeps initialDeps es :
  isBuild env = false →
  config_ssr env = false →
  metadata env
    (steps env es
       (exec (initDepsOptimizer env cached ssrDeps initialDeps) St0))
    true = None.
Proof.
  intros Hb Hs. unfold metadata. rewrite Hb. simpl.
  pose proof (steps_steady (keeps ssrServerDepsMetadata) env
                (handleEvent_keeps_ssr env) es) as Hsteps.
  rewrite Hsteps.
  apply (initDepsOptimizer_keeps_ssr env cached ssrDeps initialDeps Hb Hs St0).
Qed.


Import ObjFacts.

(** ** The reload decision *)

Lemma fileHashDiffers_true s metadata newData dep :
  fileHashDiffers s metadata newData dep = Ret true ↔
  ∃ o, Obj.get (Meta.optimized (meta s metadata)) dep = Some o ∧
       fileHash_changed s newData dep o.
Proof.
  unfold fileHashDiffers, fileHash_changed, Obj.index.
  destruct (Obj.get (Meta.optimized (meta s metadata)) dep) as [o|];
    [|split; [done|by intros (? & ? & _)]].
  destruct (Obj.get (Meta.optimized (meta s newData)) dep) as [n|].
  - split.
    + intros [= H%bool_decide_eq_true]. exists o. split; [done|]. left. eauto.
    + intros (? & [= <-] & [(? & [= <-] & H)|(? & _)]); [|done].
      by rewrite bool_decide_eq_true_2.
  - destruct (Obj.inherited dep).
    + split.
      * intros [= H%bool_decide_eq_true]. exists o. split; [done|]. by right.
      * intros (? & [= <-] & [(? & ? & _)|(_ & _ & H)]); [done|].
        by rewrite bool_decide_eq_true_2.
    + split; [done|]. by intros (? & _ & [(? & ? & _)|(_ & ? & _)]).
Qed.

Lemma fileHashDiffers_false s metadata newData dep :
  fileHashDiffers s metadata newData dep = Ret false ↔
  ∃ o, Obj.get (Meta.optimized (meta s metadata)) dep = Some o ∧
       fileHash_same s newData dep o.
Proof.
  unfold fileHashDiffers, fileHash_same, Obj.index.
  destruct (Obj.get (Meta.optimized (meta s metadata)) dep) as [o|];
    [|split; [done|by intros (? & ? & _)]].
  destruct (Obj.get (Meta.optimized (meta s newData)) dep) as [n|].
  - split.
    + intros [= H%bool_decide_eq_false]. exists o. split; [done|]. left.
      exists n. split; [done|].
      destruct (decide (DepInfo.fileHash (info s o) =
                        DepInfo.fileHash (info s n))); [done|contradiction].
    + intros (? & [= <-] & [(? & [= <-] & H)|(? & _)]); [|done].
      rewrite bool_decide_eq_false_2; [done|]. intros Hne. by apply Hne.
  - destruct (Obj.inherited dep).
    + split.
      * intros [= H%bool_decide_eq_false]. exists o. split; [done|]. right.
        split; [done|]. split; [done|].
        destruct (decide (DepInfo.fileHash (info s o) = None));
          [done|contradiction].
      * intros (? & [= <-] & [(? & ? & _)|(_ & _ & H)]); [done|].
        rewrite bool_decide_eq_false_2; [done|]. intros Hne. by apply Hne.
    + split; [done|]. by intros (? & _ & [(? & ? & _)|(_ & ? & _)]).
Qed.

Lemma fileHashDiffers_throw s metadata newData dep e :
  fileHashDiffers s metadata newData dep = Throw e ↔
  e = TypeError ∧
  (Obj.get (Meta.optimized (meta s metadata)) dep = None ∨
   Obj.index (Meta.optimized (meta s newData)) dep = Obj.Undefined).
Proof.
  unfold fileHashDiffers.
  destruct (Obj.get (Meta.optimized (meta s metadata)) dep) as [o|].
  - destruct (Obj.index _ dep).
    + split; [done|]. by intros [_ [?|?]].
    + split; [done|]. by intros [_ [?|?]].
    + split; [intros [= <-]; auto|]. by intros [-> _].
  - split; [intros [= <-]; auto|]. by intros [-> _].
Qed.

Lemma someFileHashDiffers_true s metadata newData deps :
  someFileHashDiffers s metadata newData deps = Ret true →
  ∃ dep o,
    dep ∈ deps ∧
    Obj.get (Meta.optimized (meta s metadata)) dep = Some o ∧
    fileHash_changed s newData dep o.
Proof.
  induction deps as [|dep deps IH]; simpl; [done|].
  destruct (fileHashDiffers s metadata newData dep) as [[|]|e] eqn:E; [| |done].
  - intros _. apply fileHashDiffers_true in E as (o & Ho & Hc).
    exists dep, o. split; [left|done].
  - intros H. destruct (IH H) as (dep' & o' & Hin & ?).
    exists dep', o'. split; [by right|done].
Qed.

Lemma someFileHashDiffers_false s metadata newData deps :
  someFileHashDiffers s metadata newData deps = Ret false →
  ∀ dep, dep ∈ deps →
    ∃ o, Obj.get (Meta.optimized (meta s metadata)) dep = Some o ∧
         fileHash_same s newData dep o.
Proof.
  induction deps as [|dep deps IH]; simpl.
  - intros _ dep Hin. by apply elem_of_nil in Hin.
  - destruct (fileHashDiffers s metadata newData dep) as [[|]|e] eqn:E;
      [done| |done].
    intros H dep' [->|Hin]%elem_of_cons; [|by apply IH].
    by apply fileHashDiffers_false.
Qed.

(** The loop throws at the first key that the new map does not know, if no
    key before it made it stop. *)
Lemma someFileHashDiffers_throw s metadata newData deps e :
  (∀ dep, dep ∈ deps →
     is_Some (Obj.get (Meta.optimized (meta s metadata)) dep)) →
  someFileHashDiffers s metadata newData deps = Throw e ↔
  e = TypeError ∧
  ∃ pre dep post,
    deps = pre ++ dep :: post ∧
    Obj.index (Meta.optimized (meta s newData)) dep = Obj.Undefined ∧
    ∀ d o, d ∈ pre →
      Obj.get (Meta.optimized (meta s metadata)) d = Some o →
      fileHash_same s newData d o.
Proof.
  induction deps as [|dep deps IH]; intros Hk; simpl.
  { split; [done|]. intros (_ & pre & d & post & H & _). by destruct pre. }
  assert (∀ dep', dep' ∈ deps →
            is_Some (Obj.get (Meta.optimized (meta s metadata)) dep'))
    as Hk' by (intros dep' Hin; apply Hk; by right).
  destruct (Hk dep) as [o Ho]; [left|].
  destruct (fileHashDiffers s metadata newData dep) as [[|]|e'] eqn:E.
  - split; [done|]. intros (_ & pre & d & post & Hl & Hu & Hpre).
    destruct pre as [|x pre]; simpl in Hl; injection Hl as <- Hl.
    + apply fileHashDiffers_true in E as (o' & _ & [(n & Hn & _)|(_ & Hi & _)]);
        apply index_Undefined in Hu as [? ?]; congruence.
    + apply fileHashDiffers_true in E as (o' & Ho' & Hc).
      specialize (Hpre dep o' ltac:(left) Ho').
      destruct Hc as [(n & Hn & Hne)|(Hn & _ & Hne)],
               Hpre as [(n' & Hn' & Heq)|(Hn' & _ & Heq)]; congruence.
  - rewrite (IH Hk'). split.
    + intros (-> & pre & d & post & -> & Hu & Hpre). split; [done|].
      exists (dep :: pre), d, post. split; [done|]. split; [done|].
      intros d' o' [->|Hin]%elem_of_cons Ho'; [|by eapply Hpre].
      apply fileHashDiffers_false in E as (o'' & Ho'' & Hs). congruence.
    + intros (-> & pre & d & post & Hl & Hu & Hpre). split; [done|].
      destruct pre as [|x pre]; simpl in Hl; injection Hl as <- Hl.
      * apply fileHashDiffers_false in E
          as (o' & _ & [(n & Hn & _)|(_ & Hi & _)]);
          apply index_Undefined in Hu as [? ?]; congruence.
      * exists pre, d, post. split; [done|]. split; [done|].
        intros d' o' Hin. apply Hpre. by right.
  - apply fileHashDiffers_throw in E as [-> [E|E]]; [congruence|].
    split.
    + intros [= <-]. split; [done|]. exists [], dep, deps.
      split; [done|]. split; [done|]. intros d o' Hin. by apply elem_of_nil in Hin.
    + by intros [-> _].
Qed.


Lemma elem_of_needsInteropMismatch s metadata newData dep :
  dep ∈ needsInteropMismatch s metadata newData ↔
  ∃ d o,
    Obj.get (Meta.discovered (meta s metadata)) dep = Some d ∧
    Obj.get (Meta.optimized (meta s newData)) dep = Some o ∧
    DepInfo.needsInterop (info s d) ≠ None ∧
    DepInfo.needsInterop (info s o) ≠ DepInfo.needsInterop (info s d).
Proof.
  unfold needsInteropMismatch.
  rewrite list_elem_of_In, filter_In, <- list_elem_of_In.
  unfold interopMismatch. split.
  - intros [Hin H].
    destruct (Obj.get (Meta.discovered _) dep) as [d|]; [|done].
    destruct (Obj.get (Meta.optimized _) dep) as [o|]; [|done].
    apply andb_true_iff in H as [H1 H2].
    apply bool_decide_eq_true in H1, H2. by exists d, o.
  - intros (d & o & Hd & Ho & H1 & H2). split.
    + by eapply get_Some_keys.
    + rewrite Hd, Ho. apply andb_true_iff.
      split; by apply bool_decide_eq_true.
Qed.

(** C1, amended.  For a bundle that holds every id of the old snapshot
    that names a member of [Object.prototype] (an index read finds that
    member for an id the bundle lacks): the interop-mismatch set holds the
    ids that are in the old [discovered] map and in the new [optimized]
    map, whose old [needsInterop] is defined and differs from the new one.
    Whenever the executor obtains a value for [needsReload], that value is
    [true] exactly when the mismatch set is non-empty, or the two [hash]es
    differ, or some id of the old [optimized] map has an entry in the new
    one with a different [fileHash].  No value is obtained, and a
    [TypeError] is thrown, exactly when the mismatch set is empty, the
    [hash]es agree and the first id of the old [optimized] map that the new
    one lacks comes before any whose [fileHash] differs. *)
Theorem needsReload_iff s metadata newData :
  (∀ dep,
     dep ∈ Obj.keys (Meta.discovered (meta s metadata)) ∨
     dep ∈ Obj.keys (Meta.optimized (meta s metadata)) →
     Obj.inherited dep = true →
     is_Some (Obj.get (Meta.optimized (meta s newData)) dep)) →
  let mismatch := needsInteropMismatch s metadata newData in
  (∀ dep,
     dep ∈ mismatch ↔
     ∃ d o,
       Obj.get (Meta.discovered (meta s metadata)) dep = Some d ∧
       Obj.get (Meta.optimized (meta s newData)) dep = Some o ∧
       DepInfo.needsInterop (info s d) ≠ None ∧
       DepInfo.needsInterop (info s o) ≠ DepInfo.needsInterop (info s d)) ∧
  (∀ b, needsReload s metadata newData mismatch = Ret b →
     (b = true ↔
        mismatch ≠ [] ∨
        Meta.hash (meta s metadata) ≠ Meta.hash (meta s newData) ∨
        ∃ dep o n,
          Obj.get (Meta.optimized (meta s metadata)) dep = Some o ∧
          Obj.get (Meta.optimized (meta s newData)) dep = Some n ∧
          DepInfo.fileHash (info s o) ≠ DepInfo.fileHash (info s n))) ∧
  (∀ e, needsReload s metadata newData mismatch = Throw e ↔
     e = TypeError ∧ mismatch = [] ∧
     Meta.hash (meta s metadata) = Meta.hash (meta s newData) ∧
     ∃ pre dep post,
       Obj.keys (Meta.optimized (meta s metadata)) = pre ++ dep :: post ∧
       Obj.get (Meta.optimized (meta s newData)) dep = None ∧
       ∀ d o, d ∈ pre →
         Obj.get (Meta.optimized (meta s metadata)) d = Some o →
         ∃ n, Obj.get (Meta.optimized (meta s newData)) d = Some n ∧
              DepInfo.fileHash (info s o) = DepInfo.fileHash (info s n)).
Proof.
  intros Hplain mismatch. split; [apply elem_of_needsInteropMismatch|].
  assert (∀ dep o,
            Obj.get (Meta.optimized (meta s metadata)) dep = Some o →
            Obj.get (Meta.optimized (meta s newData)) dep = None →
            Obj.inherited dep = false) as Hown.
  { intros dep o Ho Hn. destruct (Obj.inherited dep) eqn:Hi; [|done].
    destruct (Hplain dep) as [n Hn']; [|done|congruence].
    right. by eapply get_Some_keys. }
  assert (∀ dep o, Obj.get (Meta.optimized (meta s metadata)) dep = Some o →
            (fileHash_changed s newData dep o ↔
             ∃ n, Obj.get (Meta.optimized (meta s newData)) dep = Some n ∧
                  DepInfo.fileHash (info s o) ≠ DepInfo.fileHash (info s n)))
    as Hch.
  { intros dep o Ho. split; [|by left].
    intros [H|(Hn & Hi & _)]; [done|].
    rewrite (Hown dep o Ho Hn) in Hi. done. }
  assert (∀ dep o, Obj.get (Meta.optimized (meta s metadata)) dep = Some o →
            (fileHash_same s newData dep o ↔
             ∃ n, Obj.get (Meta.optimized (meta s newData)) dep = Some n ∧
                  DepInfo.fileHash (info s o) = DepInfo.fileHash (info s n)))
    as Hsm.
  { intros dep o Ho. split; [|by left].
    intros [H|(Hn & Hi & _)]; [done|].
    rewrite (Hown dep o Ho Hn) in Hi. done. }
  unfold needsReload. split.
  - intros b H.
    destruct mismatch as [|x l] eqn:Em; simpl in H.
    2:{ injection H as <-. split; [intros _; by left|done]. }
    case_bool_decide as Hh.
    { injection H as <-. split; [intros _; right; by left|done]. }
    split.
    + intros ->. right. right.
      apply someFileHashDiffers_true in H as (dep & o & _ & Ho & Hc).
      apply Hch in Hc as (n & Hn & Hne); [|done]. by exists dep, o, n.
    + intros [?|[?|(dep & o & n & Ho & Hn & Hne)]]; [done|done|].
      destruct b; [done|].
      eapply someFileHashDiffers_false in H as (o' & Ho' & Hs);
        [|by eapply get_Some_keys].
      apply Hsm in Hs as (n' & Hn' & Heq); [|done]. congruence.
  - intros e.
    destruct mismatch as [|x l] eqn:Em; simpl.
    2:{ split; [done|]. by intros (_ & ? & _). }
    case_bool_decide as Hh.
    { split; [done|]. intros (_ & _ & ? & _). done. }
    rewrite someFileHashDiffers_throw by (intros dep; apply keys_get).
    assert (Meta.hash (meta s metadata) = Meta.hash (meta s newData)) as Heq.
    { destruct (decide (Meta.hash (meta s metadata) =
                        Meta.hash (meta s newData))); [done|contradiction]. }
    split.
    + intros (-> & pre & dep & post & Hl & Hu%index_Undefined & Hpre).
      destruct Hu as [? ?].
      split; [done|]. split; [done|]. split; [done|].
      exists pre, dep, post. split; [done|]. split; [done|].
      intros d o Hd Ho. apply Hsm; [done|]. by apply Hpre.
    + intros (-> & _ & _ & pre & dep & post & Hl & Hn & Hpre).
      split; [done|]. exists pre, dep, post. split; [done|].
      split.
      * apply index_Undefined. split; [done|].
        destruct (keys_get (Meta.optimized (meta s metadata)) dep) as [o Ho].
        { rewrite Hl, elem_of_app. right. left. }
        by apply (Hown dep o).
      * intros d o Hd Ho. apply Hsm; [done|]. by apply Hpre.
Qed.


(** ** Allocation *)

Lemma allocObj_run o s :
  allocObj o s =
    (Ret (freshRefs o (length (infos s))),
     set_infos (infos s ++ Obj.values o) s).
Proof.
  revert s. induction o as [|[k i] o IH]; intros s.
  - simpl. unfold ret, freshRefs. simpl. rewrite app_nil_r. by destruct s.
  - simpl. unfold bind, allocInfo. rewrite IH. simpl.
    unfold ret, freshRefs. simpl. rewrite length_app. simpl.
    rewrite Nat.add_1_r. rewrite <- app_assoc. done.
Qed.

Lemma allocMetaVal_run v s :
  allocMetaVal v s =
    (Ret (length (metas s)),
     set_metas
       (metas s ++
          [Meta.mk (v_hash v) (v_browserHash v)
             (freshRefs (v_optimized v) (length (infos s)))
             (freshRefs (v_chunks v)
                (length (infos s) + length (v_optimized v)))
             (freshRefs (v_discovered v)
                (length (infos s) + length (v_optimized v) +
                 length (v_chunks v)))])
       (set_infos
          (infos s ++ Obj.values (v_optimized v) ++ Obj.values (v_chunks v) ++
           Obj.values (v_discovered v)) s)).
Proof.
  unfold allocMetaVal, bind. rewrite !allocObj_run. simpl.
  unfold allocMeta. simpl. unfold Obj.values.
  rewrite !length_app, !length_fmap, <- !app_assoc. done.
Qed.

Lemma freshRefs_get {V} (o : Obj.t V) n k :
  match Obj.get (freshRefs o n) k with
  | Some l => n ≤ l < n + length o ∧ Obj.values o !! (l - n) = Obj.get o k
  | None => Obj.get o k = None
  end.
Proof.
  revert n. induction o as [|[k0 v0] o IH]; intros n; simpl; [done|].
  destruct (decide (k0 = k)) as [->|Hne].
  - split; [lia|]. by rewrite Nat.sub_diag.
  - specialize (IH (S n)). unfold freshRefs in IH.
    destruct (Obj.get (zip _ _) k) as [l|]; [|done].
    destruct IH as [Hr Hv]. split; [lia|].
    replace (l - n) with (S (l - S n)) by lia. done.
Qed.

Lemma freshRefs_keys {V} (o : Obj.t V) n : Obj.keys (freshRefs o n) = Obj.keys o.
Proof.
  unfold freshRefs, Obj.keys. rewrite fst_zip; [done|].
  by rewrite length_seq, length_fmap.
Qed.

Lemma freshRefs_values {V} (o : Obj.t V) n :
  Obj.values (freshRefs o n) = seq n (length o).
Proof.
  unfold freshRefs, Obj.values, Obj.keys. rewrite snd_zip; [done|].
  by rewrite length_seq, length_fmap.
Qed.

(** ** What a computation does not send *)

#[global] Instance quiet_preorder bad : PreOrder (quiet bad).
Proof.
  split.
  - intros s. exists []. unfold emitted. rewrite app_nil_r.
    split; [done|]. intros e _. apply not_elem_of_nil.
  - intros s1 s2 s3 (l1 & E1 & A1) (l2 & E2 & A2).
    exists (l1 ++ l2). unfold emitted in *. rewrite E2, E1, app_assoc.
    split; [done|]. intros e He. rewrite elem_of_app.
    specialize (A1 e He). specialize (A2 e He). tauto.
Qed.

#[global] Instance no_reload_preorder : PreOrder no_reload.
Proof. unfold no_reload. apply _. Qed.

Lemma quiet_same bad s s' : io s' = io s → quiet bad s s'.
Proof.
  intros H. exists []. unfold emitted. rewrite app_nil_r.
  split; [done|]. intros e _. apply not_elem_of_nil.
Qed.

Lemma quiet_emit bad s s' e : io s' = io s ++ [e] → e ∉ bad → quiet bad s s'.
Proof.
  intros H Hbad. exists [e]. split; [done|].
  intros e' He' ->%list_elem_of_singleton. done.
Qed.

(** [e ∉ bad] for an effect and a list that are given by their
    constructors. *)
Ltac not_bad :=
  rewrite ?not_elem_of_cons; repeat split; try discriminate;
  apply not_elem_of_nil.

Ltac quiet_tac :=
  first [ apply quiet_same; reflexivity
        | eapply quiet_emit; [reflexivity|not_bad] ].

Lemma allocObj_quiet bad o : steady (quiet bad) (allocObj o).
Proof. intros s. rewrite allocObj_run. by apply quiet_same. Qed.

Lemma afterCommit_no_reload env isRerun metadata newData mismatch ok :
  steady no_reload (afterCommit env isRerun metadata newData mismatch false ok).
Proof.
  unfold afterCommit, afterCommit_try, no_reload. cbn [negb].
  steady_with quiet_tac.
Qed.

(** ** The executor after the bundler returned *)

Lemma fresh_lookup {V} `{!Inhabited V} (o : Obj.t V) (pre post : list V) k l :
  Obj.get (freshRefs o (length pre)) k = Some l →
  ∃ i, Obj.get o k = Some i ∧ (pre ++ Obj.values o ++ post) !!! l = i ∧
       length pre ≤ l < length pre + length o.
Proof.
  intros H. pose proof (freshRefs_get o (length pre) k) as Hf.
  rewrite H in Hf. destruct Hf as [Hr Hv].
  destruct (Obj.get o k) as [i|] eqn:Ei.
  2:{ apply lookup_ge_None in Hv. unfold Obj.values in Hv.
      rewrite length_fmap in Hv. lia. }
  exists i. split; [done|]. split; [|done].
  rewrite lookup_total_app_r by lia.
  rewrite lookup_total_app_l by (unfold Obj.values; rewrite length_fmap; lia).
  by apply list_lookup_total_correct.
Qed.


Section AfterAlloc.

Context (v : MetaVal) (s : St).
Let s1 := afterAlloc v s.
Let newData := length (metas s).

Lemma afterAlloc_meta_old m : m < length (metas s) → meta s1 m = meta s m.
Proof.
  intros H. unfold s1, afterAlloc, exec. rewrite allocMetaVal_run. simpl.
  unfold meta. simpl. by rewrite lookup_total_app_l.
Qed.

Lemma afterAlloc_info_old l : l < length (infos s) → info s1 l = info s l.
Proof.
  intros H. unfold s1, afterAlloc, exec. rewrite allocMetaVal_run. simpl.
  unfold info. simpl. by rewrite lookup_total_app_l.
Qed.





End AfterAlloc.


Lemma allocated_chunks s m k l :
  allocated s m → Obj.get (Meta.chunks (meta s m)) k = Some l →
  l < length (infos s).
Proof.
  intros [_ H] Hg. rewrite Forall_forall in H. apply H.
  unfold refs. rewrite !elem_of_app. right. left. by eapply get_Some_values.
Qed.


Lemma afterBundler_try_run env isRerun metadata v s :
  let s1 := afterAlloc v s in
  let newData := length (metas s) in
  let mismatch := needsInteropMismatch s1 metadata newData in
  afterBundler_try env isRerun metadata (Some v) s =
    match needsReload s1 metadata newData mismatch with
    | Ret false =>
        commitProcessing_begin isRerun metadata newData mismatch false s1
    | Ret true =>
        if newDepsDiscovered s1 then
          (emit ResultCancel ;;
           debug env "delaying reload as new dependencies have been found..." ;;
           ret false) s1
        else commitProcessing_begin isRerun metadata newData mismatch true s1
    | Throw e => (Throw e, s1)
    end.
Proof.
  unfold afterBundler_try, afterAlloc, exec.
  unfold bind at 1. rewrite allocMetaVal_run. cbn [fst snd].
  unfold bind at 1. unfold get at 1. unfold bind at 1. unfold liftRes at 1.
  destruct (needsReload _ _ _ _) as [[|]|e]; try reflexivity.
  cbn [negb]. unfold bind at 1. unfold gets. cbn beta iota.
  by destruct (newDepsDiscovered _).
Qed.


(** ** The idle tracker *)

Lemma pop_snoc {A} (l : list A) x : pop (l ++ [x]) = (Some x, l).
Proof. unfold pop. by rewrite last_snoc, removelast_last. Qed.

Lemma pop_nil {A} : pop (@nil A) = (None, []).
Proof. done. Qed.

(** [runOptimizerWhenIdle] when nothing is awaited: the entry registered
    last is taken off the stack and its [done] is called. *)
Lemma runOptimizerWhenIdle_pop s l id done :
  truthy (waitingOn s) = false →
  registeredIds s = l ++ [(id, done)] →
  runOptimizerWhenIdle s =
    (Ret tt,
     set_io (io s ++ [CallDone id done])
       (set_waitingOn (Some id) (set_registeredIds l s))).
Proof.
  intros Hw Hr. unfold runOptimizerWhenIdle, bind, gets, when. simpl.
  rewrite Hw. simpl. rewrite Hr, pop_snoc. reflexivity.
Qed.

(** While an id is awaited the stack is left alone. *)
Lemma runOptimizerWhenIdle_busy s :
  truthy (waitingOn s) = true → runOptimizerWhenIdle s = (Ret tt, s).
Proof.
  intros Hw. unfold runOptimizerWhenIdle, bind, gets, when. simpl.
  by rewrite Hw.
Qed.

Lemma visitEntries_run env s :
  let s' := exec (visitEntries env) s in
  visitEntries env s = (Ret tt, s') ∧
  registeredIds s' = registeredIds s ∧ seenIds s' = seenIds s ∧
  waitingOn s' = waitingOn s ∧ emitted s s' (preTransform env s).
Proof.
  unfold exec, visitEntries, preTransform, emitted, bind, gets, when. simpl.
  destruct (server env && negb (optimizeDepsEntriesVisited s)); simpl.
  - done.
  - by rewrite app_nil_r.
Qed.

Lemma delayDepsOptimizerUntil_ignored env s id done :
  isOptimizedDepFile env id = true ∨ id ∈ seenIds s →
  delayDepsOptimizerUntil env id done s = visitEntries env s.
Proof.
  intros Hg. unfold delayDepsOptimizerUntil.
  unfold bind at 1. unfold gets at 1. cbn beta iota.
  assert (negb (isOptimizedDepFile env id) &&
          negb (bool_decide (id ∈ seenIds s)) = false) as ->.
  { destruct Hg as [->|Hin]; [done|].
    rewrite bool_decide_eq_true_2 by done. apply andb_false_r. }
  reflexivity.
Qed.

Lemma delayDepsOptimizerUntil_registered env s id done :
  isOptimizedDepFile env id = false → id ∉ seenIds s →
  delayDepsOptimizerUntil env id done s =
    visitEntries env
      (exec runOptimizerWhenIdle
         (set_registeredIds (registeredIds s ++ [(id, done)])
            (set_seenIds ({[id]} ∪ seenIds s) s))).
Proof.
  intros Hf Hs. unfold delayDepsOptimizerUntil.
  unfold bind at 1. unfold gets at 1. cbn beta iota.
  rewrite Hf, bool_decide_eq_false_2 by done. cbn [negb andb when].
  unfold bind at 1. unfold bind at 1. unfold bind at 1.
  unfold modify at 1 2. cbn beta iota. unfold exec.
  cbn [registeredIds set_seenIds].
  destruct (truthy (waitingOn s)) eqn:Hw.
  - by rewrite runOptimizerWhenIdle_busy by (simpl; done).
  - by erewrite runOptimizerWhenIdle_pop by (simpl; done).
Qed.


(** ** The discovery registry *)

Lemma set_io_same s : set_io (io s) s = s.
Proof. by destruct s. Qed.

Lemma registerMissingImport_split env s id resolved ssr :
  registerMissingImport env id resolved ssr s =
    registerMissingImport_body env id resolved ssr
      (set_io (io s ++ registrationLog env s id ssr) s).
Proof.
  unfold registerMissingImport, registrationLog.
  unfold bind at 1. unfold gets at 1. cbn beta iota.
  destruct (bool_decide (is_Some (scanProcessing s)));
    destruct (negb (isBuild env) && ssr);
    unfold when, bind at 1 2, emit, modify, ret; cbn beta iota;
    cbn [io set_io]; rewrite <- ?app_assoc, ?app_nil_r, ?set_io_same;
    reflexivity.
Qed.

Lemma knownEntry_None s id :
  knownEntry s id = None ↔
  Obj.inherited id = false ∧
  Obj.get (Meta.optimized (meta s (_metadata s))) id = None ∧
  Obj.get (Meta.chunks (meta s (_metadata s))) id = None ∧
  Obj.get (Meta.discovered (meta s (_metadata s))) id = None.
Proof.
  unfold knownEntry, Obj.index.
  destruct (Obj.get (Meta.optimized _) id), (Obj.get (Meta.chunks _) id),
    (Obj.get (Meta.discovered _) id), (Obj.inherited id);
    split; try done; intros (? & ? & ? & ?); done.
Qed.

Lemma registerMissingImport_body_known env s id resolved ssr r :
  knownEntry s id = Some r →
  registerMissingImport_body env id resolved ssr s = (Ret r, s).
Proof.
  unfold knownEntry, registerMissingImport_body. intros Hk.
  unfold bind, gets, get. cbn beta iota.
  destruct (Obj.index (Meta.optimized _) id) as [o| |];
    [by injection Hk as <-..|].
  destruct (Obj.index (Meta.chunks _) id) as [c| |];
    [by injection Hk as <-..|].
  destruct (Obj.index (Meta.discovered _) id) as [d| |];
    [by injection Hk as <-..|done].
Qed.

Lemma registerMissingImport_known env s id resolved ssr r :
  knownEntry s id = Some r →
  registerMissingImport env id resolved ssr s =
    (Ret r, set_io (io s ++ registrationLog env s id ssr) s).
Proof.
  intros Hk. rewrite registerMissingImport_split.
  by apply registerMissingImport_body_known.
Qed.



Lemma knownEntry_set_io s l id : knownEntry (set_io l s) id = knownEntry s id.
Proof. done. Qed.


(** ** The resolve-queue *)

Lemma elem_of_resolveAll q r p : p ∈ resolveAll q r ↔ p ∈ q ∨ p ∈ r.
Proof.
  revert r. induction q as [|x q IH]; intros r; simpl.
  - rewrite elem_of_nil. tauto.
  - unfold resolveAll in *. simpl.
    rewrite IH, elem_of_cons, elem_of_union, elem_of_singleton. tauto.
Qed.

Lemma forM_resolve_run q s :
  forM_ q resolve s = (Ret tt, set_resolved (resolveAll q (resolved s)) s).
Proof.
  revert s. induction q as [|x q IH]; intros s; simpl.
  - unfold ret. by destruct s.
  - unfold bind, resolve, modify. rewrite IH. done.
Qed.

Lemma resolveEnqueuedProcessingPromises_run s :
  resolveEnqueuedProcessingPromises s =
    (Ret tt,
     set_depOptimizationProcessingQueue []
       (set_resolved
          (resolveAll (depOptimizationProcessingQueue s) (resolved s)) s)).
Proof.
  unfold resolveEnqueuedProcessingPromises, bind, gets, modify.
  by rewrite forM_resolve_run.
Qed.

#[global] Instance waiters_kept_preorder : PreOrder waiters_kept.
Proof.
  split.
  - by intros s p.
  - intros s1 s2 s3 H1 H2 p Hp. apply H2, H1, Hp.
Qed.

Lemma waiters_kept_same s s' :
  depOptimizationProcessingQueue s' = depOptimizationProcessingQueue s →
  resolved s' = resolved s → waiters_kept s s'.
Proof. intros Hq Hr p. by rewrite Hq, Hr. Qed.

Lemma waiters_kept_grow s s' :
  (∀ p, p ∈ depOptimizationProcessingQueue s →
        p ∈ depOptimizationProcessingQueue s') →
  (∀ p, p ∈ resolved s → p ∈ resolved s') → waiters_kept s s'.
Proof. intros Hq Hr p [H|H]; auto. Qed.

Lemma resolveEnqueuedProcessingPromises_waiters :
  steady waiters_kept resolveEnqueuedProcessingPromises.
Proof.
  intros s p Hp. rewrite resolveEnqueuedProcessingPromises_run. simpl.
  right. apply elem_of_resolveAll. tauto.
Qed.

Ltac waiters_tac :=
  first
    [ apply waiters_kept_same; reflexivity
    | apply resolveEnqueuedProcessingPromises_waiters
    | (apply waiters_kept_grow; simpl; intros ?;
       rewrite ?elem_of_app, ?elem_of_union; tauto) ].

Ltac steady_keeping_queue tac :=
  repeat (unfold_optimizer_base; steady_step tac).

Lemma allocObj_waiters o : steady waiters_kept (allocObj o).
Proof. intros s. rewrite allocObj_run. by apply waiters_kept_same. Qed.

Lemma handleEvent_waiters env e : steady waiters_kept (handleEvent env e).
Proof.
  destruct e; steady_keeping_queue waiters_tac.
  all: try apply allocObj_waiters.
Qed.

(** ** A rerun that fails *)

Lemma runOptimizer_empty s :
  Meta.discovered (meta s (_metadata s)) = [] →
  ∃ s',
    runOptimizer s = (Ret tt, s') ∧
    metas s' = metas s ∧ infos s' = infos s ∧ _metadata s' = _metadata s ∧
    depOptimizationProcessingQueue s' = depOptimizationProcessingQueue s ∧
    resolved s' = resolved s ∧ io s' = io s.
Proof.
  intros He. unfold runOptimizer. unfold meta in He.
  unfold bind at 1. unfold gets at 1. cbn beta iota.
  unfold bind at 1. unfold modify at 1. cbn beta iota.
  unfold bind at 1. unfold modify at 1. cbn beta iota.
  unfold bind at 1. unfold gets at 1. cbn beta iota.
  cbn [handle set_enqueuedRerun set_firstRunCalled].
  unfold bind at 1.
  destruct (handle s) as [t|]; simpl;
    unfold bind, gets, meta; simpl; rewrite He; simpl;
    eexists; (split; [reflexivity|]); simpl; done.
Qed.

(** C4.  When the bundler rejects, every promise of the resolve-queue is
    resolved and the queue is empty, the [discovered] map is empty, and
    [_metadata] points to the snapshot it pointed to before, whose
    [optimized] and [chunks] are untouched. *)
Theorem bundler_failure env s isRerun :
  running s = Some (AwaitBundler isRerun (_metadata s)) →
  _metadata s < length (metas s) →
  let s' := exec (handleEvent env (BundlerSettles None)) s in
  (∀ p, p ∈ depOptimizationProcessingQueue s → p ∈ resolved s') ∧
  depOptimizationProcessingQueue s' = [] ∧
  Meta.discovered (meta s' (_metadata s')) = [] ∧
  _metadata s' = _metadata s ∧
  Meta.optimized (meta s' (_metadata s')) =
    Meta.optimized (meta s (_metadata s)) ∧
  Meta.chunks (meta s' (_metadata s')) = Meta.chunks (meta s (_metadata s)).
Proof.
  intros Hrun Hlt s'.
  cut (∃ r s3, handleEvent env (BundlerSettles None) s = (r, s3) ∧
    (∀ p, p ∈ depOptimizationProcessingQueue s → p ∈ resolved s3) ∧
    depOptimizationProcessingQueue s3 = [] ∧
    Meta.discovered (meta s3 (_metadata s3)) = [] ∧
    _metadata s3 = _metadata s ∧
    Meta.optimized (meta s3 (_metadata s3)) =
      Meta.optimized (meta s (_metadata s)) ∧
    Meta.chunks (meta s3 (_metadata s3)) = Meta.chunks (meta s (_metadata s))).
  { intros (r & s3 & Heq & H). unfold s', exec. by rewrite Heq. }
  clear s'. unfold handleEvent.
  unfold bind at 1. unfold gets at 1. cbn beta iota. rewrite Hrun.
  unfold afterBundler, try_catch, afterBundler_try.
  unfold bind at 1. unfold throw at 1. cbn beta iota.
  unfold bind at 1. unfold runOptimizer_catch.
  unfold bind at 1. unfold emit at 1, modify at 1. cbn beta iota.
  unfold bind at 1. rewrite resolveEnqueuedProcessingPromises_run.
  cbn beta iota. unfold modify_meta at 1, modify at 1. cbn beta iota.
  unfold ret at 1. cbn beta iota. cbn [negb when].
  set (s1 := set_metas _ _).
  assert (metas s1 =
            <[_metadata s := Meta.set_discovered [] (meta s (_metadata s))]>
              (metas s)) as Hm1 by done.
  assert (_metadata s1 = _metadata s) as Hp1 by done.
  assert (depOptimizationProcessingQueue s1 = []) as Hq1 by done.
  assert (resolved s1 =
            resolveAll (depOptimizationProcessingQueue s) (resolved s))
    as Hr1 by done.
  clearbody s1.
  unfold runOptimizer_end.
  unfold bind at 1. unfold modify at 1. cbn beta iota.
  unfold bind at 1. unfold modify at 1. cbn beta iota.
  unfold bind at 1. unfold gets at 1. cbn beta iota.
  set (s2 := set_currentlyProcessing _ _).
  assert (metas s2 = metas s1) as Hm2 by done.
  assert (_metadata s2 = _metadata s1) as Hp2 by done.
  assert (depOptimizationProcessingQueue s2 = []) as Hq2 by done.
  assert (resolved s2 = resolved s1) as Hr2 by done.
  clearbody s2.
  assert (∀ s3, metas s3 = metas s2 → _metadata s3 = _metadata s2 →
                depOptimizationProcessingQueue s3 = [] →
                resolved s3 = resolved s2 →
    (∀ p, p ∈ depOptimizationProcessingQueue s → p ∈ resolved s3) ∧
    depOptimizationProcessingQueue s3 = [] ∧
    Meta.discovered (meta s3 (_metadata s3)) = [] ∧
    _metadata s3 = _metadata s ∧
    Meta.optimized (meta s3 (_metadata s3)) =
      Meta.optimized (meta s (_metadata s)) ∧
    Meta.chunks (meta s3 (_metadata s3)) = Meta.chunks (meta s (_metadata s)))
    as Hfin.
  { intros s3 Hm3 Hp3 Hq3 Hr3. split.
    { intros p Hp. rewrite Hr3, Hr2, Hr1. apply elem_of_resolveAll. tauto. }
    split; [done|]. unfold meta.
    rewrite Hm3, Hp3, Hm2, Hp2, Hm1, Hp1.
    rewrite list_lookup_total_insert_eq by done. done. }
  destruct (enqueuedRerun s2); cbn [when].
  - unfold rerun. unfold bind at 1.
    assert (∃ sd, debug env "new dependencies found" s2 = (Ret tt, sd) ∧
                  metas sd = metas s2 ∧ _metadata sd = _metadata s2 ∧
                  depOptimizationProcessingQueue sd =
                    depOptimizationProcessingQueue s2 ∧
                  resolved sd = resolved s2)
      as (sd & -> & Hmd & Hpd & Hqd & Hrd).
    { unfold debug. destruct (isDebugEnabled env); simpl;
        (eexists; split; [reflexivity|done]). }
    assert (Meta.discovered (meta sd (_metadata sd)) = []) as Hed.
    { unfold meta. rewrite Hmd, Hpd, Hm2, Hp2, Hm1, Hp1.
      by rewrite list_lookup_total_insert_eq. }
    destruct (runOptimizer_empty sd Hed) as (s3 & -> & ? & ? & ? & ? & ? & ?).
    do 2 eexists. split; [reflexivity|]. apply Hfin; congruence.
  - do 2 eexists. split; [reflexivity|]. by apply Hfin.
Qed.

(** ** Pre- and postconditions

    [hoare P m Q E]: started in a state satisfying [P], the computation
    either returns [a] in a state satisfying [Q a] or throws in a state
    satisfying [E]. *)

Lemma hoare_ret {A} (P : St → Prop) (a : A) (Q : A → St → Prop) E :
  (∀ s, P s → Q a s) → hoare P (ret a) Q E.
Proof. intros H s Hs. by apply H. Qed.

Lemma hoare_throw {A} (P : St → Prop) e (Q : A → St → Prop) (E : St → Prop) :
  (∀ s, P s → E s) → hoare P (throw e) Q E.
Proof. intros H s Hs. by apply H. Qed.

Lemma hoare_bind {A B} (P : St → Prop) (m : M A) (k : A → M B)
  (Q : A → St → Prop) (Q' : B → St → Prop) E :
  hoare P m Q E → (∀ a, hoare (Q a) (k a) Q' E) → hoare P (bind m k) Q' E.
Proof.
  intros Hm Hk s Hs. unfold bind. specialize (Hm s Hs).
  destruct (m s) as [[a|e] s1]; [|done]. by apply Hk.
Qed.

Lemma hoare_try_catch {A} (P : St → Prop) (m : M A) (h : Exn → M A)
  (Q : A → St → Prop) (E E' : St → Prop) :
  hoare P m Q E → (∀ e, hoare E (h e) Q E') → hoare P (try_catch m h) Q E'.
Proof.
  intros Hm Hh s Hs. unfold try_catch. specialize (Hm s Hs).
  destruct (m s) as [[a|e] s1]; [done|]. by apply Hh.
Qed.

Lemma hoare_conseq {A} (P P' : St → Prop) (m : M A)
  (Q Q' : A → St → Prop) (E E' : St → Prop) :
  hoare P' m Q' E' → (∀ s, P s → P' s) → (∀ a s, Q' a s → Q a s) →
  (∀ s, E' s → E s) → hoare P m Q E.
Proof.
  intros H HP HQ HE s Hs. specialize (H s (HP s Hs)).
  destruct (m s) as [[a|e] s1]; auto.
Qed.

(** An invariant that a preorder on states carries along. *)
Lemma hoare_steady {A} (R : St → St → Prop) (I : St → Prop) (m : M A) :
  steady R m → (∀ s s', R s s' → I s → I s') →
  hoare I m (λ _, I) I.
Proof.
  intros Hm HR s Hs. specialize (Hm s).
  destruct (m s) as [[a|e] s1]; simpl in *; eauto.
Qed.

Lemma hoare_forM_ {A} (I : St → Prop) (l : list A) (body : A → M unit) E :
  (∀ a, a ∈ l → hoare I (body a) (λ _, I) E) →
  hoare I (forM_ l body) (λ _, I) E.
Proof.
  induction l as [|x l IH]; intros Hb; simpl.
  - by apply hoare_ret.
  - eapply hoare_bind; [apply Hb; left|]. intros []. apply IH.
    intros a Ha. apply Hb. by right.
Qed.

Lemma hoare_when (P : St → Prop) b (m : M unit) (Q : unit → St → Prop) E :
  (b = true → hoare P m Q E) → (b = false → ∀ s, P s → Q tt s) →
  hoare P (when b m) Q E.
Proof.
  destruct b; simpl; intros H1 H2; [by apply H1|].
  apply hoare_ret. by apply H2.
Qed.

Lemma hoare_modify (P : St → Prop) (f : St → St) (Q : unit → St → Prop) E :
  (∀ s, P s → Q tt (f s)) → hoare P (modify f) Q E.
Proof. intros H s Hs. by apply H. Qed.

Lemma hoare_gets {A} (P : St → Prop) (f : St → A) (Q : A → St → Prop) E :
  (∀ s, P s → Q (f s) s) → hoare P (gets f) Q E.
Proof. intros H s Hs. by apply H. Qed.

Lemma hoare_get (P : St → Prop) (Q : St → St → Prop) E :
  (∀ s, P s → Q s s) → hoare P get Q E.
Proof. intros H s Hs. by apply H. Qed.

(** ** Waiters are woken by the next commit *)

Lemma waiting_kept p s s' : waiters_kept s s' → waiting p s → waiting p s'.
Proof. intros H. apply H. Qed.

#[global] Instance resolved_grows_preorder : PreOrder resolved_grows.
Proof.
  split.
  - intros s. unfold resolved_grows. reflexivity.
  - intros s1 s2 s3 H1 H2. unfold resolved_grows in *. by etrans.
Qed.

Ltac grows_tac :=
  unfold resolved_grows; simpl;
  first [ reflexivity | apply union_subseteq_r ].

Lemma allocObj_grows o : steady resolved_grows (allocObj o).
Proof. intros s. rewrite allocObj_run. unfold resolved_grows. reflexivity. Qed.

Lemma handleEvent_grows env e : steady resolved_grows (handleEvent env e).
Proof.
  destruct e; steady_with grows_tac.
  all: try apply allocObj_grows.
Qed.
Lemma hoare_waiting_steady {A} p (m : M A) :
  steady waiters_kept m → hoare (waiting p) m (λ _, waiting p) (waiting p).
Proof.
  intros H. apply (hoare_steady waiters_kept); [done|].
  intros s s' HR. by apply waiting_kept.
Qed.

Lemma hoare_resolved_steady {A} p (m : M A) :
  steady resolved_grows m →
  hoare (λ s, p ∈ resolved s) m (λ _ s, p ∈ resolved s) (λ s, p ∈ resolved s).
Proof.
  intros H. apply (hoare_steady resolved_grows); [done|].
  intros s s' HR Hp. by apply HR.
Qed.

Lemma hoare_resolveEnqueued p :
  hoare (waiting p) resolveEnqueuedProcessingPromises
    (λ _ s, p ∈ resolved s) (λ s, p ∈ resolved s).
Proof.
  intros s Hp. rewrite resolveEnqueuedProcessingPromises_run. simpl.
  apply elem_of_resolveAll. exact Hp.
Qed.

Lemma hoare_commitProcessing p isRerun metadata newData nr :
  hoare (waiting p) (commitProcessing isRerun metadata newData nr)
    (λ _ s, p ∈ resolved s) (waiting p).
Proof.
  unfold commitProcessing.
  repeat (lazymatch goal with |- hoare _ (bind _ _) _ _ => idtac end;
          eapply hoare_bind;
          [apply hoare_waiting_steady; steady_keeping_queue waiters_tac
          |intros ?]).
  eapply hoare_conseq; [apply hoare_resolveEnqueued|done|done|].
  intros s Hs. by right.
Qed.

Lemma hoare_afterCommit env p isRerun metadata newData mismatch nr fulfilled :
  hoare (waiting p)
    (afterCommit env isRerun metadata newData mismatch nr fulfilled)
    (λ _ s, p ∈ resolved s) (λ s, p ∈ resolved s).
Proof.
  unfold afterCommit.
  eapply hoare_bind;
    [|intros ?; apply hoare_resolved_steady; steady_with grows_tac].
  eapply hoare_try_catch with (E := waiting p).
  - unfold afterCommit_try.
    eapply hoare_bind;
      [apply hoare_waiting_steady; steady_keeping_queue waiters_tac|intros ?].
    eapply hoare_bind; [apply hoare_commitProcessing|intros ?].
    eapply hoare_conseq;
      [apply (hoare_resolved_steady p); steady_with grows_tac|done|done|].
    intros s Hs. by right.
  - intros e. unfold runOptimizer_catch.
    eapply hoare_bind; [apply (hoare_modify _ _ (λ _, waiting p)); done|].
    intros ?.
    eapply hoare_bind; [apply hoare_resolveEnqueued|intros ?].
    apply hoare_resolved_steady. steady_with grows_tac.
Qed.

(** Whatever the outcome of [commit()], the rerun that awaited it wakes
    every waiter that was queued. *)
Lemma commit_wakes_waiters env s p isRerun metadata newData mismatch nr
  fulfilled :
  running s = Some (AwaitCommit isRerun metadata newData mismatch nr) →
  waiting p s →
  p ∈ resolved (exec (handleEvent env (CommitSettles fulfilled)) s).
Proof.
  intros Hrun Hp. unfold exec, handleEvent, bind, gets. rewrite Hrun.
  pose proof (hoare_afterCommit env p isRerun metadata newData mismatch nr
                fulfilled s Hp) as H.
  by destruct (afterCommit _ _ _ _ _ _ _ s) as [[[]|e] s'].
Qed.

(** ** A reload that is put off *)

#[global] Instance queue_extended_preorder : PreOrder queue_extended.
Proof.
  split.
  - intros s. exists []. by rewrite app_nil_r.
  - intros s1 s2 s3 [q1 H1] [q2 H2]. exists (q1 ++ q2).
    by rewrite H2, H1, app_assoc.
Qed.

Ltac extended_tac :=
  first [ (exists []; simpl; by rewrite app_nil_r)
        | (eexists; simpl; reflexivity) ].

Lemma runOptimizer_end_cancelled env :
  steady (quiet [ResultCommit; WsSendFullReload; InvalidateAll])
    (runOptimizer_end env) ∧
  steady (keeps resolved) (runOptimizer_end env) ∧
  steady queue_extended (runOptimizer_end env) ∧
  steady (keeps _metadata) (runOptimizer_end env) ∧
  steady (keeps metas) (runOptimizer_end env).
Proof.
  repeat split.
  - steady_with quiet_tac.
  - steady_with ltac:(reflexivity).
  - steady_with extended_tac.
  - steady_with ltac:(reflexivity).
  - steady_with ltac:(reflexivity).
Qed.


(** ** A rerun with nothing to bundle *)

Lemma set_timers_same s : set_timers (timers s) s = s.
Proof. by destruct s. Qed.

Lemma clearIfSet_run h s :
  clearIfSet h s = (Ret tt, set_timers (cancelTimer h (timers s)) s).
Proof.
  destruct h; simpl; [done|]. unfold ret. by rewrite set_timers_same.
Qed.

Lemma runOptimizer_nothing s :
  Meta.discovered (meta s (_metadata s)) = [] →
  runOptimizer s =
    (Ret tt,
     set_currentlyProcessing false
       (set_timers (cancelTimer (handle s) (timers s))
          (set_enqueuedRerun false (set_firstRunCalled true s)))).
Proof.
  intros He. unfold runOptimizer.
  unfold bind at 1. unfold gets at 1. cbn beta iota.
  unfold bind at 1. unfold modify at 1. cbn beta iota.
  unfold bind at 1. unfold modify at 1. cbn beta iota.
  unfold bind at 1. unfold gets at 1. cbn beta iota.
  unfold bind at 1. rewrite clearIfSet_run. cbn beta iota.
  unfold bind at 1. unfold gets at 1. cbn beta iota.
  unfold meta in *. cbn [metas _metadata set_timers set_enqueuedRerun
                         set_firstRunCalled handle timers].
  rewrite He. reflexivity.
Qed.

Lemma cancelTimer_fresh h ts n :
  Forall (λ e, e.1 < n) ts → Forall (λ e, e.1 < n) (cancelTimer h ts).
Proof.
  intros H. destruct h; simpl; [|done].
  rewrite Forall_forall in *. intros e [_ He]%list_elem_of_filter. auto.
Qed.

Lemma find_fresh (ts : list (timer * (nat * Callback))) n x :
  Forall (λ e, e.1 < n) ts →
  List.find (λ e, bool_decide (e.1 = n)) (ts ++ [(n, x)]) = Some (n, x).
Proof.
  induction ts as [|[t y] ts IH]; intros H; simpl.
  - by rewrite bool_decide_eq_true_2.
  - apply Forall_cons in H as [Ht H]. simpl in Ht.
    rewrite bool_decide_eq_false_2 by lia. by apply IH.
Qed.

Lemma filter_fresh (ts : list (timer * (nat * Callback))) n x :
  Forall (λ e, e.1 < n) ts →
  filter (λ e, e.1 ≠ n) (ts ++ [(n, x)]) = ts.
Proof.
  induction ts as [|[t y] ts IH]; intros H.
  - rewrite app_nil_l, filter_cons_False by (simpl; intros ?; done). done.
  - apply Forall_cons in H as [Ht H]. simpl in Ht.
    rewrite <- app_comm_cons, filter_cons_True by (simpl; lia).
    f_equal. by apply IH.
Qed.

Lemma debug_run env msg s :
  debug env msg s =
    (Ret tt,
     set_io (io s ++ if isDebugEnabled env then [Debug msg] else []) s).
Proof.
  unfold debug. destruct (isDebugEnabled env); simpl; [done|].
  unfold ret. rewrite app_nil_r. by destruct s.
Qed.

(** C6, amended.  With nothing discovered a rerun returns early: it calls
    no collaborator and leaves the store, the barrier, the resolve-queue
    and the idle tracker alone.  It is not a no-op, though: the first run
    is marked as called, and the scheduler's slots ([enqueuedRerun],
    [handle], the pending timers, the log timer that [run] cancels) are
    reset. *)
Theorem run_nothing_discovered env s :
  Meta.discovered (meta s (_metadata s)) = [] →
  exec runOptimizer s =
    set_currentlyProcessing false
      (set_timers (cancelTimer (handle s) (timers s))
         (set_enqueuedRerun false (set_firstRunCalled true s))) ∧
  (currentlyProcessing s = false →
   timers_fresh s →
   steps env [CallRun; TimerFires (nextTimer s)] s =
     set_io (io s ++ rerunLog env)
       (set_nextTimer (S (nextTimer s))
          (set_timers
             (cancelTimer (newDepsToLogHandle s)
                (cancelTimer (handle s) (timers s)))
             (set_handle None
                (set_newDepsToLogHandle None
                   (set_enqueuedRerun false (set_firstRunCalled true s))))))).
Proof.
  intros He. split.
  { unfold exec. by rewrite runOptimizer_nothing. }
  intros Hc Hfresh. unfold steps. cbn [foldl]. unfold exec at 2.
  unfold handleEvent at 2. unfold run, debouncedProcessing.
  unfold bind at 1. unfold modify at 1. cbn beta iota.
  unfold bind at 1. unfold gets at 1. cbn beta iota.
  unfold bind at 1. rewrite clearIfSet_run. cbn beta iota.
  unfold bind at 1. unfold gets at 1. cbn beta iota.
  unfold bind at 1. rewrite clearIfSet_run. cbn beta iota.
  unfold bind at 1. unfold modify at 1. cbn beta iota.
  unfold bind at 1. unfold setTimeout at 1. cbn beta iota.
  unfold modify at 1. cbn [snd].
  cbn [handle newDepsToLogHandle timers nextTimer set_timers
       set_enqueuedRerun set_newDepsToLogHandle set_nextTimer set_handle].
  set (ts := cancelTimer (newDepsToLogHandle s)
               (cancelTimer (handle s) (timers s))).
  assert (Forall (λ e, e.1 < nextTimer s) ts) as Hts
    by (unfold ts; by do 2 apply cancelTimer_fresh).
  unfold exec, handleEvent, fireTimer.
  unfold bind at 1. unfold get at 1. cbn beta iota.
  unfold timerCallback.
  cbn [handle newDepsToLogHandle timers nextTimer set_timers
       set_enqueuedRerun set_newDepsToLogHandle set_nextTimer set_handle].
  rewrite find_fresh by done. cbn [fmap option_fmap option_map snd].
  unfold bind at 1. unfold clearTimeout at 1, modify at 1. cbn beta iota.
  cbn [handle newDepsToLogHandle timers nextTimer set_timers
       set_enqueuedRerun set_newDepsToLogHandle set_nextTimer set_handle].
  rewrite filter_fresh by done.
  unfold runCallback.
  unfold bind at 1. unfold modify at 1. cbn beta iota.
  unfold bind at 1. unfold modify at 1. cbn beta iota.
  unfold bind at 1. unfold gets at 1. cbn beta iota.
  cbn [currentlyProcessing set_timers set_enqueuedRerun
       set_newDepsToLogHandle set_nextTimer set_handle].
  rewrite Hc. cbn [negb when]. unfold rerun.
  unfold bind at 1. rewrite debug_run. cbn beta iota.
  rewrite runOptimizer_nothing by (unfold meta in *; simpl; exact He).
  cbn [snd]. unfold rerunLog.
  destruct s. simpl in *. subst. reflexivity.
Qed.

(** ** The commit *)

Lemma hoare_forM_pos {A} (I : list A → St → Prop) (l : list A)
  (body : A → M unit) (E : St → Prop) :
  (∀ pre x post, l = pre ++ x :: post →
     hoare (I pre) (body x) (λ _, I (pre ++ [x])) E) →
  hoare (I []) (forM_ l body) (λ _, I l) E.
Proof.
  intros Hb.
  cut (∀ post pre, l = pre ++ post →
         hoare (I pre) (forM_ post body) (λ _, I l) E).
  { intros H. by apply (H l []). }
  induction post as [|x post IH]; intros pre Hl; simpl.
  - apply hoare_ret. intros s Hs. by rewrite Hl, app_nil_r.
  - eapply hoare_bind; [by eapply Hb|]. intros []. apply IH.
    by rewrite <- app_assoc.
Qed.

Lemma info_insert_eq s l x :
  l < length (infos s) → info (set_infos (<[l := x]> (infos s)) s) l = x.
Proof. intros H. unfold info. simpl. by apply list_lookup_total_insert_eq. Qed.

Lemma info_insert_ne s l l' x :
  l ≠ l' → info (set_infos (<[l := x]> (infos s)) s) l' = info s l'.
Proof. intros H. unfold info. simpl. by apply list_lookup_total_insert_ne. Qed.

Lemma meta_insert_eq s m x :
  m < length (metas s) → meta (set_metas (<[m := x]> (metas s)) s) m = x.
Proof. intros H. unfold meta. simpl. by apply list_lookup_total_insert_eq. Qed.

Lemma meta_insert_ne s m m' x :
  m ≠ m' → meta (set_metas (<[m := x]> (metas s)) s) m' = meta s m'.
Proof. intros H. unfold meta. simpl. by apply list_lookup_total_insert_ne. Qed.


Lemma hoare_assume {A} (φ : Prop) (P : St → Prop) (m : M A)
  (Q : A → St → Prop) (E : St → Prop) :
  (φ → hoare P m Q E) → hoare (λ s, P s ∧ φ) m Q E.
Proof. intros H s [Hs Hφ]. by apply H. Qed.

Section Commit.

Variables (s0 : St) (md nd : loc).
Hypothesis Hready : commit_ready s0 md nd.

Local Abbreviation O := (Meta.optimized (meta s0 nd)).
Local Abbreviation C := (Meta.chunks (meta s0 nd)).
Local Abbreviation Oold := (Meta.optimized (meta s0 md)).
Local Abbreviation Dold := (Meta.discovered (meta s0 md)).
Local Abbreviation bh0 := (Meta.browserHash (meta s0 md)).
Local Abbreviation bh := DepInfo.browserHash.







(** *** The entries discovered while the bundler ran *)


(** *** Keeping the browser hashes *)






Lemma optimizedOrDiscovered_Inherited s m dep :
  optimizedOrDiscovered s m dep = Obj.Inherited ↔
  Obj.get (Meta.optimized (meta s m)) dep = None ∧ Obj.inherited dep = true.
Proof.
  unfold optimizedOrDiscovered, Obj.index.
  destruct (Obj.get (Meta.optimized _) dep) as [l|].
  - split; [done|]. by intros [? _].
  - destruct (Obj.inherited dep).
    + done.
    + destruct (Obj.get (Meta.discovered _) dep); split; try done;
        by intros [_ ?].
Qed.




(** *** Writing back to the discovered objects *)






End Commit.



(** ** Entries the executor reads without a presence check *)




(** *** Which exceptions a computation can throw *)









(** ** When a snapshot is ready to be committed *)

Lemma commit_ready_ext s s' metadata newData :
  metas s' = metas s → infos s' = infos s →
  commit_ready s metadata newData → commit_ready s' metadata newData.
Proof.
  intros Hm Hi [H1 H2 H3 H4 H5 H6 H7 H8].
  split; unfold meta, info in *; rewrite ?Hm, ?Hi; done.
Qed.

(** The result of the bundler, once received, is ready to be committed
    over the snapshot it was computed from. *)
Lemma afterAlloc_commit_ready v s metadata :
  allocated s metadata →
  discovered_keyed s metadata →
  commit_ready (afterAlloc v s) metadata (length (metas s)).
Proof.
  intros [Hlt Hrefs] Hkeyed. rewrite Forall_forall in Hrefs.
  assert (∀ l, l ∈ refs (meta s metadata) → l < length (infos s)) as Hold
    by done.
  pose proof (afterAlloc_meta_old v s metadata Hlt) as Hmd.
  assert (metas (afterAlloc v s) = metas s ++ [meta (afterAlloc v s) (length (metas s))])
    as Hmetas.
  { unfold afterAlloc, exec, meta. rewrite allocMetaVal_run. simpl.
    by rewrite list_lookup_total_middle. }
  assert (Obj.values (Meta.optimized (meta (afterAlloc v s) (length (metas s))))
          = seq (length (infos s)) (length (v_optimized v))) as HO.
  { unfold afterAlloc, exec, meta. rewrite allocMetaVal_run. simpl.
    rewrite list_lookup_total_middle by done. simpl.
    apply freshRefs_values. }
  assert (Obj.values (Meta.chunks (meta (afterAlloc v s) (length (metas s))))
          = seq (length (infos s) + length (v_optimized v))
                (length (v_chunks v))) as HC.
  { unfold afterAlloc, exec, meta. rewrite allocMetaVal_run. simpl.
    rewrite list_lookup_total_middle by done. simpl.
    apply freshRefs_values. }
  assert (length (infos (afterAlloc v s)) =
          length (infos s) + length (v_optimized v) + length (v_chunks v) +
          length (v_discovered v)) as Hlen.
  { unfold afterAlloc, exec. rewrite allocMetaVal_run. simpl.
    unfold Obj.values. rewrite !length_app, !length_fmap. lia. }
  split.
  - lia.
  - rewrite Hmetas, length_app. simpl. lia.
  - rewrite Hmetas, length_app. simpl. lia.
  - rewrite HO, HC, Hmd, Hlen. intros l [H|[H|H]].
    + apply elem_of_seq in H. lia.
    + apply elem_of_seq in H. lia.
    + assert (l < length (infos s)); [|lia]. apply Hold. unfold refs.
      rewrite !elem_of_app. auto.
  - rewrite HO, HC, Hmd. intros l H.
    assert (l < length (infos s)) as Hl.
    { apply Hold. unfold refs. rewrite !elem_of_app. tauto. }
    rewrite !elem_of_seq. lia.
  - rewrite HO, HC. intros l. rewrite !elem_of_seq. lia.
  - rewrite HO. apply NoDup_seq.
  - rewrite Hmd. intros k d Hd.
    rewrite afterAlloc_info_old; [by apply Hkeyed|].
    apply Hold. unfold refs. rewrite !elem_of_app. right. right.
    by eapply get_Some_values.
Qed.

(** ** The activation and the snapshot it works on *)

#[global] Instance store_grows_preorder : PreOrder store_grows.
Proof.
  split; [by intros s; split|].
  intros s1 s2 s3 [H1 H2] [H3 H4]. split; [congruence|lia].
Qed.

#[global] Instance frame_kept_preorder : PreOrder frame_kept.
Proof.
  split; [by intros s; split|].
  intros s1 s2 s3 [H1 H2] [H3 H4]. split; [by etrans|congruence].
Qed.

Lemma bounded_grows s s' : store_grows s s' → bounded s → bounded s'.
Proof. unfold bounded. intros [-> ?] ?. lia. Qed.

Lemma frame_current_kept s s' :
  frame_kept s s' → frame_current s → frame_current s'.
Proof.
  intros [Hg Hr] [Hb Hf]. split; [by eapply bounded_grows|].
  rewrite Hr. destruct Hg as [-> Hl].
  destruct (running s) as [[| |]|]; try done.
  destruct Hf. split; [done|lia].
Qed.

Ltac kept_tac :=
  repeat split; simpl; rewrite ?length_insert, ?length_app; first [reflexivity|lia].

Lemma allocObj_frame_kept o : steady frame_kept (allocObj o).
Proof. intros s. rewrite allocObj_run. kept_tac. Qed.

Lemma allocObj_store_grows o : steady store_grows (allocObj o).
Proof. intros s. rewrite allocObj_run. kept_tac. Qed.

Lemma debouncedProcessing_frame_kept t : steady frame_kept (debouncedProcessing t).
Proof. steady_with kept_tac. Qed.

Lemma registerMissingImport_frame_kept env id resolved ssr :
  steady frame_kept (registerMissingImport env id resolved ssr).
Proof. steady_with kept_tac. Qed.

Lemma hoare_frame_kept {A} (m : M A) :
  steady frame_kept m → hoare frame_current m (λ _, frame_current) frame_current.
Proof. intros H. eapply hoare_steady; [exact H|apply frame_current_kept]. Qed.

Lemma hoare_bounded {A} (m : M A) :
  steady store_grows m → hoare bounded m (λ _, bounded) bounded.
Proof. intros H. eapply hoare_steady; [exact H|apply bounded_grows]. Qed.

Lemma runOptimizer_current :
  hoare frame_current runOptimizer (λ _, frame_current) frame_current.
Proof.
  intros s [Hb Hf]. unfold runOptimizer, bind, gets, modify. simpl.
  unfold clearIfSet.
  destruct (handle s) as [t|]; simpl;
  destruct (length (Obj.keys _) =? 0); simpl; done.
Qed.

Section Current.
Variable env : Env.

Lemma rerun_current :
  hoare frame_current (rerun env) (λ _, frame_current) frame_current.
Proof.
  unfold rerun. eapply hoare_bind; [|intros ?; apply runOptimizer_current].
  apply hoare_frame_kept. steady_with kept_tac.
Qed.

Lemma runOptimizer_end_current :
  hoare bounded (runOptimizer_end env) (λ _, frame_current) frame_current.
Proof.
  unfold runOptimizer_end.
  eapply hoare_bind;
    [apply (hoare_modify _ _ (λ _, frame_current)); by intros s Hs|intros ?].
  eapply hoare_bind; [apply hoare_frame_kept; steady_with kept_tac|intros ?].
  eapply hoare_bind; [apply hoare_frame_kept; steady_with kept_tac|intros e].
  apply hoare_when; [intros _; apply rerun_current|done].
Qed.

Lemma getDepsOptimizer_run_frame_kept :
  steady frame_kept (getDepsOptimizer_run env).
Proof. steady_with kept_tac. Qed.

Lemma runOptimizerWhenIdle_frame_kept : steady frame_kept runOptimizerWhenIdle.
Proof. steady_with kept_tac. Qed.

Lemma afterLoad_frame_kept id : steady frame_kept (afterLoad env id).
Proof. steady_with kept_tac. Qed.

Lemma scanPhase_current p :
  hoare frame_current (scanPhase env p) (λ _, frame_current) frame_current.
Proof.
  intros s [Hb Hf]. unfold scanPhase, bind, gets, modify, debug, emit. simpl.
  by destruct (isDebugEnabled _).
Qed.

Lemma runCallback_current cb :
  hoare frame_current (runCallback env cb) (λ _, frame_current) frame_current.
Proof.
  destruct cb; simpl.
  - apply scanPhase_current.
  - eapply hoare_bind; [apply hoare_frame_kept; steady_with kept_tac|intros ?].
    eapply hoare_bind; [apply hoare_frame_kept; steady_with kept_tac|intros ?].
    eapply hoare_bind; [apply hoare_frame_kept; steady_with kept_tac|intros c].
    apply hoare_when; [intros _; apply rerun_current|done].
  - apply hoare_frame_kept. steady_with kept_tac.
  - apply hoare_frame_kept. steady_with kept_tac.
  - apply hoare_frame_kept. steady_with kept_tac.
Qed.

Lemma fireTimer_current t :
  hoare frame_current (fireTimer env t) (λ _, frame_current) frame_current.
Proof.
  unfold fireTimer.
  eapply hoare_bind;
    [apply (hoare_get _ (λ _, frame_current)); by intros s Hs|intros s0].
  destruct (timerCallback s0 t) as [cb|]; [|by apply hoare_ret].
  eapply hoare_bind; [apply hoare_frame_kept; steady_with kept_tac|intros ?].
  apply runCallback_current.
Qed.

Lemma seedDiscovered_frame_kept metadata discovered :
  steady frame_kept (seedDiscovered metadata discovered).
Proof. steady_with kept_tac. Qed.

Lemma afterScan_current metadata p r :
  hoare frame_current (afterScan env metadata p r)
    (λ _, frame_current) frame_current.
Proof.
  unfold afterScan.
  eapply hoare_bind;
    [apply (hoare_modify _ _ (λ _, frame_current)); by intros s [Hb _]
    |intros ?].
  eapply hoare_try_catch with (E := frame_current).
  - destruct r as [discovered|]; [|by apply hoare_throw].
    eapply hoare_bind;
      [apply hoare_frame_kept, seedDiscovered_frame_kept|intros ?].
    eapply hoare_bind; [apply hoare_frame_kept; steady_with kept_tac|intros ?].
    eapply hoare_bind; [apply hoare_frame_kept; steady_with kept_tac|intros ?].
    eapply hoare_bind; [apply hoare_frame_kept; steady_with kept_tac|intros ?].
    apply runOptimizer_current.
  - intros e. apply hoare_frame_kept. steady_with kept_tac.
Qed.

Lemma afterBundler_try_current isRerun metadata r :
  hoare (λ s, bounded s ∧ metadata = _metadata s)
    (afterBundler_try env isRerun metadata r)
    (λ suspended s, if suspended then frame_current s else bounded s)
    bounded.
Proof.
  intros s [Hb ->]. unfold afterBundler_try.
  destruct r as [v|]; [|done].
  unfold bind at 1. rewrite allocMetaVal_run.
  unfold bind at 1, get at 1. unfold bind at 1, liftRes at 1.
  set (s1 := set_metas _ _).
  assert (bounded s1 ∧ _metadata s1 = _metadata s ∧
          length (metas s) < length (metas s1)) as (Hb1 & Hm1 & Hl1).
  { unfold bounded, s1 in *. simpl. rewrite length_app. simpl. lia. }
  clearbody s1.
  destruct (needsReload s1 _ _ _) as [nr|e]; [|done].
  assert (∀ mm, match commitProcessing_begin isRerun (_metadata s)
                        (length (metas s)) mm nr s1 with
                | (Ret suspended, s') =>
                    if suspended then frame_current s' else bounded s'
                | (Throw _, s') => bounded s'
                end) as Hcommit.
  { intros mm. unfold commitProcessing_begin, bind, emit, modify. simpl.
    split; [exact Hb1|]. simpl. by rewrite Hm1. }
  destruct nr; simpl; [|apply Hcommit].
  unfold bind at 1, gets at 1.
  destruct (newDepsDiscovered s1); [|apply Hcommit].
  unfold bind, emit, modify, debug, when. simpl.
  by destruct (isDebugEnabled env).
Qed.

Lemma runOptimizer_catch_bounded metadata E :
  hoare bounded (runOptimizer_catch metadata) (λ _, bounded) E.
Proof.
  intros s Hb. unfold runOptimizer_catch, bind, emit, modify_meta, modify.
  rewrite resolveEnqueuedProcessingPromises_run. simpl.
  unfold bounded in *. simpl. by rewrite length_insert.
Qed.

Lemma afterBundler_current isRerun metadata r :
  hoare (λ s, bounded s ∧ metadata = _metadata s)
    (afterBundler env isRerun metadata r)
    (λ _, frame_current) frame_current.
Proof.
  unfold afterBundler.
  eapply hoare_bind with
    (Q := λ (suspended : bool) s, if suspended then frame_current s else bounded s).
  - eapply hoare_try_catch; [apply afterBundler_try_current|].
    intros e.
    eapply hoare_bind; [apply runOptimizer_catch_bounded|intros ?].
    by apply hoare_ret.
  - intros [|]; simpl; [by apply hoare_ret|].
    apply runOptimizer_end_current.
Qed.

Lemma commitProcessing_bounded isRerun metadata newData nr :
  hoare (λ s, bounded s ∧ newData < length (metas s))
    (commitProcessing isRerun metadata newData nr) (λ _, bounded) bounded.
Proof.
  set (P := λ s, bounded s ∧ newData < length (metas s)).
  assert (∀ A (m : M A), steady store_grows m → hoare P m (λ _, P) P) as HP.
  { intros A m Hm. eapply hoare_steady; [exact Hm|].
    intros s s' Hg [Hb Hn]. split; [by eapply bounded_grows|].
    destruct Hg. lia. }
  unfold commitProcessing.
  eapply hoare_conseq with (E' := P) (Q' := λ _, P);
    [|done|by intros ? s []|by intros s []].
  eapply hoare_bind; [apply HP; steady_keeping_queue kept_tac|intros ?].
  eapply hoare_bind; [apply HP; steady_keeping_queue kept_tac|intros ?].
  eapply hoare_bind; [apply HP; steady_keeping_queue kept_tac|intros ?].
  eapply hoare_bind; [apply HP; steady_keeping_queue kept_tac|intros ?].
  eapply hoare_bind with (Q := λ _, P).
  { apply hoare_modify. intros s [_ Hn]. by split. }
  intros ?. apply HP. steady_with kept_tac.
Qed.

Lemma afterCommit_current isRerun metadata newData mismatch nr ok :
  hoare (λ s, bounded s ∧ newData < length (metas s))
    (afterCommit env isRerun metadata newData mismatch nr ok)
    (λ _, frame_current) frame_current.
Proof.
  unfold afterCommit.
  eapply hoare_bind; [|intros ?; apply runOptimizer_end_current].
  eapply hoare_try_catch with (E := bounded);
    [|intros e; apply runOptimizer_catch_bounded].
  unfold afterCommit_try.
  eapply hoare_bind with (Q := λ _ s, bounded s ∧ newData < length (metas s)).
  { destruct ok; [by apply hoare_ret|]. apply hoare_throw. by intros s []. }
  intros ?.
  eapply hoare_bind; [apply commitProcessing_bounded|intros ?].
  apply hoare_bounded. steady_with kept_tac.
Qed.

Lemma initDepsOptimizer_current cachedMetadata ssrDeps initialDeps s :
  running s = None →
  frame_current
    (exec (initDepsOptimizer env cachedMetadata ssrDeps initialDeps) s).
Proof.
  intros Hr.
  assert (hoare (λ s, running s = None)
            (initDepsOptimizer env cachedMetadata ssrDeps initialDeps)
            (λ _, frame_current) frame_current) as H.
  { unfold initDepsOptimizer.
    eapply hoare_bind with
      (Q := λ m s, running s = None ∧ m < length (metas s)).
    { intros s0 H0. rewrite allocMetaVal_run. simpl.
      split; [done|]. rewrite length_app. simpl. lia. }
    intros m.
    eapply hoare_bind with (Q := λ _, frame_current).
    { apply hoare_modify. intros s0 [H0 Hm]. split; [exact Hm|].
      simpl. by rewrite H0. }
    intros ?. apply hoare_frame_kept. steady_with kept_tac.
    all: try apply allocObj_frame_kept. }
  specialize (H s Hr). unfold exec.
  by destruct (initDepsOptimizer _ _ _ _ s) as [[[]|e] s'].
Qed.

Lemma handleEvent_current e :
  hoare frame_current (handleEvent env e) (λ _, frame_current) frame_current.
Proof.
  destruct e; simpl.
  - eapply hoare_bind;
      [apply hoare_frame_kept, registerMissingImport_frame_kept|intros ?].
    by apply hoare_ret.
  - apply hoare_frame_kept. steady_with kept_tac.
  - apply hoare_frame_kept. steady_with kept_tac.
  - apply hoare_frame_kept. steady_with kept_tac.
  - apply hoare_frame_kept. steady_with kept_tac.
  - apply hoare_frame_kept. steady_with kept_tac.
  - apply fireTimer_current.
  - apply hoare_frame_kept. steady_with kept_tac.
  - intros s Hs. unfold bind, gets.
    destruct (running s) as [[metadata p| |]|] eqn:Hr; try exact Hs.
    by apply afterScan_current.
  - intros s Hs. unfold bind, gets.
    destruct (running s) as [[|isRerun metadata|]|] eqn:Hr; try exact Hs.
    apply afterBundler_current. destruct Hs as [Hb Hf].
    rewrite Hr in Hf. done.
  - intros s Hs. unfold bind, gets.
    destruct (running s) as [[| |isRerun metadata newData mm nr]|] eqn:Hr;
      try exact Hs.
    apply afterCommit_current. destruct Hs as [Hb Hf].
    rewrite Hr in Hf. by destruct Hf.
Qed.

(** In every state the optimizer reaches, [_metadata] points to a snapshot
    of the store, a suspended activation of [runOptimizer] holds that very
    snapshot, and the bundle it waits to commit is in the store. *)
Lemma reachable_frame_current cachedMetadata ssrDeps initialDeps es :
  frame_current
    (steps env es
       (exec (initDepsOptimizer env cachedMetadata ssrDeps initialDeps) St0)).
Proof.
  induction es as [|e es IH] using rev_ind.
  - by apply initDepsOptimizer_current.
  - unfold steps in *. rewrite foldl_app. simpl.
    pose proof (handleEvent_current e _ IH) as H. unfold exec.
    by destruct (handleEvent env e _) as [[[]|x] s'].
Qed.

End Current.

(** ** The store in the states the optimizer reaches *)

Lemma store_ok_ext s s' :
  metas s' = metas s → infos s' = infos s → store_ok s → store_ok s'.
Proof.
  intros Hm Hi H m. unfold discovered_keyed, meta, info in *.
  rewrite Hm, Hi. apply H.
Qed.

Lemma hoare_store_kept {A} (m : M A) :
  steady (keeps (λ s, (metas s, infos s))) m →
  hoare store_ok m (λ _, store_ok) store_ok.
Proof.
  intros H. eapply hoare_steady; [exact H|].
  intros s s' [= Hm Hi]. by apply store_ok_ext.
Qed.

Lemma discovered_refs (x : Meta.t) k d :
  Obj.get (Meta.discovered x) k = Some d → d ∈ refs x.
Proof.
  intros H. unfold refs. rewrite !elem_of_app. right. right.
  by eapply get_Some_values.
Qed.

Lemma store_ok_allocInfo s i :
  store_ok s → store_ok (set_infos (infos s ++ [i]) s).
Proof.
  intros H m. destruct (H m) as [Hr Hk]. split.
  - intros l Hl. simpl. rewrite length_app. simpl.
    specialize (Hr l Hl). unfold meta in *. simpl in *. lia.
  - intros k d Hd. unfold meta, info in *. simpl in *.
    rewrite lookup_total_app_l; [by apply Hk|].
    apply Hr. by eapply discovered_refs.
Qed.

Lemma store_ok_modify_info s l x :
  store_ok s → DepInfo.id x = DepInfo.id (info s l) →
  store_ok (set_infos (<[l := x]> (infos s)) s).
Proof.
  intros H Hx m. destruct (H m) as [Hr Hk]. split.
  - intros l' Hl. simpl. rewrite length_insert. by apply Hr.
  - intros k d Hd. specialize (Hk k d Hd).
    destruct (decide (d = l)) as [->|Hne].
    + destruct (decide (l < length (infos s))) as [Hlt|Hge].
      * rewrite info_insert_eq by done. congruence.
      * unfold info in *. simpl. rewrite list_insert_ge by lia. done.
    + rewrite info_insert_ne by done. done.
Qed.

Lemma store_ok_modify_meta s m x :
  store_ok s →
  (∀ l, l ∈ refs x → l < length (infos s)) →
  (∀ k d, Obj.get (Meta.discovered x) k = Some d → DepInfo.id (info s d) = k) →
  store_ok (set_metas (<[m := x]> (metas s)) s).
Proof.
  intros H Hr Hk m'.
  destruct (decide (m' = m)) as [->|Hne].
  - destruct (decide (m < length (metas s))) as [Hlt|Hge].
    + unfold discovered_keyed. rewrite meta_insert_eq by done. done.
    + unfold discovered_keyed, meta, info in *. simpl.
      rewrite list_insert_ge by lia. apply H.
  - unfold discovered_keyed. rewrite meta_insert_ne by done. apply H.
Qed.

Lemma lookup_total_ge {A} `{!Inhabited A} (l : list A) i :
  length l ≤ i → l !!! i = inhabitant.
Proof. intros H. by rewrite list_lookup_total_alt, lookup_ge_None_2. Qed.

Lemma hoare_allocInfo i E :
  hoare store_ok (allocInfo i)
    (λ l s, store_ok s ∧ l < length (infos s) ∧
            DepInfo.id (info s l) = DepInfo.id i) E.
Proof.
  intros s H. simpl. split; [by apply store_ok_allocInfo|].
  rewrite length_app. simpl. split; [lia|].
  unfold info. simpl. by rewrite list_lookup_total_middle.
Qed.

Lemma hoare_addOptimizedDepInfo metadata type l :
  hoare (λ s, store_ok s ∧ l < length (infos s))
    (addOptimizedDepInfo metadata type l) (λ _, store_ok) store_ok.
Proof.
  intros s [H Hl]. unfold addOptimizedDepInfo, bind, get.
  destruct (in_other_submap _ _ _); [done|].
  unfold modify_meta, modify. simpl.
  destruct (H metadata) as [Hr Hk].
  apply store_ok_modify_meta; [done| |].
  - intros x Hx. unfold refs in *. rewrite !elem_of_app in Hx.
    assert (x = l ∨ x ∈ refs (meta s metadata)) as [->|Hx']; [|done|by apply Hr].
    unfold refs. rewrite !elem_of_app.
    destruct type; simpl in Hx;
      repeat match goal with
             | H : _ ∨ _ |- _ => destruct H
             | H : _ ∈ Obj.values (Obj.set _ _ _) |- _ =>
                 apply values_set in H
             end; tauto.
  - intros k d Hd.
    destruct type; simpl in Hd; try by apply Hk.
    destruct (decide (DepInfo.id (info s l) = k)) as [<-|Hne].
    + rewrite get_set_eq in Hd. by injection Hd as <-.
    + rewrite get_set_ne in Hd by done. by apply Hk.
Qed.

Lemma store_ok_afterAlloc v s :
  store_ok s → keyed v → store_ok (afterAlloc v s).
Proof.
  intros H Hv m. unfold afterAlloc, exec. rewrite allocMetaVal_run.
  destruct (decide (m < length (metas s))) as [Hlt|Hge].
  - destruct (H m) as [Hr Hk]. split.
    + intros l Hl. unfold meta in *. simpl in *.
      rewrite lookup_total_app_l in Hl by done.
      specialize (Hr l Hl). rewrite length_app. lia.
    + intros k d Hd. unfold meta, info in *. simpl in *.
      rewrite lookup_total_app_l in Hd by done.
      rewrite lookup_total_app_l; [by apply Hk|].
      apply Hr. by eapply discovered_refs.
  - destruct (decide (m = length (metas s))) as [->|Hne].
    + split.
      * intros l. unfold meta. simpl.
        rewrite list_lookup_total_middle by done.
        unfold refs. simpl. rewrite !freshRefs_values, !elem_of_app.
        rewrite !elem_of_seq, !length_app.
        unfold Obj.values. rewrite !length_fmap. lia.
      * intros k d. unfold meta, info. simpl.
        rewrite list_lookup_total_middle by done. simpl. intros Hd.
        replace (length (infos s) + length (v_optimized v) +
                 length (v_chunks v))
          with (length (infos s ++ Obj.values (v_optimized v) ++
                        Obj.values (v_chunks v))) in Hd
          by (rewrite !length_app; unfold Obj.values;
              rewrite !length_fmap; lia).
        apply (fresh_lookup _ _ []) in Hd as (i & Hi & Hl & _).
        rewrite app_nil_r, <- !app_assoc in Hl. rewrite Hl.
        by apply Hv.
    + split.
      * intros l. unfold meta. simpl.
        rewrite lookup_total_ge; [by intros ?%elem_of_nil|].
        rewrite length_app. simpl. lia.
      * intros k d. unfold meta. simpl.
        rewrite lookup_total_ge; [done|].
        rewrite length_app. simpl. lia.
Qed.

Ltac store_kept := apply hoare_store_kept; steady_with ltac:(reflexivity).

Section StoreOk.
Variable env : Env.

Lemma registerMissingImport_store_ok id resolved ssr :
  hoare store_ok (registerMissingImport env id resolved ssr)
    (λ _, store_ok) store_ok.
Proof.
  unfold registerMissingImport.
  eapply hoare_bind; [store_kept|intros ?].
  eapply hoare_bind; [store_kept|intros ?].
  eapply hoare_bind; [store_kept|intros ?].
  unfold registerMissingImport_body.
  eapply hoare_bind; [store_kept|intros metadata].
  eapply hoare_bind; [store_kept|intros s0].
  destruct (Obj.index _ id); [by apply hoare_ret..|].
  destruct (Obj.index _ id); [by apply hoare_ret..|].
  destruct (Obj.index _ id); [by apply hoare_ret..|].
  eapply hoare_bind; [store_kept|intros ?].
  eapply hoare_bind; [store_kept|intros s1].
  eapply hoare_bind; [apply hoare_allocInfo|intros o].
  eapply hoare_bind.
  { eapply hoare_conseq; [apply (hoare_addOptimizedDepInfo metadata Discovered o)
                         |by intros s (? & ? & ?)|intros ? ? H; exact H|done]. }
  intros missing.
  eapply hoare_bind; [store_kept|intros ?].
  eapply hoare_bind; [store_kept|intros ?].
  by apply hoare_ret.
Qed.

Lemma seedDiscovered_store_ok metadata discovered :
  hoare store_ok (seedDiscovered metadata discovered) (λ _, store_ok) store_ok.
Proof.
  unfold seedDiscovered. apply hoare_forM_. intros depInfo _.
  eapply hoare_bind; [store_kept|intros p].
  eapply hoare_bind; [apply hoare_allocInfo|intros o].
  eapply hoare_bind.
  { eapply hoare_conseq; [apply (hoare_addOptimizedDepInfo metadata Discovered o)
                         |by intros s (? & ? & ?)|intros ? ? H; exact H|done]. }
  intros ?. by apply hoare_ret.
Qed.

Lemma runOptimizer_catch_store_ok metadata E :
  hoare store_ok (runOptimizer_catch metadata) (λ _, store_ok) E.
Proof.
  intros s H. unfold runOptimizer_catch, bind, emit, modify_meta, modify.
  rewrite resolveEnqueuedProcessingPromises_run. simpl.
  apply (store_ok_modify_meta
           (set_depOptimizationProcessingQueue []
              (set_resolved _ (set_io _ s)))); [exact H| |done].
  intros l Hl. destruct (H metadata) as [Hr _]. apply Hr.
  unfold refs in *. simpl in *. rewrite !elem_of_app in *.
  rewrite elem_of_nil in Hl. tauto.
Qed.

Lemma hoare_modify_info l f E :
  (∀ i, DepInfo.id (f i) = DepInfo.id i) →
  hoare store_ok (modify_info l f) (λ _, store_ok) E.
Proof. intros Hf s H. by apply store_ok_modify_info. Qed.

Lemma carryDiscovered_store_ok metadata newData :
  hoare store_ok (carryDiscovered metadata newData) (λ _, store_ok) store_ok.
Proof.
  unfold carryDiscovered.
  eapply hoare_bind; [store_kept|intros ids].
  apply hoare_forM_. intros id _ s H. unfold bind at 1, get at 1.
  destruct (Obj.get (Meta.optimized _) id); [exact H|].
  destruct (Obj.get (Meta.discovered _) id) as [d|] eqn:Hd; [|exact H].
  assert (d < length (infos s)) as Hlt.
  { destruct (H metadata) as [Hr _]. apply Hr. by eapply discovered_refs. }
  pose proof (hoare_addOptimizedDepInfo newData Discovered d s (conj H Hlt))
    as Ha.
  unfold bind. by destruct (addOptimizedDepInfo _ _ _ s) as [[a|e] s'].
Qed.

Lemma keepBrowserHash_store_ok metadata newData :
  hoare store_ok (keepBrowserHash metadata newData) (λ _, store_ok) store_ok.
Proof.
  unfold keepBrowserHash.
  eapply hoare_bind; [store_kept|intros bh].
  eapply hoare_bind.
  { apply (hoare_modify _ _ (λ _, store_ok)). intros s H.
    apply store_ok_modify_meta; [done| |]; apply (H newData). }
  intros ?.
  eapply hoare_bind; [store_kept|intros cs].
  eapply hoare_bind.
  { apply hoare_forM_. intros dep _.
    eapply hoare_bind; [store_kept|intros s0].
    destruct (Obj.get _ dep); [|by apply hoare_ret].
    by apply hoare_modify_info. }
  intros ?.
  eapply hoare_bind; [store_kept|intros os].
  apply hoare_forM_. intros dep _.
  eapply hoare_bind; [store_kept|intros s0].
  destruct (Obj.get _ dep); [|by apply hoare_ret].
  destruct (optimizedOrDiscovered _ _ dep);
    [by apply hoare_modify_info..|by apply hoare_throw].
Qed.

Lemma writeBack_store_ok metadata newData :
  hoare store_ok (writeBack metadata newData) (λ _, store_ok) store_ok.
Proof.
  unfold writeBack.
  eapply hoare_bind; [store_kept|intros os].
  apply hoare_forM_. intros dep _.
  eapply hoare_bind; [store_kept|intros s0].
  destruct (Obj.get _ dep); [|by apply hoare_ret].
  destruct (Obj.get _ dep); [|by apply hoare_ret].
  by apply hoare_modify_info.
Qed.

Lemma commitProcessing_store_ok isRerun metadata newData nr :
  hoare store_ok (commitProcessing isRerun metadata newData nr)
    (λ _, store_ok) store_ok.
Proof.
  unfold commitProcessing.
  eapply hoare_bind; [apply carryDiscovered_store_ok|intros ?].
  eapply hoare_bind.
  { apply hoare_when; [intros _; apply keepBrowserHash_store_ok|done]. }
  intros ?.
  eapply hoare_bind; [apply writeBack_store_ok|intros ?].
  eapply hoare_bind; [store_kept|intros ?].
  eapply hoare_bind; [store_kept|intros ?].
  store_kept.
Qed.

Lemma afterCommit_store_ok isRerun metadata newData mismatch nr ok :
  hoare store_ok (afterCommit env isRerun metadata newData mismatch nr ok)
    (λ _, store_ok) store_ok.
Proof.
  unfold afterCommit.
  eapply hoare_bind; [|intros ?; store_kept].
  eapply hoare_try_catch with (E := store_ok);
    [|intros e; apply runOptimizer_catch_store_ok].
  unfold afterCommit_try.
  eapply hoare_bind; [store_kept|intros ?].
  eapply hoare_bind; [apply commitProcessing_store_ok|intros ?].
  store_kept.
Qed.

Lemma afterBundler_store_ok isRerun metadata r :
  (∀ v, r = Some v → keyed v) →
  hoare store_ok (afterBundler env isRerun metadata r)
    (λ _, store_ok) store_ok.
Proof.
  intros Hv. unfold afterBundler.
  eapply hoare_bind; [|intros ?; store_kept].
  eapply hoare_try_catch with (E := store_ok).
  2:{ intros e.
      eapply hoare_bind; [apply runOptimizer_catch_store_ok|intros ?].
      by apply hoare_ret. }
  unfold afterBundler_try. destruct r as [v|]; [|by apply hoare_throw].
  eapply hoare_bind.
  { intros s H. pose proof (store_ok_afterAlloc v s H (Hv v eq_refl)) as Ha.
    unfold afterAlloc, exec in Ha.
    destruct (allocMetaVal v s) as [[l|e] s'] eqn:E; [exact Ha|].
    rewrite allocMetaVal_run in E. done. }
  intros newData.
  store_kept.
Qed.

Lemma afterScan_store_ok metadata p r :
  hoare store_ok (afterScan env metadata p r) (λ _, store_ok) store_ok.
Proof.
  unfold afterScan.
  eapply hoare_bind; [store_kept|intros ?].
  eapply hoare_try_catch with (E := store_ok); [|intros e; store_kept].
  destruct r as [discovered|]; [|by apply hoare_throw].
  eapply hoare_bind; [apply seedDiscovered_store_ok|intros ?].
  store_kept.
Qed.

Lemma handleEvent_store_ok e :
  wf_event e →
  hoare store_ok (handleEvent env e) (λ _, store_ok) store_ok.
Proof.
  intros Hwf. destruct e; simpl.
  - eapply hoare_bind; [apply registerMissingImport_store_ok|intros ?].
    by apply hoare_ret.
  - store_kept.
  - store_kept.
  - store_kept.
  - store_kept.
  - store_kept.
  - store_kept.
  - store_kept.
  - intros s Hs. unfold bind, gets.
    destruct (running s) as [[metadata p| |]|]; try exact Hs.
    by apply afterScan_store_ok.
  - intros s Hs. unfold bind, gets.
    destruct (running s) as [[|isRerun metadata|]|]; try exact Hs.
    apply afterBundler_store_ok; [|done].
    intros v ->. exact Hwf.
  - intros s Hs. unfold bind, gets.
    destruct (running s) as [[| |isRerun metadata newData mm nr]|];
      try exact Hs.
    by apply afterCommit_store_ok.
Qed.

Lemma St0_store_ok : store_ok St0.
Proof.
  intros m. unfold discovered_keyed, meta. simpl.
  rewrite lookup_total_nil. split; [by intros l ?%elem_of_nil|done].
Qed.

Lemma initDepsOptimizer_store_ok cachedMetadata ssrDeps initialDeps :
  (∀ v, cachedMetadata = Some v → keyed v) → keyed ssrDeps →
  hoare store_ok (initDepsOptimizer env cachedMetadata ssrDeps initialDeps)
    (λ _, store_ok) store_ok.
Proof.
  intros Hc Hs.
  assert (∀ v, keyed v → hoare store_ok (allocMetaVal v) (λ _, store_ok) store_ok)
    as Halloc.
  { intros v Hv s H. pose proof (store_ok_afterAlloc v s H Hv) as Ha.
    unfold afterAlloc, exec in Ha.
    by destruct (allocMetaVal v s) as [[l|e] s']. }
  unfold initDepsOptimizer.
  eapply hoare_bind.
  { apply Halloc. destruct cachedMetadata as [v|]; simpl.
    - by apply Hc.
    - by intros k i ?. }
  intros m.
  eapply hoare_bind; [store_kept|intros ?].
  eapply hoare_bind with (Q := λ _, store_ok).
  { apply hoare_when; [intros _|done].
    eapply hoare_bind with (Q := λ _, store_ok); [by apply Halloc|intros l].
    store_kept. }
  intros ?.
  eapply hoare_bind; [store_kept|intros p].
  eapply hoare_bind; [store_kept|intros ?].
  eapply hoare_bind; [store_kept|intros ?].
  eapply hoare_bind; [store_kept|intros ?].
  apply hoare_when; [intros _|done].
  destruct (negb (scan env)); [apply seedDiscovered_store_ok|store_kept].
Qed.

End StoreOk.

(** ** The bundle that waits for its commit *)

#[global] Instance commit_kept_preorder : PreOrder commit_kept.
Proof.
  split; [intros s; split; [done|split; [done|by left]]|].
  intros s1 s2 s3 (Hm1 & Hi1 & H1) (Hm2 & Hi2 & H2).
  split; [congruence|]. split; [congruence|].
  destruct H2 as [H2|H2]; [|by right].
  destruct H1 as [H1|H1]; [left; congruence|right; congruence].
Qed.

#[global] Instance no_commit_preorder : PreOrder no_commit.
Proof.
  split; [intros s H; exact H|].
  intros s1 s2 s3 H1 H2 H. by apply H2, H1.
Qed.

Lemma commit_frame_ready_kept s s' :
  commit_kept s s' → commit_frame_ready s → commit_frame_ready s'.
Proof.
  intros (Hm & Hi & [Hr|Hn]) H r md nd mm nr Hrun.
  - rewrite Hr in Hrun. eapply commit_ready_ext; eauto.
  - by rewrite Hrun in Hn.
Qed.

Lemma no_commit_ready s : is_commit (running s) = false → commit_frame_ready s.
Proof. intros H r md nd mm nr Hrun. by rewrite Hrun in H. Qed.

Ltac commit_kept_tac :=
  split; [reflexivity|split; [reflexivity|]];
  first [left; reflexivity|right; reflexivity].

Ltac no_commit_tac := intros ?; simpl; first [assumption|reflexivity].

Lemma commit_ready_allocInfo s md nd i :
  commit_ready s md nd →
  commit_ready (set_infos (infos s ++ [i]) s) md nd ∧
  (length (infos s) ∉ Obj.values (Meta.optimized (meta s nd))) ∧
  (length (infos s) ∉ Obj.values (Meta.chunks (meta s nd))).
Proof.
  intros [H1 H2 H3 H4 H5 H6 H7 H8]. split; [|split].
  - split; try done.
    + intros l Hl. simpl. rewrite length_app. simpl.
      specialize (H4 l Hl). lia.
    + intros k d Hd. unfold info. simpl.
      rewrite lookup_total_app_l; [by apply H8|].
      apply H4. right. right. by eapply get_Some_values.
  - intros Hl. specialize (H4 _ (or_introl Hl)). lia.
  - intros Hl. specialize (H4 _ (or_intror (or_introl Hl))). lia.
Qed.

Lemma commit_ready_add s md nd l :
  commit_ready s md nd →
  l < length (infos s) →
  l ∉ Obj.values (Meta.optimized (meta s nd)) →
  l ∉ Obj.values (Meta.chunks (meta s nd)) →
  commit_ready
    (set_metas
       (<[md := Meta.set_discovered
                  (Obj.set (Meta.discovered (meta s md))
                     (DepInfo.id (info s l)) l) (meta s md)]> (metas s)) s)
    md nd.
Proof.
  intros [H1 H2 H3 H4 H5 H6 H7 H8] Hl HO HC.
  split; rewrite ?meta_insert_eq, ?meta_insert_ne by done; try done.
  - simpl. by rewrite length_insert.
  - simpl. by rewrite length_insert.
  - intros x [Hx|[Hx|Hx]]; [apply H4; tauto|apply H4; tauto|].
    simpl in Hx. apply values_set in Hx as [->|Hx]; [done|].
    apply H4. tauto.
  - intros x [Hx|Hx]; [apply H5; tauto|].
    simpl in Hx. apply values_set in Hx as [->|Hx]; [done|].
    apply H5. tauto.
  - intros k d. simpl. intros Hd.
    destruct (decide (DepInfo.id (info s l) = k)) as [<-|Hne].
    + rewrite get_set_eq in Hd. by injection Hd as <-.
    + rewrite get_set_ne in Hd by done. by apply H8.
Qed.

Section KeepReady.
Variables (env : Env) (md nd : loc).

Let P := λ s, commit_ready s md nd ∧ _metadata s = md.

Lemma hoare_ready_kept {A} (m : M A) :
  steady (keeps (λ s, (metas s, infos s, _metadata s))) m →
  hoare P m (λ _, P) P.
Proof.
  intros H. eapply hoare_steady; [exact H|].
  intros s s' [= Hm Hi Hp] [Hc <-]. split; [|done].
  by eapply commit_ready_ext.
Qed.

Ltac ready_kept := apply hoare_ready_kept; steady_with ltac:(reflexivity).

Lemma registerMissingImport_ready id resolved ssr :
  hoare P (registerMissingImport env id resolved ssr) (λ _, P) P.
Proof.
  unfold registerMissingImport.
  eapply hoare_bind; [ready_kept|intros ?].
  eapply hoare_bind; [ready_kept|intros ?].
  eapply hoare_bind; [ready_kept|intros ?].
  unfold registerMissingImport_body.
  eapply hoare_bind with (Q := λ m s, P s ∧ m = md).
  { apply hoare_gets. by intros s [H1 H2]. }
  intros metadata. apply hoare_assume. intros ->.
  eapply hoare_bind; [ready_kept|intros s0].
  destruct (Obj.index _ id); [by apply hoare_ret..|].
  destruct (Obj.index _ id); [by apply hoare_ret..|].
  destruct (Obj.index _ id); [by apply hoare_ret..|].
  eapply hoare_bind; [ready_kept|intros ?].
  eapply hoare_bind; [ready_kept|intros s1].
  eapply hoare_bind with
    (Q := λ l s, P s ∧ l < length (infos s) ∧
                 (l ∉ Obj.values (Meta.optimized (meta s nd))) ∧
                 (l ∉ Obj.values (Meta.chunks (meta s nd)))).
  { intros s [Hc Hm].
    edestruct (commit_ready_allocInfo s md nd) as (H1 & H2 & H3);
      [exact Hc|].
    simpl. split; [split; [exact H1|exact Hm]|]. rewrite length_app. simpl.
    split; [lia|]. done. }
  intros o.
  eapply hoare_bind with (Q := λ _, P).
  { intros s ((Hc & Hm) & Hl & HO & HC).
    unfold addOptimizedDepInfo, bind, get.
    destruct (in_other_submap _ _ _); [by split|].
    unfold modify_meta, modify. simpl.
    split; [by apply commit_ready_add|done]. }
  intros missing.
  eapply hoare_bind; [ready_kept|intros ?].
  eapply hoare_bind; [ready_kept|intros ?].
  by apply hoare_ret.
Qed.

End KeepReady.

Section Reachable.
Variable env : Env.

Lemma hoare_no_commit {A} (m : M A) :
  steady no_commit m →
  hoare (λ s, is_commit (running s) = false) m
    (λ _ s, is_commit (running s) = false)
    (λ s, is_commit (running s) = false).
Proof.
  intros H. eapply (hoare_steady no_commit); [exact H|].
  intros s s' Hn. exact Hn.
Qed.

Lemma runOptimizer_end_no_commit (P : St → Prop) :
  hoare P (runOptimizer_end env) (λ _, commit_frame_ready) commit_frame_ready.
Proof.
  unfold runOptimizer_end.
  eapply hoare_conseq with
    (P' := P)
    (Q' := λ _ s, is_commit (running s) = false)
    (E' := λ s, is_commit (running s) = false);
    [|done|intros ? s; apply no_commit_ready|intros s; apply no_commit_ready].
  eapply hoare_bind with (Q := λ _ s, is_commit (running s) = false).
  { by apply hoare_modify. }
  intros ?. apply hoare_no_commit. steady_with no_commit_tac.
Qed.

Lemma afterBundler_ready isRerun md r :
  hoare (λ s, allocated s md ∧ discovered_keyed s md)
    (afterBundler env isRerun md r)
    (λ _, commit_frame_ready) commit_frame_ready.
Proof.
  unfold afterBundler.
  eapply hoare_bind with
    (Q := λ (suspended : bool) s,
            if suspended then commit_frame_ready s else True).
  2:{ intros [|]; simpl; [by apply hoare_ret|].
      apply runOptimizer_end_no_commit. }
  eapply hoare_try_catch with (E := λ _, True).
  2:{ intros e s _.
      unfold runOptimizer_catch, bind, emit, modify_meta, modify.
      by rewrite resolveEnqueuedProcessingPromises_run. }
  intros s [Ha Hk].
  destruct r as [v|]; [|done].
  rewrite afterBundler_try_run.
  pose proof (afterAlloc_commit_ready v s md Ha Hk) as Hready.
  destruct (needsReload _ _ _ _) as [[|]|e]; [| |done].
  - destruct (newDepsDiscovered _).
    + unfold bind, emit, modify, debug, when, ret.
      by destruct (isDebugEnabled env).
    + unfold commitProcessing_begin, bind, emit, modify, ret. simpl.
      intros r' md' nd' mm' nr' [= <- <- <- <- <-].
      by apply (commit_ready_ext (afterAlloc v s)).
  - unfold commitProcessing_begin, bind, emit, modify, ret. simpl.
    intros r' md' nd' mm' nr' [= <- <- <- <- <-].
    by apply (commit_ready_ext (afterAlloc v s)).
Qed.

Lemma afterCommit_ready isRerun md nd mismatch nr ok (P : St → Prop) :
  hoare P (afterCommit env isRerun md nd mismatch nr ok)
    (λ _, commit_frame_ready) commit_frame_ready.
Proof.
  unfold afterCommit.
  eapply hoare_bind with (Q := λ _ _, True);
    [|intros ?; apply runOptimizer_end_no_commit].
  eapply hoare_try_catch with (E := λ _, True).
  - intros s _. by destruct (afterCommit_try _ _ _ _ _ _ _ s) as [[a|e] s'].
  - intros e s _.
    unfold runOptimizer_catch, bind, emit, modify_meta, modify.
    by rewrite resolveEnqueuedProcessingPromises_run.
Qed.

Lemma afterScan_ready md p r (P : St → Prop) :
  hoare P (afterScan env md p r) (λ _, commit_frame_ready) commit_frame_ready.
Proof.
  unfold afterScan.
  eapply hoare_conseq with
    (P' := P)
    (Q' := λ _ s, is_commit (running s) = false)
    (E' := λ s, is_commit (running s) = false);
    [|done|intros ? s; apply no_commit_ready|intros s; apply no_commit_ready].
  eapply hoare_bind with (Q := λ _ s, is_commit (running s) = false).
  { by apply hoare_modify. }
  intros ?. apply hoare_no_commit. steady_with no_commit_tac.
Qed.

Lemma hoare_commit_kept {A} (m : M A) :
  steady commit_kept m →
  hoare commit_frame_ready m (λ _, commit_frame_ready) commit_frame_ready.
Proof.
  intros H. eapply hoare_steady; [exact H|apply commit_frame_ready_kept].
Qed.

Lemma handleEvent_ready e :
  hoare reachable_ok (handleEvent env e)
    (λ _, commit_frame_ready) commit_frame_ready.
Proof.
  destruct e as [id src ssr| |id|id done| | |t|id ok|r|r|ok]; simpl.
  - intros s (Hf & Hs & Hc).
    pose proof (registerMissingImport_frame_kept env id src ssr s)
      as [_ Hr].
    assert (commit_frame_ready
              (registerMissingImport env id src ssr s).2) as H.
    { intros r md nd mm nr Hrun. rewrite Hr in Hrun.
      pose proof (registerMissingImport_ready env md nd id src ssr s)
        as Hreg.
      destruct Hf as [_ Hf]. rewrite Hrun in Hf. destruct Hf as [-> _].
      specialize (Hreg (conj (Hc _ _ _ _ _ Hrun) eq_refl)).
      by destruct (registerMissingImport _ _ _ _ s) as [[a|e] s'];
        destruct Hreg. }
    unfold bind.
    by destruct (registerMissingImport _ _ _ _ s) as [[a|e] s'].
  - eapply hoare_conseq;
      [apply hoare_commit_kept; steady_with commit_kept_tac
      |by intros s (? & ? & ?)|done|done].
  - eapply hoare_conseq;
      [apply hoare_commit_kept; steady_with commit_kept_tac
      |by intros s (? & ? & ?)|done|done].
  - eapply hoare_conseq;
      [apply hoare_commit_kept; steady_with commit_kept_tac
      |by intros s (? & ? & ?)|done|done].
  - eapply hoare_conseq;
      [apply hoare_commit_kept; steady_with commit_kept_tac
      |by intros s (? & ? & ?)|done|done].
  - eapply hoare_conseq;
      [apply hoare_commit_kept; steady_with commit_kept_tac
      |by intros s (? & ? & ?)|done|done].
  - eapply hoare_conseq;
      [apply hoare_commit_kept; steady_with commit_kept_tac
      |by intros s (? & ? & ?)|done|done].
  - eapply hoare_conseq;
      [apply hoare_commit_kept; steady_with commit_kept_tac
      |by intros s (? & ? & ?)|done|done].
  - intros s (Hf & Hs & Hc). unfold bind, gets.
    destruct (running s) as [[metadata p| |]|] eqn:Hr; try exact Hc.
    by apply (afterScan_ready metadata p r (λ _, True)).
  - intros s (Hf & Hs & Hc). unfold bind, gets.
    destruct (running s) as [[|isRerun metadata|]|] eqn:Hr; try exact Hc.
    apply afterBundler_ready. destruct Hf as [Hb Hf]. rewrite Hr in Hf.
    subst metadata. destruct (Hs (_metadata s)) as [Hrefs Hk].
    split; [|exact Hk]. split; [exact Hb|]. by apply Forall_forall.
  - intros s (Hf & Hs & Hc). unfold bind, gets.
    destruct (running s) as [[| |isRerun metadata newData mm nr]|] eqn:Hr;
      try exact Hc.
    by apply (afterCommit_ready _ _ _ _ _ _ (λ _, True)).
Qed.

Lemma handleEvent_reachable_ok e s :
  wf_event e → reachable_ok s → reachable_ok (exec (handleEvent env e) s).
Proof.
  intros Hwf H.
  pose proof (handleEvent_ready e s H) as H3.
  destruct H as (H1 & H2 & _).
  pose proof (handleEvent_current env e s H1) as H1'.
  pose proof (handleEvent_store_ok env e Hwf s H2) as H2'.
  unfold exec. by destruct (handleEvent env e s) as [[[]|x] s'].
Qed.

Lemma initDepsOptimizer_keeps_running cachedMetadata ssrDeps initialDeps :
  steady (keeps running)
    (initDepsOptimizer env cachedMetadata ssrDeps initialDeps).
Proof.
  unfold initDepsOptimizer. steady_with ltac:(reflexivity).
  all: apply allocObj_keeps; done.
Qed.

(** X1.  In every state the optimizer reaches, provided that the metadata
    it is handed (by the cache and by the bundler) is keyed by id: [_metadata]
    points to a snapshot of the store, which a suspended activation of
    [runOptimizer] holds; no snapshot has a dangling reference; and a
    bundle whose [commit()] is awaited is ready to be committed. *)
Theorem reachable cachedMetadata ssrDeps initialDeps es :
  (∀ v, cachedMetadata = Some v → keyed v) → keyed ssrDeps →
  Forall wf_event es →
  reachable_ok
    (steps env es
       (exec (initDepsOptimizer env cachedMetadata ssrDeps initialDeps) St0)).
Proof.
  intros Hc Hs. induction es as [|e es IH] using rev_ind; intros Hes.
  - pose proof (initDepsOptimizer_current env cachedMetadata ssrDeps
                  initialDeps St0 eq_refl) as H1.
    pose proof (initDepsOptimizer_store_ok env cachedMetadata ssrDeps
                  initialDeps Hc Hs St0 St0_store_ok) as H2.
    pose proof (initDepsOptimizer_keeps_running cachedMetadata ssrDeps
                  initialDeps St0) as H3.
    simpl. split; [exact H1|]. unfold exec in *.
    destruct (initDepsOptimizer _ _ _ _ St0) as [[[]|x] s'] eqn:E.
    all: split; [exact H2|]; apply no_commit_ready.
    all: unfold keeps in H3; simpl in *; by rewrite H3.
  - apply Forall_app in Hes as [Hes He].
    rewrite Forall_singleton in He.
    unfold steps in *. rewrite foldl_app. simpl.
    apply handleEvent_reachable_ok; [exact He|]. by apply IH.
Qed.

End Reachable.

(** When the bundler's answer arrives, the activation that awaits it holds
    the current snapshot, which has no dangling reference and whose
    [discovered] entries sit under their own [id]; the answer, once
    received, is therefore ready to be committed. *)
Lemma reachable_ok_bundler s isRerun metadata v :
  reachable_ok s →
  running s = Some (AwaitBundler isRerun metadata) →
  metadata = _metadata s ∧ allocated s metadata ∧
  discovered_keyed s metadata ∧
  commit_ready (afterAlloc v s) metadata (length (metas s)).
Proof.
  intros ([Hb Hf] & Hs & _) Hr. rewrite Hr in Hf. subst metadata.
  destruct (Hs (_metadata s)) as [Hrefs Hk].
  assert (allocated s (_metadata s)) as Ha.
  { split; [exact Hb|]. by apply Forall_forall. }
  split; [done|]. split; [done|]. split; [done|].
  by apply afterAlloc_commit_ready.
Qed.

(** When [commit()] settles, the bundle is ready to be committed over the
    current snapshot. *)
Lemma reachable_ok_commit s isRerun metadata newData mismatch nr :
  reachable_ok s →
  running s = Some (AwaitCommit isRerun metadata newData mismatch nr) →
  metadata = _metadata s ∧ commit_ready s (_metadata s) newData.
Proof.
  intros ([Hb Hf] & Hs & Hc) Hr. specialize (Hc _ _ _ _ _ Hr).
  rewrite Hr in Hf. destruct Hf as [-> _]. done.
Qed.

(** ** When the server is told to reload *)

Section Reload.
Variable env : Env.

Lemma runOptimizer_end_no_reload : steady no_reload (runOptimizer_end env).
Proof. unfold no_reload. steady_with quiet_tac. Qed.

Lemma runOptimizer_catch_no_reload metadata :
  steady no_reload (runOptimizer_catch metadata).
Proof. unfold no_reload. steady_with quiet_tac. Qed.

Lemma commitProcessing_no_reload isRerun metadata newData nr :
  steady no_reload (commitProcessing isRerun metadata newData nr).
Proof. unfold no_reload. steady_with quiet_tac. Qed.

Lemma afterCommit_rejected_no_reload isRerun metadata newData mismatch nr :
  steady no_reload
    (afterCommit env isRerun metadata newData mismatch nr false).
Proof.
  unfold afterCommit.
  apply (steady_bind _); [|intros ?; apply runOptimizer_end_no_reload].
  apply (steady_try_catch _);
    [|intros ?; apply runOptimizer_catch_no_reload].
  unfold afterCommit_try. intros s. simpl. reflexivity.
Qed.

Lemma afterCommit_serverless_no_reload isRerun metadata newData mismatch nr ok :
  server env = false →
  steady no_reload
    (afterCommit env isRerun metadata newData mismatch nr ok).
Proof.
  intros Hs. unfold afterCommit, afterCommit_try, fullReload, no_reload.
  rewrite Hs. cbn [when]. steady_with quiet_tac.
Qed.

Lemma handleEvent_no_reload e :
  (∀ ok, e ≠ CommitSettles ok) → steady no_reload (handleEvent env e).
Proof.
  intros He. destruct e as [id src ssr| |id|id done| | |t|id ok|r|r|ok];
    [..|by destruct (He ok)].
  all: unfold no_reload; steady_with quiet_tac; apply allocObj_quiet.
Qed.

(** X2.  The server is told to reload ([moduleGraph.invalidateAll()] and
    the [full-reload] message) by nothing but the settling of a [commit()]
    that was started with [needsReload = true]: no call of the interface,
    no timer, no answer of the scanner or of the bundler, no [commit()]
    that rejects, and nothing at all without a dev server. *)
Theorem reload_only_after_commit s e :
  (server env = true → e = CommitSettles true →
   ∀ r md nd mm, running s ≠ Some (AwaitCommit r md nd mm true)) →
  no_reload s (exec (handleEvent env e) s).
Proof.
  intros H.
  destruct e as [id src ssr| |id|id done| | |t|id ok|r|r|ok].
  1-10: by apply handleEvent_no_reload.
  unfold exec, handleEvent, bind, gets.
  destruct (running s) as [[| |r md nd mm nr]|] eqn:Hr;
    try (simpl; reflexivity).
  destruct nr; [|apply afterCommit_no_reload].
  destruct ok; [|apply afterCommit_rejected_no_reload].
  destruct (server env) eqn:Hs;
    [|by apply afterCommit_serverless_no_reload].
  by destruct (H eq_refl eq_refl r md nd mm).
Qed.

Lemma commitProcessing_keeps_io isRerun metadata newData nr :
  steady (keeps io) (commitProcessing isRerun metadata newData nr).
Proof. steady_with ltac:(reflexivity). Qed.

(** X3.  When a [commit()] that was started with [needsReload = true]
    settles and the commit goes through, the optimizer logs the newly
    optimized dependencies (unless debugging is on), announces the reload,
    warns about the dependencies whose interop changed if there are any,
    and tells the dev server (if there is one) to invalidate the module
    graph and then to reload the page, in this order and once. *)
Theorem reload_announced s isRerun md nd mm s1 :
  running s = Some (AwaitCommit isRerun md nd mm true) →
  commitProcessing isRerun md nd true s = (Ret tt, s1) →
  ∃ l,
    emitted s (exec (handleEvent env (CommitSettles true)) s)
      (newDepsLog env s1 ++
       LoggerInfoReloading ::
       (if 0 <? length mm then [LoggerWarnMixed mm] else []) ++
       (if server env then [InvalidateAll; WsSendFullReload] else []) ++ l) ∧
    (InvalidateAll ∉ l) ∧ (WsSendFullReload ∉ l).
Proof.
  intros Hr Hc.
  pose proof (commitProcessing_keeps_io isRerun md nd true s) as Hio.
  rewrite Hc in Hio. unfold keeps in Hio. simpl in Hio.
  unfold exec, handleEvent. unfold bind at 1, gets at 1. rewrite Hr.
  unfold afterCommit. unfold bind at 1. unfold try_catch, afterCommit_try.
  unfold bind at 1, ret at 1. unfold bind at 1. rewrite Hc.
  cbn [negb].
  cut (∃ s2,
         (when (negb (isDebugEnabled env))
            (h ← gets newDepsToLogHandle;
             clearIfSet h ;;
             modify (set_newDepsToLogHandle None) ;;
             logNewlyDiscoveredDeps) ;;
          emit LoggerInfoReloading ;;
          when (0 <? length mm) (emit (LoggerWarnMixed mm)) ;;
          fullReload env)%js s1 = (Ret tt, s2) ∧
         io s2 = io s1 ++
           newDepsLog env s1 ++
           LoggerInfoReloading ::
           (if 0 <? length mm then [LoggerWarnMixed mm] else []) ++
           (if server env then [InvalidateAll; WsSendFullReload] else [])).
  { intros (s2 & -> & Hio2).
    destruct (runOptimizer_end_no_reload s2) as (l & Hl & Hbad).
    exists l. unfold emitted in *. rewrite Hl, Hio2, Hio.
    rewrite <- !app_assoc. simpl. rewrite <- !app_assoc.
    split; [done|]. split; apply Hbad; set_solver. }
  unfold newDepsLog, fullReload, logNewlyDiscoveredDeps, clearIfSet,
    clearTimeout, when, bind, gets, emit, modify, ret.
  destruct (isDebugEnabled env); simpl;
    [|destruct (newDepsToLogHandle s1); simpl;
      destruct (length (newDepsToLog s1) =? 0); simpl];
    destruct (0 <? length mm); simpl;
    destruct (server env); simpl;
    eexists; (split; [reflexivity|]); simpl;
    rewrite <- ?app_assoc; reflexivity.
Qed.

End Reload.

(** ** Pre-transforming the entries *)

#[global] Instance within_budget_preorder : PreOrder within_budget.
Proof.
  split; [by intros s; unfold within_budget|].
  intros s1 s2 s3. unfold within_budget. lia.
Qed.

Ltac budget_tac :=
  unfold within_budget, preTransformBudget, preTransformCalls; simpl;
  rewrite ?List.filter_app, ?length_app; simpl; lia.

Section Entries.
Variable env : Env.

Lemma allocObj_within_budget o : steady within_budget (allocObj o).
Proof. intros s. rewrite allocObj_run. budget_tac. Qed.

Lemma visitEntries_within_budget : steady within_budget (visitEntries env).
Proof.
  intros s. unfold visitEntries, bind, gets, when, emit, modify.
  unfold within_budget, preTransformBudget, preTransformCalls.
  destruct (server env); simpl; [|lia].
  destruct (optimizeDepsEntriesVisited s) eqn:E; simpl; [by rewrite E|].
  rewrite List.filter_app, length_app. simpl. lia.
Qed.

Lemma handleEvent_within_budget e : steady within_budget (handleEvent env e).
Proof.
  destruct e as [id src ssr| |id|id done| | |t|id ok|r|r|ok].
  4:{ unfold handleEvent.
      change (delayDepsOptimizerUntil env id done) with
        (seen ← gets seenIds;
         when (negb (isOptimizedDepFile env id) &&
               negb (bool_decide (id ∈ seen)))
           (modify (λ s, set_seenIds ({[id]} ∪ seenIds s) s) ;;
            modify (λ s, set_registeredIds
                           (registeredIds s ++ [(id, done)]) s) ;;
            runOptimizerWhenIdle) ;;
         visitEntries env)%js.
      apply (steady_bind _); [apply (steady_gets _)|intros seen].
      apply (steady_bind _); [|intros ?; apply visitEntries_within_budget].
      steady_with budget_tac. }
  all: steady_with budget_tac; apply allocObj_within_budget.
Qed.

Lemma initDepsOptimizer_budget cachedMetadata ssrDeps initialDeps :
  preTransformBudget
    (exec (initDepsOptimizer env cachedMetadata ssrDeps initialDeps) St0)
  = if bool_decide (is_Some cachedMetadata) then 0 else 1.
Proof.
  assert (steady (keeps io)
            (initDepsOptimizer env cachedMetadata ssrDeps initialDeps)) as Hio.
  { unfold initDepsOptimizer. steady_with ltac:(reflexivity).
    all: apply allocObj_keeps; done. }
  assert (hoare (λ _, True)
            (initDepsOptimizer env cachedMetadata ssrDeps initialDeps)
            (λ _ s, optimizeDepsEntriesVisited s =
                      bool_decide (is_Some cachedMetadata))
            (λ s, optimizeDepsEntriesVisited s =
                    bool_decide (is_Some cachedMetadata))) as Hv.
  { unfold initDepsOptimizer.
    eapply hoare_bind with (Q := λ _ _, True);
      [intros s _; by rewrite allocMetaVal_run|intros m].
    eapply hoare_bind with (Q := λ _ _, True); [by apply hoare_modify|intros ?].
    eapply hoare_bind with (Q := λ _ _, True).
    { intros s _. destruct (negb (isBuild env) && config_ssr env); [|done].
      unfold when, bind. by rewrite allocMetaVal_run. }
    intros ?.
    eapply hoare_bind with (Q := λ _ _, True); [done|intros p].
    eapply hoare_bind with (Q := λ _ _, True); [by apply hoare_modify|intros ?].
    eapply hoare_bind with
      (Q := λ _ s, optimizeDepsEntriesVisited s =
                     bool_decide (is_Some cachedMetadata));
      [by apply hoare_modify|intros ?].
    eapply hoare_steady with
      (R := keeps optimizeDepsEntriesVisited);
      [steady_with ltac:(reflexivity)|].
    intros s s' Hk Hs. unfold keeps in Hk. congruence. }
  specialize (Hio St0). specialize (Hv St0 I). unfold exec.
  destruct (initDepsOptimizer _ _ _ _ St0) as [[[]|x] s'];
    unfold keeps in Hio; simpl in *;
    unfold preTransformBudget, preTransformCalls; rewrite Hio, Hv; simpl;
    by destruct (bool_decide _).
Qed.

(** X4.  [preTransformOptimizeDepsEntries] is called at most once in the
    life of an optimizer, whatever happens to it, and never when it
    started from the cache. *)
Theorem entries_transformed_once cachedMetadata ssrDeps initialDeps es :
  let s := steps env es
             (exec (initDepsOptimizer env cachedMetadata ssrDeps initialDeps)
                St0) in
  preTransformCalls s ≤ 1 ∧
  (if cachedMetadata is Some _ then preTransformCalls s = 0 else True).
Proof.
  intros s.
  pose proof (steps_steady within_budget env handleEvent_within_budget es
                (exec (initDepsOptimizer env cachedMetadata ssrDeps
                         initialDeps) St0)) as H.
  unfold within_budget in H.
  rewrite initDepsOptimizer_budget in H. fold s in H.
  unfold preTransformBudget in H.
  destruct cachedMetadata as [v|].
  - rewrite bool_decide_eq_true_2 in H by eauto. lia.
  - rewrite bool_decide_eq_false_2 in H by (by intros [? ?]).
    destruct (optimizeDepsEntriesVisited s); lia.
Qed.

End Entries.

(** ** A commit that is rejected *)

Lemma runOptimizer_catch_run metadata s :
  runOptimizer_catch metadata s =
    (Ret tt,
     set_metas
       (<[metadata := Meta.set_discovered [] (meta s metadata)]> (metas s))
       (set_depOptimizationProcessingQueue []
          (set_resolved
             (resolveAll (depOptimizationProcessingQueue s) (resolved s))
             (set_io (io s ++ [LoggerErrorUpdating]) s)))).
Proof.
  unfold runOptimizer_catch, bind, emit, modify_meta, modify.
  by rewrite resolveEnqueuedProcessingPromises_run.
Qed.

(** X5.  When [commit()] rejects, the executor does what it does when the
    bundler fails: it logs the error, resolves every promise of the
    resolve-queue and empties the queue, empties the [discovered] map, and
    leaves [_metadata] on the snapshot it pointed to, whose [optimized] and
    [chunks] are untouched; no reload is sent, and the executor is idle
    again. *)
Theorem commit_rejected env s isRerun newData mismatch nr :
  running s = Some (AwaitCommit isRerun (_metadata s) newData mismatch nr) →
  _metadata s < length (metas s) →
  let s' := exec (handleEvent env (CommitSettles false)) s in
  (∀ p, p ∈ depOptimizationProcessingQueue s → p ∈ resolved s') ∧
  depOptimizationProcessingQueue s' = [] ∧
  Meta.discovered (meta s' (_metadata s')) = [] ∧
  _metadata s' = _metadata s ∧
  Meta.optimized (meta s' (_metadata s')) =
    Meta.optimized (meta s (_metadata s)) ∧
  Meta.chunks (meta s' (_metadata s')) = Meta.chunks (meta s (_metadata s)) ∧
  infos s' = infos s ∧
  running s' = None ∧ currentlyProcessing s' = false ∧
  emitted s s'
    (LoggerErrorUpdating ::
     if enqueuedRerun s then rerunLog env else []).
Proof.
  intros Hrun Hlt s'.
  cut (∃ r s3, handleEvent env (CommitSettles false) s = (r, s3) ∧
    (∀ p, p ∈ depOptimizationProcessingQueue s → p ∈ resolved s3) ∧
    depOptimizationProcessingQueue s3 = [] ∧
    Meta.discovered (meta s3 (_metadata s3)) = [] ∧
    _metadata s3 = _metadata s ∧
    Meta.optimized (meta s3 (_metadata s3)) =
      Meta.optimized (meta s (_metadata s)) ∧
    Meta.chunks (meta s3 (_metadata s3)) =
      Meta.chunks (meta s (_metadata s)) ∧
    infos s3 = infos s ∧
    running s3 = None ∧ currentlyProcessing s3 = false ∧
    emitted s s3
      (LoggerErrorUpdating :: if enqueuedRerun s then rerunLog env else [])).
  { intros (r & s3 & Heq & H). unfold s', exec. by rewrite Heq. }
  clear s'.
  unfold handleEvent. unfold bind at 1, gets at 1. rewrite Hrun.
  unfold afterCommit, afterCommit_try. unfold bind at 1.
  unfold try_catch. unfold bind at 1, throw at 1.
  rewrite runOptimizer_catch_run.
  unfold runOptimizer_end. unfold bind at 1, modify at 1.
  unfold bind at 1, modify at 1. unfold bind at 1, gets at 1.
  cbn [enqueuedRerun set_currentlyProcessing set_running set_metas
       set_depOptimizationProcessingQueue set_resolved set_io].
  set (s1 := set_currentlyProcessing _ _).
  assert (Meta.discovered (meta s1 (_metadata s1)) = []) as He.
  { unfold s1, meta. simpl. by rewrite list_lookup_total_insert_eq. }
  assert (∀ s3 l,
            metas s3 = metas s1 → _metadata s3 = _metadata s →
            depOptimizationProcessingQueue s3 = [] →
            resolved s3 = resolved s1 → infos s3 = infos s →
            running s3 = None → currentlyProcessing s3 = false →
            io s3 = io s ++ LoggerErrorUpdating :: l →
            (∀ p, p ∈ depOptimizationProcessingQueue s → p ∈ resolved s3) ∧
            depOptimizationProcessingQueue s3 = [] ∧
            Meta.discovered (meta s3 (_metadata s3)) = [] ∧
            _metadata s3 = _metadata s ∧
            Meta.optimized (meta s3 (_metadata s3)) =
              Meta.optimized (meta s (_metadata s)) ∧
            Meta.chunks (meta s3 (_metadata s3)) =
              Meta.chunks (meta s (_metadata s)) ∧
            infos s3 = infos s ∧
            running s3 = None ∧ currentlyProcessing s3 = false ∧
            emitted s s3 (LoggerErrorUpdating :: l)) as Hfin.
  { intros s3 l Hm3 Hp3 Hq3 Hr3 Hi3 Hn3 Hc3 Hio3.
    split.
    { intros p Hp. rewrite Hr3. unfold s1. simpl.
      apply elem_of_resolveAll. tauto. }
    split; [done|]. unfold meta. rewrite Hm3, Hp3. unfold s1. simpl.
    rewrite list_lookup_total_insert_eq by done. done. }
  destruct (enqueuedRerun s); cbn [when].
  - unfold rerun. unfold bind at 1. rewrite debug_run.
    rewrite runOptimizer_nothing by exact He.
    do 2 eexists. split; [reflexivity|]. apply Hfin; try done.
    unfold s1, rerunLog. simpl. by rewrite <- app_assoc.
  - do 2 eexists. split; [reflexivity|]. apply Hfin; done.
Qed.

(** ** What a commit publishes *)



Section Publish.

Variables (s0 : St) (md nd : loc).
Hypothesis Hready : commit_ready s0 md nd.

Local Abbreviation O := (Meta.optimized (meta s0 nd)).
Local Abbreviation C := (Meta.chunks (meta s0 nd)).
Local Abbreviation Dold := (Meta.discovered (meta s0 md)).







End Publish.

(** ** What the bundler is given *)

Lemma get_foldl_set {W} (g : string → option loc) (h : loc → W)
  (ks : list string) (init : Obj.t W) k :
  Obj.get
    (foldl (λ acc dep,
              match g dep with
              | Some l => Obj.set acc dep (h l)
              | None => acc
              end) init ks) k =
    match g k with
    | Some l => if decide (k ∈ ks) then Some (h l) else Obj.get init k
    | None => Obj.get init k
    end.
Proof.
  revert init. induction ks as [|x ks IH]; intros init; simpl.
  - by destruct (g k).
  - rewrite IH. destruct (g k) as [l|] eqn:Ek.
    + destruct (decide (k ∈ ks)) as [Hin|Hin].
      * case_decide as H; [done|]. exfalso. apply H. by right.
      * destruct (decide (x = k)) as [->|Hx].
        -- rewrite Ek, get_set_eq. case_decide as H; [done|].
           exfalso. apply H. left.
        -- case_decide as H.
           ++ apply elem_of_cons in H as [?|?]; [congruence|done].
           ++ destruct (g x); [by rewrite get_set_ne|done].
    + destruct (g x) as [l|] eqn:Ex; [|done].
      rewrite get_set_ne; [done|congruence].
Qed.

Lemma get_clone {W} (o : Obj.t loc) (h : loc → W) (init : Obj.t W) k :
  Obj.get
    (foldl (λ acc dep,
              match Obj.get o dep with
              | Some l => Obj.set acc dep (h l)
              | None => acc
              end) init (Obj.keys o)) k =
    match Obj.get o k with
    | Some l => Some (h l)
    | None => Obj.get init k
    end.
Proof.
  rewrite get_foldl_set. destruct (Obj.get o k) as [l|] eqn:E; [|done].
  case_decide as H; [done|]. exfalso. apply H. by eapply get_Some_keys.
Qed.

(** X7.  A rerun with something to bundle: the bundler is given, for every
    id, the discovered entry without its [processing] promise if the id is
    discovered, and otherwise a copy of the optimized entry if there is
    one; the barrier goes to the end of the resolve-queue and a fresh
    barrier takes its place; the new-deps flag is reset; the executor is
    busy, suspended on the bundler with the current snapshot, and the run
    is a rerun iff a first run had been called. *)
Theorem runOptimizer_starts s :
  Meta.discovered (meta s (_metadata s)) ≠ [] →
  ∃ newDeps s',
    runOptimizer s = (Ret tt, s') ∧
    emitted s s' [RunOptimizeDeps newDeps] ∧
    (∀ dep,
       Obj.get newDeps dep =
         match Obj.get (Meta.discovered (meta s (_metadata s))) dep with
         | Some d => Some (DepInfo.set_processing None (info s d))
         | None =>
             info s <$> Obj.get (Meta.optimized (meta s (_metadata s))) dep
         end) ∧
    running s' = Some (AwaitBundler (firstRunCalled s) (_metadata s)) ∧
    currentlyProcessing s' = true ∧ firstRunCalled s' = true ∧
    enqueuedRerun s' = false ∧ newDepsDiscovered s' = false ∧
    depOptimizationProcessingQueue s' =
      depOptimizationProcessingQueue s ++ [depOptimizationProcessing s] ∧
    depOptimizationProcessing s' = nextPromise s ∧
    nextPromise s' = S (nextPromise s) ∧
    timers s' = cancelTimer (handle s) (timers s) ∧
    metas s' = metas s ∧ infos s' = infos s ∧ _metadata s' = _metadata s ∧
    resolved s' = resolved s.
Proof.
  intros Hne.
  exists (cloneDiscovered s (_metadata s) (cloneOptimized s (_metadata s) [])).
  unfold runOptimizer.
  unfold bind at 1. unfold gets at 1. cbn beta iota.
  unfold bind at 1. unfold modify at 1. cbn beta iota.
  unfold bind at 1. unfold modify at 1. cbn beta iota.
  unfold bind at 1. unfold gets at 1. cbn beta iota.
  unfold bind at 1. rewrite clearIfSet_run. cbn beta iota.
  unfold bind at 1. unfold gets at 1. cbn beta iota.
  unfold meta at 1. cbn [metas _metadata set_timers set_enqueuedRerun
                         set_firstRunCalled handle timers].
  fold (meta s (_metadata s)).
  destruct (length (Obj.keys (Meta.discovered (meta s (_metadata s)))) =? 0)
    eqn:El.
  { apply Nat.eqb_eq, keys_nil in El. done. }
  unfold bind, gets, modify, newDepOptimizationProcessing, emit. simpl.
  eexists. split; [reflexivity|]. simpl.
  split; [done|]. split; [|done].
  intros dep. unfold cloneDiscovered, cloneOptimized.
  rewrite get_clone.
  destruct (Obj.get (Meta.discovered _) dep); [done|].
  rewrite get_clone. by destruct (Obj.get (Meta.optimized _) dep).
Qed.

(** ** One run at a time *)

#[global] Instance bundler_idle_preorder : PreOrder bundler_idle.
Proof.
  split.
  - intros s. exists []. unfold emitted. by rewrite app_nil_r.
  - intros s1 s2 s3 (l1 & E1 & A1) (l2 & E2 & A2).
    exists (l1 ++ l2). unfold emitted in *. rewrite E2, E1, app_assoc.
    split; [done|]. by apply Forall_app.
Qed.

#[global] Instance calm_preorder : PreOrder calm.
Proof.
  split.
  - intros s. by repeat split.
  - intros s1 s2 s3 (A1 & A2 & A3 & A4 & A5 & A6 & A7)
      (B1 & B2 & B3 & B4 & B5 & B6 & B7).
    repeat split; try congruence; [lia|by etrans].
Qed.

Lemma filter_scan_le (P : timer * (nat * Callback) → Prop)
  `{!∀ e, Decision (P e)} ts :
  length (List.filter isScanTimer (filter P ts)) ≤
  length (List.filter isScanTimer ts).
Proof.
  induction ts as [|e ts IH]; simpl; [done|].
  destruct (decide (P e)).
  - rewrite filter_cons_True by done. simpl.
    destruct (isScanTimer e); simpl; lia.
  - rewrite filter_cons_False by done.
    destruct (isScanTimer e); simpl; lia.
Qed.

Ltac idle_tac :=
  first
    [ exists []; split; [unfold emitted; simpl; by rewrite app_nil_r|];
      constructor
    | eexists [_]; split; [reflexivity|]; repeat constructor ].

Ltac scan_tac :=
  unfold scanPending; simpl;
  first
    [ lia
    | rewrite List.filter_app, length_app; simpl; lia
    | apply filter_scan_le ].

Ltac calm_tac :=
  split; [reflexivity|]; split; [reflexivity|]; split; [reflexivity|];
  split; [reflexivity|]; split; [reflexivity|]; split;
  [scan_tac|idle_tac].

Lemma allocObj_calm o : steady calm (allocObj o).
Proof. intros s. rewrite allocObj_run. calm_tac. Qed.

Section OneRun.
Variable env : Env.

Lemma debouncedProcessing_calm t : steady calm (debouncedProcessing t).
Proof. steady_with calm_tac. Qed.

Lemma registerMissingImport_calm id src ssr :
  steady calm (registerMissingImport env id src ssr).
Proof. steady_with calm_tac. Qed.

Lemma hoare_calm {A} s0 (m : M A) :
  steady calm m → hoare (calm s0) m (λ _, calm s0) (calm s0).
Proof.
  intros H. eapply hoare_steady; [exact H|].
  intros s s' Hss Hs. by etrans.
Qed.

Lemma runCallback_calm s0 cb :
  currentlyProcessing s0 = true → (∀ p, cb ≠ CbScan p) →
  hoare (calm s0) (runCallback env cb) (λ _, calm s0) (calm s0).
Proof.
  intros Hcp Hcb. destruct cb as [p| | | |id]; simpl.
  - by destruct (Hcb p).
  - eapply hoare_bind; [apply hoare_calm; steady_with calm_tac|intros ?].
    eapply hoare_bind; [apply hoare_calm; steady_with calm_tac|intros ?].
    eapply hoare_bind with (Q := λ c s, calm s0 s ∧ c = true).
    { apply hoare_gets. intros s Hs. split; [done|].
      destruct Hs as (_ & -> & _). done. }
    intros c. apply hoare_assume. intros ->. by apply hoare_ret.
  - apply hoare_calm. steady_with calm_tac.
  - apply hoare_calm. steady_with calm_tac.
  - apply hoare_calm. steady_with calm_tac.
Qed.

Lemma timerCallback_scan s t p :
  timerCallback s t = Some (CbScan p) → 0 < scanPending s.
Proof.
  unfold timerCallback, scanPending.
  induction (timers s) as [|[t' [ms cb]] ts IH]; simpl; [done|].
  destruct (bool_decide (t' = t)); simpl.
  - intros [= ->]. simpl. lia.
  - intros H. specialize (IH H). destruct (isScanTimer _); simpl; lia.
Qed.

Lemma fireTimer_calm s0 t :
  currentlyProcessing s0 = true → scanPending s0 = 0 →
  hoare (calm s0) (fireTimer env t) (λ _, calm s0) (calm s0).
Proof.
  intros Hcp Hsc s Hs. unfold fireTimer, bind at 1, get at 1.
  destruct (timerCallback s t) as [cb|] eqn:Ecb; [|exact Hs].
  assert (hoare (calm s0) (clearTimeout t ;; runCallback env cb)%js
            (λ _, calm s0) (calm s0)) as H; [|by apply H].
  eapply hoare_bind; [apply hoare_calm; steady_with calm_tac|intros ?].
  apply runCallback_calm; [done|].
  intros p ->. apply timerCallback_scan in Ecb.
  destruct Hs as (_ & _ & _ & _ & _ & Hle & _). lia.
Qed.

Lemma handleEvent_calm s0 e :
  currentlyProcessing s0 = true → scanPending s0 = 0 → settles e = false →
  hoare (calm s0) (handleEvent env e) (λ _, calm s0) (calm s0).
Proof.
  intros Hcp Hsc He.
  destruct e as [id src ssr| |id|id done| | |t|id ok|r|r|ok];
    try discriminate He.
  7: by apply fireTimer_calm.
  all: apply hoare_calm; steady_with calm_tac.
Qed.

Lemma exec_calm s e :
  currentlyProcessing s = true → scanPending s = 0 → settles e = false →
  calm s (exec (handleEvent env e) s).
Proof.
  intros Hcp Hsc He.
  pose proof (handleEvent_calm s e Hcp Hsc He s) as H. unfold exec.
  destruct (handleEvent env e s) as [[[]|x] s']; by apply H.
Qed.

Lemma settle_without_activation s e :
  running s = None → settles e = true → exec (handleEvent env e) s = s.
Proof.
  intros Hr He. destruct e; try discriminate He;
    unfold exec, handleEvent, bind, gets; by rewrite Hr.
Qed.

Lemma steps_calm es s :
  running s = None → currentlyProcessing s = true → scanPending s = 0 →
  calm s (steps env es s).
Proof.
  intros Hr Hcp Hsc. induction es as [|e es IH] using rev_ind.
  - reflexivity.
  - unfold steps in *. rewrite foldl_app. simpl.
    set (sn := foldl _ s es) in *.
    pose proof IH as (A1 & A2 & A3 & A4 & A5 & A6 & A7).
    destruct (settles e) eqn:He.
    + rewrite settle_without_activation; [done|congruence|done].
    + etrans; [exact IH|]. apply exec_calm; [congruence|lia|done].
Qed.

(** X8.  A scan that fails leaves the optimizer wedged.  The error is
    logged and the scan promise resolved, but [currentlyProcessing], set
    when the scan was scheduled, is not reset: whatever happens afterwards
    (missing imports, [run()], timers, idle callbacks), the bundler is
    never started, the barrier is never replaced and no promise is
    resolved any more. *)
Theorem scan_failure_wedges s metadata p es :
  running s = Some (AwaitScan metadata p) →
  currentlyProcessing s = true →
  scanPending s = 0 →
  let s1 := exec (handleEvent env (ScanSettles None)) s in
  let s2 := steps env es s1 in
  emitted s s1 [LoggerErrorScanning] ∧
  scanProcessing s1 = None ∧
  (is_Some (scanProcessing s) → p ∈ resolved s1) ∧
  running s2 = None ∧
  currentlyProcessing s2 = true ∧
  bundler_idle s1 s2 ∧
  resolved s2 = resolved s1 ∧
  depOptimizationProcessing s2 = depOptimizationProcessing s ∧
  depOptimizationProcessingQueue s2 = depOptimizationProcessingQueue s.
Proof.
  intros Hr Hcp Hsc s1 s2.
  assert (emitted s s1 [LoggerErrorScanning] ∧ scanProcessing s1 = None ∧
          (is_Some (scanProcessing s) → p ∈ resolved s1) ∧
          running s1 = None ∧ currentlyProcessing s1 = true ∧
          timers s1 = timers s ∧
          depOptimizationProcessing s1 = depOptimizationProcessing s ∧
          depOptimizationProcessingQueue s1 =
            depOptimizationProcessingQueue s)
    as (H1 & H2 & H3 & H4 & H5 & H6 & H7 & H8).
  { unfold s1, exec, handleEvent, bind, gets. rewrite Hr.
    unfold afterScan, bind, modify, try_catch, throw, emit, gets, when,
      resolve, modify. simpl.
    destruct (scanProcessing s) as [sp|] eqn:Esp; simpl.
    - repeat split; try done. intros _. set_solver.
    - repeat split; done. }
  assert (scanPending s1 = 0) as Hsc1 by (unfold scanPending; by rewrite H6).
  pose proof (steps_calm es s1 H4 H5 Hsc1)
    as (A1 & A2 & A3 & A4 & A5 & A6 & A7).
  fold s2 in A1, A2, A3, A4, A5, A6, A7.
  repeat split; try done; congruence.
Qed.

End OneRun.

#[global] Instance busy_kept_preorder : PreOrder busy_kept.
Proof.
  split; [by intros s; split|].
  intros s1 s2 s3 [A1 A2] [B1 B2]. split; [congruence|lia].
Qed.

#[global] Instance frame_busy_kept_preorder : PreOrder frame_busy_kept.
Proof.
  split; [by intros s; split|].
  intros s1 s2 s3 [A1 A2] [B1 B2]. split; [congruence|by etrans].
Qed.

Ltac busy_tac := split; [reflexivity|scan_tac].
Ltac frame_busy_tac := split; [reflexivity|busy_tac].

Lemma exclusive_kept s s' : frame_busy_kept s s' → exclusive s → exclusive s'.
Proof.
  intros (Hr & Hc & Hs) (H1 & H2 & H3). unfold exclusive. rewrite Hr, Hc.
  split; [|split].
  - intros Hn. destruct (H1 Hn). split; [done|lia].
  - intros Hn. apply H2. lia.
  - lia.
Qed.

Lemma busy_exclusive s :
  currentlyProcessing s = true → scanPending s = 0 → exclusive s.
Proof. intros Hc Hs. split; [done|]. split; [done|lia]. Qed.

Lemma idle_exclusive s : running s = None → scanPending s = 0 → exclusive s.
Proof. intros Hr Hs. split; [by rewrite Hr|]. split; [done|lia]. Qed.

Section Exclusive.
Variable env : Env.

Lemma hoare_frame_busy (I : St → Prop) {A} (m : M A) :
  steady frame_busy_kept m →
  (∀ s s', frame_busy_kept s s' → I s → I s') →
  hoare I m (λ _, I) I.
Proof. intros H HI. by eapply hoare_steady. Qed.

Definition idle_unscanned (s : St) : Prop :=
  running s = None ∧ scanPending s = 0.

Definition busy_unscanned (s : St) : Prop :=
  currentlyProcessing s = true ∧ scanPending s = 0.

Lemma idle_unscanned_kept s s' :
  frame_busy_kept s s' → idle_unscanned s → idle_unscanned s'.
Proof. intros (Hr & Hc & Hs) [H1 H2]. split; [congruence|lia]. Qed.

Lemma busy_unscanned_kept s s' :
  busy_kept s s' → busy_unscanned s → busy_unscanned s'.
Proof. intros (Hc & Hs) [H1 H2]. split; [congruence|lia]. Qed.

Lemma runOptimizer_exclusive E :
  hoare idle_unscanned runOptimizer (λ _, exclusive) E.
Proof.
  intros s [Hr Hs]. unfold runOptimizer, bind, gets, modify. simpl.
  assert (∀ t, length (List.filter isScanTimer
                         (filter (λ e, e.1 ≠ t) (timers s))) = 0) as Hf.
  { intros t. pose proof (filter_scan_le (λ e, e.1 ≠ t) (timers s)) as H.
    unfold scanPending in Hs. lia. }
  unfold clearIfSet, clearTimeout, modify.
  destruct (handle s) as [t|]; simpl;
    destruct (length (Obj.keys _) =? 0); simpl;
    first
      [ apply idle_exclusive;
          [first [exact Hr|reflexivity]|first [apply Hf|exact Hs]]
      | apply busy_exclusive; [reflexivity|first [apply Hf|exact Hs]] ].
Qed.

Lemma debug_idle_unscanned msg E :
  hoare idle_unscanned (debug env msg) (λ _, idle_unscanned) E.
Proof. intros s Hs. rewrite debug_run. exact Hs. Qed.

Lemma rerun_exclusive E :
  hoare idle_unscanned (rerun env) (λ _, exclusive) E.
Proof.
  unfold rerun. eapply hoare_bind; [apply debug_idle_unscanned|].
  intros ?. apply runOptimizer_exclusive.
Qed.

Lemma runOptimizer_end_exclusive E :
  hoare (λ s, scanPending s = 0) (runOptimizer_end env)
    (λ _, exclusive) E.
Proof.
  unfold runOptimizer_end.
  eapply hoare_bind with (Q := λ _, idle_unscanned);
    [by apply hoare_modify|intros ?].
  eapply hoare_bind with (Q := λ _, idle_unscanned);
    [apply hoare_modify; by intros s []|intros ?].
  eapply hoare_bind with (Q := λ _, idle_unscanned);
    [apply hoare_gets; by intros s []|intros e].
  apply hoare_when; [intros _; apply rerun_exclusive|].
  intros _ s []. by apply idle_exclusive.
Qed.

Lemma hoare_exclusive_kept {A} (m : M A) :
  steady frame_busy_kept m → hoare exclusive m (λ _, exclusive) exclusive.
Proof. intros H. apply hoare_frame_busy; [done|apply exclusive_kept]. Qed.

Lemma exclusive_idle s :
  exclusive s → currentlyProcessing s = false → idle_unscanned s.
Proof.
  intros (H1 & H2 & H3) Hc. split.
  - destruct (running s) eqn:E; [|done].
    destruct H1 as [H1 _]; [done|congruence].
  - destruct (decide (scanPending s = 0)) as [|Hn]; [done|].
    specialize (H2 Hn). congruence.
Qed.

Lemma runCallback_exclusive cb :
  (∀ p, cb ≠ CbScan p) →
  hoare exclusive (runCallback env cb) (λ _, exclusive) exclusive.
Proof.
  intros Hcb. destruct cb as [p| | | |id]; simpl.
  - by destruct (Hcb p).
  - eapply hoare_bind;
      [apply hoare_exclusive_kept; steady_with frame_busy_tac|intros ?].
    eapply hoare_bind;
      [apply hoare_exclusive_kept; steady_with frame_busy_tac|intros ?].
    intros s Hs. unfold bind at 1, gets at 1.
    destruct (currentlyProcessing s) eqn:Ec; simpl; [done|].
    apply rerun_exclusive. by apply exclusive_idle.
  - apply hoare_exclusive_kept. steady_with frame_busy_tac.
  - apply hoare_exclusive_kept. steady_with frame_busy_tac.
  - apply hoare_exclusive_kept. steady_with frame_busy_tac.
Qed.

Lemma clearTimeout_scan s t p :
  timerCallback s t = Some (CbScan p) →
  length (List.filter isScanTimer (filter (λ e, e.1 ≠ t) (timers s))) <
  scanPending s.
Proof.
  unfold timerCallback, scanPending.
  induction (timers s) as [|[t' [ms cb]] ts IH]; simpl; [done|].
  destruct (decide (t' = t)) as [->|Hne].
  - rewrite bool_decide_eq_true_2 by done. simpl. intros [= ->].
    rewrite filter_cons_False by (simpl; intros ?; done).
    pose proof (filter_scan_le (λ e, e.1 ≠ t) ts). simpl. lia.
  - rewrite bool_decide_eq_false_2 by done. intros H.
    rewrite filter_cons_True by done. simpl.
    specialize (IH H).
    destruct (isScanTimer (t', (ms, cb))); simpl; lia.
Qed.

Lemma fireTimer_exclusive t :
  hoare exclusive (fireTimer env t) (λ _, exclusive) exclusive.
Proof.
  intros s Hs. unfold fireTimer, bind at 1, get at 1.
  destruct (timerCallback s t) as [cb|] eqn:Ecb; [|exact Hs].
  destruct cb as [p| | | |id].
  - pose proof (clearTimeout_scan s t p Ecb) as Hlt.
    destruct Hs as (H1 & H2 & H3).
    assert (currentlyProcessing s = true) as Hc by (apply H2; lia).
    unfold bind, clearTimeout, modify, runCallback, scanPhase, debug, when,
      emit, gets, bind, modify.
    destruct (isDebugEnabled env); simpl; apply busy_exclusive; try done;
      unfold scanPending; simpl; lia.
  - revert s Hs Ecb.
    cut (hoare exclusive (clearTimeout t ;; runCallback env CbDebounce)%js
           (λ _, exclusive) exclusive); [intros H s Hs _; by apply H|].
    eapply hoare_bind;
      [apply hoare_exclusive_kept; steady_with frame_busy_tac|intros ?].
    by apply runCallback_exclusive.
  - revert s Hs Ecb.
    cut (hoare exclusive (clearTimeout t ;; runCallback env CbLogNewDeps)%js
           (λ _, exclusive) exclusive); [intros H s Hs _; by apply H|].
    eapply hoare_bind;
      [apply hoare_exclusive_kept; steady_with frame_busy_tac|intros ?].
    by apply runCallback_exclusive.
  - revert s Hs Ecb.
    cut (hoare exclusive
           (clearTimeout t ;; runCallback env CbEnsureFirstRun)%js
           (λ _, exclusive) exclusive); [intros H s Hs _; by apply H|].
    eapply hoare_bind;
      [apply hoare_exclusive_kept; steady_with frame_busy_tac|intros ?].
    by apply runCallback_exclusive.
  - revert s Hs Ecb.
    cut (hoare exclusive
           (clearTimeout t ;; runCallback env (CbAfterLoad id))%js
           (λ _, exclusive) exclusive); [intros H s Hs _; by apply H|].
    eapply hoare_bind;
      [apply hoare_exclusive_kept; steady_with frame_busy_tac|intros ?].
    by apply runCallback_exclusive.
Qed.

Lemma hoare_busy_kept {A} (m : M A) :
  steady busy_kept m →
  hoare busy_unscanned m (λ _, busy_unscanned) busy_unscanned.
Proof. intros H. eapply hoare_steady; [done|apply busy_unscanned_kept]. Qed.

Lemma allocObj_busy_kept o : steady busy_kept (allocObj o).
Proof. intros s. rewrite allocObj_run. busy_tac. Qed.

Lemma allocObj_frame_busy_kept o : steady frame_busy_kept (allocObj o).
Proof. intros s. rewrite allocObj_run. frame_busy_tac. Qed.

Lemma afterScan_exclusive metadata p r :
  hoare (λ s, scanPending s = 0) (afterScan env metadata p r)
    (λ _, exclusive) exclusive.
Proof.
  unfold afterScan.
  eapply hoare_bind with (Q := λ _, idle_unscanned);
    [by apply hoare_modify|intros ?].
  eapply hoare_try_catch with (E := idle_unscanned).
  - destruct r as [discovered|]; [|by apply hoare_throw].
    eapply hoare_bind with (Q := λ _, idle_unscanned).
    { eapply (hoare_steady frame_busy_kept);
        [steady_with frame_busy_tac|apply idle_unscanned_kept]. }
    intros ?.
    eapply hoare_bind with (Q := λ _, idle_unscanned).
    { eapply (hoare_steady frame_busy_kept);
        [steady_with frame_busy_tac|apply idle_unscanned_kept]. }
    intros ?.
    eapply hoare_bind with (Q := λ _, idle_unscanned).
    { eapply (hoare_steady frame_busy_kept);
        [steady_with frame_busy_tac|apply idle_unscanned_kept]. }
    intros ?.
    eapply hoare_bind with (Q := λ _, idle_unscanned).
    { eapply (hoare_steady frame_busy_kept);
        [steady_with frame_busy_tac|apply idle_unscanned_kept]. }
    intros ?. apply runOptimizer_exclusive.
  - intros e.
    eapply hoare_conseq with (Q' := λ _, idle_unscanned)
                             (E' := idle_unscanned);
      [eapply (hoare_steady frame_busy_kept);
         [steady_with frame_busy_tac|apply idle_unscanned_kept]
      |done|by intros ? s []; apply idle_exclusive
      |by intros s []; apply idle_exclusive].
Qed.

Lemma runOptimizer_catch_busy metadata E :
  hoare busy_unscanned (runOptimizer_catch metadata)
    (λ _, busy_unscanned) E.
Proof. intros s Hs. rewrite runOptimizer_catch_run. exact Hs. Qed.

Lemma afterBundler_exclusive isRerun metadata r :
  hoare busy_unscanned (afterBundler env isRerun metadata r)
    (λ _, exclusive) exclusive.
Proof.
  unfold afterBundler.
  eapply hoare_bind with (Q := λ _, busy_unscanned).
  - eapply hoare_try_catch with (E := busy_unscanned).
    + apply hoare_busy_kept. steady_with busy_tac.
      all: apply allocObj_busy_kept.
    + intros e.
      eapply hoare_bind; [apply runOptimizer_catch_busy|intros ?].
      by apply hoare_ret.
  - intros [|]; simpl.
    + apply hoare_ret. intros s []. by apply busy_exclusive.
    + eapply hoare_conseq;
        [apply (runOptimizer_end_exclusive exclusive)
        |by intros s []|done|done].
Qed.

Lemma afterCommit_exclusive isRerun metadata newData mismatch nr ok :
  hoare busy_unscanned
    (afterCommit env isRerun metadata newData mismatch nr ok)
    (λ _, exclusive) exclusive.
Proof.
  unfold afterCommit.
  eapply hoare_bind with (Q := λ _, busy_unscanned).
  - eapply hoare_try_catch with (E := busy_unscanned).
    + apply hoare_busy_kept. steady_with busy_tac.
    + intros e. apply runOptimizer_catch_busy.
  - intros ?.
    eapply hoare_conseq;
      [apply (runOptimizer_end_exclusive exclusive)
      |by intros s []|done|done].
Qed.

Lemma handleEvent_exclusive e :
  hoare exclusive (handleEvent env e) (λ _, exclusive) exclusive.
Proof.
  destruct e as [id src ssr| |id|id done| | |t|id ok|r|r|ok].
  7: apply fireTimer_exclusive.
  1-7: apply hoare_exclusive_kept; steady_with frame_busy_tac.
  - intros s Hs. unfold handleEvent, bind, gets.
    destruct (running s) as [[metadata p| |]|] eqn:Hr; try exact Hs.
    apply afterScan_exclusive. destruct Hs as ([_ H] & _); [|done].
    by rewrite Hr.
  - intros s Hs. unfold handleEvent, bind, gets.
    destruct (running s) as [[|isRerun metadata|]|] eqn:Hr; try exact Hs.
    apply afterBundler_exclusive. destruct Hs as (H & _). apply H.
    by rewrite Hr.
  - intros s Hs. unfold handleEvent, bind, gets.
    destruct (running s) as [[| |isRerun metadata newData mm nr]|] eqn:Hr;
      try exact Hs.
    apply afterCommit_exclusive. destruct Hs as (H & _). apply H.
    by rewrite Hr.
Qed.

Lemma initDepsOptimizer_exclusive cachedMetadata ssrDeps initialDeps :
  exclusive
    (exec (initDepsOptimizer env cachedMetadata ssrDeps initialDeps) St0).
Proof.
  assert (hoare idle_unscanned
            (initDepsOptimizer env cachedMetadata ssrDeps initialDeps)
            (λ _, exclusive) exclusive) as H.
  { unfold initDepsOptimizer.
    assert (∀ A (m : M A), steady frame_busy_kept m →
              hoare idle_unscanned m (λ _, idle_unscanned) idle_unscanned)
      as Hk.
    { intros A m Hm. eapply (hoare_steady frame_busy_kept); [done|].
      apply idle_unscanned_kept. }
    eapply hoare_conseq with (E' := λ s, idle_unscanned s ∨ exclusive s)
                             (Q' := λ _, exclusive);
      [|done|done|by intros s [[]|]; [apply idle_exclusive|]].
    assert (∀ A (m : M A), steady frame_busy_kept m →
              hoare idle_unscanned m (λ _, idle_unscanned)
                (λ s, idle_unscanned s ∨ exclusive s)) as Hk'.
    { intros A m Hm. eapply hoare_conseq; [by apply Hk|done|done|].
      intros s Hs. by left. }
    eapply hoare_bind;
      [apply Hk'; steady_with frame_busy_tac;
       apply allocObj_frame_busy_kept|intros m].
    eapply hoare_bind; [apply Hk'; steady_with frame_busy_tac|intros ?].
    eapply hoare_bind;
      [apply Hk'; steady_with frame_busy_tac;
       apply allocObj_frame_busy_kept|intros ?].
    eapply hoare_bind; [apply Hk'; steady_with frame_busy_tac|intros q].
    eapply hoare_bind; [apply Hk'; steady_with frame_busy_tac|intros ?].
    eapply hoare_bind; [apply Hk'; steady_with frame_busy_tac|intros ?].
    eapply hoare_bind; [apply Hk'; steady_with frame_busy_tac|intros ?].
    apply hoare_when; [intros _|by intros _ s []; apply idle_exclusive].
    destruct (negb (scan env)).
    - eapply hoare_conseq;
        [apply Hk'; steady_with frame_busy_tac|done
        |by intros ? s []; apply idle_exclusive|done].
    - intros s [Hr Hs].
      unfold bind, modify, newDepOptimizationProcessing, setTimeout, ret.
      unfold exclusive, scanPending in *. simpl. rewrite Hr.
      split; [done|]. split; [done|].
      rewrite List.filter_app, length_app. simpl. lia. }
  specialize (H St0). unfold exec.
  destruct (initDepsOptimizer _ _ _ _ St0) as [[[]|x] s']; by apply H.
Qed.

(** X9.  The bundler runs one rerun at a time.  In every state the
    optimizer reaches, a suspended activation (scan, bundler or commit
    awaited) or a scan that is still to start means that
    [currentlyProcessing] is set, and there is at most one of them; while
    an activation is suspended, no call of the interface and no timer
    starts the bundler, touches the activation, replaces the barrier or
    resolves a promise: only the settling of the awaited promise does. *)
Theorem one_run_at_a_time cachedMetadata ssrDeps initialDeps es e :
  let s := steps env es
             (exec (initDepsOptimizer env cachedMetadata ssrDeps initialDeps)
                St0) in
  exclusive s ∧
  (running s ≠ None → settles e = false →
   calm s (exec (handleEvent env e) s)).
Proof.
  intros s.
  assert (exclusive s) as Hs.
  { unfold s. induction es as [|e' es IH] using rev_ind.
    - apply initDepsOptimizer_exclusive.
    - unfold steps in *. rewrite foldl_app. simpl.
      pose proof (handleEvent_exclusive e' _ IH) as H. unfold exec.
      by destruct (handleEvent env e' _) as [[[]|x] s']. }
  split; [exact Hs|].
  intros Hr He. destruct Hs as (H & _). destruct (H Hr).
  by apply exec_calm.
Qed.

End Exclusive.

(** ** Worker sources *)

Lemma pop_Some {A} (l : list A) x l' : pop l = (Some x, l') → x ∈ l.
Proof.
  unfold pop. destruct (last l) as [y|] eqn:E; [|done].
  intros [= <- <-]. apply last_Some in E as [l'' ->].
  apply elem_of_app. right. by apply list_elem_of_singleton.
Qed.

(** X10.  After [registerWorkersSource(id)] the id is a worker source, it is
    no longer registered (the other registrations keep their order) and it
    is not waited on: if it was, the wait is dropped and the registration
    on top of the stack, if any, is started instead.  When the load of a
    worker source ends, it only clears [waitingOn]: it never triggers the
    first run. *)
Theorem registerWorkersSource_spec env s id :
  let s' := exec (registerWorkersSource id) s in
  workersSources s' = {[id]} ∪ workersSources s ∧
  seenIds s' = seenIds s ∧
  (∀ r, r ∈ registeredIds s' → r.1 ≠ id ∧ r ∈ registeredIds s) ∧
  waitingOn s' ≠ Some id ∧
  (waitingOn s ≠ Some id →
   waitingOn s' = waitingOn s ∧
   registeredIds s' = filter (λ r, r.1 ≠ id) (registeredIds s) ∧
   io s' = io s) ∧
  (waitingOn s = Some id →
   match pop (filter (λ r, r.1 ≠ id) (registeredIds s)) with
   | (Some next, rest) =>
       waitingOn s' = Some next.1 ∧ registeredIds s' = rest ∧
       emitted s s' [CallDone next.1 next.2]
   | (None, _) =>
       waitingOn s' = None ∧ registeredIds s' = [] ∧ io s' = io s
   end) ∧
  (∀ s1, id ∈ workersSources s1 →
         exec (afterLoad env id) s1 = set_waitingOn None s1).
Proof.
  intros s'.
  assert (∀ r, r ∈ filter (λ r : string * doneFn, r.1 ≠ id) (registeredIds s) →
               r.1 ≠ id ∧ r ∈ registeredIds s) as Hf.
  { intros r Hr. by apply list_elem_of_filter in Hr. }
  unfold s', exec, registerWorkersSource, bind, modify, gets. simpl.
  destruct (decide (waitingOn s = Some id)) as [Hw|Hw].
  - rewrite bool_decide_eq_true_2 by done. simpl.
    unfold runOptimizerWhenIdle, bind, gets, modify, when, emit, modify.
    simpl.
    destruct (pop (filter _ (registeredIds s))) as [[next|] rest] eqn:Ep;
      simpl.
    + pose proof (pop_Some _ _ _ Ep) as Hin.
      assert (∀ r, r ∈ rest → r.1 ≠ id ∧ r ∈ registeredIds s) as Hrest.
      { intros r Hr. apply Hf. unfold pop in Ep.
        destruct (last _) eqn:El; [|done]. injection Ep as <- <-.
        apply last_Some in El as [l'' El]. rewrite El in *.
        rewrite removelast_last in Hr. apply elem_of_app. by left. }
      repeat split; try done.
      * by apply Hrest.
      * by apply Hrest.
      * intros [= Heq]. by destruct (Hf next Hin).
      * intros s1 Hs1. unfold afterLoad, bind, modify, get, when. simpl.
        by rewrite bool_decide_eq_true_2, andb_false_r.
    + assert (filter (λ r : string * doneFn, r.1 ≠ id) (registeredIds s) = [])
        as Hnil.
      { unfold pop in Ep. destruct (last _) eqn:El; [done|].
        by apply last_None in El. }
      repeat split; try done.
      * by apply Hf.
      * by apply Hf.
      * intros s1 Hs1. unfold afterLoad, bind, modify, get, when. simpl.
        by rewrite bool_decide_eq_true_2, andb_false_r.
  - rewrite bool_decide_eq_false_2 by done. simpl.
    repeat split; try done.
    + by apply Hf.
    + by apply Hf.
    + intros s1 Hs1. unfold afterLoad, bind, modify, get, when. simpl.
      by rewrite bool_decide_eq_true_2, andb_false_r.
Qed.

(** ** A dependency that was not known *)

Lemma debouncedProcessing_run timeout s :
  debouncedProcessing timeout s =
    (Ret tt,
     set_handle (Some (nextTimer s))
       (set_nextTimer (S (nextTimer s))
          (set_timers
             (cancelTimer (newDepsToLogHandle s)
                (cancelTimer (handle s) (timers s)) ++
              [(nextTimer s, (timeout, CbDebounce))])
             (set_newDepsToLogHandle None (set_enqueuedRerun false s))))).
Proof.
  unfold debouncedProcessing.
  unfold bind at 1. unfold modify at 1. cbn beta iota.
  unfold bind at 1. unfold gets at 1. cbn beta iota.
  unfold bind at 1. rewrite clearIfSet_run. cbn beta iota.
  unfold bind at 1. unfold gets at 1. cbn beta iota.
  unfold bind at 1. rewrite clearIfSet_run. cbn beta iota.
  unfold bind at 1. unfold modify at 1. cbn beta iota.
  unfold bind at 1. unfold setTimeout at 1. cbn beta iota.
  unfold modify. reflexivity.
Qed.

(** X11.  A dependency that is not known yet (the index reads of lines
    453-461 find nothing: the id is in none of the three maps and names no
    member of [Object.prototype]) is returned as a new object that carries
    the current barrier as its [processing] promise and a browser hash
    computed from the current snapshot; it is entered in [discovered]
    under its id, where JavaScript enumerates a new key: after the other
    entries, unless the id is an array index; and [newDepsDiscovered] is
    set.  Before the first run was called (and without the scanner)
    nothing else happens: no timer is armed.  Otherwise the rerun is
    debounced: a pending rerun timer and a pending log timer are
    cancelled, and one timer of [debounceMs] is armed. *)
Theorem registerMissingImport_new env s id resolved ssr :
  _metadata s < length (metas s) →
  knownEntry s id = None →
  let l := length (infos s) in
  ∃ s',
    registerMissingImport env id resolved ssr s = (Ret (Entry l), s') ∧
    info s' l = missingInfo env s id resolved ssr ∧
    Meta.discovered (meta s' (_metadata s')) =
      Obj.add (Meta.discovered (meta s (_metadata s))) id l ∧
    (Obj.arrayIndex id = None →
     Meta.discovered (meta s' (_metadata s')) =
       Meta.discovered (meta s (_metadata s)) ++ [(id, l)]) ∧
    Obj.get (Meta.discovered (meta s' (_metadata s'))) id = Some l ∧
    (∀ k, k ≠ id →
       Obj.get (Meta.discovered (meta s' (_metadata s'))) k =
       Obj.get (Meta.discovered (meta s (_metadata s))) k) ∧
    newDepsDiscovered s' = true ∧
    emitted s s' (registrationLog env s id ssr) ∧
    if scan env || firstRunCalled s then
      timers s' =
        cancelTimer (newDepsToLogHandle s) (cancelTimer (handle s) (timers s))
        ++ [(nextTimer s, (debounceMs, CbDebounce))] ∧
      handle s' = Some (nextTimer s) ∧
      newDepsToLogHandle s' = None ∧
      enqueuedRerun s' = false
    else
      timers s' = timers s ∧ handle s' = handle s ∧
      newDepsToLogHandle s' = newDepsToLogHandle s ∧
      enqueuedRerun s' = enqueuedRerun s.
Proof.
  intros Hlt Hk l. apply knownEntry_None in Hk as (Hin & Eo & Ec & Hk).
  assert (Obj.set (Meta.discovered (meta s (_metadata s))) id l =
          Obj.add (Meta.discovered (meta s (_metadata s))) id l) as Hset
    by (by apply set_new).
  rewrite registerMissingImport_split.
  set (s0 := set_io _ s).
  unfold registerMissingImport_body.
  unfold bind at 1. unfold gets at 1. cbn beta iota.
  unfold bind at 1. unfold get at 1. cbn beta iota.
  change (meta s0 (_metadata s0)) with (meta s (_metadata s)).
  unfold Obj.index. rewrite Eo, Ec, Hk, Hin.
  unfold bind at 1. unfold modify at 1. cbn beta iota.
  unfold bind at 1. unfold get at 1. cbn beta iota.
  unfold bind at 1. unfold allocInfo at 1. cbn beta iota.
  unfold bind at 1. unfold addOptimizedDepInfo at 1.
  unfold bind at 1. unfold get at 1. cbn beta iota.
  match goal with
  | |- context [in_other_submap Discovered (meta ?x ?m) (DepInfo.id (info ?y ?z))] =>
      change (meta x m) with (meta s (_metadata s));
      assert (info y z = missingInfo env s id resolved ssr) as Hi
  end.
  { unfold info. simpl. by rewrite list_lookup_total_middle. }
  rewrite Hi. cbn [DepInfo.id missingInfo].
  unfold in_other_submap, Obj.has. rewrite Eo, Ec. cbn [orb].
  unfold bind at 1. unfold modify_meta, modify at 1. cbn beta iota.
  unfold ret at 1. cbn beta iota.
  set (s1 := set_metas _ _).
  assert (info s1 l = missingInfo env s id resolved ssr) as Hi1.
  { unfold s1, info. simpl. by rewrite list_lookup_total_middle. }
  assert (Meta.discovered (meta s1 (_metadata s1)) =
          Obj.add (Meta.discovered (meta s (_metadata s))) id l) as Hd1.
  { unfold s1, meta. simpl.
    rewrite list_lookup_total_insert_eq by done. simpl.
    fold (meta s (_metadata s)). exact Hset. }
  assert (newDepsDiscovered s1 = true ∧ io s1 = io s0 ∧
          timers s1 = timers s ∧ handle s1 = handle s ∧
          newDepsToLogHandle s1 = newDepsToLogHandle s ∧
          enqueuedRerun s1 = enqueuedRerun s ∧
          firstRunCalled s1 = firstRunCalled s ∧
          nextTimer s1 = nextTimer s)
    as (Hn1 & Hio1 & Ht1 & Hh1 & Hl1 & He1 & Hf1 & Hnt1) by done.
  clearbody s1.
  assert (∀ sf, metas sf = metas s1 → _metadata sf = _metadata s1 →
            Meta.discovered (meta sf (_metadata sf)) =
              Obj.add (Meta.discovered (meta s (_metadata s))) id l ∧
            (Obj.arrayIndex id = None →
             Meta.discovered (meta sf (_metadata sf)) =
               Meta.discovered (meta s (_metadata s)) ++ [(id, l)]) ∧
            Obj.get (Meta.discovered (meta sf (_metadata sf))) id = Some l ∧
            (∀ k, k ≠ id →
               Obj.get (Meta.discovered (meta sf (_metadata sf))) k =
               Obj.get (Meta.discovered (meta s (_metadata s))) k)) as Hfin.
  { intros sf Hm Hp.
    assert (Meta.discovered (meta sf (_metadata sf)) =
            Obj.add (Meta.discovered (meta s (_metadata s))) id l) as ->
      by (unfold meta in *; by rewrite Hm, Hp).
    split; [done|]. split; [by apply add_last|].
    split; [by apply get_add_eq|]. intros k Hne. by apply get_add_ne. }
  unfold bind at 1. unfold gets at 1. cbn beta iota. rewrite Hf1.
  destruct (scan env || firstRunCalled s); cbn [when].
  - unfold bind at 1. rewrite debouncedProcessing_run.
    eexists. split; [reflexivity|].
    split; [unfold info in *; simpl; exact Hi1|].
    match goal with |- ?A ∧ ?B ∧ ?C ∧ ?D ∧ _ =>
      cut (A ∧ B ∧ C ∧ D); [intros (? & ? & ? & ?)|by apply Hfin] end.
    simpl. rewrite Hh1, Hl1, Ht1, Hnt1. repeat split; try done.
  - eexists. split; [reflexivity|]. unfold ret.
    split; [exact Hi1|].
    match goal with |- ?A ∧ ?B ∧ ?C ∧ ?D ∧ _ =>
      cut (A ∧ B ∧ C ∧ D); [intros (? & ? & ? & ?)|by apply Hfin] end.
    repeat split; try done.
Qed.

(** ** The first run happens *)

Lemma fireTimer_last env x ts n ms cb :
  timers x = ts ++ [(n, (ms, cb))] → Forall (λ e, e.1 < n) ts →
  fireTimer env n x = runCallback env cb (set_timers ts x).
Proof.
  intros Ht Hts. unfold fireTimer, bind, get, timerCallback.
  rewrite Ht, find_fresh by done. simpl.
  unfold clearTimeout, modify. by rewrite Ht, filter_fresh.
Qed.

Lemma runOptimizer_something s :
  Meta.discovered (meta s (_metadata s)) ≠ [] →
  runOptimizer s =
    (Ret tt,
     set_running (Some (AwaitBundler (firstRunCalled s) (_metadata s)))
       (set_io
          (io s ++
           [RunOptimizeDeps
              (cloneDiscovered s (_metadata s)
                 (cloneOptimized s (_metadata s) []))])
          (set_depOptimizationProcessing (nextPromise s)
             (set_nextPromise (S (nextPromise s))
                (set_depOptimizationProcessingQueue
                   (depOptimizationProcessingQueue s ++
                    [depOptimizationProcessing s])
                   (set_newDepsDiscovered false
                      (set_currentlyProcessing true
                         (set_timers (cancelTimer (handle s) (timers s))
                            (set_enqueuedRerun false
                               (set_firstRunCalled true s)))))))))).
Proof.
  intros Hne. unfold runOptimizer.
  unfold bind at 1. unfold gets at 1. cbn beta iota.
  unfold bind at 1. unfold modify at 1. cbn beta iota.
  unfold bind at 1. unfold modify at 1. cbn beta iota.
  unfold bind at 1. unfold gets at 1. cbn beta iota.
  unfold bind at 1. rewrite clearIfSet_run. cbn beta iota.
  unfold bind at 1. unfold gets at 1. cbn beta iota.
  unfold meta at 1. cbn [metas _metadata set_timers set_enqueuedRerun
                         set_firstRunCalled handle timers].
  fold (meta s (_metadata s)).
  destruct (length (Obj.keys (Meta.discovered (meta s (_metadata s)))) =? 0)
    eqn:El.
  { apply Nat.eqb_eq, keys_nil in El. done. }
  unfold bind at 1. unfold modify at 1. cbn beta iota.
  unfold bind at 1. unfold gets at 1. cbn beta iota.
  unfold bind at 1. unfold gets at 1. cbn beta iota.
  unfold bind at 1. unfold modify at 1. cbn beta iota.
  unfold bind at 1. unfold modify at 1. cbn beta iota.
  unfold bind at 1. unfold newDepOptimizationProcessing at 1. cbn beta iota.
  unfold bind at 1. unfold modify at 1. cbn beta iota.
  unfold bind at 1. unfold emit at 1, modify at 1. cbn beta iota.
  unfold modify. reflexivity.
Qed.

Lemma runOptimizer_started x : started x (exec runOptimizer x).
Proof.
  unfold started, exec.
  destruct (Meta.discovered (meta x (_metadata x))) as [|e d] eqn:Ed.
  - rewrite runOptimizer_nothing by done. done.
  - rewrite runOptimizer_something by (by rewrite Ed). cbn [snd].
    split; [reflexivity|]. split; [|done]. intros _.
    split; [reflexivity|]. split; [reflexivity|]. eexists. reflexivity.
Qed.

Lemma started_ext x x' z :
  metas x' = metas x → _metadata x' = _metadata x → running x' = running x →
  firstRunCalled x' = firstRunCalled x → io x' = io x →
  started x' z → started x z.
Proof.
  unfold started, meta. intros -> -> -> -> ->. done.
Qed.

Section FirstRun.
Variable env : Env.

(** A rerun timer that fires while the executor is idle. *)
Lemma rerun_timer_fires x0 ts n ms :
  timers x0 = ts ++ [(n, (ms, CbDebounce))] → Forall (λ e, e.1 < n) ts →
  currentlyProcessing x0 = false →
  ∃ x, exec (fireTimer env n) x0 = exec runOptimizer x ∧
       metas x = metas x0 ∧ _metadata x = _metadata x0 ∧
       running x = running x0 ∧ firstRunCalled x = firstRunCalled x0 ∧
       io x = io x0 ++ rerunLog env.
Proof.
  intros Ht Hts Hc. unfold exec.
  rewrite (fireTimer_last env x0 ts n ms CbDebounce Ht Hts).
  unfold runCallback.
  unfold bind at 1. unfold modify at 1. cbn beta iota.
  unfold bind at 1. unfold modify at 1. cbn beta iota.
  unfold bind at 1. unfold gets at 1. cbn beta iota.
  cbn [currentlyProcessing set_timers set_enqueuedRerun set_handle].
  rewrite Hc. cbn [negb when]. unfold rerun.
  unfold bind at 1. rewrite debug_run. cbn beta iota.
  eexists. split; [reflexivity|]. done.
Qed.

(** The rerun timer that [debouncedProcessing] arms, once it fires. *)
Lemma debounce_fires y timeout :
  currentlyProcessing y = false → timers_fresh y →
  ∃ x, exec (fireTimer env (nextTimer y))
         (exec (debouncedProcessing timeout) y) = exec runOptimizer x ∧
       metas x = metas y ∧ _metadata x = _metadata y ∧
       running x = running y ∧ firstRunCalled x = firstRunCalled y ∧
       io x = io y ++ rerunLog env.
Proof.
  intros Hc Hf.
  set (x0 := exec (debouncedProcessing timeout) y).
  assert (timers x0 =
            cancelTimer (newDepsToLogHandle y)
              (cancelTimer (handle y) (timers y)) ++
            [(nextTimer y, (timeout, CbDebounce))] ∧
          currentlyProcessing x0 = currentlyProcessing y ∧
          metas x0 = metas y ∧ _metadata x0 = _metadata y ∧
          running x0 = running y ∧ firstRunCalled x0 = firstRunCalled y ∧
          io x0 = io y) as (Ht & Hc0 & Hm & Hp & Hr & Hfr & Hio).
  { unfold x0, exec. by rewrite debouncedProcessing_run. }
  clearbody x0.
  destruct (rerun_timer_fires x0 _ _ _ Ht) as (x & Hx & ? & ? & ? & ? & ?).
  { by do 2 apply cancelTimer_fresh. }
  { congruence. }
  exists x. split; [done|]. repeat split; congruence.
Qed.

Lemma timers_fresh_S x ts n :
  timers x = ts → nextTimer x = S n → Forall (λ e, e.1 < n) ts →
  timers_fresh x.
Proof.
  intros Ht Hn H. unfold timers_fresh. rewrite Ht, Hn.
  eapply Forall_impl; [exact H|]. simpl. lia.
Qed.

(** [run()] from a callback of the idle tracker, and its timer. *)
Lemma run_from_callback y :
  mainConfig env = false → currentlyProcessing y = false → timers_fresh y →
  ∃ x, exec (fireTimer env (nextTimer y)) (exec (getDepsOptimizer_run env) y)
         = exec runOptimizer x ∧
       metas x = metas y ∧ _metadata x = _metadata y ∧
       running x = running y ∧ firstRunCalled x = firstRunCalled y ∧
       io x = io y ++ rerunLog env.
Proof.
  intros Hm Hc Hf. unfold getDepsOptimizer_run, run. rewrite Hm.
  by apply debounce_fires.
Qed.

Lemma started_from s x z l :
  metas x = metas s → _metadata x = _metadata s → running x = running s →
  firstRunCalled x = false →
  io x = io s ++ l →
  started x z →
  firstRunCalled z = true ∧
  (Meta.discovered (meta s (_metadata s)) ≠ [] →
   running z = Some (AwaitBundler false (_metadata s)) ∧
   currentlyProcessing z = true ∧
   ∃ newDeps, emitted s z (l ++ [RunOptimizeDeps newDeps])) ∧
  (Meta.discovered (meta s (_metadata s)) = [] →
   currentlyProcessing z = false ∧ emitted s z l).
Proof.
  intros Hm Hp Hr Hfx Hio (H1 & H2 & H3).
  unfold meta, emitted in *. rewrite Hm, Hp, Hfx, Hio in *.
  split; [done|]. split.
  - intros Hne. destruct (H2 Hne) as (? & ? & newDeps & ?).
    split; [done|]. split; [done|]. exists newDeps.
    by rewrite <- app_assoc in *.
  - intros He. destruct (H3 He) as (? & ? & ?). done.
Qed.

(** X12.  [ensureFirstRun] makes the first run happen when nothing else
    does.  Called on an optimizer whose first run is still to come and for
    which no id is registered, it arms a timer; if by the time it fires
    still no id is registered, [run()] is called, and once the rerun timer
    of [run()] fires the first run is marked as called and the bundler is
    started on what was discovered (or the executor stays idle if nothing
    was). *)
Theorem first_run_ensured s :
  firstRunEnsured s = false → firstRunCalled s = false →
  registeredIds s = [] → currentlyProcessing s = false →
  mainConfig env = false → timers_fresh s →
  let t := nextTimer s in
  let s' := steps env [CallEnsureFirstRun; TimerFires t; TimerFires (S t)] s in
  firstRunCalled s' = true ∧
  (Meta.discovered (meta s (_metadata s)) ≠ [] →
   running s' = Some (AwaitBundler false (_metadata s)) ∧
   currentlyProcessing s' = true ∧
   ∃ newDeps, emitted s s' (rerunLog env ++ [RunOptimizeDeps newDeps])) ∧
  (Meta.discovered (meta s (_metadata s)) = [] →
   currentlyProcessing s' = false ∧ emitted s s' (rerunLog env)).
Proof.
  intros He Hf Hr Hc Hm Hfr t s'.
  unfold s', steps. cbn [foldl].
  set (s1 := exec (handleEvent env CallEnsureFirstRun) s).
  assert (timers s1 = timers s ++ [(t, (runOptimizerIfIdleAfterMs,
                                        CbEnsureFirstRun))] ∧
          nextTimer s1 = S t ∧ firstRunCalled s1 = false ∧
          registeredIds s1 = [] ∧ currentlyProcessing s1 = false ∧
          metas s1 = metas s ∧ _metadata s1 = _metadata s ∧
          running s1 = running s ∧ io s1 = io s)
    as (Ht1 & Hn1 & Hf1 & Hr1 & Hc1 & Hm1 & Hp1 & Hrun1 & Hio1).
  { unfold s1, exec, handleEvent, ensureFirstRun, bind, get, modify,
      setTimeout, when, ret. rewrite He, Hf, Hr. simpl. done. }
  clearbody s1.
  set (y := set_timers (timers s) s1).
  assert (exec (handleEvent env (TimerFires t)) s1 =
          exec (getDepsOptimizer_run env) y) as ->.
  { unfold exec, handleEvent.
    rewrite (fireTimer_last env s1 (timers s) t _ _ Ht1 Hfr).
    fold y. unfold runCallback, bind, get.
    replace (firstRunCalled y) with false by done.
    replace (registeredIds y) with (@nil (string * doneFn)) by done.
    reflexivity. }
  assert (nextTimer y = S t) as Hny by done.
  change (handleEvent env (TimerFires (S t))) with (fireTimer env (S t)).
  rewrite <- Hny.
  destruct (run_from_callback y Hm) as (x & -> & Hx1 & Hx2 & Hx3 & Hx4 & Hx5).
  { done. }
  { by apply (timers_fresh_S y (timers s) t). }
  apply (started_from s x).
  - rewrite Hx1. exact Hm1.
  - rewrite Hx2. exact Hp1.
  - rewrite Hx3. exact Hrun1.
  - rewrite Hx4. exact Hf1.
  - rewrite Hx5. f_equal. exact Hio1.
  - apply runOptimizer_started.
Qed.

(** X13.  The idle tracker makes the first run happen once the registered
    loads are over.  When a single id is registered on an optimizer whose
    first run is still to come, its [done()] is called; if it fulfils, the
    idle timeout is armed, and when that fires with nothing else
    registered [run()] is called; if it rejects, [run()] is called at
    once.  Once the rerun timer of [run()] fires, the first run is marked
    as called and the bundler is started on what was discovered. *)
Theorem first_run_when_idle s id done fulfilled :
  truthy (waitingOn s) = false → registeredIds s = [] →
  isOptimizedDepFile env id = false → id ∉ seenIds s →
  id ∉ workersSources s →
  firstRunCalled s = false → currentlyProcessing s = false →
  mainConfig env = false → timers_fresh s →
  let t := nextTimer s in
  let s' :=
    steps env
      ([CallDelayDepsOptimizerUntil id done; DoneSettles id fulfilled] ++
       (if fulfilled then [TimerFires t; TimerFires (S t)]
        else [TimerFires t])) s in
  let l := CallDone id done :: preTransform env s ++ rerunLog env in
  firstRunCalled s' = true ∧
  (Meta.discovered (meta s (_metadata s)) ≠ [] →
   running s' = Some (AwaitBundler false (_metadata s)) ∧
   currentlyProcessing s' = true ∧
   ∃ newDeps, emitted s s' (l ++ [RunOptimizeDeps newDeps])) ∧
  (Meta.discovered (meta s (_metadata s)) = [] →
   currentlyProcessing s' = false ∧ emitted s s' l).
Proof.
  intros Hw Hr Hopt Hseen Hwk Hf Hc Hm Hfr t s' l.
  set (s1 := exec (handleEvent env (CallDelayDepsOptimizerUntil id done)) s).
  assert (s' = steps env ([DoneSettles id fulfilled] ++
                          (if fulfilled then [TimerFires t; TimerFires (S t)]
                           else [TimerFires t])) s1) as Hs' by reflexivity.
  clearbody s'. subst s'.
  assert (timers s1 = timers s ∧ nextTimer s1 = t ∧
          firstRunCalled s1 = false ∧ registeredIds s1 = [] ∧
          workersSources s1 = workersSources s ∧
          currentlyProcessing s1 = false ∧
          metas s1 = metas s ∧ _metadata s1 = _metadata s ∧
          running s1 = running s ∧
          io s1 = io s ++ CallDone id done :: preTransform env s)
    as (Ht1 & Hn1 & Hf1 & Hr1 & Hw1 & Hc1 & Hm1 & Hp1 & Hrun1 & Hio1).
  { unfold s1, exec, handleEvent.
    rewrite delayDepsOptimizerUntil_registered by done.
    unfold exec.
    rewrite (runOptimizerWhenIdle_pop _ [] id done) by (simpl; by rewrite ?Hr).
    cbn [snd].
    unfold visitEntries, preTransform, bind, gets, when, emit, modify.
    cbn [optimizeDepsEntriesVisited set_io set_waitingOn set_registeredIds
         set_seenIds].
    destruct (server env && negb (optimizeDepsEntriesVisited s)); simpl.
    - rewrite <- app_assoc. done.
    - done. }
  clearbody s1.
  assert (∀ y, timers y = timers s → nextTimer y = nextTimer s1 ∨
               nextTimer y = S t →
               firstRunCalled y = false → registeredIds y = [] →
               workersSources y = workersSources s →
               exec (afterLoad env id) y =
                 exec (getDepsOptimizer_run env) (set_waitingOn None y))
    as Hafter.
  { intros y _ _ Hfy Hry Hwy.
    unfold exec, afterLoad. unfold bind at 1, modify at 1.
    unfold bind at 1, get at 1.
    cbn [firstRunCalled workersSources registeredIds set_waitingOn].
    rewrite Hfy, Hry, Hwy, bool_decide_eq_false_2 by done. reflexivity. }
  assert (∀ y, metas y = metas s → _metadata y = _metadata s →
               running y = running s → firstRunCalled y = false →
               io y = io s1 → currentlyProcessing y = false →
               timers_fresh y →
               let z := exec (fireTimer env (nextTimer y))
                          (exec (getDepsOptimizer_run env) y) in
               firstRunCalled z = true ∧
               (Meta.discovered (meta s (_metadata s)) ≠ [] →
                running z = Some (AwaitBundler false (_metadata s)) ∧
                currentlyProcessing z = true ∧
                ∃ newDeps, emitted s z (l ++ [RunOptimizeDeps newDeps])) ∧
               (Meta.discovered (meta s (_metadata s)) = [] →
                currentlyProcessing z = false ∧ emitted s z l)) as Hrun.
  { intros y Hmy Hpy Hry Hfy Hioy Hcy Hfry z.
    destruct (run_from_callback y Hm Hcy Hfry)
      as (x & Hz & Hx1 & Hx2 & Hx3 & Hx4 & Hx5).
    unfold z. rewrite Hz.
    apply (started_from s x); try congruence.
    - rewrite Hx5, Hioy, Hio1. unfold l. by rewrite <- app_assoc.
    - apply runOptimizer_started. }
  destruct fulfilled.
  - unfold steps. cbn [app foldl].
    set (s2 := exec (handleEvent env (DoneSettles id true)) s1).
    assert (timers s2 = timers s ++ [(t, (runOptimizerIfIdleAfterMs,
                                          CbAfterLoad id))] ∧
            nextTimer s2 = S t ∧ firstRunCalled s2 = false ∧
            registeredIds s2 = [] ∧
            workersSources s2 = workersSources s ∧
            currentlyProcessing s2 = false ∧
            metas s2 = metas s ∧ _metadata s2 = _metadata s ∧
            running s2 = running s ∧ io s2 = io s1)
      as (Ht2 & Hn2 & Hf2 & Hr2 & Hw2 & Hc2 & Hm2 & Hp2 & Hrun2 & Hio2).
    { unfold s2, exec, handleEvent, doneSettled, bind, gets, setTimeout, ret.
      rewrite Hr1. simpl. rewrite Ht1, Hn1. done. }
    clearbody s2.
    set (y := set_timers (timers s) s2).
    assert (exec (handleEvent env (TimerFires t)) s2 =
            exec (getDepsOptimizer_run env) (set_waitingOn None y)) as ->.
    { unfold exec at 1. unfold handleEvent.
      rewrite (fireTimer_last env s2 (timers s) t _ _ Ht2 Hfr).
      fold y. unfold runCallback. fold (exec (afterLoad env id) y).
      apply Hafter; try done. by right. }
    change (handleEvent env (TimerFires (S t))) with (fireTimer env (S t)).
    change (S t) with (S t) at 1.
    replace (fireTimer env (S t)) with
      (fireTimer env (nextTimer (set_waitingOn None y)))
      by (simpl; by rewrite Hn2).
    apply Hrun; try done.
    by apply (timers_fresh_S _ (timers s) t).
  - unfold steps. cbn [app foldl].
    assert (exec (handleEvent env (DoneSettles id false)) s1 =
            exec (getDepsOptimizer_run env) (set_waitingOn None s1)) as ->.
    { unfold handleEvent, doneSettled. apply Hafter; try done. by left. }
    change (handleEvent env (TimerFires t)) with (fireTimer env t).
    replace (fireTimer env t) with
      (fireTimer env (nextTimer (set_waitingOn None s1)))
      by (simpl; by rewrite Hn1).
    apply Hrun; try done.
    unfold timers_fresh. simpl. by rewrite Ht1, Hn1.
Qed.

End FirstRun.

(** ** A missing import is served *)

#[global] Instance served_kept_preorder : PreOrder served_kept.
Proof.
  split; [by intros s; split|].
  intros s1 s2 s3 [A1 A2] [B1 B2]. split; [by etrans|congruence].
Qed.

#[global] Instance served_grows_preorder : PreOrder served_grows.
Proof.
  split; [by intros s; split|].
  intros s1 s2 s3 (A1 & A2 & A3) (B1 & B2 & B3).
  split; [by etrans|]. split; congruence.
Qed.

Ltac served_kept_tac := split; [waiters_tac|reflexivity].
Ltac served_grows_tac :=
  split; [simpl; first [reflexivity|apply union_subseteq_r]|];
  split; reflexivity.

Lemma awaited_kept p s s' : served_kept s s' → awaited p s → awaited p s'.
Proof.
  intros [H1 H2] [H3 H4]. split; [by apply H1|congruence].
Qed.

Lemma served_kept_grows p s s' : served_grows s s' → served p s → served p s'.
Proof.
  intros (H1 & H2 & H3) (H4 & H5 & H6).
  split; [by apply H1|]. split; congruence.
Qed.

Lemma served_awaited p s : served p s → awaited p s.
Proof. intros (H1 & _ & H3). split; [right; exact H1|exact H3]. Qed.

Lemma allocObj_served_kept o : steady served_kept (allocObj o).
Proof. intros s. rewrite allocObj_run. split; [by apply waiters_kept_same|done]. Qed.

Section Served.
Variable env : Env.

Lemma hoare_awaited {A} p (m : M A) :
  steady served_kept m → hoare (awaited p) m (λ _, awaited p) (awaited p).
Proof.
  intros H. apply (hoare_steady served_kept); [done|]. apply awaited_kept.
Qed.

Lemma hoare_served {A} p (m : M A) E :
  steady served_grows m → (∀ s, served p s → E s) →
  hoare (served p) m (λ _, served p) E.
Proof.
  intros H HE.
  apply (hoare_conseq _ (served p) _ _ (λ _, served p) _ (served p));
    [|done|done|exact HE].
  apply (hoare_steady served_grows); [done|]. apply served_kept_grows.
Qed.

Lemma runOptimizer_catch_served p metadata E :
  hoare (awaited p) (runOptimizer_catch metadata) (λ _, served p) E.
Proof.
  intros s [Hw He]. rewrite runOptimizer_catch_run.
  split; [|by split]. simpl. by apply elem_of_resolveAll.
Qed.

(** Once the waiters are served, the end of [runOptimizer] leaves the
    executor at rest. *)
Lemma runOptimizer_end_served p E :
  hoare (served p) (runOptimizer_end env)
    (λ _ s, served p s ∧ running s = None ∧ currentlyProcessing s = false) E.
Proof.
  intros s (H1 & H2 & H3).
  unfold runOptimizer_end, bind, modify, gets. simpl. rewrite H3. simpl.
  done.
Qed.

Lemma commitProcessing_served p isRerun metadata newData nr :
  hoare (awaited p) (commitProcessing isRerun metadata newData nr)
    (λ _, served p) (awaited p).
Proof.
  unfold commitProcessing.
  repeat (lazymatch goal with |- hoare _ (bind _ _) _ _ => idtac end;
          eapply hoare_bind;
          [apply hoare_awaited; steady_keeping_queue served_kept_tac
          |intros ?]).
  intros s [Hw He]. rewrite resolveEnqueuedProcessingPromises_run.
  split; [|by split]. simpl. by apply elem_of_resolveAll.
Qed.

Lemma afterCommit_served p isRerun metadata newData mismatch nr ok E :
  hoare (awaited p)
    (afterCommit env isRerun metadata newData mismatch nr ok)
    (λ _ s, served p s ∧ running s = None ∧ currentlyProcessing s = false) E.
Proof.
  unfold afterCommit.
  eapply hoare_bind; [|intros ?; apply runOptimizer_end_served].
  eapply hoare_try_catch with (E := awaited p).
  - unfold afterCommit_try.
    eapply hoare_bind;
      [apply hoare_awaited; steady_keeping_queue served_kept_tac|intros ?].
    eapply hoare_bind; [apply commitProcessing_served|intros ?].
    apply hoare_served; [|apply served_awaited].
    steady_with served_grows_tac.
  - intros e. apply runOptimizer_catch_served.
Qed.

(** When the bundler settles and nothing was discovered meanwhile, either
    the waiters are served and the executor is at rest, or the activation
    awaits [commit()]. *)
Lemma afterBundler_served p isRerun metadata r E :
  hoare (λ s, awaited p s ∧ newDepsDiscovered s = false)
    (afterBundler env isRerun metadata r)
    (λ _ s,
       (served p s ∧ running s = None ∧ currentlyProcessing s = false) ∨
       (awaited p s ∧
        ∃ newData mismatch nr,
          running s = Some (AwaitCommit isRerun metadata newData mismatch nr)))
    E.
Proof.
  unfold afterBundler.
  eapply hoare_bind with
    (Q := λ (b : bool) s,
       if b then
         awaited p s ∧
         ∃ newData mismatch nr,
           running s = Some (AwaitCommit isRerun metadata newData mismatch nr)
       else served p s).
  - eapply hoare_try_catch with (E := awaited p).
    + intros s [Hs Hnd]. destruct r as [v|]; [|exact Hs].
      rewrite afterBundler_try_run. cbv zeta.
      assert (awaited p (afterAlloc v s)) as Ha.
      { unfold afterAlloc, exec. rewrite allocMetaVal_run. exact Hs. }
      assert (newDepsDiscovered (afterAlloc v s) = false) as Hn.
      { unfold afterAlloc, exec. rewrite allocMetaVal_run. exact Hnd. }
      destruct (needsReload _ _ _ _) as [[|]|e]; [| |exact Ha].
      * rewrite Hn. unfold commitProcessing_begin, bind, emit, modify, ret.
        simpl. split; [exact Ha|]. by eexists _, _, _.
      * unfold commitProcessing_begin, bind, emit, modify, ret.
        simpl. split; [exact Ha|]. by eexists _, _, _.
    + intros e.
      eapply hoare_bind; [apply runOptimizer_catch_served|intros ?].
      by apply hoare_ret.
  - intros [|]; simpl.
    + apply hoare_ret. intros s Hs. by right.
    + eapply hoare_conseq;
        [apply (runOptimizer_end_served p E)|done| |done].
      intros ? s Hs. by left.
Qed.

(** What [registerMissingImport] leaves behind for a dependency that is not
    known, once the first run was called. *)
Lemma registerMissingImport_armed s id resolved ssr :
  _metadata s < length (metas s) →
  knownEntry s id = None →
  scan env || firstRunCalled s = true →
  let l := length (infos s) in
  ∃ s1,
    registerMissingImport env id resolved ssr s = (Ret (Entry l), s1) ∧
    DepInfo.processing (info s1 l) = Some (depOptimizationProcessing s) ∧
    Meta.discovered (meta s1 (_metadata s1)) ≠ [] ∧
    timers s1 =
      cancelTimer (newDepsToLogHandle s) (cancelTimer (handle s) (timers s))
      ++ [(nextTimer s, (debounceMs, CbDebounce))] ∧
    _metadata s1 = _metadata s ∧
    firstRunCalled s1 = firstRunCalled s ∧
    handle s1 = Some (nextTimer s) ∧
    running s1 = running s.
Proof.
  intros Hlt Hk Hf l. apply knownEntry_None in Hk as (Hin & Eo & Ec & Hk).
  rewrite registerMissingImport_split.
  set (s0 := set_io _ s).
  unfold registerMissingImport_body.
  unfold bind at 1. unfold gets at 1. cbn beta iota.
  unfold bind at 1. unfold get at 1. cbn beta iota.
  change (meta s0 (_metadata s0)) with (meta s (_metadata s)).
  unfold Obj.index. rewrite Eo, Ec, Hk, Hin.
  unfold bind at 1. unfold modify at 1. cbn beta iota.
  unfold bind at 1. unfold get at 1. cbn beta iota.
  unfold bind at 1. unfold allocInfo at 1. cbn beta iota.
  unfold bind at 1. unfold addOptimizedDepInfo at 1.
  unfold bind at 1. unfold get at 1. cbn beta iota.
  match goal with
  | |- context [in_other_submap Discovered (meta ?x ?m) (DepInfo.id (info ?y ?z))] =>
      change (meta x m) with (meta s (_metadata s));
      assert (DepInfo.id (info y z) = id) as Hi
  end.
  { unfold info. simpl. by rewrite list_lookup_total_middle. }
  rewrite Hi.
  unfold in_other_submap, Obj.has. rewrite Eo, Ec. cbn [orb].
  unfold bind at 1. unfold modify_meta, modify at 1. cbn beta iota.
  unfold ret at 1. cbn beta iota.
  set (s1 := set_metas _ _).
  assert (DepInfo.processing (info s1 l) = Some (depOptimizationProcessing s))
    as Hi1.
  { unfold s1, info. simpl. by rewrite list_lookup_total_middle. }
  assert (Meta.discovered (meta s1 (_metadata s1)) ≠ []) as Hd1.
  { unfold s1, meta. simpl.
    rewrite list_lookup_total_insert_eq by done. simpl.
    match goal with |- ?o ≠ [] =>
      assert (Obj.get o id = Some l) as Hg by apply get_set_eq;
      intros Hnil; by rewrite Hnil in Hg
    end. }
  assert (timers s1 = timers s ∧ handle s1 = handle s ∧
          newDepsToLogHandle s1 = newDepsToLogHandle s ∧
          firstRunCalled s1 = firstRunCalled s ∧
          nextTimer s1 = nextTimer s ∧ _metadata s1 = _metadata s ∧
          running s1 = running s)
    as (Ht1 & Hh1 & Hl1 & Hf1 & Hnt1 & Hp1 & Hr1) by done.
  clearbody s1.
  unfold bind at 1. unfold gets at 1. cbn beta iota. rewrite Hf1, Hf.
  cbn [when].
  unfold bind at 1. rewrite debouncedProcessing_run.
  eexists. split; [reflexivity|]. simpl.
  unfold meta, info in *. simpl.
  rewrite Hh1, Hl1, Ht1, Hnt1. done.
Qed.

(** A rerun timer that fires while the executor is idle starts
    [runOptimizer]. *)
Lemma rerun_timer_run x0 ts n ms :
  timers x0 = ts ++ [(n, (ms, CbDebounce))] → Forall (λ e, e.1 < n) ts →
  currentlyProcessing x0 = false →
  exec (fireTimer env n) x0 =
    exec runOptimizer
      (set_io (io x0 ++ rerunLog env)
         (set_enqueuedRerun true (set_handle None (set_timers ts x0)))).
Proof.
  intros Ht Hts Hc. unfold exec.
  rewrite (fireTimer_last env x0 ts n ms CbDebounce Ht Hts).
  unfold runCallback.
  unfold bind at 1. unfold modify at 1. cbn beta iota.
  unfold bind at 1. unfold modify at 1. cbn beta iota.
  unfold bind at 1. unfold gets at 1. cbn beta iota.
  cbn [currentlyProcessing set_timers set_enqueuedRerun set_handle].
  rewrite Hc. cbn [negb when]. unfold rerun.
  unfold bind at 1. rewrite debug_run. cbn beta iota.
  reflexivity.
Qed.

(** X14.  A missing import is served.  When a dependency that is not known
    (it is in none of the three maps and names no member of
    [Object.prototype]) is registered while the executor is not processing
    and the first run was called (or the scanner is on), the object the
    importer gets carries
    the current barrier; once the debounce timer has fired the bundler is
    running, the barrier is in the resolve-queue and no promise was
    resolved meanwhile.  When the bundler and then [commit()] have settled,
    whatever their outcome, the barrier is resolved, the resolve-queue is
    empty and the executor is idle. *)
Theorem missing_import_served s id src ssr r ok :
  currentlyProcessing s = false →
  scan env || firstRunCalled s = true →
  _metadata s < length (metas s) →
  knownEntry s id = None →
  timers_fresh s →
  let p := depOptimizationProcessing s in
  let s2 :=
    steps env
      [CallRegisterMissingImport id src ssr; TimerFires (nextTimer s)] s in
  let s4 := steps env [BundlerSettles r; CommitSettles ok] s2 in
  (DepInfo.processing (info s2 (length (infos s))) = Some p ∧
   running s2 = Some (AwaitBundler (firstRunCalled s) (_metadata s)) ∧
   p ∈ depOptimizationProcessingQueue s2 ∧
   resolved s2 = resolved s) ∧
  p ∈ resolved s4 ∧
  depOptimizationProcessingQueue s4 = [] ∧
  running s4 = None ∧ currentlyProcessing s4 = false.
Proof.
  intros Hc Hf Hlt Hk Hfr p s2 s4.
  destruct (registerMissingImport_armed s id src ssr Hlt Hk Hf)
    as (s1 & Hs1 & Hi1 & Hd1 & Ht1 & Hp1 & Hf1 & _ & _).
  pose proof (registerMissingImport_calm env id src ssr s) as Hcalm.
  rewrite Hs1 in Hcalm. cbn [snd] in Hcalm.
  destruct Hcalm as (Hr1 & Hc1 & Hres1 & Hq1 & Hb1 & _ & _).
  assert (exec (handleEvent env (CallRegisterMissingImport id src ssr)) s
          = s1) as E1.
  { unfold exec, handleEvent, bind. by rewrite Hs1. }
  set (x := set_io (io s1 ++ rerunLog env)
              (set_enqueuedRerun true
                 (set_handle None
                    (set_timers
                       (cancelTimer (newDepsToLogHandle s)
                          (cancelTimer (handle s) (timers s))) s1)))).
  assert (exec (handleEvent env (TimerFires (nextTimer s))) s1 =
          exec runOptimizer x) as E2.
  { apply (rerun_timer_run s1 _ (nextTimer s) debounceMs Ht1).
    - do 2 apply cancelTimer_fresh. exact Hfr.
    - congruence. }
  assert (Meta.discovered (meta x (_metadata x)) ≠ []) as Hdx by exact Hd1.
  set (z := exec runOptimizer x) in *.
  assert (info z (length (infos s)) = info s1 (length (infos s)) ∧
          running z = Some (AwaitBundler (firstRunCalled s1) (_metadata s1)) ∧
          depOptimizationProcessingQueue z =
            depOptimizationProcessingQueue s1 ++
            [depOptimizationProcessing s1] ∧
          resolved z = resolved s1 ∧
          enqueuedRerun z = false ∧ newDepsDiscovered z = false)
    as (Hzi & Hzr & Hzq & Hzres & Hze & Hzn).
  { unfold z, exec. rewrite (runOptimizer_something x Hdx). done. }
  clearbody z. clear x Hdx.
  assert (s2 = z) as ->.
  { unfold s2, steps. cbn [foldl]. by rewrite E1, E2. }
  assert (awaited p z ∧ newDepsDiscovered z = false) as Hz.
  { split; [|exact Hzn]. split; [|exact Hze]. left.
    rewrite Hzq, elem_of_app, list_elem_of_singleton. right.
    unfold p. congruence. }
  split.
  { rewrite Hzi, Hi1, Hzr, Hzq, Hzres, Hf1, Hp1, Hres1.
    split; [done|]. split; [done|]. split; [|done].
    rewrite elem_of_app, list_elem_of_singleton. right. unfold p. congruence. }
  set (s3 := exec (handleEvent env (BundlerSettles r)) z).
  assert ((served p s3 ∧ running s3 = None ∧ currentlyProcessing s3 = false) ∨
          (awaited p s3 ∧
           ∃ isRerun metadata newData mismatch nr,
             running s3 =
               Some (AwaitCommit isRerun metadata newData mismatch nr)))
    as H3.
  { assert (handleEvent env (BundlerSettles r) z =
            afterBundler env (firstRunCalled s1) (_metadata s1) r z) as E3.
    { unfold handleEvent, bind, gets. by rewrite Hzr. }
    unfold s3, exec. rewrite E3.
    pose proof (afterBundler_served p (firstRunCalled s1) (_metadata s1) r
                  (λ _, False) z Hz) as H.
    destruct (afterBundler _ _ _ _ z) as [[[]|e] s']; [|done]. simpl.
    destruct H as [H|[H (nd & mm & nr & H')]]; [left; exact H|right].
    split; [exact H|]. eexists _, _, _, _, _. exact H'. }
  assert (s4 = exec (handleEvent env (CommitSettles ok)) s3) as -> by done.
  clearbody s3.
  destruct H3 as [((H1 & H2 & _) & H3 & H4)|[H1 (ir & md & nd & mm & nr & H2)]].
  - rewrite (settle_without_activation env s3) by done. done.
  - assert (handleEvent env (CommitSettles ok) s3 =
            afterCommit env ir md nd mm nr ok s3) as E4.
    { unfold handleEvent, bind, gets. by rewrite H2. }
    unfold exec. rewrite E4.
    pose proof (afterCommit_served p ir md nd mm nr ok (λ _, False) s3 H1)
      as H.
    destruct (afterCommit _ _ _ _ _ _ _ s3) as [[[]|e] s']; [|done]. simpl.
    destruct H as ((? & ? & _) & ? & ?). done.
Qed.

End Served.

(** ** The timers *)

#[global] Instance preserves_preorder I : PreOrder (preserves I).
Proof.
  split; [intros s H; exact H|]. intros s1 s2 s3 H1 H2 H. by apply H2, H1.
Qed.

Lemma elem_of_cancelTimer h ts (e : timer * (nat * Callback)) :
  e ∈ cancelTimer h ts ↔ e ∈ ts ∧ h ≠ Some e.1.
Proof.
  destruct h as [t|]; simpl.
  - rewrite list_elem_of_filter. split.
    + intros [H1 H2]. split; [done|]. intros [= H]. by rewrite H in H1.
    + intros [H1 H2]. split; [|done]. intros H. apply H2. by rewrite H.
  - split; [by intros H|by intros [H _]].
Qed.

Lemma NoDup_fst_filter (P : timer * (nat * Callback) → Prop)
  `{!∀ e, Decision (P e)} ts :
  NoDup ts.*1 → NoDup (filter P ts).*1.
Proof.
  induction ts as [|e ts IH]; simpl; [done|].
  intros [Hn Hts]%NoDup_cons. destruct (decide (P e)).
  - rewrite filter_cons_True by done. simpl. apply NoDup_cons.
    split; [|by apply IH]. intros Hin. apply Hn.
    apply list_elem_of_fmap in Hin as (x & -> & Hx).
    apply list_elem_of_filter in Hx as [_ Hx].
    apply list_elem_of_fmap. by exists x.
  - rewrite filter_cons_False by done. by apply IH.
Qed.

Lemma NoDup_fst_cancelTimer h (ts : list (timer * (nat * Callback))) :
  NoDup ts.*1 → NoDup (cancelTimer h ts).*1.
Proof. destruct h; simpl; [apply NoDup_fst_filter|done]. Qed.

Lemma NoDup_fst_fresh (ts : list (timer * (nat * Callback))) n x :
  Forall (λ e, e.1 < n) ts → NoDup ts.*1 → NoDup (ts ++ [(n, x)]).*1.
Proof.
  intros Hf Hn. rewrite fmap_app. apply NoDup_app. split; [done|].
  split; [|apply NoDup_singleton].
  intros t Ht Ht'. change ([(n, x)].*1) with [n] in Ht'.
  apply list_elem_of_singleton in Ht'. subst t.
  apply list_elem_of_fmap in Ht as (e & He & Hin).
  rewrite Forall_forall in Hf. specialize (Hf e Hin). simpl in Hf.
  unfold timer in *. lia.
Qed.

Lemma timers_ok_ext s s' :
  timers s' = timers s → nextTimer s' = nextTimer s →
  handle s' = handle s → newDepsToLogHandle s' = newDepsToLogHandle s →
  timers_ok s → timers_ok s'.
Proof.
  unfold timers_ok, timers_fresh. intros -> -> -> ->. done.
Qed.

(** Cancelling timers. *)
Lemma timers_ok_filter (P : timer * (nat * Callback) → Prop)
  `{!∀ e, Decision (P e)} s :
  timers_ok s → timers_ok (set_timers (filter P (timers s)) s).
Proof.
  intros (H1 & H2 & H3 & H4). unfold timers_ok, timers_fresh. simpl.
  split.
  { unfold timers_fresh in H1. rewrite Forall_forall in *.
    intros e [_ He]%list_elem_of_filter. by apply H1. }
  split; [by apply NoDup_fst_filter|].
  split.
  - intros e [_ He]%list_elem_of_filter. by apply H3.
  - intros e [_ He]%list_elem_of_filter. by apply H4.
Qed.

Lemma timers_ok_cancel h s :
  timers_ok s → timers_ok (set_timers (cancelTimer h (timers s)) s).
Proof.
  destruct h as [t|]; simpl; [apply timers_ok_filter|].
  by rewrite set_timers_same.
Qed.

(** Arming a timer that is neither the rerun timer nor the log timer. *)
Lemma timers_ok_setTimeout cb ms s :
  cb ≠ CbDebounce → cb ≠ CbLogNewDeps →
  timers_ok s → timers_ok (setTimeout cb ms s).2.
Proof.
  intros Hd Hl (H1 & H2 & H3 & H4). unfold timers_ok, timers_fresh in *.
  simpl. split; [|split; [|split]].
  - apply Forall_app. split.
    + eapply Forall_impl; [exact H1|]. simpl. lia.
    + apply Forall_singleton. simpl. lia.
  - by apply NoDup_fst_fresh.
  - intros e [He|He%list_elem_of_singleton]%elem_of_app; [by apply H3|].
    subst e. unfold isDebounceTimer. simpl. by destruct cb.
  - intros e [He|He%list_elem_of_singleton]%elem_of_app; [by apply H4|].
    subst e. unfold isLogTimer. simpl. by destruct cb.
Qed.

(** Without pending rerun timer the handle may be anything; the same for
    the log timer. *)
Lemma timers_ok_handle h s :
  (∀ e, e ∈ timers s → isDebounceTimer e = false) →
  timers_ok s → timers_ok (set_handle h s).
Proof.
  intros Hn (H1 & H2 & H3 & H4). split; [done|]. split; [done|].
  split; [|done]. intros e He Hd. rewrite (Hn e He) in Hd. done.
Qed.

Lemma timers_ok_logHandle h s :
  (∀ e, e ∈ timers s → isLogTimer e = false) →
  timers_ok s → timers_ok (set_newDepsToLogHandle h s).
Proof.
  intros Hn (H1 & H2 & H3 & H4). split; [done|]. split; [done|].
  split; [done|]. intros e He Hd. rewrite (Hn e He) in Hd. done.
Qed.

(** Once the timer a handle holds is cancelled, no timer of its kind is
    left. *)
Lemma cancel_handle_debounce s (ts : list (timer * (nat * Callback))) :
  timers_ok s → (∀ e, e ∈ ts → e ∈ cancelTimer (handle s) (timers s)) →
  ∀ e, e ∈ ts → isDebounceTimer e = false.
Proof.
  intros (_ & _ & H3 & _) Hts e He.
  apply Hts, elem_of_cancelTimer in He as [He Hne].
  destruct (isDebounceTimer e) eqn:E; [|done]. by destruct Hne, (H3 e He E).
Qed.

Lemma cancel_handle_log s (ts : list (timer * (nat * Callback))) :
  timers_ok s →
  (∀ e, e ∈ ts → e ∈ cancelTimer (newDepsToLogHandle s) (timers s)) →
  ∀ e, e ∈ ts → isLogTimer e = false.
Proof.
  intros (_ & _ & _ & H4) Hts e He.
  apply Hts, elem_of_cancelTimer in He as [He Hne].
  destruct (isLogTimer e) eqn:E; [|done]. by destruct Hne, (H4 e He E).
Qed.

Lemma timerCallback_elem s t cb :
  timerCallback s t = Some cb → ∃ ms, (t, (ms, cb)) ∈ timers s.
Proof.
  unfold timerCallback. intros H.
  destruct (List.find _ (timers s)) as [[t' [ms cb']]|] eqn:E; [|done].
  injection H as <-. apply find_some in E as [Hin Ht].
  apply bool_decide_eq_true in Ht. simpl in Ht. subst t'.
  exists ms. by apply list_elem_of_In.
Qed.

Lemma allocObj_timers o : steady (preserves timers_ok) (allocObj o).
Proof. intros s. rewrite allocObj_run. intros H. exact H. Qed.

Lemma clearIfSet_timers h : steady (preserves timers_ok) (clearIfSet h).
Proof. intros s H. rewrite clearIfSet_run. by apply timers_ok_cancel. Qed.

Lemma setTimeout_timers cb ms :
  cb ≠ CbDebounce → cb ≠ CbLogNewDeps →
  steady (preserves timers_ok) (setTimeout cb ms).
Proof. intros Hd Hl s H. by apply timers_ok_setTimeout. Qed.

(** Arming the rerun timer. *)
Lemma debouncedProcessing_timers timeout :
  steady (preserves timers_ok) (debouncedProcessing timeout).
Proof.
  intros s HT. rewrite debouncedProcessing_run. cbn [snd].
  pose proof HT as (H1 & H2 & H3 & H4).
  set (ts := cancelTimer (newDepsToLogHandle s)
               (cancelTimer (handle s) (timers s))).
  assert (Forall (λ e, e.1 < nextTimer s) ts) as Hf
    by (by do 2 apply cancelTimer_fresh).
  assert (NoDup ts.*1) as Hn by (by do 2 apply NoDup_fst_cancelTimer).
  assert (∀ e, e ∈ ts → isDebounceTimer e = false) as Hd.
  { apply (cancel_handle_debounce s); [done|].
    intros e [He _]%elem_of_cancelTimer. exact He. }
  assert (∀ e, e ∈ ts → isLogTimer e = false) as Hl.
  { apply (cancel_handle_log s); [done|].
    intros e [[He _]%elem_of_cancelTimer Hne]%elem_of_cancelTimer.
    by apply elem_of_cancelTimer. }
  unfold timers_ok, timers_fresh. simpl. fold ts.
  split; [|split; [|split]].
  - apply Forall_app. split.
    + eapply Forall_impl; [exact Hf|]. simpl. lia.
    + apply Forall_singleton. simpl. lia.
  - by apply NoDup_fst_fresh.
  - intros e [He|He%list_elem_of_singleton]%elem_of_app; [|by subst e].
    intros E. by rewrite (Hd e He) in E.
  - intros e [He|He%list_elem_of_singleton]%elem_of_app; [|by subst e].
    intros E. by rewrite (Hl e He) in E.
Qed.

(** Arming the log timer, lines 335-339. *)
Lemma logTimer_armed ms :
  steady (preserves timers_ok)
    (h ← gets newDepsToLogHandle;
     clearIfSet h ;;
     t ← setTimeout CbLogNewDeps ms;
     modify (set_newDepsToLogHandle (Some t)))%js.
Proof.
  intros s HT. unfold bind at 1, gets at 1. cbn beta iota.
  unfold bind at 1. rewrite clearIfSet_run. cbn beta iota.
  unfold bind, setTimeout, modify. cbn [snd fst].
  pose proof HT as (H1 & H2 & H3 & H4).
  set (ts := cancelTimer (newDepsToLogHandle s) (timers s)).
  assert (Forall (λ e, e.1 < nextTimer s) ts) as Hf
    by (by apply cancelTimer_fresh).
  assert (NoDup ts.*1) as Hn by (by apply NoDup_fst_cancelTimer).
  assert (∀ e, e ∈ ts → isLogTimer e = false) as Hl
    by (by apply (cancel_handle_log s)).
  unfold timers_ok, timers_fresh. simpl. fold ts.
  split; [|split; [|split]].
  - apply Forall_app. split.
    + eapply Forall_impl; [exact Hf|]. simpl. lia.
    + apply Forall_singleton. simpl. lia.
  - by apply NoDup_fst_fresh.
  - intros e [He|He%list_elem_of_singleton]%elem_of_app; [|by subst e].
    apply elem_of_cancelTimer in He as [He _]. by apply H3.
  - intros e [He|He%list_elem_of_singleton]%elem_of_app; [|by subst e].
    intros E. by rewrite (Hl e He) in E.
Qed.

Ltac unfold_handlers :=
  unfold handleEvent, afterCommit, afterCommit_try, afterBundler,
    afterBundler_try, commitProcessing_begin, runOptimizer_catch,
    commitProcessing, carryDiscovered, keepBrowserHash, writeBack, afterScan,
    seedDiscovered, scanPhase, doneSettled, afterLoad,
    delayDepsOptimizerUntil, registerWorkersSource, runOptimizerWhenIdle,
    ensureFirstRun, resetRegisteredIds, registerMissingImport,
    registerMissingImport_body, getDepsOptimizer_run, run, runOptimizer_end,
    rerun, runOptimizer, fullReload, logNewlyDiscoveredDeps, debug,
    addOptimizedDepInfo, allocMetaVal, resolveEnqueuedProcessingPromises.

Ltac same_tac := let H := fresh in intros H; exact H.

(** Dropping the log timer, lines 360-362. *)
Lemma logTimer_cleared :
  steady (preserves timers_ok)
    (h ← gets newDepsToLogHandle;
     clearIfSet h ;;
     modify (set_newDepsToLogHandle None) ;;
     logNewlyDiscoveredDeps)%js.
Proof.
  intros s HT. unfold bind at 1, gets at 1. cbn beta iota.
  unfold bind at 1. rewrite clearIfSet_run. cbn beta iota.
  unfold bind at 1, modify at 1. cbn beta iota.
  assert (steady (preserves timers_ok) logNewlyDiscoveredDeps) as H
    by (unfold logNewlyDiscoveredDeps; repeat steady_step same_tac).
  apply H. apply timers_ok_logHandle.
  - by apply (cancel_handle_log s).
  - by apply timers_ok_cancel.
Qed.

Ltac timers_steady :=
  repeat first
    [ apply debouncedProcessing_timers
    | apply logTimer_armed
    | apply logTimer_cleared
    | apply clearIfSet_timers
    | apply allocObj_timers
    | (apply setTimeout_timers; discriminate)
    | (unfold_handlers; steady_step same_tac) ].

Section Timers.
Variable env : Env.

Lemma runOptimizer_timers : steady (preserves timers_ok) runOptimizer.
Proof. timers_steady. Qed.

Lemma rerun_timers : steady (preserves timers_ok) (rerun env).
Proof. timers_steady. Qed.

(** A timer that fires is no longer pending; its callback clears the
    handle it was held by. *)
Lemma fireTimer_timers t : steady (preserves timers_ok) (fireTimer env t).
Proof.
  intros s HT. unfold fireTimer, bind at 1, get at 1. cbn beta iota.
  destruct (timerCallback s t) as [cb|] eqn:Ecb; [|exact HT].
  destruct (timerCallback_elem s t cb Ecb) as (ms & Hin).
  unfold bind at 1, clearTimeout at 1, modify at 1. cbn beta iota.
  set (s1 := set_timers _ s).
  assert (timers_ok s1) as HT1 by (by apply timers_ok_filter).
  pose proof HT as (_ & _ & H3 & H4).
  destruct cb as [p| | | |id]; unfold runCallback.
  - revert HT1. generalize s1. change (steady (preserves timers_ok) (scanPhase env p)).
    timers_steady.
  - unfold bind at 1, modify at 1. cbn beta iota.
    assert (timers_ok (set_handle None s1)) as HT2.
    { apply timers_ok_handle; [|done]. intros e He.
      unfold s1 in He. simpl in He.
      apply list_elem_of_filter in He as [Hne He].
      destruct (isDebounceTimer e) eqn:E; [|done].
      pose proof (H3 _ Hin eq_refl) as Ha. pose proof (H3 e He E) as Hb.
      rewrite Ha in Hb. injection Hb as Hb. simpl in Hb. by destruct Hne. }
    revert HT2. generalize (set_handle None s1).
    change (steady (preserves timers_ok)
              (modify (set_enqueuedRerun true) ;;
               c ← gets currentlyProcessing;
               when (negb c) (rerun env))%js).
    timers_steady.
  - unfold bind at 1, modify at 1. cbn beta iota.
    assert (timers_ok (set_newDepsToLogHandle None s1)) as HT2.
    { apply timers_ok_logHandle; [|done]. intros e He.
      unfold s1 in He. simpl in He.
      apply list_elem_of_filter in He as [Hne He].
      destruct (isLogTimer e) eqn:E; [|done].
      pose proof (H4 _ Hin eq_refl) as Ha. pose proof (H4 e He E) as Hb.
      rewrite Ha in Hb. injection Hb as Hb. simpl in Hb. by destruct Hne. }
    revert HT2. generalize (set_newDepsToLogHandle None s1).
    change (steady (preserves timers_ok) logNewlyDiscoveredDeps).
    timers_steady.
  - revert HT1. generalize s1.
    change (steady (preserves timers_ok)
              (s ← get;
               when (negb (firstRunCalled s) &&
                     (length (registeredIds s) =? 0))
                 (getDepsOptimizer_run env))%js).
    timers_steady.
  - revert HT1. generalize s1.
    change (steady (preserves timers_ok) (afterLoad env id)).
    timers_steady.
Qed.

Lemma handleEvent_timers e : steady (preserves timers_ok) (handleEvent env e).
Proof.
  destruct e as [id src ssr| |id|id done| | |t|id ok|r|r|ok].
  7: apply fireTimer_timers.
  all: timers_steady.
Qed.

Lemma initDepsOptimizer_timers cachedMetadata ssrDeps initialDeps :
  steady (preserves timers_ok)
    (initDepsOptimizer env cachedMetadata ssrDeps initialDeps).
Proof. unfold initDepsOptimizer. timers_steady. Qed.

Lemma St0_timers_ok : timers_ok St0.
Proof.
  split; [by apply Forall_nil|]. split; [apply NoDup_nil_2|].
  split; intros e He; by apply elem_of_nil in He.
Qed.

Lemma at_most_one (f : timer * (nat * Callback) → bool) ts h :
  NoDup ts.*1 → (∀ e, e ∈ ts → f e = true → h = Some e.1) →
  length (List.filter f ts) ≤ 1.
Proof.
  induction ts as [|e ts IH]; simpl; [lia|].
  intros [Hn Hts]%NoDup_cons Hh. destruct (f e) eqn:E.
  - assert (List.filter f ts = []) as ->; [|simpl; lia].
    destruct (List.filter f ts) as [|e' l] eqn:El; [done|].
    assert (In e' (List.filter f ts)) as Hin by (rewrite El; by left).
    apply filter_In in Hin as [Hin He'].
    apply list_elem_of_In in Hin.
    pose proof (Hh e (list_elem_of_here _ _) E) as Ha.
    pose proof (Hh e' (list_elem_of_further _ _ _ Hin) He') as Hb.
    rewrite Ha in Hb. injection Hb as Hb. destruct Hn.
    apply list_elem_of_fmap. by exists e'.
  - apply IH; [done|]. intros e' He'. apply Hh. by right.
Qed.

(** X15.  Reruns are debounced.  In every state the optimizer reaches the
    pending timers have distinct ids, all below the next id to be handed
    out; at most one rerun timer and at most one log timer are pending,
    and they are the ones [handle] and [newDepsToLogHandle] hold. *)
Theorem timers_disciplined cachedMetadata ssrDeps initialDeps es :
  let s := steps env es
             (exec (initDepsOptimizer env cachedMetadata ssrDeps initialDeps)
                St0) in
  timers_fresh s ∧ NoDup (timers s).*1 ∧
  length (List.filter isDebounceTimer (timers s)) ≤ 1 ∧
  length (List.filter isLogTimer (timers s)) ≤ 1 ∧
  (∀ t ms, (t, (ms, CbDebounce)) ∈ timers s → handle s = Some t) ∧
  (∀ t ms, (t, (ms, CbLogNewDeps)) ∈ timers s →
           newDepsToLogHandle s = Some t).
Proof.
  intros s.
  assert (timers_ok s) as (H1 & H2 & H3 & H4).
  { unfold s. induction es as [|e es IH] using rev_ind.
    - apply (initDepsOptimizer_timers cachedMetadata ssrDeps initialDeps St0).
      apply St0_timers_ok.
    - unfold steps in *. rewrite foldl_app. simpl.
      by apply (handleEvent_timers e). }
  split; [done|]. split; [done|].
  split; [by apply (at_most_one _ _ (handle s))|].
  split; [by apply (at_most_one _ _ (newDepsToLogHandle s))|].
  split.
  - intros t ms Hin. by apply (H3 _ Hin).
  - intros t ms Hin. by apply (H4 _ Hin).
Qed.

End Timers.

(** ** The processing promises *)

Lemma promises_ok_sub s s' :
  nextPromise s' = nextPromise s →
  depOptimizationProcessing s' = depOptimizationProcessing s →
  depOptimizationProcessingQueue s' = depOptimizationProcessingQueue s →
  resolved s' = resolved s →
  (∀ p, scanPromise s' p → scanPromise s p) →
  promises_ok s → promises_ok s'.
Proof.
  intros Hn Hb Hq Hr Hs (H1 & H2 & H3 & H4).
  unfold promises_ok, former. rewrite Hn, Hb, Hq, Hr.
  split; [done|]. split; [done|]. split.
  - intros p [Hp|[Hp|Hp]]; apply H3; auto.
  - intros p Hp. destruct (H4 p Hp) as [Ha Hb']. split; [done|].
    intros Hc. by apply Hb', Hs.
Qed.

Lemma promises_ok_with_sub p s s' :
  nextPromise s' = nextPromise s →
  depOptimizationProcessing s' = depOptimizationProcessing s →
  depOptimizationProcessingQueue s' = depOptimizationProcessingQueue s →
  resolved s' = resolved s →
  (∀ p, scanPromise s' p → scanPromise s p) →
  promises_ok_with p s → promises_ok_with p s'.
Proof.
  intros Hn Hb Hq Hr Hs (H1 & H2 & H3). split.
  - by apply (promises_ok_sub s).
  - unfold former. by rewrite Hn, Hb, Hq.
Qed.

Lemma scanPromise_filter (P : timer * (nat * Callback) → Prop)
  `{!∀ e, Decision (P e)} s p :
  scanPromise (set_timers (filter P (timers s)) s) p → scanPromise s p.
Proof.
  intros [Hr|(t & ms & [_ Ht]%list_elem_of_filter)]; [by left|].
  right. by exists t, ms.
Qed.

Lemma scanPromise_cancel h s p :
  scanPromise (set_timers (cancelTimer h (timers s)) s) p → scanPromise s p.
Proof.
  destruct h; simpl; [apply scanPromise_filter|by rewrite set_timers_same].
Qed.

Lemma scanPromise_setTimeout cb ms s p :
  (∀ q, cb ≠ CbScan q) →
  scanPromise (setTimeout cb ms s).2 p → scanPromise s p.
Proof.
  intros Hcb [H|(t & ms' & H)]; [by left|]. simpl in H.
  apply elem_of_app in H as [H|H%list_elem_of_singleton].
  - right. by exists t, ms'.
  - injection H as _ _ H. by destruct (Hcb p).
Qed.

Lemma scanPromise_idle x s p :
  (∀ metadata q, x ≠ Some (AwaitScan metadata q)) →
  scanPromise (set_running x s) p → scanPromise s p.
Proof.
  intros Hx [[md H]|H]; [|by right]. simpl in H. by destruct (Hx md p).
Qed.

(** The promises of the resolve-queue are resolved. *)
Lemma promises_ok_resolveEnqueued s :
  promises_ok s → promises_ok (exec resolveEnqueuedProcessingPromises s).
Proof.
  intros (H1 & H2 & H3 & H4). unfold exec.
  rewrite resolveEnqueuedProcessingPromises_run. cbn [snd].
  split; [done|]. split; [apply NoDup_nil_2|]. split.
  - intros p [Hp|[Hp|Hp]].
    + by apply elem_of_nil in Hp.
    + simpl in Hp. apply elem_of_resolveAll in Hp as [Hp|Hp]; apply H3; auto.
    + apply H3. auto.
  - intros p Hp. by apply elem_of_nil in Hp.
Qed.

(** A promise of the scan phase is resolved. *)
Lemma promises_ok_resolve p s :
  promises_ok_with p s → promises_ok (exec (resolve p) s).
Proof.
  intros ((H1 & H2 & H3 & H4) & H5 & H6). unfold exec, resolve, modify.
  cbn [snd]. split; [done|]. split; [done|]. split.
  - intros q [Hq|[Hq|Hq]].
    + apply H3. auto.
    + simpl in Hq. apply elem_of_union in Hq as [Hq|Hq].
      * apply elem_of_singleton in Hq. by subst q.
      * apply H3. auto.
    + apply H3. auto.
  - intros q Hq. destruct (H4 q Hq) as [Ha Hb]. split; [|done].
    simpl. intros [Hc|Hc]%elem_of_union; [|done].
    apply elem_of_singleton in Hc. by subst q.
Qed.

(** [runOptimizer] queues the barrier and creates the next one. *)
Lemma promises_ok_runOptimizer s :
  promises_ok s → promises_ok (exec runOptimizer s).
Proof.
  intros H. unfold exec.
  destruct (Meta.discovered (meta s (_metadata s))) as [|e d] eqn:Ed.
  - rewrite runOptimizer_nothing by done. cbn [snd].
    apply (promises_ok_sub s); try done.
    intros p Hp. by apply (scanPromise_cancel (handle s) s).
  - rewrite runOptimizer_something by (by rewrite Ed). cbn [snd].
    destruct H as (H1 & H2 & H3 & H4).
    assert (∀ p,
      scanPromise
        (set_running
           (Some (AwaitBundler (firstRunCalled s) (_metadata s)))
           (set_timers (cancelTimer (handle s) (timers s)) s)) p →
      scanPromise s p) as Hsc.
    { intros p Hp. apply (scanPromise_cancel (handle s)).
      by apply scanPromise_idle in Hp. }
    unfold promises_ok, former. simpl.
    split; [lia|]. split; [|split].
    + apply NoDup_app. split; [done|]. split; [|apply NoDup_singleton].
      intros p Hp Hp'. apply list_elem_of_singleton in Hp'. subst p.
      destruct (H3 _ (or_introl Hp)) as [_ Hne]. done.
    + intros p Hp.
      assert (p < nextPromise s) as Hlt.
      { destruct Hp as [Hp|[Hp|Hp]].
        - apply elem_of_app in Hp as [Hp|Hp%list_elem_of_singleton].
          + apply H3. auto.
          + by subst p.
        - apply H3. auto.
        - apply H3. right. right. by apply Hsc. }
      lia.
    + intros p [Hp|Hp%list_elem_of_singleton]%elem_of_app.
      * destruct (H4 p Hp) as [Ha Hb]. split; [done|].
        intros Hc. by apply Hb, Hsc.
      * subst p. split.
        -- intros Hc. destruct (H3 _ (or_intror (or_introl Hc))) as [_ Hne].
           done.
        -- intros Hc. apply Hsc in Hc.
           destruct (H3 _ (or_intror (or_intror Hc))) as [_ Hne]. done.
Qed.

Lemma hoare_preserves {A} (I : St → Prop) (m : M A) :
  steady (preserves I) m → hoare I m (λ _, I) I.
Proof. intros H. apply (hoare_steady (preserves I)); [done|]. auto. Qed.

Lemma hoare_preserves_to {A} (I E : St → Prop) (m : M A) :
  steady (preserves I) m → (∀ s, I s → E s) → hoare I m (λ _, I) E.
Proof.
  intros H HE.
  apply (hoare_conseq _ I _ _ (λ _, I) _ I); [|done|done|exact HE].
  by apply hoare_preserves.
Qed.

Lemma allocObj_preserves (I : St → Prop) o :
  (∀ v s, I s → I (set_infos v s)) → steady (preserves I) (allocObj o).
Proof. intros HI s H. rewrite allocObj_run. by apply HI. Qed.

Lemma clearIfSet_promises h : steady (preserves promises_ok) (clearIfSet h).
Proof.
  intros s H. rewrite clearIfSet_run. apply (promises_ok_sub s); try done.
  intros p. apply scanPromise_cancel.
Qed.

Lemma clearIfSet_promises_with p h :
  steady (preserves (promises_ok_with p)) (clearIfSet h).
Proof.
  intros s H. rewrite clearIfSet_run.
  apply (promises_ok_with_sub p s); try done.
  intros q. apply scanPromise_cancel.
Qed.

Lemma setTimeout_promises cb ms :
  (∀ q, cb ≠ CbScan q) → steady (preserves promises_ok) (setTimeout cb ms).
Proof.
  intros Hcb s H. apply (promises_ok_sub s); try done.
  intros p. by apply scanPromise_setTimeout.
Qed.

Lemma set_running_promises x :
  (∀ metadata q, x ≠ Some (AwaitScan metadata q)) →
  steady (preserves promises_ok) (modify (set_running x)).
Proof.
  intros Hx s H. apply (promises_ok_sub s); try done.
  intros p. by apply scanPromise_idle.
Qed.

Lemma resolveEnqueued_promises :
  steady (preserves promises_ok) resolveEnqueuedProcessingPromises.
Proof. intros s H. by apply promises_ok_resolveEnqueued. Qed.

Lemma runOptimizer_promises : steady (preserves promises_ok) runOptimizer.
Proof. intros s H. by apply promises_ok_runOptimizer. Qed.

Ltac unfold_callers :=
  unfold handleEvent, afterCommit, afterCommit_try, afterBundler,
    afterBundler_try, commitProcessing_begin, runOptimizer_catch,
    commitProcessing, carryDiscovered, keepBrowserHash, writeBack,
    seedDiscovered, doneSettled, afterLoad,
    delayDepsOptimizerUntil, registerWorkersSource, runOptimizerWhenIdle,
    ensureFirstRun, resetRegisteredIds, registerMissingImport,
    registerMissingImport_body, getDepsOptimizer_run, run, runOptimizer_end,
    rerun, debouncedProcessing, fullReload, logNewlyDiscoveredDeps, debug,
    addOptimizedDepInfo, allocMetaVal.

Ltac promises_steady :=
  repeat first
    [ apply resolveEnqueued_promises
    | apply runOptimizer_promises
    | apply clearIfSet_promises
    | apply clearIfSet_promises_with
    | (apply allocObj_preserves; intros ? ? ?; assumption)
    | (apply setTimeout_promises; discriminate)
    | (apply set_running_promises; discriminate)
    | (unfold_callers; steady_step same_tac) ].

Section Promises.
Variable env : Env.

Lemma runOptimizer_hoare E :
  hoare promises_ok runOptimizer (λ _, promises_ok) E.
Proof.
  intros s H. pose proof (promises_ok_runOptimizer s H) as H'.
  unfold exec in H'.
  destruct (Meta.discovered (meta s (_metadata s))) as [|e d] eqn:Ed.
  - rewrite runOptimizer_nothing in * by done. exact H'.
  - rewrite runOptimizer_something in * by (by rewrite Ed). exact H'.
Qed.

Lemma scanPromise_with s p :
  promises_ok s → scanPromise s p → promises_ok_with p s.
Proof.
  intros H Hp. split; [done|]. destruct H as (H1 & H2 & H3 & H4). split.
  - apply H3. auto.
  - intros Hq. by destruct (H4 p Hq).
Qed.

(** The scan phase resumed. *)
Lemma afterScan_promises metadata p r :
  hoare (promises_ok_with p) (afterScan env metadata p r)
    (λ _, promises_ok) promises_ok.
Proof.
  unfold afterScan.
  eapply hoare_bind with (Q := λ _, promises_ok_with p).
  { apply hoare_modify. intros s H.
    apply (promises_ok_with_sub p s); try done.
    intros q. by apply scanPromise_idle. }
  intros ?.
  eapply hoare_try_catch with (E := promises_ok_with p).
  - destruct r as [discovered|]; [|by apply hoare_throw].
    eapply hoare_bind with (Q := λ _, promises_ok_with p);
      [apply hoare_preserves; promises_steady|intros ?].
    eapply hoare_bind with (Q := λ _, promises_ok_with p);
      [apply hoare_preserves; promises_steady|intros ?].
    eapply hoare_bind with (Q := λ _, promises_ok).
    { intros s H. by apply promises_ok_resolve. }
    intros ?.
    eapply hoare_bind with (Q := λ _, promises_ok);
      [by apply hoare_modify|intros ?].
    apply runOptimizer_hoare.
  - intros e.
    eapply hoare_bind with (Q := λ _, promises_ok_with p);
      [apply hoare_preserves_to; [promises_steady|by intros s []]
      |intros ?].
    eapply hoare_bind with (Q := λ _, promises_ok_with p);
      [by apply hoare_gets|intros sp].
    apply hoare_when; [intros _|by intros _ s []].
    eapply hoare_bind with (Q := λ _, promises_ok).
    { intros s H. by apply promises_ok_resolve. }
    intros ?. by apply hoare_modify.
Qed.

(** The scan phase started. *)
Lemma scanPhase_promises p :
  hoare (promises_ok_with p) (scanPhase env p) (λ _, promises_ok) promises_ok.
Proof.
  unfold scanPhase.
  eapply hoare_bind with (Q := λ _, promises_ok_with p);
    [apply hoare_preserves_to; [promises_steady|by intros s []]|intros ?].
  eapply hoare_bind with (Q := λ _, promises_ok_with p);
    [by apply hoare_gets|intros metadata].
  eapply hoare_bind with (Q := λ _, promises_ok_with p);
    [apply hoare_preserves_to; [promises_steady|by intros s []]|intros ?].
  apply hoare_modify. intros s ((H1 & H2 & H3 & H4) & H5 & H6).
  assert (∀ q, scanPromise
                 (set_running (Some (AwaitScan metadata p)) s) q →
               q = p ∨ scanPromise s q) as Hsc.
  { intros q [[md Hq]|Hq]; [|right; by right].
    simpl in Hq. injection Hq as _ ->. by left. }
  split; [done|]. split; [done|]. split.
  - intros q [Hq|[Hq|Hq]].
    + apply H3. auto.
    + apply H3. auto.
    + apply Hsc in Hq as [->|Hq]; [done|]. apply H3. auto.
  - intros q Hq. destruct (H4 q Hq) as [Ha Hb]. split; [done|].
    intros Hc. apply Hsc in Hc as [->|Hc]; done.
Qed.

Lemma fireTimer_promises t :
  steady (preserves promises_ok) (fireTimer env t).
Proof.
  intros s H. unfold fireTimer, bind at 1, get at 1. cbn beta iota.
  destruct (timerCallback s t) as [cb|] eqn:Ecb; [|exact H].
  destruct (timerCallback_elem s t cb Ecb) as (ms & Hin).
  unfold bind at 1, clearTimeout at 1, modify at 1. cbn beta iota.
  set (s1 := set_timers _ s).
  assert (∀ q, scanPromise s1 q → scanPromise s q) as Hsub
    by (intros q; apply scanPromise_filter).
  assert (promises_ok s1) as H1 by (by apply (promises_ok_sub s)).
  destruct cb as [p| | | |id]; unfold runCallback.
  - assert (promises_ok_with p s1) as Hw.
    { apply (promises_ok_with_sub p s); try done.
      apply scanPromise_with; [done|]. right. by exists t, ms. }
    pose proof (scanPhase_promises p s1 Hw) as Hs.
    by destruct (scanPhase env p s1) as [[[]|e] s'].
  - revert H1. generalize s1.
    change (steady (preserves promises_ok)
              (modify (set_handle None) ;;
               modify (set_enqueuedRerun true) ;;
               c ← gets currentlyProcessing;
               when (negb c) (rerun env))%js).
    promises_steady.
  - revert H1. generalize s1.
    change (steady (preserves promises_ok)
              (modify (set_newDepsToLogHandle None) ;;
               logNewlyDiscoveredDeps)%js).
    promises_steady.
  - revert H1. generalize s1.
    change (steady (preserves promises_ok)
              (s ← get;
               when (negb (firstRunCalled s) &&
                     (length (registeredIds s) =? 0))
                 (getDepsOptimizer_run env))%js).
    promises_steady.
  - revert H1. generalize s1.
    change (steady (preserves promises_ok) (afterLoad env id)).
    promises_steady.
Qed.

Lemma handleEvent_promises e :
  steady (preserves promises_ok) (handleEvent env e).
Proof.
  destruct e as [id src ssr| |id|id done| | |t|id ok|r|r|ok].
  7: apply fireTimer_promises.
  8: { intros s H. unfold handleEvent, bind, gets.
       destruct (running s) as [[metadata p| |]|] eqn:Hr; try exact H.
       assert (promises_ok_with p s) as Hw.
       { apply scanPromise_with; [done|]. left. by exists metadata. }
       pose proof (afterScan_promises metadata p r s Hw) as Hs.
       by destruct (afterScan env metadata p r s) as [[[]|e] s']. }
  all: promises_steady.
Qed.

(** The scan phase is scheduled, lines 149-154. *)
Lemma promises_ok_scan_armed s :
  promises_ok s →
  promises_ok
    (exec (modify (set_currentlyProcessing true) ;;
           sp ← newDepOptimizationProcessing;
           modify (set_scanProcessing (Some sp)) ;;
           setTimeout (CbScan sp) 0 ;;
           ret tt)%js s).
Proof.
  intros (H1 & H2 & H3 & H4).
  unfold exec, bind, modify, newDepOptimizationProcessing, setTimeout, ret.
  cbn [snd fst].
  set (s' := set_nextTimer _ _).
  assert (∀ q, scanPromise s' q → q = nextPromise s ∨ scanPromise s q)
    as Hsc.
  { intros q [[md Hq]|(t & ms & Hq)]; [right; left; by exists md|].
    unfold s' in Hq. simpl in Hq.
    apply elem_of_app in Hq as [Hq|Hq%list_elem_of_singleton].
    - right. right. by exists t, ms.
    - injection Hq as _ _ ->. by left. }
  assert (nextPromise s' = S (nextPromise s) ∧
          depOptimizationProcessing s' = depOptimizationProcessing s ∧
          depOptimizationProcessingQueue s' =
            depOptimizationProcessingQueue s ∧
          resolved s' = resolved s) as (Hn & Hb & Hq & Hr) by done.
  clearbody s'. unfold promises_ok, former. rewrite Hn, Hb, Hq, Hr.
  split; [lia|]. split; [done|]. split.
  - intros p Hp.
    assert (p < nextPromise s ∨ p = nextPromise s) as Hlt.
    { destruct Hp as [Hp|[Hp|Hp]].
      - left. apply H3. auto.
      - left. apply H3. auto.
      - apply Hsc in Hp as [->|Hp]; [by right|]. left. apply H3. auto. }
    destruct Hlt as [Hlt| ->]; [|lia].
    assert (former s p) as [_ Hne]; [|split; [lia|done]].
    destruct Hp as [Hp|[Hp|Hp]]; try (apply H3; by auto).
    apply Hsc in Hp as [->|Hp]; [lia|]. apply H3. auto.
  - intros p Hp. destruct (H4 p Hp) as [Ha Hb']. split; [done|].
    intros Hc. apply Hsc in Hc as [->|Hc]; [|done].
    destruct (H3 _ (or_introl Hp)) as [Hlt _]. lia.
Qed.

Lemma allocMetaVal_unborn v E :
  hoare unborn (allocMetaVal v) (λ _, unborn) E.
Proof. intros s H. rewrite allocMetaVal_run. exact H. Qed.

Lemma unborn_barrier s :
  unborn s →
  promises_ok
    (set_depOptimizationProcessing (nextPromise s)
       (set_nextPromise (S (nextPromise s)) s)).
Proof.
  intros (Hn & Hq & Hr & Ht & Hrun).
  unfold promises_ok, former, scanPromise. simpl. rewrite Hq, Hr, Ht, Hrun.
  split; [lia|]. split; [apply NoDup_nil_2|]. split.
  - intros p [Hp|[Hp|[[md Hp]|(t & ms & Hp)]]].
    + by apply elem_of_nil in Hp.
    + by apply elem_of_empty in Hp.
    + done.
    + by apply elem_of_nil in Hp.
  - intros p Hp. by apply elem_of_nil in Hp.
Qed.

Lemma initDepsOptimizer_promises cachedMetadata ssrDeps initialDeps :
  promises_ok
    (exec (initDepsOptimizer env cachedMetadata ssrDeps initialDeps) St0).
Proof.
  assert (hoare unborn
            (initDepsOptimizer env cachedMetadata ssrDeps initialDeps)
            (λ _, promises_ok) promises_ok) as H.
  { unfold initDepsOptimizer.
    eapply hoare_bind; [apply allocMetaVal_unborn|intros m].
    eapply hoare_bind with (Q := λ _, unborn);
      [by apply hoare_modify|intros ?].
    eapply hoare_bind with (Q := λ _, unborn).
    { apply hoare_when; [intros _|done].
      eapply hoare_bind; [apply allocMetaVal_unborn|intros l].
      by apply hoare_modify. }
    intros ?.
    eapply hoare_bind with
      (Q := λ p s, ∃ s0, unborn s0 ∧ p = nextPromise s0 ∧
                         s = set_nextPromise (S (nextPromise s0)) s0).
    { intros s Hs. by exists s. }
    intros p.
    eapply hoare_bind with (Q := λ _, promises_ok).
    { apply hoare_modify. intros s (s0 & Hs0 & -> & ->).
      by apply unborn_barrier. }
    intros ?.
    eapply hoare_bind with (Q := λ _, promises_ok);
      [by apply hoare_modify|intros ?].
    eapply hoare_bind with (Q := λ _, promises_ok);
      [by apply hoare_modify|intros ?].
    apply hoare_when; [intros _|done].
    destruct (negb (scan env)).
    - apply hoare_preserves. promises_steady.
    - intros s Hs. by apply promises_ok_scan_armed. }
  specialize (H St0). unfold exec.
  destruct (initDepsOptimizer _ _ _ _ St0) as [[[]|x] s']; by apply H.
Qed.

(** X16.  The barrier is pending.  In every state the optimizer reaches,
    the barrier (the promise a newly discovered dependency is given) is
    neither resolved nor queued; the queued promises are distinct and none
    of them is resolved yet; and every promise that is queued or resolved
    was created before. *)
Theorem barrier_pending cachedMetadata ssrDeps initialDeps es :
  let s := steps env es
             (exec (initDepsOptimizer env cachedMetadata ssrDeps initialDeps)
                St0) in
  (depOptimizationProcessing s ∉ resolved s) ∧
  (depOptimizationProcessing s ∉ depOptimizationProcessingQueue s) ∧
  NoDup (depOptimizationProcessingQueue s) ∧
  (∀ p, p ∈ depOptimizationProcessingQueue s → p ∉ resolved s) ∧
  (∀ p, p ∈ depOptimizationProcessingQueue s ∨ p ∈ resolved s →
        p < nextPromise s) ∧
  depOptimizationProcessing s < nextPromise s.
Proof.
  intros s.
  assert (promises_ok s) as (H1 & H2 & H3 & H4).
  { unfold s. induction es as [|e es IH] using rev_ind.
    - apply initDepsOptimizer_promises.
    - unfold steps in *. rewrite foldl_app. simpl.
      by apply (handleEvent_promises e). }
  split; [|split; [|split; [|split; [|split]]]].
  - intros Hp. by destruct (H3 _ (or_intror (or_introl Hp))).
  - intros Hp. by destruct (H3 _ (or_introl Hp)).
  - done.
  - intros p Hp. by destruct (H4 p Hp).
  - intros p [Hp|Hp]; apply H3; auto.
  - done.
Qed.

End Promises.

(** ** The log of the newly optimized dependencies *)

#[global] Instance schedule_kept_preorder : PreOrder schedule_kept.
Proof.
  split; [by intros s|].
  intros s1 s2 s3 (A1 & A2 & A3 & A4 & A5) (B1 & B2 & B3 & B4 & B5).
  repeat split; congruence.
Qed.

Section NewDepsLog.
Variable env : Env.

Lemma commitProcessing_schedule isRerun metadata newData nr :
  steady schedule_kept (commitProcessing isRerun metadata newData nr).
Proof. steady_with ltac:(by repeat split). Qed.

(** X17.  The newly optimized dependencies are logged once.  When a
    [commit()] that needs no reload goes through (outside debug mode, with
    no rerun enqueued), nothing is logged at once and a log timer of
    [2 * debounceMs] is armed in place of the pending one; when it fires,
    the dependencies collected in [newDepsToLog] are logged in one message
    (none if there are none) and the list is emptied. *)
Theorem new_deps_logged s isRerun md nd mm s1 :
  running s = Some (AwaitCommit isRerun md nd mm false) →
  isDebugEnabled env = false →
  enqueuedRerun s = false →
  timers_fresh s →
  commitProcessing isRerun md nd false s = (Ret tt, s1) →
  let t := nextTimer s in
  let s2 := exec (handleEvent env (CommitSettles true)) s in
  let s3 := exec (handleEvent env (TimerFires t)) s2 in
  emitted s s2 [] ∧
  timers s2 =
    cancelTimer (newDepsToLogHandle s) (timers s) ++
    [(t, (2 * debounceMs, CbLogNewDeps))] ∧
  newDepsToLogHandle s2 = Some t ∧
  newDepsToLog s2 = newDepsToLog s1 ∧
  emitted s2 s3 (newDepsLog env s1) ∧
  newDepsToLog s3 = [] ∧
  newDepsToLogHandle s3 = None ∧
  timers s3 = cancelTimer (newDepsToLogHandle s) (timers s).
Proof.
  intros Hr Hd He Hfr Hc t s2 s3.
  pose proof (commitProcessing_schedule isRerun md nd false s) as Hk.
  rewrite Hc in Hk. cbn [snd] in Hk.
  destruct Hk as (Ht1 & Hn1 & Hl1 & He1 & Hio1).
  set (ts := cancelTimer (newDepsToLogHandle s) (timers s)).
  assert (s2 =
          set_currentlyProcessing false
            (set_running None
               (set_newDepsToLogHandle (Some t)
                  (set_nextTimer (S t)
                     (set_timers (ts ++ [(t, (2 * debounceMs, CbLogNewDeps))])
                        s1))))) as E2.
  { unfold s2, exec, handleEvent. unfold bind at 1, gets at 1. rewrite Hr.
    unfold afterCommit. unfold bind at 1. unfold try_catch, afterCommit_try.
    unfold bind at 1, ret at 1. unfold bind at 1. rewrite Hc.
    cbn [negb]. rewrite Hd. cbn [negb].
    unfold bind at 1, gets at 1. cbn beta iota.
    unfold bind at 1. rewrite clearIfSet_run. cbn beta iota.
    unfold bind at 1, setTimeout at 1. cbn beta iota.
    unfold modify at 1. cbn beta iota.
    unfold runOptimizer_end, bind, modify, gets. cbn [fst snd].
    cbn [enqueuedRerun set_currentlyProcessing set_running
         set_newDepsToLogHandle set_nextTimer set_timers timers nextTimer].
    rewrite He1, He. cbn [when ret snd].
    unfold ts, t. by rewrite Hl1, Ht1, Hn1. }
  assert (Forall (λ e, e.1 < t) ts) as Hts by (by apply cancelTimer_fresh).
  assert (io s2 = io s ∧ timers s2 = ts ++ [(t, (2 * debounceMs, CbLogNewDeps))]
          ∧ newDepsToLogHandle s2 = Some t ∧
          newDepsToLog s2 = newDepsToLog s1)
    as (Hio2 & Ht2 & Hl2 & Hlog2).
  { rewrite E2. simpl. by rewrite Hio1. }
  assert (s3 =
          exec (runCallback env CbLogNewDeps) (set_timers ts s2)) as E3.
  { unfold s3, exec, handleEvent.
    by rewrite (fireTimer_last env s2 ts t _ _ Ht2 Hts). }
  clearbody s2.
  split; [unfold emitted; by rewrite Hio2, app_nil_r|].
  split; [done|]. split; [done|]. split; [done|].
  rewrite E3. unfold exec, runCallback, logNewlyDiscoveredDeps, newDepsLog.
  unfold bind, modify, gets, when, emit, modify, emitted. rewrite Hd. simpl.
  rewrite Hlog2.
  destruct (newDepsToLog s1) as [|d l]; simpl.
  - rewrite app_nil_r. done.
  - done.
Qed.

End NewDepsLog.

(** ** The optimizer as [initDepsOptimizer] leaves it *)

#[global] Instance seed_kept_preorder : PreOrder seed_kept.
Proof.
  split; [by intros s; repeat split|].
  intros s1 s2 s3 (A1 & A2 & A3 & A4 & A5 & A6 & A7 & A8 & A9 & A10 & A11)
    (B1 & B2 & B3 & B4 & B5 & B6 & B7 & B8 & B9 & B10 & B11).
  repeat split; congruence.
Qed.

Lemma derefObj_fresh s o pre post :
  infos s = pre ++ Obj.values o ++ post →
  derefObj s (freshRefs o (length pre)) = o.
Proof.
  revert pre. induction o as [|[k i] o IH]; intros pre Hi; [done|].
  unfold derefObj, freshRefs in *. simpl. f_equal.
  - f_equal. unfold info. rewrite Hi. simpl.
    by rewrite list_lookup_total_middle.
  - specialize (IH (pre ++ [i])). rewrite length_app in IH. simpl in IH.
    rewrite Nat.add_1_r in IH. apply IH. rewrite Hi. simpl.
    by rewrite <- app_assoc.
Qed.

(** A metadata object that was stored is read back as it was, whatever is
    stored after it. *)
Lemma derefMeta_stored s v ms pre ms' post :
  metas s =
    ms ++
    Meta.mk (v_hash v) (v_browserHash v)
      (freshRefs (v_optimized v) (length pre))
      (freshRefs (v_chunks v) (length pre + length (v_optimized v)))
      (freshRefs (v_discovered v)
         (length pre + length (v_optimized v) + length (v_chunks v))) ::
    ms' →
  infos s =
    pre ++ Obj.values (v_optimized v) ++ Obj.values (v_chunks v) ++
    Obj.values (v_discovered v) ++ post →
  derefMeta s (length ms) = v.
Proof.
  intros Hm Hi. unfold derefMeta, meta. rewrite Hm.
  rewrite list_lookup_total_middle by done. simpl.
  destruct v as [h b o c d]. simpl in *. f_equal.
  - by apply (derefObj_fresh s o pre (Obj.values c ++ Obj.values d ++ post)).
  - replace (length pre + length o) with (length (pre ++ Obj.values o))
      by (unfold Obj.values; by rewrite length_app, length_fmap).
    apply (derefObj_fresh s c _ (Obj.values d ++ post)).
    by rewrite <- app_assoc.
  - replace (length pre + length o + length c)
      with (length (pre ++ Obj.values o ++ Obj.values c))
      by (unfold Obj.values; rewrite !length_app, !length_fmap; lia).
    apply (derefObj_fresh s d _ post). by rewrite <- !app_assoc.
Qed.

Section Init.
Variable env : Env.

(** X18.  A start from the cache.  When cached metadata was loaded, the
    optimizer starts on it as it is: the first run counts as called and
    the entries as visited, nothing of [optimizeDeps.include] is seeded
    and no scan is scheduled (whatever the configuration says), the
    executor is idle, no timer is pending and no collaborator was called.
    The SSR slot holds the metadata of [optimizeServerSsrDeps] exactly when
    this is not a build and [config.ssr] is set. *)
Theorem init_from_cache v ssrDeps initialDeps :
  let s := exec (initDepsOptimizer env (Some v) ssrDeps initialDeps) St0 in
  derefMeta s (_metadata s) = v ∧
  firstRunCalled s = true ∧ optimizeDepsEntriesVisited s = true ∧
  currentlyProcessing s = false ∧ newDepsDiscovered s = false ∧
  scanProcessing s = None ∧ timers s = [] ∧ running s = None ∧
  io s = [] ∧ depOptimizationProcessingQueue s = [] ∧ resolved s = ∅ ∧
  (if negb (isBuild env) && config_ssr env
   then ∃ l, ssrServerDepsMetadata s = Some l ∧ derefMeta s l = ssrDeps
   else ssrServerDepsMetadata s = None).
Proof.
  intros s.
  destruct (negb (isBuild env) && config_ssr env) eqn:Essr.
  - assert (∃ s', initDepsOptimizer env (Some v) ssrDeps initialDeps St0 =
                    (Ret tt, s') ∧
            (_metadata s' = 0 ∧ ssrServerDepsMetadata s' = Some 1 ∧
            metas s' =
              [Meta.mk (v_hash v) (v_browserHash v)
                 (freshRefs (v_optimized v) 0)
                 (freshRefs (v_chunks v) (0 + length (v_optimized v)))
                 (freshRefs (v_discovered v)
                    (0 + length (v_optimized v) + length (v_chunks v)));
               Meta.mk (v_hash ssrDeps) (v_browserHash ssrDeps)
                 (freshRefs (v_optimized ssrDeps)
                    (length (Obj.values (v_optimized v) ++
                             Obj.values (v_chunks v) ++
                             Obj.values (v_discovered v))))
                 (freshRefs (v_chunks ssrDeps)
                    (length (Obj.values (v_optimized v) ++
                             Obj.values (v_chunks v) ++
                             Obj.values (v_discovered v)) +
                     length (v_optimized ssrDeps)))
                 (freshRefs (v_discovered ssrDeps)
                    (length (Obj.values (v_optimized v) ++
                             Obj.values (v_chunks v) ++
                             Obj.values (v_discovered v)) +
                     length (v_optimized ssrDeps) +
                     length (v_chunks ssrDeps)))] ∧
            infos s' =
              (Obj.values (v_optimized v) ++ Obj.values (v_chunks v) ++
               Obj.values (v_discovered v)) ++
              Obj.values (v_optimized ssrDeps) ++
              Obj.values (v_chunks ssrDeps) ++
              Obj.values (v_discovered ssrDeps)) ∧
            (firstRunCalled s' = true ∧ optimizeDepsEntriesVisited s' = true ∧
            currentlyProcessing s' = false ∧ newDepsDiscovered s' = false ∧
            scanProcessing s' = None ∧ timers s' = [] ∧ running s' = None ∧
            io s' = [] ∧ depOptimizationProcessingQueue s' = [] ∧
            resolved s' = ∅))
      as (s' & E & (Hp & Hssr & Hm & Hi) & Hrest).
    { unfold initDepsOptimizer.
      unfold bind at 1. rewrite allocMetaVal_run. cbn beta iota.
      unfold bind at 1, modify at 1. cbn beta iota.
      unfold bind at 1. rewrite Essr. cbn [when].
      unfold bind at 1. rewrite allocMetaVal_run. cbn beta iota.
      unfold modify at 1. cbn beta iota.
      unfold bind, newDepOptimizationProcessing, modify, when, ret.
      cbn [fst snd bool_decide decide_rel negb]. cbn beta iota.
      eexists. split; [reflexivity|]. done. }
    unfold s, exec. rewrite E. cbn [snd]. clear E s.
    rewrite Hp. split; [|split_and!; try apply Hrest].
    + eapply (derefMeta_stored s' v [] [] [_]
               (Obj.values (v_optimized ssrDeps) ++
                Obj.values (v_chunks ssrDeps) ++
                Obj.values (v_discovered ssrDeps))); [exact Hm|].
      rewrite Hi. simpl. by rewrite <- !app_assoc.
    + exists 1. split; [done|].
      eapply (derefMeta_stored s' ssrDeps [_]
               (Obj.values (v_optimized v) ++ Obj.values (v_chunks v) ++
                Obj.values (v_discovered v)) [] []); [exact Hm|].
      rewrite Hi. by rewrite !app_nil_r.
  - assert (∃ s', initDepsOptimizer env (Some v) ssrDeps initialDeps St0 =
                    (Ret tt, s') ∧
            (_metadata s' = 0 ∧ ssrServerDepsMetadata s' = None ∧
            metas s' =
              [Meta.mk (v_hash v) (v_browserHash v)
                 (freshRefs (v_optimized v) 0)
                 (freshRefs (v_chunks v) (0 + length (v_optimized v)))
                 (freshRefs (v_discovered v)
                    (0 + length (v_optimized v) + length (v_chunks v)))] ∧
            infos s' =
              Obj.values (v_optimized v) ++ Obj.values (v_chunks v) ++
              Obj.values (v_discovered v)) ∧
            (firstRunCalled s' = true ∧ optimizeDepsEntriesVisited s' = true ∧
            currentlyProcessing s' = false ∧ newDepsDiscovered s' = false ∧
            scanProcessing s' = None ∧ timers s' = [] ∧ running s' = None ∧
            io s' = [] ∧ depOptimizationProcessingQueue s' = [] ∧
            resolved s' = ∅))
      as (s' & E & (Hp & Hssr & Hm & Hi) & Hrest).
    { unfold initDepsOptimizer.
      unfold bind at 1. rewrite allocMetaVal_run. cbn beta iota.
      unfold bind at 1, modify at 1. cbn beta iota.
      unfold bind at 1. rewrite Essr. cbn [when].
      unfold bind, newDepOptimizationProcessing, modify, when, ret.
      cbn [fst snd bool_decide decide_rel negb]. cbn beta iota.
      eexists. split; [reflexivity|]. done. }
    unfold s, exec. rewrite E. cbn [snd]. clear E s.
    rewrite Hp. split; [|split_and!; try apply Hrest; done].
    apply (derefMeta_stored s' v [] [] [] []); [exact Hm|].
    rewrite Hi. simpl. by rewrite !app_nil_r.
Qed.

Lemma get_derefObj s o id :
  Obj.get (derefObj s o) id = info s <$> Obj.get o id.
Proof.
  induction o as [|[k l] o IH]; simpl; [done|].
  destruct (decide (k = id)); [done|]. exact IH.
Qed.

Lemma seedDiscovered_seeded b m discovered :
  hoare (seeded b m []) (seedDiscovered m discovered)
    (λ _, seeded b m (Obj.values discovered)) (λ _, False).
Proof.
  unfold seedDiscovered. apply hoare_forM_pos.
  intros pre x post _ s (Hlt & Ho & Hc & Hb & Hd & Hg).
  unfold bind at 1, gets at 1. cbn beta iota.
  unfold bind at 1, allocInfo at 1. cbn beta iota.
  unfold bind at 1, addOptimizedDepInfo at 1.
  unfold bind at 1, get at 1. cbn beta iota.
  set (s1 := set_infos _ s).
  assert (info s1 (length (infos s)) =
          DepInfo.set_processing (Some b) x) as Hx.
  { unfold s1, info. simpl. rewrite list_lookup_total_middle by done.
    by rewrite Hb. }
  assert (meta s1 m = meta s m) as Hm1 by done.
  rewrite Hx, Hm1. unfold in_other_submap, Obj.has. rewrite Ho, Hc.
  cbn [Obj.get orb DepInfo.id DepInfo.set_processing].
  unfold bind, modify_meta, modify, ret. cbn [fst snd].
  rewrite Hm1. cbn [meta_set meta_get].
  set (s2 := set_metas _ s1).
  assert (meta s2 m =
          Meta.set_discovered
            (Obj.set (Meta.discovered (meta s m)) (DepInfo.id x)
               (length (infos s))) (meta s m)) as Hm2.
  { unfold s2, meta. simpl. by rewrite list_lookup_total_insert_eq. }
  assert (infos s2 = infos s ++ [DepInfo.set_processing (Some b) x]) as Hi2.
  { unfold s2, s1. simpl. by rewrite Hb. }
  assert (length (metas s2) = length (metas s)) as Hl2.
  { unfold s2. simpl. by rewrite length_insert. }
  assert (depOptimizationProcessing s2 = b) as Hb2 by done.
  clearbody s2. clear s1 Hx Hm1.
  unfold seeded. rewrite Hm2, Hl2, Hi2, Hb2. simpl.
  split; [done|]. split; [done|]. split; [done|]. split; [done|].
  split.
  - intros id l. rewrite length_app. simpl.
    destruct (decide (DepInfo.id x = id)) as [<-|Hne].
    + rewrite get_set_eq. intros [= <-]. lia.
    + rewrite get_set_ne by done. intros H. specialize (Hd _ _ H). lia.
  - intros id. rewrite get_derefObj.
    rewrite filter_app.
    destruct (decide (DepInfo.id x = id)) as [<-|Hne].
    + rewrite get_set_eq. simpl. unfold info. rewrite Hi2.
      rewrite list_lookup_total_middle by done.
      rewrite filter_cons_True by done. rewrite filter_nil.
      by rewrite last_snoc.
    + rewrite get_set_ne by done.
      rewrite filter_cons_False by done. rewrite filter_nil, app_nil_r.
      rewrite <- Hg, get_derefObj.
      destruct (Obj.get _ id) as [l|] eqn:El; [|done]. simpl. f_equal.
      unfold info. rewrite Hi2. apply lookup_total_app_l. by eapply Hd.
Qed.

Lemma seedDiscovered_kept m discovered :
  steady seed_kept (seedDiscovered m discovered).
Proof. steady_with ltac:(by repeat split). Qed.

(** A cold start up to the seeding or the scheduling of the scan. *)
Lemma init_cold_prefix ssrDeps initialDeps :
  ∃ s0,
    initDepsOptimizer env None ssrDeps initialDeps St0 =
      (if negb (scan env) then seedDiscovered 0 initialDeps
       else
         modify (set_currentlyProcessing true) ;;
         sp ← newDepOptimizationProcessing;
         modify (set_scanProcessing (Some sp)) ;;
         setTimeout (CbScan sp) 0 ;;
         ret tt)%js s0 ∧
    _metadata s0 = 0 ∧ 0 < length (metas s0) ∧
    meta s0 0 = Meta.mk (initHash env) (initBrowserHash env) [] [] [] ∧
    depOptimizationProcessing s0 = 0 ∧ nextPromise s0 = 1 ∧
    nextTimer s0 = 0 ∧ timers s0 = [] ∧
    firstRunCalled s0 = false ∧ optimizeDepsEntriesVisited s0 = false ∧
    running s0 = None ∧ io s0 = [] ∧ resolved s0 = ∅ ∧
    depOptimizationProcessingQueue s0 = [] ∧
    currentlyProcessing s0 = false ∧ scanProcessing s0 = None.
Proof.
  unfold initDepsOptimizer.
  unfold bind at 1. rewrite allocMetaVal_run. cbn beta iota.
  unfold bind at 1, modify at 1. cbn beta iota.
  unfold bind at 1.
  destruct (negb (isBuild env) && config_ssr env); cbn [when].
  - unfold bind at 1. rewrite allocMetaVal_run. cbn beta iota.
    unfold modify at 1. cbn beta iota.
    unfold bind at 1, newDepOptimizationProcessing at 1. cbn beta iota.
    unfold bind at 1, modify at 1. cbn beta iota.
    unfold bind at 1, modify at 1. cbn beta iota.
    unfold bind at 1, modify at 1. cbn beta iota.
    cbn [bool_decide decide_rel negb when].
    eexists. split; [reflexivity|]. simpl. split_and!; try done. lia.
  - unfold ret at 1. cbn beta iota.
    unfold bind at 1, newDepOptimizationProcessing at 1. cbn beta iota.
    unfold bind at 1, modify at 1. cbn beta iota.
    unfold bind at 1, modify at 1. cbn beta iota.
    unfold bind at 1, modify at 1. cbn beta iota.
    cbn [bool_decide decide_rel negb when].
    eexists. split; [reflexivity|]. simpl. split_and!; try done. lia.
Qed.

(** X19.  A cold start.  Without cached metadata the optimizer starts on
    a snapshot with nothing optimized, with its first run still to come
    and its entries still to visit.  With the scanner, the executor is
    marked busy at once and the scan is scheduled with a promise of its
    own; nothing is discovered yet.  Without it, each dependency of
    [optimizeDeps.include] is discovered under its [id] with the barrier
    as its [processing] promise (the last one wins when two share an id),
    and the executor stays idle with no timer pending. *)
Theorem init_cold ssrDeps initialDeps :
  let s := exec (initDepsOptimizer env None ssrDeps initialDeps) St0 in
  let m := meta s (_metadata s) in
  Meta.optimized m = [] ∧ Meta.chunks m = [] ∧
  firstRunCalled s = false ∧ optimizeDepsEntriesVisited s = false ∧
  running s = None ∧ io s = [] ∧ resolved s = ∅ ∧
  depOptimizationProcessingQueue s = [] ∧
  if scan env then
    Meta.discovered m = [] ∧ currentlyProcessing s = true ∧
    ∃ sp, scanProcessing s = Some sp ∧ sp ≠ depOptimizationProcessing s ∧
          timers s = [(0, (0, CbScan sp))]
  else
    currentlyProcessing s = false ∧ scanProcessing s = None ∧
    timers s = [] ∧
    ∀ id,
      Obj.get (derefObj s (Meta.discovered m)) id =
        DepInfo.set_processing (Some (depOptimizationProcessing s)) <$>
        last (filter (λ i, DepInfo.id i = id) (Obj.values initialDeps)).
Proof.
  intros s m.
  destruct (init_cold_prefix ssrDeps initialDeps)
    as (s0 & E & Hp & Hlt & Hm & Hb & Hn & Hnt & Ht & Hf & Hv & Hr & Hio &
        Hres & Hq & Hc & Hsp).
  unfold m, s, exec. rewrite E. clear E s m.
  destruct (scan env); cbn [negb].
  - unfold bind, modify, newDepOptimizationProcessing, setTimeout, ret.
    cbn [fst snd]. unfold meta in *. simpl.
    rewrite Hp, Hm, Hf, Hv, Hr, Hio, Hres, Hq, Hn, Hb, Ht, Hnt. simpl.
    split_and!; try done. exists 1. done.
  - assert (seeded 0 0 [] s0) as H0.
    { unfold seeded. rewrite Hm. simpl. split_and!; try done. }
    pose proof (seedDiscovered_seeded 0 0 initialDeps s0 H0) as Hs.
    pose proof (seedDiscovered_kept 0 initialDeps s0) as Hk.
    destruct (seedDiscovered 0 initialDeps s0) as [[[]|e] s1]; [|done].
    cbn [snd] in *.
    destruct Hk as (K1 & K2 & K3 & K4 & K5 & K6 & K7 & K8 & K9 & K10 & K11).
    destruct Hs as (_ & S2 & S3 & _ & _ & S6).
    rewrite K1, K2, K3, K4, K5, K6, K7, K8, K9, K10, K11, Hp, Hb.
    split_and!; done.
Qed.

End Init.

(** ** Waiters and the enqueued rerun *)

#[global] Instance executor_kept_preorder : PreOrder executor_kept.
Proof.
  split; [by intros s|].
  intros s1 s2 s3 (A1 & A2 & A3 & A4 & A5) (B1 & B2 & B3 & B4 & B5).
  repeat split; congruence.
Qed.

Lemma hoare_any {A} (m : M A) :
  hoare (λ _, True) m (λ _ _, True) (λ _, True).
Proof. intros s _. by destruct (m s) as [[a|e] s']. Qed.

Lemma commitProcessing_executor isRerun metadata newData nr :
  steady executor_kept (commitProcessing isRerun metadata newData nr).
Proof. steady_with ltac:(by repeat split). Qed.

(** A commit that goes through ends on the new snapshot with an empty
    resolve-queue. *)
Lemma commitProcessing_ends isRerun metadata newData nr :
  hoare (λ _, True) (commitProcessing isRerun metadata newData nr)
    (λ _ s, _metadata s = newData ∧ depOptimizationProcessingQueue s = [])
    (λ _, True).
Proof.
  unfold commitProcessing.
  do 4 (eapply hoare_bind; [apply hoare_any|intros ?]).
  eapply hoare_bind with (Q := λ _ s, _metadata s = newData);
    [by apply hoare_modify|intros ?].
  intros s Hs. by rewrite resolveEnqueuedProcessingPromises_run.
Qed.

Section Enqueued.
Variable env : Env.

(** X21.  No waiter is ever dropped.  Whatever happens to the optimizer,
    a promise that is in the resolve-queue or resolved stays in the queue
    or resolved, and a promise that is resolved stays resolved. *)
Theorem waiters_never_lost es s :
  waiters_kept s (steps env es s) ∧ resolved_grows s (steps env es s).
Proof.
  split.
  - apply (steps_steady waiters_kept). apply handleEvent_waiters.
  - apply (steps_steady resolved_grows). apply handleEvent_grows.
Qed.

(** The end of [runOptimizer] with a rerun enqueued. *)
Lemma runOptimizer_end_rerun s :
  enqueuedRerun s = true →
  runOptimizer_end env s =
    runOptimizer
      (set_io (io s ++ rerunLog env)
         (set_currentlyProcessing false (set_running None s))).
Proof.
  intros He. unfold runOptimizer_end.
  unfold bind at 1, modify at 1. cbn beta iota.
  unfold bind at 1, modify at 1. cbn beta iota.
  unfold bind at 1, gets at 1. cbn beta iota.
  cbn [enqueuedRerun set_currentlyProcessing set_running].
  rewrite He. cbn [when]. unfold rerun.
  unfold bind at 1. rewrite debug_run. reflexivity.
Qed.

(** What the branch after a commit that needs no reload does, lines
    334-342. *)
Definition unchangedLog : list Effect :=
  if isDebugEnabled env then [Debug "optimized dependencies unchanged"]
  else [].

(** X22.  Dependencies found while the bundler ran are bundled next.  When
    a rerun was enqueued while the executor was busy and the [commit()]
    of the current run (one that needs no reload) goes through, the
    executor does not become idle: as soon as the commit is done it starts
    the bundler again on the new snapshot, for the dependencies that are
    still discovered there, with the barrier alone in the resolve-queue
    and a fresh barrier in its place. *)
Theorem enqueued_rerun_runs s isRerun md nd mm s1 :
  running s = Some (AwaitCommit isRerun md nd mm false) →
  enqueuedRerun s = true →
  commitProcessing isRerun md nd false s = (Ret tt, s1) →
  Meta.discovered (meta s1 nd) ≠ [] →
  let s' := exec (handleEvent env (CommitSettles true)) s in
  running s' = Some (AwaitBundler (firstRunCalled s) nd) ∧
  currentlyProcessing s' = true ∧
  enqueuedRerun s' = false ∧
  depOptimizationProcessingQueue s' = [depOptimizationProcessing s] ∧
  depOptimizationProcessing s' = nextPromise s ∧
  ∃ newDeps,
    emitted s s' (unchangedLog ++ rerunLog env ++ [RunOptimizeDeps newDeps]) ∧
    ∀ dep d, Obj.get (Meta.discovered (meta s1 nd)) dep = Some d →
             Obj.get newDeps dep =
               Some (DepInfo.set_processing None (info s1 d)).
Proof.
  intros Hr He Hc Hd s'.
  pose proof (commitProcessing_executor isRerun md nd false s) as Hk.
  pose proof (commitProcessing_ends isRerun md nd false s I) as Hend.
  rewrite Hc in Hk, Hend. cbn [snd] in Hk.
  destruct Hk as (Hb1 & Hn1 & Hf1 & He1 & Hio1). destruct Hend as [Hp1 Hq1].
  assert (∃ s2, afterCommit_try env isRerun md nd mm false true s =
                  (Ret tt, s2) ∧
                metas s2 = metas s1 ∧ infos s2 = infos s1 ∧
                _metadata s2 = nd ∧
                depOptimizationProcessingQueue s2 = [] ∧
                depOptimizationProcessing s2 = depOptimizationProcessing s ∧
                nextPromise s2 = nextPromise s ∧
                enqueuedRerun s2 = true ∧
                firstRunCalled s2 = firstRunCalled s ∧
                io s2 = io s ++ unchangedLog)
    as (s2 & E2 & Hm2 & Hi2 & Hp2 & Hq2 & Hb2 & Hn2 & He2 & Hf2 & Hio2).
  { unfold afterCommit_try.
    unfold bind at 1, ret at 1. unfold bind at 1. rewrite Hc.
    cbn [negb]. unfold unchangedLog.
    destruct (isDebugEnabled env) eqn:Ed; cbn [negb].
    - rewrite debug_run, Ed. eexists. split; [reflexivity|].
      simpl. rewrite Hio1. split_and!; try done; congruence.
    - unfold bind at 1, gets at 1. cbn beta iota.
      unfold bind at 1. rewrite clearIfSet_run. cbn beta iota.
      unfold bind at 1, setTimeout at 1. cbn beta iota.
      unfold modify at 1. eexists. split; [reflexivity|].
      simpl. rewrite app_nil_r. split_and!; try done; congruence. }
  set (x := set_io (io s2 ++ rerunLog env)
              (set_currentlyProcessing false (set_running None s2))).
  assert (handleEvent env (CommitSettles true) s = runOptimizer x) as E.
  { unfold handleEvent. unfold bind at 1, gets at 1. rewrite Hr.
    unfold afterCommit, bind at 1, try_catch. rewrite E2.
    by apply runOptimizer_end_rerun. }
  assert (Meta.discovered (meta x (_metadata x)) ≠ []) as Hdx.
  { unfold x, meta in *. simpl. by rewrite Hm2, Hp2. }
  unfold s', exec. rewrite E, (runOptimizer_something x Hdx). cbn [snd].
  unfold emitted. simpl. rewrite Hq2, Hb2, Hn2, Hp2, Hf2, Hio2.
  split_and!; try done.
  eexists. split; [by rewrite <- !app_assoc|].
  intros dep d Hdep. unfold cloneDiscovered. rewrite get_clone.
    unfold meta, info in *. simpl. rewrite Hm2, Hi2. by rewrite Hdep.
Qed.

End Enqueued.

(** ** The urls of the entries *)

Section Entries.

Variable join : string → string.
Variable FS_PREFIX : string.

Lemma prefix_app_inv a s :
  String.prefix a s = true → ∃ rest, s = a +:+ rest.
Proof.
  revert s. induction a as [|c a IH]; intros s H.
  - exists s. reflexivity.
  - destruct s as [|c' s]; simpl in H; [done|].
    destruct (Ascii.ascii_dec c c') as [->|]; [|done].
    destruct (IH s H) as (rest & ->). exists rest. reflexivity.
Qed.

Lemma slice_app a t : slice (String.length a) (a +:+ t) = t.
Proof.
  induction a as [|c a IH]; [by destruct t|].
  change (slice (String.length a) (a +:+ t) = t). exact IH.
Qed.

Lemma app_assoc_string (a b c : string) : (a +:+ b) +:+ c = a +:+ (b +:+ c).
Proof.
  induction a as [|x a IH]; [reflexivity|].
  change (String x ((a +:+ b) +:+ c) = String x (a +:+ (b +:+ c))).
  by rewrite IH.
Qed.

(** X20.  The url of an entry.  An entry below the root is requested under
    its path relative to the root: the url starts with a slash and, put
    behind the root, gives the entry back.  Any other entry is requested
    under [path.posix.join(FS_PREFIX + entry)].  The urls are requested in
    the order of the glob result, one per entry, and none at all when
    [optimizeDeps.entries] is not set. *)
Theorem entry_urls root explicitEntries :
  preTransformUrls join FS_PREFIX root false explicitEntries = [] ∧
  length (preTransformUrls join FS_PREFIX root true explicitEntries) =
    length explicitEntries ∧
  ∀ i entry,
    explicitEntries !! i = Some entry →
    ∃ url,
      preTransformUrls join FS_PREFIX root true explicitEntries !! i
        = Some url ∧
      if String.prefix (root +:+ "/") entry
      then root +:+ url = entry ∧ String.prefix "/" url = true
      else url = join (FS_PREFIX +:+ entry).
Proof.
  split; [done|]. split.
  - unfold preTransformUrls. by rewrite length_fmap.
  - intros i entry He. exists (entryUrl join FS_PREFIX root entry). split.
    + unfold preTransformUrls. by rewrite list_lookup_fmap, He.
    + unfold entryUrl.
      destruct (String.prefix (root +:+ "/") entry) eqn:Ep; [|done].
      apply prefix_app_inv in Ep as (rest & ->).
      rewrite app_assoc_string, slice_app. split; [done|].
      by destruct rest.
Qed.

End Entries.

(** ** A rerun follows a reload that was put off *)

#[global] Instance schedule_extended_preorder : PreOrder schedule_extended.
Proof.
  split.
  - intros s. repeat split. exists []. by rewrite app_nil_r.
  - intros s1 s2 s3 (A1 & A2 & A3 & A4 & A5 & A6 & A7 & l1 & A8)
      (B1 & B2 & B3 & B4 & B5 & B6 & B7 & l2 & B8).
    repeat split; try congruence.
    exists (l1 ++ l2). by rewrite B8, A8, app_assoc.
Qed.

Ltac schedule_tac :=
  repeat split;
  first [ (exists []; simpl; by rewrite app_nil_r)
        | (eexists; simpl; reflexivity) ].

Lemma followed_up_idle s :
  (∀ r md, running s ≠ Some (AwaitBundler r md)) → followed_up s.
Proof. intros H r md Hr. by destruct (H r md). Qed.

Lemma followed_up_extended s s' :
  schedule_extended s s' → followed_up s → followed_up s'.
Proof.
  intros (A1 & A2 & A3 & A4 & A5 & A6 & A7 & l & A8) H r md Hr.
  rewrite A7 in Hr. destruct (H r md Hr) as (H1 & H2 & H3).
  unfold meta. rewrite A4, A5, A6, A3. split; [done|]. split; [done|].
  intros Hn. destruct (H3 Hn) as [He|(t & ms & Hh & Ht)].
  - left. congruence.
  - right. exists t, ms. split; [congruence|]. rewrite A8, elem_of_app. by left.
Qed.

Lemma runOptimizer_followed s :
  running s = None →
  ∃ s', runOptimizer s = (Ret tt, s') ∧ followed_up s'.
Proof.
  intros Hr.
  destruct (Meta.discovered (meta s (_metadata s))) as [|e d] eqn:Ed.
  - rewrite runOptimizer_nothing by done. eexists. split; [reflexivity|].
    apply followed_up_idle. intros r md. simpl. by rewrite Hr.
  - rewrite runOptimizer_something by (by rewrite Ed).
    eexists. split; [reflexivity|]. intros r md _. simpl.
    split; [done|]. split; [|done].
    unfold meta in *. simpl. by rewrite Ed.
Qed.

Section FollowUp.
Variable env : Env.

Lemma rerun_followed s :
  running s = None →
  ∃ s', rerun env s = (Ret tt, s') ∧ followed_up s'.
Proof.
  intros Hr. unfold rerun, bind. rewrite debug_run.
  by apply runOptimizer_followed.
Qed.

Lemma runOptimizer_end_followed s :
  ∃ s', runOptimizer_end env s = (Ret tt, s') ∧ followed_up s'.
Proof.
  unfold runOptimizer_end.
  unfold bind at 1, modify at 1. cbn beta iota.
  unfold bind at 1, modify at 1. cbn beta iota.
  unfold bind at 1, gets at 1. cbn beta iota.
  destruct (enqueuedRerun _); cbn [when].
  - by apply rerun_followed.
  - eexists. split; [reflexivity|]. by apply followed_up_idle.
Qed.

Lemma hoare_runOptimizer_end (P : St → Prop) E :
  hoare P (runOptimizer_end env) (λ _, followed_up) E.
Proof.
  intros s _. by destruct (runOptimizer_end_followed s) as (s' & -> & H).
Qed.

Lemma afterBundler_followed isRerun metadata r (P : St → Prop) E :
  hoare P (afterBundler env isRerun metadata r) (λ _, followed_up) E.
Proof.
  unfold afterBundler.
  eapply hoare_bind with
    (Q := λ (b : bool) s,
       if b then ∀ r md, running s ≠ Some (AwaitBundler r md) else True).
  - eapply hoare_try_catch with (E := λ _, True).
    + intros s _. destruct r as [v|]; [|done].
      rewrite afterBundler_try_run. cbv zeta.
      destruct (needsReload _ _ _ _) as [[|]|e]; [| |done].
      * destruct (newDepsDiscovered _).
        -- unfold bind at 1. unfold emit at 1, modify at 1. cbn beta iota.
           unfold bind. rewrite debug_run. done.
        -- unfold commitProcessing_begin, bind, emit, modify, ret. by simpl.
      * unfold commitProcessing_begin, bind, emit, modify, ret. by simpl.
    + intros e s _. unfold bind. rewrite runOptimizer_catch_run. done.
  - intros [|]; simpl.
    + apply hoare_ret. intros s. apply followed_up_idle.
    + apply hoare_runOptimizer_end.
Qed.

Lemma afterCommit_followed isRerun metadata newData mismatch nr ok
  (P : St → Prop) E :
  hoare P (afterCommit env isRerun metadata newData mismatch nr ok)
    (λ _, followed_up) E.
Proof.
  unfold afterCommit.
  eapply hoare_bind with (Q := λ _ _, True); [|intros ?; apply hoare_runOptimizer_end].
  intros s _. unfold try_catch.
  destruct (afterCommit_try _ _ _ _ _ _ _ s) as [[a|e] s1]; [done|].
  by rewrite runOptimizer_catch_run.
Qed.

Lemma running_None_kept {A} (m : M A) :
  steady (keeps running) m →
  hoare (λ s, running s = None) m (λ _ s, running s = None)
    (λ s, running s = None).
Proof.
  intros H. apply (hoare_steady (keeps running)); [done|].
  unfold keeps. congruence.
Qed.

Lemma allocInfo_keeps_running i : steady (keeps running) (allocInfo i).
Proof. by intros s. Qed.

Lemma afterScan_followed metadata p r (P : St → Prop) E :
  hoare P (afterScan env metadata p r) (λ _, followed_up) E.
Proof.
  unfold afterScan.
  eapply hoare_bind with (Q := λ _ s, running s = None).
  { by apply hoare_modify. }
  intros ?.
  eapply hoare_try_catch with (E := λ s, running s = None).
  - destruct r as [discovered|]; [|by apply hoare_throw].
    eapply hoare_bind;
      [apply running_None_kept; steady_with ltac:(reflexivity)|intros ?].
    eapply hoare_bind;
      [apply running_None_kept; steady_with ltac:(reflexivity)|intros ?].
    eapply hoare_bind;
      [apply running_None_kept; steady_with ltac:(reflexivity)|intros ?].
    eapply hoare_bind;
      [apply running_None_kept; steady_with ltac:(reflexivity)|intros ?].
    intros s Hs. by destruct (runOptimizer_followed s Hs) as (s' & -> & H).
  - intros e s Hs.
    assert (steady (keeps running)
              (emit LoggerErrorScanning ;;
               sp ← gets scanProcessing;
               when (bool_decide (is_Some sp))
                 (resolve p ;; modify (set_scanProcessing None)))%js) as Hk
      by steady_with ltac:(reflexivity).
    specialize (Hk s). unfold keeps in Hk.
    match goal with |- match ?m s with _ => _ end =>
      destruct (m s) as [[u|x] s1] eqn:Em end; simpl in Hk.
    + apply followed_up_idle. intros r' md. by rewrite Hk, Hs.
    + exfalso. revert Em. unfold bind, emit, modify, gets, when.
      destruct (bool_decide _); simpl; discriminate.
Qed.

Lemma followed_up_like s s' :
  followed_up s → running s' = running s →
  firstRunCalled s' = firstRunCalled s → metas s' = metas s →
  _metadata s' = _metadata s → newDepsDiscovered s' = newDepsDiscovered s →
  (rerun_due s → rerun_due s') → followed_up s'.
Proof.
  intros H Hr Hf Hm Hp Hn Hd r md Hr'. rewrite Hr in Hr'.
  destruct (H r md Hr') as (H1 & H2 & H3).
  unfold meta. rewrite Hf, Hm, Hp, Hn. split; [done|]. split; [done|].
  intros Hn'. by apply Hd, H3.
Qed.

Lemma followed_up_still s s' :
  (∀ r md, running s ≠ Some (AwaitBundler r md)) → running s' = running s →
  followed_up s'.
Proof. intros H Hr. apply followed_up_idle. intros r md. rewrite Hr. apply H. Qed.

Lemma not_bundling s :
  followed_up s → firstRunCalled s = false →
  ∀ r md, running s ≠ Some (AwaitBundler r md).
Proof. intros H Hf r md Hr. destruct (H r md Hr) as (? & _). congruence. Qed.

Lemma handleEvent_keeps_running e :
  settles e = false → (∀ t, e ≠ TimerFires t) →
  steady (keeps running) (handleEvent env e).
Proof.
  intros He Ht.
  destruct e as [id src ssr| |id|id done| | |t|id ok|r|r|ok];
    try discriminate He.
  7: by destruct (Ht t).
  all: steady_with ltac:(reflexivity).
Qed.

Lemma afterLoad_called id s :
  firstRunCalled s = true → afterLoad env id s = (Ret tt, set_waitingOn None s).
Proof.
  intros Hf. unfold afterLoad, bind, modify, get. simpl. by rewrite Hf.
Qed.

Lemma afterLoad_keeps_running id : steady (keeps running) (afterLoad env id).
Proof. steady_with ltac:(reflexivity). Qed.

Lemma getDepsOptimizer_run_keeps_running :
  steady (keeps running) (getDepsOptimizer_run env).
Proof. steady_with ltac:(reflexivity). Qed.

Lemma NoDup_fst_unique {A B} (l : list (A * B)) x y1 y2 :
  NoDup l.*1 → (x, y1) ∈ l → (x, y2) ∈ l → y1 = y2.
Proof.
  induction l as [|[a b] l IH]; simpl.
  - by intros _ ?%elem_of_nil.
  - intros [Hn Hl]%NoDup_cons H1 H2.
    apply elem_of_cons in H1 as [H1|H1], H2 as [H2|H2].
    + congruence.
    + destruct Hn. apply list_elem_of_fmap. exists (x, y2).
      split; [|done]. simpl. congruence.
    + destruct Hn. apply list_elem_of_fmap. exists (x, y1).
      split; [|done]. simpl. congruence.
    + by apply IH.
Qed.

(** A timer that fires and is not the rerun timer leaves the rerun timer
    pending. *)
Lemma rerun_due_fired s s' t cb :
  timers_ok s → timerCallback s t = Some cb → cb ≠ CbDebounce →
  enqueuedRerun s' = enqueuedRerun s → handle s' = handle s →
  timers s' = filter (λ e, e.1 ≠ t) (timers s) →
  rerun_due s → rerun_due s'.
Proof.
  intros (_ & Hnd & _) Hcb Hne He Hh Ht [Hd|(t0 & ms & Hh0 & Hin)].
  - left. congruence.
  - right. exists t0, ms. split; [congruence|].
    rewrite Ht. apply list_elem_of_filter. split; [|done]. simpl.
    intros ->. apply timerCallback_elem in Hcb as [ms' Hin'].
    pose proof (NoDup_fst_unique _ _ _ _ Hnd Hin Hin'). congruence.
Qed.

Lemma fireTimer_followed t :
  hoare (λ s, timers_ok s ∧ exclusive s ∧ followed_up s) (fireTimer env t)
    (λ _, followed_up) followed_up.
Proof.
  intros s (Ht & Hx & Hf). unfold fireTimer, bind at 1, get at 1.
  destruct (timerCallback s t) as [cb|] eqn:Ecb; [|exact Hf].
  unfold bind at 1. unfold clearTimeout, modify. cbn beta iota.
  set (s1 := set_timers _ s).
  assert (running s1 = running s ∧ firstRunCalled s1 = firstRunCalled s ∧
          metas s1 = metas s ∧ _metadata s1 = _metadata s ∧
          newDepsDiscovered s1 = newDepsDiscovered s ∧
          enqueuedRerun s1 = enqueuedRerun s ∧ handle s1 = handle s ∧
          currentlyProcessing s1 = currentlyProcessing s ∧
          timers s1 = filter (λ e, e.1 ≠ t) (timers s))
    as (A1 & A2 & A3 & A4 & A5 & A6 & A7 & A8 & A9) by done.
  clearbody s1.
  destruct cb as [p| | | |id]; simpl.
  - unfold scanPhase, bind. rewrite debug_run. simpl.
    by apply followed_up_idle.
  - unfold bind at 1, modify at 1. cbn beta iota.
    unfold bind at 1, modify at 1. cbn beta iota.
    unfold bind at 1, gets at 1. cbn beta iota.
    cbn [currentlyProcessing set_enqueuedRerun set_handle]. rewrite A8.
    destruct (currentlyProcessing s) eqn:Hc; cbn [negb when].
    + unfold ret.
      eapply (followed_up_like s); try done; try (simpl; congruence). intros _. by left.
    + assert (running s = None) as Hr.
      { destruct Hx as (Hx & _). destruct (running s); [|done].
        destruct Hx; [done|]. congruence. }
      edestruct (rerun_followed
                   (set_enqueuedRerun true (set_handle None s1)))
        as (s' & -> & H); [simpl; congruence|done].
  - unfold bind, modify, logNewlyDiscoveredDeps, bind, gets, when.
    simpl. destruct (negb _); simpl.
    + eapply (followed_up_like s); try done; try (simpl; congruence).
      eapply rerun_due_fired; try done; simpl; congruence.
    + eapply (followed_up_like s); try done; try (simpl; congruence).
      eapply rerun_due_fired; try done; simpl; congruence.
  - unfold bind at 1, get at 1. cbn beta iota. rewrite A2.
    destruct (firstRunCalled s) eqn:Hfc; cbn [negb andb when].
    + unfold ret. eapply (followed_up_like s); try done; try (simpl; congruence).
      eapply rerun_due_fired; try done; simpl; congruence.
    + pose proof (not_bundling s Hf Hfc) as Hnb.
      assert (steady (keeps running)
                (when (length (registeredIds s1) =? 0)
                   (getDepsOptimizer_run env))) as Hk
        by (apply (steady_when _); apply getDepsOptimizer_run_keeps_running).
      specialize (Hk s1). unfold keeps in Hk.
      destruct (when _ _ s1) as [[u|x] s2]; simpl in Hk;
        apply (followed_up_still s); try done; congruence.
  - destruct (firstRunCalled s) eqn:Hfc.
    + rewrite afterLoad_called by congruence.
      eapply (followed_up_like s); try done; try (simpl; congruence).
      eapply rerun_due_fired; try done; simpl; congruence.
    + pose proof (not_bundling s Hf Hfc) as Hnb.
      pose proof (afterLoad_keeps_running id s1) as Hk. unfold keeps in Hk.
      destruct (afterLoad env id s1) as [[u|x] s2]; simpl in Hk;
        apply (followed_up_still s); try done; congruence.
Qed.

Lemma idle_tracker_extended e :
  match e with
  | CallRegisterWorkersSource _ | CallDelayDepsOptimizerUntil _ _
  | CallResetRegisteredIds | CallEnsureFirstRun | DoneSettles _ true => True
  | _ => False
  end →
  steady schedule_extended (handleEvent env e).
Proof.
  destruct e as [id src ssr| |id|id done| | |t|id [|]|r|r|ok];
    intros H; try (by destruct H); steady_with schedule_tac.
Qed.

Lemma handleEvent_followed e :
  hoare schedule_ok (handleEvent env e) (λ _, followed_up) followed_up.
Proof.
  intros s (Hc & Ht & Hx & Hf).
  destruct e as [id src ssr| |id|id done| | |t|id [|]|r|r|ok].
  - unfold handleEvent, bind.
    destruct (knownEntry s id) as [x|] eqn:Ek.
    + rewrite (registerMissingImport_known env s id src ssr x Ek).
      by eapply (followed_up_like s).
    + destruct (scan env || firstRunCalled s) eqn:Hsf.
      * destruct (registerMissingImport_armed env s id src ssr (proj1 Hc) Ek Hsf)
          as (s1 & -> & _ & Hd & Htm & Hp & Hfc & Hh & Hr).
        intros r md Hr'. rewrite Hr in Hr'.
        destruct (Hf r md Hr') as (H1 & _). split; [congruence|].
        split; [done|]. intros _. right. exists (nextTimer s), debounceMs.
        split; [done|]. rewrite Htm, elem_of_app. right. left.
      * apply orb_false_iff in Hsf as [_ Hfc].
        pose proof (registerMissingImport_calm env id src ssr s) as Hk.
        destruct (registerMissingImport env id src ssr s) as [[u|x] s1];
          simpl in Hk; destruct Hk as (Hr & _);
          by apply (followed_up_still s); [apply not_bundling|].
  - unfold handleEvent, run. rewrite debouncedProcessing_run.
    intros r md Hr. simpl in Hr. destruct (Hf r md Hr) as (H1 & H2 & _).
    split; [done|]. split; [done|]. intros _. right.
    exists (nextTimer s), 0. split; [done|]. simpl.
    rewrite elem_of_app. right. left.
  - pose proof (idle_tracker_extended (CallRegisterWorkersSource id) I s) as H.
    destruct (handleEvent _ _ s) as [[u|x] s1]; simpl in H;
      by apply (followed_up_extended s).
  - pose proof (idle_tracker_extended (CallDelayDepsOptimizerUntil id done) I s)
      as H.
    destruct (handleEvent _ _ s) as [[u|x] s1]; simpl in H;
      by apply (followed_up_extended s).
  - pose proof (idle_tracker_extended CallResetRegisteredIds I s) as H.
    destruct (handleEvent _ _ s) as [[u|x] s1]; simpl in H;
      by apply (followed_up_extended s).
  - pose proof (idle_tracker_extended CallEnsureFirstRun I s) as H.
    destruct (handleEvent _ _ s) as [[u|x] s1]; simpl in H;
      by apply (followed_up_extended s).
  - by apply fireTimer_followed.
  - pose proof (idle_tracker_extended (DoneSettles id true) I s) as H.
    destruct (handleEvent _ _ s) as [[u|x] s1]; simpl in H;
      by apply (followed_up_extended s).
  - unfold handleEvent, doneSettled.
    destruct (firstRunCalled s) eqn:Hfc.
    + rewrite afterLoad_called by done. by eapply (followed_up_like s).
    + pose proof (afterLoad_keeps_running id s) as Hk. unfold keeps in Hk.
      destruct (afterLoad env id s) as [[u|x] s1]; simpl in Hk;
        by apply (followed_up_still s); [apply not_bundling|].
  - unfold handleEvent, bind, gets.
    destruct (running s) as [[md p| |]|] eqn:Hr; try exact Hf.
    by apply (afterScan_followed md p r (λ _, True)).
  - unfold handleEvent, bind, gets.
    destruct (running s) as [[|isRerun md|]|] eqn:Hr; try exact Hf.
    by apply (afterBundler_followed isRerun md r (λ _, True)).
  - unfold handleEvent, bind, gets.
    destruct (running s) as [[| |isRerun md nd mm nr]|] eqn:Hr; try exact Hf.
    by apply (afterCommit_followed isRerun md nd mm nr ok (λ _, True)).
Qed.

Lemma handleEvent_schedule_ok e :
  hoare schedule_ok (handleEvent env e) (λ _, schedule_ok) schedule_ok.
Proof.
  intros s Hs. pose proof Hs as (Hc & Ht & Hx & Hf).
  pose proof (handleEvent_current env e s Hc) as H1.
  pose proof (handleEvent_timers env e s Ht) as H2.
  pose proof (handleEvent_exclusive env e s Hx) as H3.
  pose proof (handleEvent_followed e s Hs) as H4.
  destruct (handleEvent env e s) as [[u|x] s1]; simpl in H2.
  all: exact (conj H1 (conj H2 (conj H3 H4))).
Qed.

Lemma schedule_ok_reachable cachedMetadata ssrDeps initialDeps es :
  schedule_ok
    (steps env es
       (exec (initDepsOptimizer env cachedMetadata ssrDeps initialDeps) St0)).
Proof.
  induction es as [|e es IH] using rev_ind.
  - simpl. split; [by apply initDepsOptimizer_current|].
    split.
    { apply (initDepsOptimizer_timers env cachedMetadata ssrDeps initialDeps
               St0 St0_timers_ok). }
    split; [apply initDepsOptimizer_exclusive|].
    apply followed_up_idle. intros r md.
    pose proof (initDepsOptimizer_keeps_running env cachedMetadata ssrDeps
                  initialDeps St0) as H.
    unfold keeps in H. unfold exec. by rewrite H.
  - unfold steps in *. rewrite foldl_app. simpl.
    pose proof (handleEvent_schedule_ok e _ IH) as H. unfold exec.
    by destruct (handleEvent env e _) as [[u|x] s1].
Qed.

End FollowUp.

(** ** The rerun after a reload that was put off *)

Lemma timerCallback_pending s t ms cb :
  NoDup (timers s).*1 → (t, (ms, cb)) ∈ timers s →
  timerCallback s t = Some cb.
Proof.
  intros Hnd Hin. unfold timerCallback.
  destruct (List.find _ (timers s)) as [[t' [ms' cb']]|] eqn:E.
  - apply find_some in E as [Hin' Ht].
    apply bool_decide_eq_true in Ht. simpl in Ht. subst t'.
    apply list_elem_of_In in Hin'.
    pose proof (NoDup_fst_unique _ _ _ _ Hnd Hin Hin') as [= -> ->]. done.
  - exfalso. apply list_elem_of_In in Hin.
    apply (find_none _ _ E) in Hin. simpl in Hin.
    by rewrite bool_decide_eq_true_2 in Hin.
Qed.

Section Delayed.
Variable env : Env.

(** The rerun timer fires while the executor is idle. *)
Lemma rerun_timer_pending s t ms :
  NoDup (timers s).*1 → (t, (ms, CbDebounce)) ∈ timers s →
  currentlyProcessing s = false →
  fireTimer env t s =
    runOptimizer
      (set_io (io s ++ rerunLog env)
         (set_enqueuedRerun true
            (set_handle None
               (set_timers (filter (λ e, e.1 ≠ t) (timers s)) s)))).
Proof.
  intros Hnd Hin Hc. unfold fireTimer, bind at 1, get at 1.
  rewrite (timerCallback_pending s t ms CbDebounce Hnd Hin).
  unfold bind at 1. unfold clearTimeout, modify at 1. cbn beta iota.
  unfold runCallback.
  unfold bind at 1. unfold modify at 1. cbn beta iota.
  unfold bind at 1. unfold modify at 1. cbn beta iota.
  unfold bind at 1. unfold gets at 1. cbn beta iota.
  cbn [currentlyProcessing set_timers set_enqueuedRerun set_handle].
  rewrite Hc. cbn [negb when]. unfold rerun.
  unfold bind at 1. rewrite debug_run. cbn beta iota.
  reflexivity.
Qed.

(** A run that started and during which nothing is discovered serves the
    waiters, whatever the bundler and [commit()] answer. *)
Lemma run_serves p z isRerun md r ok :
  running z = Some (AwaitBundler isRerun md) →
  awaited p z → newDepsDiscovered z = false →
  let s4 := steps env [BundlerSettles r; CommitSettles ok] z in
  served p s4 ∧ running s4 = None ∧ currentlyProcessing s4 = false.
Proof.
  intros Hzr Ha Hn s4.
  set (s3 := exec (handleEvent env (BundlerSettles r)) z).
  assert ((served p s3 ∧ running s3 = None ∧ currentlyProcessing s3 = false) ∨
          (awaited p s3 ∧
           ∃ isRerun metadata newData mismatch nr,
             running s3 =
               Some (AwaitCommit isRerun metadata newData mismatch nr)))
    as H3.
  { assert (handleEvent env (BundlerSettles r) z =
            afterBundler env isRerun md r z) as E3.
    { unfold handleEvent, bind, gets. by rewrite Hzr. }
    unfold s3, exec. rewrite E3.
    pose proof (afterBundler_served env p isRerun md r (λ _, False) z
                  (conj Ha Hn)) as H.
    destruct (afterBundler _ _ _ _ z) as [[[]|e] s']; [|done]. simpl.
    destruct H as [H|[H (nd & mm & nr & H')]]; [left; exact H|right].
    split; [exact H|]. eexists _, _, _, _, _. exact H'. }
  assert (s4 = exec (handleEvent env (CommitSettles ok)) s3) as -> by done.
  clearbody s3.
  destruct H3 as [(H1 & H3 & H4)|[H1 (ir & md' & nd & mm & nr & H2)]].
  - rewrite (settle_without_activation env s3) by done. done.
  - assert (handleEvent env (CommitSettles ok) s3 =
            afterCommit env ir md' nd mm nr ok s3) as E4.
    { unfold handleEvent, bind, gets. by rewrite H2. }
    unfold exec. rewrite E4.
    pose proof (afterCommit_served env p ir md' nd mm nr ok (λ _, False) s3 H1)
      as H.
    by destruct (afterCommit _ _ _ _ _ _ _ s3) as [[[]|e] s'].
Qed.

(** What [runOptimizer] leaves behind when there is something to
    bundle. *)
Lemma runOptimizer_begins x :
  Meta.discovered (meta x (_metadata x)) ≠ [] →
  let z := exec runOptimizer x in
  running z = Some (AwaitBundler (firstRunCalled x) (_metadata x)) ∧
  currentlyProcessing z = true ∧
  (∃ newDeps, io z = io x ++ [RunOptimizeDeps newDeps]) ∧
  resolved z = resolved x ∧
  depOptimizationProcessingQueue z =
    depOptimizationProcessingQueue x ++ [depOptimizationProcessing x] ∧
  _metadata z = _metadata x ∧ metas z = metas x ∧
  enqueuedRerun z = false ∧ newDepsDiscovered z = false.
Proof.
  intros Hne z. unfold z, exec. rewrite (runOptimizer_something x Hne).
  simpl. repeat split; try done. by eexists.
Qed.

(** C3.  In a state the optimizer reaches: when the bundler returns,
    [needsReload] is [true] and new dependencies were discovered
    meanwhile, the executor calls [cancel()] and neither [commit()] nor a
    reload; no promise is resolved, the queue keeps its entries,
    [_metadata] and the snapshot it points to are as before.  A follow-up
    rerun is started at once if it was enqueued (its timer fired while the
    bundler ran); otherwise the executor goes idle with the rerun timer
    pending, and the rerun starts when that timer fires.  The rerun calls
    the bundler on the same snapshot; when the bundler and [commit()] have
    settled, whatever their outcome, the waiters are resolved.  In any
    case, every waiter is resolved when a later [commit()] settles. *)
Theorem reload_delayed cachedMetadata ssrDeps initialDeps es isRerun
  metadata v :
  let s := steps env es
             (exec (initDepsOptimizer env cachedMetadata ssrDeps initialDeps)
                St0) in
  running s = Some (AwaitBundler isRerun metadata) →
  needsReload (afterAlloc v s) metadata (length (metas s))
    (needsInteropMismatch (afterAlloc v s) metadata (length (metas s)))
    = Ret true →
  newDepsDiscovered s = true →
  let s' := exec (handleEvent env (BundlerSettles (Some v))) s in
  (∃ l, emitted s s' (ResultCancel :: l) ∧
        (ResultCommit ∉ l) ∧ (WsSendFullReload ∉ l) ∧ (InvalidateAll ∉ l)) ∧
  resolved s' = resolved s ∧
  queue_extended s s' ∧
  _metadata s' = _metadata s ∧
  meta s' (_metadata s') = meta s (_metadata s) ∧
  (∃ z,
     (if enqueuedRerun s then z = s'
      else
        running s' = None ∧ currentlyProcessing s' = false ∧
        ∃ t ms, handle s' = Some t ∧ (t, (ms, CbDebounce)) ∈ timers s' ∧
                z = exec (handleEvent env (TimerFires t)) s') ∧
     running z = Some (AwaitBundler true (_metadata s)) ∧
     currentlyProcessing z = true ∧
     (∃ newDeps, last (io z) = Some (RunOptimizeDeps newDeps)) ∧
     resolved z = resolved s ∧
     ∀ p r ok,
       p ∈ depOptimizationProcessingQueue s →
       p ∈ resolved (steps env [BundlerSettles r; CommitSettles ok] z)) ∧
  (∀ p es' fulfilled,
     p ∈ depOptimizationProcessingQueue s →
     let s2 := steps env es' s' in
     (∃ r m n mm nr, running s2 = Some (AwaitCommit r m n mm nr)) →
     p ∈ resolved (exec (handleEvent env (CommitSettles fulfilled)) s2)).
Proof.
  intros s Hrun Hnr Hnd s'.
  pose proof (schedule_ok_reachable env cachedMetadata ssrDeps initialDeps es)
    as ((Hb & Hfr) & Hto & Hx & Hfu).
  fold s in Hb, Hfr, Hto, Hx, Hfu.
  destruct (Hfu _ _ Hrun) as (Hfc & Hdne & Hdue).
  specialize (Hdue Hnd).
  rewrite Hrun in Hfr. subst metadata. unfold bounded in Hb.
  assert (waiters_kept s s') as Hw by apply handleEvent_waiters.
  (* the state in which [runOptimizer_end] is reached *)
  assert (∃ sd,
            handleEvent env (BundlerSettles (Some v)) s =
              runOptimizer_end env sd ∧
            (∃ l, io sd = io s ++ ResultCancel :: l ∧
                  ∀ e, e ∈ l → ∃ msg, e = Debug msg) ∧
            resolved sd = resolved s ∧
            depOptimizationProcessingQueue sd =
              depOptimizationProcessingQueue s ∧
            depOptimizationProcessing sd = depOptimizationProcessing s ∧
            _metadata sd = _metadata s ∧
            metas sd = metas (afterAlloc v s) ∧
            timers sd = timers s ∧ handle sd = handle s ∧
            enqueuedRerun sd = enqueuedRerun s ∧
            firstRunCalled sd = firstRunCalled s)
    as (sd & Esd & (l0 & Hio0 & Hl0) & Hr0 & Hq0 & Hp0 & Hm0 & Hms0 & Ht0 &
        Hh0 & He0 & Hf0).
  { unfold handleEvent.
    unfold bind at 1. unfold gets at 1. cbn beta iota. rewrite Hrun.
    unfold afterBundler. unfold bind at 1. unfold try_catch.
    rewrite afterBundler_try_run. cbv zeta. rewrite Hnr.
    assert (newDepsDiscovered (afterAlloc v s) = true) as ->.
    { unfold afterAlloc, exec. rewrite allocMetaVal_run. done. }
    unfold bind at 1. unfold emit at 1, modify at 1. cbn beta iota.
    unfold bind at 1. rewrite debug_run. cbn beta iota.
    unfold ret at 1. cbn beta iota. cbn [negb when].
    eexists. split; [reflexivity|].
    unfold afterAlloc, exec. rewrite allocMetaVal_run. simpl.
    split; [|done].
    eexists. split; [by rewrite <- app_assoc|].
    intros e. destruct (isDebugEnabled env); simpl.
    - intros ->%list_elem_of_singleton. eauto.
    - by intros ?%elem_of_nil. }
  assert (meta sd (_metadata s) = meta s (_metadata s)) as Hmeta.
  { unfold meta at 1. rewrite Hms0. fold (meta (afterAlloc v s) (_metadata s)).
    by apply afterAlloc_meta_old. }
  assert (∀ e, e ∈ l0 ++ rerunLog env → ∃ msg, e = Debug msg) as Hl1.
  { intros e [?|He]%elem_of_app; [by apply Hl0|].
    unfold rerunLog in He. destruct (isDebugEnabled env).
    - apply list_elem_of_singleton in He as ->. eauto.
    - by apply elem_of_nil in He. }
  (* the two ways in which the rerun follows *)
  assert (
    (∃ l, emitted s s' (ResultCancel :: l) ∧
          (ResultCommit ∉ l) ∧ (WsSendFullReload ∉ l) ∧ (InvalidateAll ∉ l)) ∧
    resolved s' = resolved s ∧
    queue_extended s s' ∧
    _metadata s' = _metadata s ∧
    meta s' (_metadata s') = meta s (_metadata s) ∧
    ∃ z,
      (if enqueuedRerun s then z = s'
       else
         running s' = None ∧ currentlyProcessing s' = false ∧
         ∃ t ms, handle s' = Some t ∧ (t, (ms, CbDebounce)) ∈ timers s' ∧
                 z = exec (handleEvent env (TimerFires t)) s') ∧
      running z = Some (AwaitBundler true (_metadata s)) ∧
      currentlyProcessing z = true ∧
      (∃ newDeps, last (io z) = Some (RunOptimizeDeps newDeps)) ∧
      resolved z = resolved s ∧
      (∀ p, p ∈ depOptimizationProcessingQueue s → awaited p z) ∧
      newDepsDiscovered z = false) as H.
  { destruct (enqueuedRerun s) eqn:Henq.
    - (* the rerun was enqueued *)
      assert (s' = exec runOptimizer
                     (set_io (io sd ++ rerunLog env)
                        (set_currentlyProcessing false
                           (set_running None sd)))) as Es'.
      { unfold s', exec. rewrite Esd.
        rewrite runOptimizer_end_rerun by congruence. done. }
      set (x := set_io _ _) in Es'.
      assert (Meta.discovered (meta x (_metadata x)) ≠ []) as Hx0.
      { change (meta x (_metadata x)) with (meta sd (_metadata sd)).
        by rewrite Hm0, Hmeta. }
      destruct (runOptimizer_begins x Hx0)
        as (Z1 & Z2 & (nd & Z3) & Z4 & Z5 & Z6 & Z7 & Z8 & Z9).
      rewrite <- Es' in Z1, Z2, Z3, Z4, Z5, Z6, Z7, Z8, Z9.
      change (firstRunCalled x) with (firstRunCalled sd) in Z1.
      change (_metadata x) with (_metadata sd) in Z1, Z6.
      change (io x) with (io sd ++ rerunLog env) in Z3.
      change (resolved x) with (resolved sd) in Z4.
      change (depOptimizationProcessingQueue x)
        with (depOptimizationProcessingQueue sd) in Z5.
      change (metas x) with (metas sd) in Z7.
      clearbody s' x.
      split.
      { exists (l0 ++ rerunLog env ++ [RunOptimizeDeps nd]).
        unfold emitted. rewrite Z3, Hio0.
        split; [by rewrite <- !app_assoc|].
        repeat split; rewrite app_assoc, elem_of_app;
          (intros [H|H%list_elem_of_singleton];
           [by destruct (Hl1 _ H)|done]). }
      split; [congruence|]. split.
      { eexists. rewrite Z5, Hq0. reflexivity. }
      split; [congruence|]. split.
      { unfold meta at 1. rewrite Z7, Z6, Hm0.
        fold (meta sd (_metadata s)). exact Hmeta. }
      exists s'. split; [done|]. split; [congruence|]. split; [done|].
      split.
      { exists nd. by rewrite Z3, last_snoc. }
      split; [congruence|]. split; [|done].
      intros p Hp. split; [|done]. left. rewrite Z5, Hq0, elem_of_app.
      by left.
    - (* the rerun timer is pending *)
      destruct Hdue as [?|(t & ms & Hh & Hin)]; [congruence|].
      assert (s' = set_currentlyProcessing false (set_running None sd))
        as Es'.
      { unfold s', exec. rewrite Esd. unfold runOptimizer_end.
        unfold bind at 1, modify at 1. cbn beta iota.
        unfold bind at 1, modify at 1. cbn beta iota.
        unfold bind at 1, gets at 1. cbn beta iota.
        cbn [enqueuedRerun set_currentlyProcessing set_running].
        rewrite He0. done. }
      assert (io s' = io sd ∧ resolved s' = resolved sd ∧
              depOptimizationProcessingQueue s' =
                depOptimizationProcessingQueue sd ∧
              _metadata s' = _metadata sd ∧ metas s' = metas sd ∧
              timers s' = timers sd ∧ handle s' = handle sd ∧
              firstRunCalled s' = firstRunCalled sd ∧
              running s' = None ∧ currentlyProcessing s' = false)
        as (Y1 & Y2 & Y3 & Y4 & Y5 & Y6 & Y7 & Y8 & Y9 & Y10)
        by (by rewrite Es').
      clear Es'. clearbody s'.
      split.
      { exists l0. unfold emitted. rewrite Y1, Hio0. split; [done|].
        repeat split; intros H; by destruct (Hl0 _ H). }
      split; [congruence|]. split.
      { exists []. rewrite app_nil_r. congruence. }
      split; [congruence|]. split.
      { unfold meta at 1. rewrite Y5, Y4, Hm0.
        fold (meta sd (_metadata s)). exact Hmeta. }
      assert (NoDup (timers s').*1) as Hnd'.
      { rewrite Y6, Ht0. by destruct Hto as (_ & ? & _). }
      assert ((t, (ms, CbDebounce)) ∈ timers s') as Hin'
        by (by rewrite Y6, Ht0).
      exists (exec (handleEvent env (TimerFires t)) s').
      split.
      { split; [done|]. split; [done|]. exists t, ms.
        split; [congruence|]. done. }
      assert (exec (handleEvent env (TimerFires t)) s' =
              exec runOptimizer
                (set_io (io s' ++ rerunLog env)
                   (set_enqueuedRerun true
                      (set_handle None
                         (set_timers (filter (λ e, e.1 ≠ t) (timers s'))
                            s'))))) as Ez.
      { unfold exec, handleEvent.
        by rewrite (rerun_timer_pending s' t ms Hnd' Hin' Y10). }
      rewrite Ez. set (x := set_io _ _).
      assert (Meta.discovered (meta x (_metadata x)) ≠ []) as Hx0.
      { change (meta x (_metadata x)) with (meta s' (_metadata s')).
        unfold meta. rewrite Y5, Y4, Hm0. fold (meta sd (_metadata s)).
        by rewrite Hmeta. }
      destruct (runOptimizer_begins x Hx0)
        as (Z1 & Z2 & (nd & Z3) & Z4 & Z5 & Z6 & Z7 & Z8 & Z9).
      change (firstRunCalled x) with (firstRunCalled s') in Z1.
      change (_metadata x) with (_metadata s') in Z1, Z6.
      change (resolved x) with (resolved s') in Z4.
      change (depOptimizationProcessingQueue x)
        with (depOptimizationProcessingQueue s') in Z5.
      split; [congruence|]. split; [done|]. split.
      { exists nd. by rewrite Z3, last_snoc. }
      split; [congruence|]. split; [|done].
      intros p Hp. split; [|done]. left. rewrite Z5, Y3, Hq0, elem_of_app.
      by left. }
  destruct H as (H1 & H2 & H3 & H4 & H5 & z & Hz1 & Hz2 & Hz3 & Hz4 & Hz5 &
                 Hz6 & Hz7).
  split; [done|]. split; [done|]. split; [done|]. split; [done|].
  split; [done|]. split.
  - exists z. split; [done|]. split; [done|]. split; [done|].
    split; [done|]. split; [done|].
    intros p r ok Hp.
    by destruct (run_serves p z true (_metadata s) r ok Hz2 (Hz6 p Hp) Hz7)
      as ((? & _) & _).
  - intros p es' fulfilled Hp s2 (r' & m & n & mm & nr & Hr2).
    eapply commit_wakes_waiters; [exact Hr2|].
    eapply waiting_kept;
      [apply (steps_steady waiters_kept env (handleEvent_waiters env))|].
    apply Hw. by left.
Qed.

End Delayed.

(** ** The idle tracker, once a module is loaded *)

Lemma afterLoad_run env id s :
  afterLoad env id s =
    if negb (firstRunCalled s) && negb (bool_decide (id ∈ workersSources s))
    then
      (if 0 <? length (registeredIds s) then runOptimizerWhenIdle
       else getDepsOptimizer_run env) (set_waitingOn None s)
    else (Ret tt, set_waitingOn None s).
Proof.
  unfold afterLoad, bind, modify, get. cbn beta iota.
  cbn [firstRunCalled workersSources registeredIds set_waitingOn].
  by destruct (negb (firstRunCalled s) &&
               negb (bool_decide (id ∈ workersSources s))).
Qed.

Lemma doneSettled_fulfilled env s id :
  doneSettled env id true s =
    (Ret tt,
     set_nextTimer (S (nextTimer s))
       (set_timers
          (timers s ++
           [(nextTimer s,
             (if 0 <? length (registeredIds s) then 0
              else runOptimizerIfIdleAfterMs, CbAfterLoad id))]) s)).
Proof. reflexivity. Qed.

Lemma timer_fired s ts k : 
  set_timers (timers s) (set_nextTimer k (set_timers ts s)) =
  set_nextTimer k s.
Proof. by destruct s. Qed.

(** C8, amended.  [delayDepsOptimizerUntil] registers an id only when it
    is not an optimized-dep file and was not seen before; otherwise the
    stack, the seen ids and the awaited id are left alone.  A registered
    entry goes on top of the stack, and [runOptimizerWhenIdle], called
    then, takes the entry on top (the one registered last) off the stack
    and calls its [done] if nothing is awaited.  When the awaited [done]
    rejects, [afterLoad] runs at once; when it is fulfilled, [afterLoad]
    runs from a timer, of 0 ms if the stack is not empty and of
    [runOptimizerIfIdleAfterMs] otherwise.  [afterLoad] clears the awaited
    id; only before the first run, and for an id that is not the source of
    a worker, does it go on: with the entry on top of the stack, if there
    is one, and with [run()] otherwise.  After the first run, or for a
    worker source, the entries stay on the stack although nothing is
    awaited.  The seen ids are forgotten by [resetRegisteredIds]. *)
Theorem delayDepsOptimizerUntil_lifo env s id done :
  let s' := exec (delayDepsOptimizerUntil env id done) s in
  (isOptimizedDepFile env id = true ∨ id ∈ seenIds s →
     registeredIds s' = registeredIds s ∧ seenIds s' = seenIds s ∧
     waitingOn s' = waitingOn s ∧ emitted s s' (preTransform env s)) ∧
  (isOptimizedDepFile env id = false → id ∉ seenIds s →
     seenIds s' = {[id]} ∪ seenIds s ∧
     if truthy (waitingOn s) then
       registeredIds s' = registeredIds s ++ [(id, done)] ∧
       waitingOn s' = waitingOn s ∧ emitted s s' (preTransform env s)
     else
       registeredIds s' = registeredIds s ∧ waitingOn s' = Some id ∧
       emitted s s' (CallDone id done :: preTransform env s)) ∧
  (∀ s0 l id0 done0,
     truthy (waitingOn s0) = false →
     registeredIds s0 = l ++ [(id0, done0)] →
     let s1 := exec runOptimizerWhenIdle s0 in
     registeredIds s1 = l ∧ waitingOn s1 = Some id0 ∧
     emitted s0 s1 [CallDone id0 done0]) ∧
  (∀ s0 id0,
     exec (handleEvent env (DoneSettles id0 false)) s0 =
     exec (afterLoad env id0) s0) ∧
  (∀ s0 id0,
     timers_fresh s0 →
     let s1 := exec (handleEvent env (DoneSettles id0 true)) s0 in
     timers s1 =
       timers s0 ++
       [(nextTimer s0,
         (if 0 <? length (registeredIds s0) then 0
          else runOptimizerIfIdleAfterMs, CbAfterLoad id0))] ∧
     registeredIds s1 = registeredIds s0 ∧ waitingOn s1 = waitingOn s0 ∧
     exec (handleEvent env (TimerFires (nextTimer s0))) s1 =
     exec (afterLoad env id0) (set_nextTimer (S (nextTimer s0)) s0)) ∧
  (∀ s0 id0,
     let s1 := exec (afterLoad env id0) s0 in
     if negb (firstRunCalled s0) && negb (bool_decide (id0 ∈ workersSources s0))
     then
       (∀ l id1 done1,
          registeredIds s0 = l ++ [(id1, done1)] →
          registeredIds s1 = l ∧ waitingOn s1 = Some id1 ∧
          emitted s0 s1 [CallDone id1 done1]) ∧
       (registeredIds s0 = [] →
        s1 = exec (getDepsOptimizer_run env) (set_waitingOn None s0))
     else s1 = set_waitingOn None s0) ∧
  seenIds (exec resetRegisteredIds s) = ∅.
Proof.
  intros s'. split; [|split; [|split; [|split; [|split; [|split; [|done]]]]]].
  - intros Hg. unfold s', exec.
    rewrite delayDepsOptimizerUntil_ignored by done.
    by destruct (visitEntries_run env s) as (_ & ? & ? & ? & ?).
  - intros Hf Hs. unfold s', exec.
    rewrite delayDepsOptimizerUntil_registered by done.
    destruct (truthy (waitingOn s)) eqn:Hw.
    + unfold exec. rewrite runOptimizerWhenIdle_busy by (simpl; done).
      cbn [snd].
      match goal with |- context [visitEntries env ?x] =>
        destruct (visitEntries_run env x) as (_ & H1 & H2 & H3 & H4) end.
      unfold exec in *. rewrite H1, H2, H3. done.
    + unfold exec. erewrite runOptimizerWhenIdle_pop by (simpl; done).
      cbn [snd].
      match goal with |- context [visitEntries env ?x] =>
        destruct (visitEntries_run env x) as (_ & H1 & H2 & H3 & H4) end.
      unfold exec in *. rewrite H1, H2, H3. repeat split; try done.
      unfold emitted in *. rewrite H4. simpl. by rewrite <- app_assoc.
  - intros s0 l id0 done0 Hw Hr s1. unfold s1, exec, emitted.
    by rewrite (runOptimizerWhenIdle_pop s0 l id0 done0).
  - done.
  - intros s0 id0 Hfr s1. unfold s1, exec, handleEvent.
    rewrite doneSettled_fulfilled. cbn [snd].
    split; [done|]. split; [done|]. split; [done|].
    erewrite fireTimer_last; [|reflexivity|exact Hfr].
    cbn [runCallback]. by rewrite timer_fired.
  - intros s0 id0 s1. unfold s1, exec. rewrite afterLoad_run.
    destruct (negb (firstRunCalled s0) &&
              negb (bool_decide (id0 ∈ workersSources s0))); [|done].
    split.
    + intros l id1 done1 Hr. rewrite Hr, length_app. simpl.
      replace (0 <? length l + 1) with true
        by (symmetry; apply Nat.ltb_lt; lia).
      rewrite (runOptimizerWhenIdle_pop _ l id1 done1) by done.
      done.
    + intros ->. done.
Qed.


(** ** A development session, for the instances below *)

#[global] Instance Effect_eq_dec : EqDecision Effect.
Proof. solve_decision. Defined.



(** C10, at an instance: a dev server without SSR, after a cold start and a
    call of [run]. *)
Lemma metadata_ssr_undefined_witness :
  metadata demoEnv (steps demoEnv [CallRun] coldState) true = None.
Proof.
  apply (metadata_ssr_undefined demoEnv None noMeta [] [CallRun]);
    reflexivity.
Defined.

(** C1, at an instance: the bundle of [vue] changed. *)
Lemma needsReload_iff_witness :
  let s := afterAlloc changedBundle bundlingState in
  needsReload s 0 1 (needsInteropMismatch s 0 1) = Ret true ∧
  (true = true ↔
   needsInteropMismatch s 0 1 ≠ [] ∨
   Meta.hash (meta s 0) ≠ Meta.hash (meta s 1) ∨
   ∃ dep o n,
     Obj.get (Meta.optimized (meta s 0)) dep = Some o ∧
     Obj.get (Meta.optimized (meta s 1)) dep = Some n ∧
     DepInfo.fileHash (info s o) ≠ DepInfo.fileHash (info s n)).
Proof.
  intros s.
  assert (needsReload s 0 1 (needsInteropMismatch s 0 1) = Ret true) as E
    by (vm_compute; reflexivity).
  split; [exact E|].
  refine (proj1 (proj2 (needsReload_iff s 0 1 _)) true E).
  intros dep Hdep.
  assert (Obj.keys (Meta.discovered (meta s 0)) = ["lodash"]) as Hd
    by (vm_compute; reflexivity).
  assert (Obj.keys (Meta.optimized (meta s 0)) = ["vue"]) as Ho
    by (vm_compute; reflexivity).
  rewrite Hd, Ho in Hdep.
  destruct Hdep as [->%list_elem_of_singleton| ->%list_elem_of_singleton];
    intros H; vm_compute in H; discriminate H.
Defined.



(** C4, at an instance: the bundler fails on [lodash]. *)
Lemma bundler_failure_witness :
  (∀ p, p ∈ depOptimizationProcessingQueue bundlingState →
        p ∈ resolved
              (exec (handleEvent demoEnv (BundlerSettles None)) bundlingState)) ∧
  depOptimizationProcessingQueue
    (exec (handleEvent demoEnv (BundlerSettles None)) bundlingState) = [] ∧
  Meta.discovered
    (meta (exec (handleEvent demoEnv (BundlerSettles None)) bundlingState)
       (_metadata
          (exec (handleEvent demoEnv (BundlerSettles None)) bundlingState)))
    = [].
Proof.
  destruct (bundler_failure demoEnv bundlingState true) as (H1 & H2 & H3 & _).
  - vm_compute. reflexivity.
  - vm_compute. lia.
  - exact (conj H1 (conj H2 H3)).
Defined.


(** C6, at an instance: [run] on a cold start with nothing to bundle. *)
Lemma run_nothing_discovered_witness :
  steps demoEnv [CallRun; TimerFires (nextTimer coldState)] coldState =
    set_io (io coldState ++ rerunLog demoEnv)
      (set_nextTimer (S (nextTimer coldState))
         (set_timers
            (cancelTimer (newDepsToLogHandle coldState)
               (cancelTimer (handle coldState) (timers coldState)))
            (set_handle None
               (set_newDepsToLogHandle None
                  (set_enqueuedRerun false
                     (set_firstRunCalled true coldState)))))).
Proof.
  apply (run_nothing_discovered demoEnv coldState).
  - vm_compute. reflexivity.
  - vm_compute. reflexivity.
  - vm_compute. constructor.
Defined.

(** C6 as it is stated does not hold: on a cold start with nothing
    discovered, [run] marks the first run as called, and from then on a
    missing import arms the scheduler, which it did not do before. *)
Lemma run_is_not_a_noop :
  Meta.discovered (meta coldState (_metadata coldState)) = [] ∧
  firstRunCalled coldState = false ∧
  firstRunCalled (steps demoEnv [CallRun; TimerFires 0] coldState) = true ∧
  timers
    (steps demoEnv [CallRegisterMissingImport "vue" "/nm/vue" false] coldState)
    = [] ∧
  timers
    (steps demoEnv
       [CallRun; TimerFires 0;
        CallRegisterMissingImport "vue" "/nm/vue" false] coldState)
    = [(1, (100, CbDebounce))].
Proof. repeat split; vm_compute; reflexivity. Qed.



(** ** The properties of the executor at instances *)

(** X1, at an instance: a session from the cache up to a commit. *)
Lemma reachable_witness :
  reachable_ok
    (steps demoEnv
       [CallRegisterMissingImport "lodash" "/nm/lodash" false; TimerFires 0;
        BundlerSettles (Some sameBundle); CommitSettles true]
       (exec (initDepsOptimizer demoEnv (Some cachedMeta) noMeta []) St0)).
Proof.
  apply (reachable demoEnv (Some cachedMeta) noMeta []).
  - intros v [= <-] k i. simpl. discriminate.
  - intros k i. simpl. discriminate.
  - repeat constructor. intros k i. simpl. discriminate.
Defined.

(** X2, at an instance: the bundler's answer shows that [vue] changed; the
    reload waits for the commit. *)
Lemma reload_only_after_commit_witness :
  no_reload bundlingState
    (exec (handleEvent demoEnv (BundlerSettles (Some changedBundle)))
       bundlingState).
Proof.
  apply (reload_only_after_commit demoEnv bundlingState
           (BundlerSettles (Some changedBundle))).
  intros _ H. discriminate H.
Defined.

(** X3, at an instance: the commit of [changedBundle]. *)
Lemma reload_announced_witness :
  ∃ l, emitted reloadingState
         (exec (handleEvent demoEnv (CommitSettles true)) reloadingState)
         (newDepsLog demoEnv
            (exec (commitProcessing true 0 1 true) reloadingState) ++
          LoggerInfoReloading :: [] ++ [InvalidateAll; WsSendFullReload] ++ l) ∧
       (InvalidateAll ∉ l) ∧ WsSendFullReload ∉ l.
Proof.
  apply (reload_announced demoEnv reloadingState true 0 1 []
           (exec (commitProcessing true 0 1 true) reloadingState)).
  - vm_compute. reflexivity.
  - vm_compute. reflexivity.
Defined.

(** X5, at an instance: the commit of [sameBundle] fails. *)
Lemma commit_rejected_witness :
  depOptimizationProcessingQueue
    (exec (handleEvent demoEnv (CommitSettles false)) committingState) = [] ∧
  Meta.discovered
    (meta (exec (handleEvent demoEnv (CommitSettles false)) committingState)
       (_metadata
          (exec (handleEvent demoEnv (CommitSettles false)) committingState)))
    = [] ∧
  emitted committingState
    (exec (handleEvent demoEnv (CommitSettles false)) committingState)
    [LoggerErrorUpdating].
Proof.
  destruct (commit_rejected demoEnv committingState true 1 [] false)
    as (_ & H2 & H3 & _ & _ & _ & _ & _ & _ & H10).
  - vm_compute. reflexivity.
  - vm_compute. lia.
  - exact (conj H2 (conj H3 H10)).
Defined.


(** X7, at an instance: the rerun for [lodash]. *)
Lemma runOptimizer_starts_witness :
  ∃ newDeps s',
    runOptimizer registeredState = (Ret tt, s') ∧
    emitted registeredState s' [RunOptimizeDeps newDeps] ∧
    running s' = Some (AwaitBundler true 0) ∧
    currentlyProcessing s' = true.
Proof.
  destruct (runOptimizer_starts registeredState)
    as (newDeps & s' & H1 & H2 & _ & H4 & H5 & _).
  - vm_compute. discriminate.
  - exists newDeps, s'. exact (conj H1 (conj H2 (conj H4 H5))).
Defined.

(** X8, at an instance: the scan of a cold start fails; [lodash] is then
    found missing, its debounce timer fires and [run] is called. *)
Lemma scan_failure_wedges_witness :
  emitted scanningState
    (exec (handleEvent scanEnv (ScanSettles None)) scanningState)
    [LoggerErrorScanning] ∧
  currentlyProcessing
    (steps scanEnv
       [CallRegisterMissingImport "lodash" "/nm/lodash" false; TimerFires 1;
        CallRun]
       (exec (handleEvent scanEnv (ScanSettles None)) scanningState)) = true ∧
  bundler_idle
    (exec (handleEvent scanEnv (ScanSettles None)) scanningState)
    (steps scanEnv
       [CallRegisterMissingImport "lodash" "/nm/lodash" false; TimerFires 1;
        CallRun]
       (exec (handleEvent scanEnv (ScanSettles None)) scanningState)).
Proof.
  destruct (scan_failure_wedges scanEnv scanningState 0 1
              [CallRegisterMissingImport "lodash" "/nm/lodash" false;
               TimerFires 1; CallRun])
    as (H1 & _ & _ & _ & H5 & H6 & _).
  - vm_compute. reflexivity.
  - vm_compute. reflexivity.
  - vm_compute. reflexivity.
  - exact (conj H1 (conj H5 H6)).
Defined.

(** X11, at an instance: [lodash] is found missing after a start from the
    cache. *)
Lemma registerMissingImport_new_witness :
  ∃ s',
    registerMissingImport demoEnv "lodash" "/nm/lodash" false warmState
      = (Ret (Entry (length (infos warmState))), s') ∧
    info s' (length (infos warmState)) =
      missingInfo demoEnv warmState "lodash" "/nm/lodash" false ∧
    Meta.discovered (meta s' (_metadata s')) =
      Meta.discovered (meta warmState (_metadata warmState)) ++
      [("lodash", length (infos warmState))] ∧
    handle s' = Some (nextTimer warmState).
Proof.
  destruct (registerMissingImport_new demoEnv warmState "lodash" "/nm/lodash"
              false) as (s' & H1 & H2 & _ & H3 & _ & _ & _ & _ & H6).
  - vm_compute. lia.
  - vm_compute. reflexivity.
  - exists s'. split; [exact H1|]. split; [exact H2|].
    split; [apply H3; vm_compute; reflexivity|].
    assert (scan demoEnv || firstRunCalled warmState = true) as E
      by (vm_compute; reflexivity).
    rewrite E in H6. exact (proj1 (proj2 H6)).
Defined.

(** X12, at an instance: [lodash] was found missing after a cold start and
    nothing is loaded through the server. *)
Lemma first_run_ensured_witness :
  firstRunCalled
    (steps demoEnv [CallEnsureFirstRun; TimerFires 0; TimerFires 1] firstState)
    = true ∧
  running
    (steps demoEnv [CallEnsureFirstRun; TimerFires 0; TimerFires 1] firstState)
    = Some (AwaitBundler false 0).
Proof.
  destruct (first_run_ensured demoEnv firstState) as (H1 & H2 & _).
  - vm_compute. reflexivity.
  - vm_compute. reflexivity.
  - vm_compute. reflexivity.
  - vm_compute. reflexivity.
  - vm_compute. reflexivity.
  - vm_compute. constructor.
  - split; [exact H1|]. apply H2. vm_compute. discriminate.
Defined.

(** X13, at an instance: [/src/main.ts] is the only module loaded. *)
Lemma first_run_when_idle_witness :
  firstRunCalled
    (steps demoEnv
       [CallDelayDepsOptimizerUntil "/src/main.ts" 0;
        DoneSettles "/src/main.ts" true; TimerFires 0; TimerFires 1]
       firstState) = true ∧
  running
    (steps demoEnv
       [CallDelayDepsOptimizerUntil "/src/main.ts" 0;
        DoneSettles "/src/main.ts" true; TimerFires 0; TimerFires 1]
       firstState) = Some (AwaitBundler false 0).
Proof.
  destruct (first_run_when_idle demoEnv firstState "/src/main.ts" 0 true)
    as (H1 & H2 & _).
  - vm_compute. reflexivity.
  - vm_compute. reflexivity.
  - vm_compute. reflexivity.
  - vm_compute. set_solver.
  - vm_compute. set_solver.
  - vm_compute. reflexivity.
  - vm_compute. reflexivity.
  - vm_compute. reflexivity.
  - vm_compute. constructor.
  - split; [exact H1|]. apply H2. vm_compute. discriminate.
Defined.

(** X14, at an instance: [lodash] is found missing after a start from the
    cache, and its bundle is committed. *)
Lemma missing_import_served_witness :
  depOptimizationProcessing warmState ∈
    resolved
      (steps demoEnv [BundlerSettles (Some sameBundle); CommitSettles true]
         (steps demoEnv
            [CallRegisterMissingImport "lodash" "/nm/lodash" false;
             TimerFires (nextTimer warmState)] warmState)) ∧
  running
    (steps demoEnv [BundlerSettles (Some sameBundle); CommitSettles true]
       (steps demoEnv
          [CallRegisterMissingImport "lodash" "/nm/lodash" false;
           TimerFires (nextTimer warmState)] warmState)) = None.
Proof.
  destruct (missing_import_served demoEnv warmState "lodash" "/nm/lodash"
              false (Some sameBundle) true)
    as (_ & H2 & _ & H4 & _).
  - vm_compute. reflexivity.
  - vm_compute. reflexivity.
  - vm_compute. lia.
  - vm_compute. reflexivity.
  - vm_compute. constructor.
  - exact (conj H2 H4).
Defined.

(** X17, at an instance: the commit of [sameBundle]. *)
Lemma new_deps_logged_witness :
  emitted committingState
    (exec (handleEvent demoEnv (CommitSettles true)) committingState) [] ∧
  emitted
    (exec (handleEvent demoEnv (CommitSettles true)) committingState)
    (exec (handleEvent demoEnv (TimerFires (nextTimer committingState)))
       (exec (handleEvent demoEnv (CommitSettles true)) committingState))
    (newDepsLog demoEnv committedState).
Proof.
  destruct (new_deps_logged demoEnv committingState true 0 1 []
              committedState) as (H1 & _ & _ & _ & H5 & _).
  - vm_compute. reflexivity.
  - reflexivity.
  - vm_compute. reflexivity.
  - vm_compute. constructor.
  - vm_compute. reflexivity.
  - exact (conj H1 H5).
Defined.

(** X22, at an instance: [react] is bundled right after [lodash]. *)
Lemma enqueued_rerun_runs_witness :
  running (exec (handleEvent demoEnv (CommitSettles true)) enqueuedState)
    = Some (AwaitBundler true 1) ∧
  currentlyProcessing
    (exec (handleEvent demoEnv (CommitSettles true)) enqueuedState) = true.
Proof.
  destruct (enqueued_rerun_runs demoEnv enqueuedState true 0 1 []
              (exec (commitProcessing true 0 1 false) enqueuedState))
    as (H1 & H2 & _).
  - vm_compute. reflexivity.
  - vm_compute. reflexivity.
  - vm_compute. reflexivity.
  - vm_compute. discriminate.
  - exact (conj H1 H2).
Defined.

(** C8 as it is stated does not hold: after a start from the cache the
    first run counts as called.  [/src/a.ts] is awaited and [/src/b.ts]
    put on the stack; when [/src/a.ts] is loaded nothing is awaited any
    more, and yet [/src/b.ts] stays on the stack: its [done] is not
    called, not even when [/src/c.ts] is registered and awaited in its
    turn. *)
Lemma entries_left_waiting :
  let s := steps demoEnv
             [CallDelayDepsOptimizerUntil "/src/a.ts" 1;
              CallDelayDepsOptimizerUntil "/src/b.ts" 2;
              DoneSettles "/src/a.ts" true; TimerFires 0] warmState in
  let s2 := steps demoEnv [CallDelayDepsOptimizerUntil "/src/c.ts" 3] s in
  firstRunCalled warmState = true ∧
  waitingOn s = None ∧ timers s = [] ∧
  registeredIds s = [("/src/b.ts", 2)] ∧
  (CallDone "/src/b.ts" 2 ∉ io s) ∧
  waitingOn s2 = Some "/src/c.ts" ∧
  registeredIds s2 = [("/src/b.ts", 2)] ∧
  (CallDone "/src/b.ts" 2 ∉ io s2).
Proof.
  cbv zeta.
  repeat split; try (vm_compute; reflexivity).
  - apply (bool_decide_eq_false_1 (CallDone "/src/b.ts" 2 ∈ _)).
    vm_compute. reflexivity.
  - apply (bool_decide_eq_false_1 (CallDone "/src/b.ts" 2 ∈ _)).
    vm_compute. reflexivity.
Qed.

(** C1 as it is stated does not hold: [partialBundle] has another
    [fileHash] for [lodash], which makes the third condition true, but
    [vue], which comes first in the old [optimized] map, is missing from
    it: reading its [fileHash] throws, no value of [needsReload] is
    obtained, and the rerun ends in the error path without a commit or a
    reload. *)
Lemma needsReload_not_set :
  let s := afterAlloc partialBundle rebundlingState in
  let s' := exec (handleEvent demoEnv (BundlerSettles (Some partialBundle)))
              rebundlingState in
  running rebundlingState = Some (AwaitBundler true 1) ∧
  Obj.keys (Meta.optimized (meta s 1)) = ["vue"; "lodash"] ∧
  Obj.get (Meta.optimized (meta s 2)) "vue" = None ∧
  (∃ o n,
     Obj.get (Meta.optimized (meta s 1)) "lodash" = Some o ∧
     Obj.get (Meta.optimized (meta s 2)) "lodash" = Some n ∧
     DepInfo.fileHash (info s o) ≠ DepInfo.fileHash (info s n)) ∧
  needsReload s 1 2 (needsInteropMismatch s 1 2) = Throw TypeError ∧
  emitted rebundlingState s' [LoggerErrorUpdating] ∧
  running s' = None ∧ _metadata s' = 1.
Proof.
  cbv zeta. split; [vm_compute; reflexivity|].
  split; [vm_compute; reflexivity|]. split; [vm_compute; reflexivity|].
  split.
  { exists 4, 7. split; [vm_compute; reflexivity|].
    split; [vm_compute; reflexivity|]. vm_compute. discriminate. }
  split; [vm_compute; reflexivity|]. split; [|split; vm_compute; reflexivity].
  unfold emitted. vm_compute. reflexivity.
Qed.



(** C3, at an instance: the bundle of [vue] changed while [react] was
    found; the rerun starts when the timer of [react] fires. *)
Lemma reload_delayed_witness :
  let s := steps demoEnv
             [CallRegisterMissingImport "lodash" "/nm/lodash" false;
              TimerFires 0;
              CallRegisterMissingImport "react" "/nm/react" false]
             (exec (initDepsOptimizer demoEnv (Some cachedMeta) noMeta []) St0)
  in
  let s' := exec (handleEvent demoEnv (BundlerSettles (Some changedBundle))) s
  in
  resolved s' = resolved s ∧ _metadata s' = _metadata s ∧
  ∃ z, running z = Some (AwaitBundler true (_metadata s)) ∧
       currentlyProcessing z = true.
Proof.
  destruct (reload_delayed demoEnv (Some cachedMeta) noMeta []
              [CallRegisterMissingImport "lodash" "/nm/lodash" false;
               TimerFires 0;
               CallRegisterMissingImport "react" "/nm/react" false]
              true 0 changedBundle)
    as (_ & H2 & _ & H4 & _ & (z & _ & Hz1 & Hz2 & _) & _).
  - vm_compute. reflexivity.
  - vm_compute. reflexivity.
  - vm_compute. reflexivity.
  - split; [exact H2|]. split; [exact H4|]. exists z. exact (conj Hz1 Hz2).
Defined.
